(* ===== verification/_CoqProject ===== *)
-Q . S2P
Prelude.v
Memory.v
UsbTypes.v
Buffer.v
UsbipProtocol.v
MessageHandler.v
VirtualUsbDevice.v
UsbipManager.v
Registry.v
TcpSocket.v
UsbDeviceManager.v
MassStorage.v
UrbCapture.v
UrbProcessor.v
UsbipClient.v
ReverseClient.v
Sender.v
Pipeline.v
Receiver.v
Channel.v
ClientInvariant.v
Arguments.v
ReceiverMain.v
SenderMain.v
Logger.v
Signals.v
SenderNetwork.v
Lifetimes.v
Iteration.v
System.v
Shutdown.v
Tests.v
