(* ===== verification/Prelude.v ===== *)
(** * USB redirection: the development

    The repository forwards the USB mass-storage devices of one machine to
    another over TCP.  This library models the C++ of both programs and of the
    classes they share, and proves what makes them correct; where the code
    does not do what it means to, it proves that instead.

    ** The program

    The sender ([usb_sender], [src/sender/]) finds devices through libusb
    ([UsbDeviceManager]), drives them with the bulk-only mass-storage protocol
    ([MassStorageDevice]), queues captured URBs ([UrbCapture]), turns them into
    USBIP packets ([UrbProcessor]) and serves a TCP port ([TcpSocket] and
    [MessageHandler], in [src/common/network/]).  The receiver
    ([usb_receiver], [src/receiver/]) connects to that port ([UsbipClient]),
    asks for the list of devices, and makes a [VirtualUsbDevice] on a port of
    the [UsbipManager] for every mass-storage device in it, attached by a shell
    command; URBs that arrive are answered by the virtual device.  Callbacks
    connect the parts: socket to handler, handler to client or sender, client
    to receiver.

    ** The files

    Shared data and utilities:
    - [Prelude]: fixed-width integers, faults, the state-and-fault monad [M],
      weakest preconditions [wp], invariants kept by operations ([preserves])
      and preorders kept by operations ([respects]), lists;
    - [Memory]: integers and packed structs as bytes on a host of either byte
      order (class [Host]; [Packed] and its laws [PackedOk]);
    - [UsbTypes]: [common/protocol/usb_types.h];
    - [Buffer]: [common/utils/buffer.{h,cpp}];
    - [Logger]: [common/utils/logger.{h,cpp}].

    The network:
    - [UsbipProtocol]: [common/protocol/usbip_protocol.{h,cpp}];
    - [MessageHandler]: [common/network/message_handler.{h,cpp}];
    - [TcpSocket]: [common/network/tcp_socket.{h,cpp}], with its receive,
      accept and client threads interleaved ([step]);
    - [Channel]: two sockets and a handler put together, against the
      specification of a queue of messages ([fifo]).

    The receiver:
    - [VirtualUsbDevice] and [UsbipManager]:
      [receiver/virtual_device/virtual_usb_device.{h,cpp}], and [Registry],
      the specification of ports and devices they refine;
    - [UsbipClient]: [receiver/usbip/usbip_client.{h,cpp}], and
      [ClientInvariant], its invariant;
    - [Receiver] (class [UsbReceiver]), [Arguments] (the command line) and
      [ReceiverMain] ([Run], [main], the destructors at exit):
      [receiver/main.cpp].

    The sender:
    - [UsbDeviceManager]: [sender/usb/usb_device_manager.{h,cpp}], over the
      interface [Libusb];
    - [MassStorage]: [sender/usb/mass_storage_device.{h,cpp}], over the
      interface [Transport], which the devices of [UsbDeviceManager] implement;
    - [UrbCapture] and [UrbProcessor]: [sender/capture/urb_capture.{h,cpp}];
    - [ReverseClient]: [sender/reverse_client.{h,cpp}];
    - [Sender] (class [UsbSender]), [SenderMain] ([Run], [main]),
      [SenderNetwork] (what it puts on the network) and [Iteration] (its
      unlocked list of devices, access by access):
      [sender/main.cpp].

    Both ends:
    - [Pipeline]: from the sender's operations to the receiver's callbacks;
    - [Lifetimes]: how objects and connections end, the destructors of
      [common/network/tcp_socket.cpp], [receiver/usbip/usbip_client.cpp],
      [sender/usb/], [sender/capture/] and [sender/main.cpp];
    - [System]: the two programs and the bytes between them, in any schedule;
    - [Shutdown]: [Stop] of the receiver while its receive thread runs;
    - [Signals]: the signal handlers of both programs, and the logger's mutex;
    - [Tests]: the test programs of [src/tests/].

    ** How the code is modelled

    A class is a record with the members' names, a method a definition with
    the method's name, in the monad [M] of its object: it returns a result and
    a new state, or a [fault] (a read outside an object, [std::terminate], a
    lock taken twice).  A callback's calls are a list in the state ([events],
    [notices], [shell]) or the result of the operation, in order.  Objects
    shared by reference (virtual devices, drivers) are addresses into a heap.
    What comes from outside is an argument or a parameter: the answers of the
    system to calls of the socket library, libusb (a class of operations and
    the laws it documents), the clock, [std::system], indeterminate memory.

    Threads are cut into steps at their accesses to shared state and
    interleaved by an inductive relation ([TcpSocket.step], [UrbCapture.step],
    [channel_step]); a program's life is a list of events ([receiver_event],
    [sender_event]), that of the whole system a schedule ([system_action]), and
    invariants are proved for every list.

    Recursion is structural on what the code consumes, but for three loops.
    [process_loop] of the message handler, [find_loop] of the endpoint search
    and [read_devices] of the client recurse on fuel given by the length of
    what they scan, and [receive_total_bounded], [find_endpoints_total] and
    [device_list_untrusted] prove that it is always enough.  Loops that wait for the outside world ([send_loop], [run_loop])
    recurse on the list of answers; when it runs out they are still running
    ([None], [OutOfFuel], or false for a join that waits), and theorems about
    their results are about runs with enough answers.

    ** What is proved

    - Messages: any serialised messages, cut into chunks in any way, are
      delivered once and in order; arbitrary input neither faults nor grows the
      buffer; what is delivered has its checksum.  [Channel] refines a queue
      under every interleaving of partial writes and reads, and delivers
      everything once reading goes on; overlapping sends break it.
    - Packets: round trips of the USBIP structs, on hosts of either order.
    - The receiver: the manager and the virtual devices refine a registry of
      eight ports; the port table and the devices agree in every reachable
      world, and the receiver's list with both; importing is all or
      nothing; [Stop] gives every port back, unless the receive thread imports
      a device while it runs; every URB gets one response; the
      client keeps its types whatever the network sends.
    - The sender: the listed drivers are live and captured; no URB is lost or
      reordered in the queue; the capacity and the endpoints the driver finds;
      and, for devices as libusb describes them, that nothing is ever offered,
      and whatever the devices, that no answer ever reaches the network.  A
      request that runs while devices are plugged in answers for the list of
      one moment, if the vector does not move; when it moves, or [Stop] clears
      it, the request reads memory that is gone.
    - End to end: discovery, import, and OUT URBs as the messages made by one
      end and handled by the other; what becomes of IN URBs; and that in every
      state of the whole system nothing has been redirected.
    - Streams that end or mix: the bytes of an old connection, and those of
      another client, in the one buffer of a handler.
    - Ends of life: what the destructors close, what they leave running, when
      they end the program or call what is destroyed, and what the thread of an
      old client does to a new one; a signal that comes inside the logger.
    - Which of the test programs' assertions hold, and when.
    - The command line means what it spells; the log holds its messages;
      buffers are copied and moved by value, and their hexadecimal text
      determines them.
    - Termination of [Close] and of stopping the capture, with the one
      interleaving that hangs; the programs' ends: reconnection after a lost
      connection, the destructors after [--list] and [--import].

    ** Not modelled

    Output to the terminal but for the log; that components log at all, except
    that logging a [char] array reads it as a C string and that the signal
    handlers log; where signals are delivered, but for [Signals], is the sleep
    of [main]; data races on members the code shares between threads without a
    lock, but for the sender's list of devices ([Iteration]): the models take
    accesses to them to be atomic; [TcpServer], declared and never defined;
    members that only return a field; the build files, scripts and the
    configuration files, which no code reads. *)


From stdpp Require Export base tactics list numbers option strings pretty.
From Stdlib Require Export ZArith Lia.
From coqutil Require Export Datatypes.RecordSetters.
Export DoubleBraceUpdate.

#[export] Set Default Goal Selector "!".
Open Scope Z_scope.

(** ** Fixed-width integers

    A w-bit unsigned integer is a [Z] in [0, 2^w); the conversions below are
    the C++ integral conversions into that width. *)
Definition u8 (x : Z) : Z := x mod 256.
Definition u16 (x : Z) : Z := x mod 65536.
Definition u32 (x : Z) : Z := x mod 4294967296.
Definition u64 (x : Z) : Z := x mod 18446744073709551616.

(** Conversion to [int32_t] (two's complement). *)
Definition i32 (x : Z) : Z :=
  let y := u32 x in if y <? 2147483648 then y else y - 4294967296.

Definition is_byte (b : Z) : Prop := 0 <= b < 256.
Definition is_u16 (x : Z) : Prop := 0 <= x < 65536.
Definition is_u32 (x : Z) : Prop := 0 <= x < 4294967296.
Definition is_u64 (x : Z) : Prop := 0 <= x < 18446744073709551616.
Definition is_i32 (x : Z) : Prop := -2147483648 <= x < 2147483648.
Abbreviation bytes_ok := (Forall is_byte).

(** Record update [r {{ field := v }}] computes. *)
#[global] Arguments constant {E} newValue _ /.
#[global] Arguments apply_update {R E} u r /.

Create HintDb usb discriminated.
Create Rewrite HintDb usb.

(** Unfold the width predicates and conversions, then arithmetic. *)
Ltac width_unfold :=
  unfold is_byte, is_u16, is_u32, is_u64, is_i32, i32, u8, u16, u32, u64 in *.
Ltac width := intros; width_unfold; repeat case_match; lia.

(** [std::to_string]. *)
Definition to_string (n : Z) : string := pretty n.

Lemma u8_range x : is_byte (u8 x).
Proof. width_unfold. apply Z.mod_pos_bound. lia. Qed.
Lemma u16_range x : is_u16 (u16 x).
Proof. width_unfold. apply Z.mod_pos_bound. lia. Qed.
Lemma u32_range x : is_u32 (u32 x).
Proof. width_unfold. apply Z.mod_pos_bound. lia. Qed.
Lemma u64_range x : is_u64 (u64 x).
Proof. width_unfold. apply Z.mod_pos_bound. lia. Qed.
Lemma i32_range x : is_i32 (i32 x).
Proof.
  pose proof (u32_range x). unfold i32, is_i32, is_u32 in *.
  case_match eqn:E; [apply Z.ltb_lt in E | apply Z.ltb_ge in E]; lia.
Qed.
#[export] Hint Resolve u8_range u16_range u32_range u64_range i32_range : usb.

Lemma u8_id x : is_byte x → u8 x = x.
Proof. intros H. apply Z.mod_small, H. Qed.
Lemma u16_id x : is_u16 x → u16 x = x.
Proof. intros H. apply Z.mod_small, H. Qed.
Lemma u32_id x : is_u32 x → u32 x = x.
Proof. intros H. apply Z.mod_small, H. Qed.
Lemma u64_id x : is_u64 x → u64 x = x.
Proof. intros H. apply Z.mod_small, H. Qed.

(** [int32_t] to [uint32_t] and back loses nothing. *)
Lemma i32_u32 x : is_i32 x → i32 (u32 x) = x.
Proof.
  intros H. unfold i32. rewrite (u32_id (u32 x)) by auto with usb.
  unfold u32, is_i32 in *. destruct (decide (0 <= x)).
  - rewrite Z.mod_small by lia. case_match eqn:E; [done|].
    apply Z.ltb_ge in E. lia.
  - replace (x mod 4294967296) with (x + 4294967296)
      by (rewrite <- (Z.mod_add x 1) by lia; rewrite Z.mod_small; lia).
    case_match eqn:E; [apply Z.ltb_lt in E|]; lia.
Qed.

Lemma u32_i32 x : u32 (i32 x) = u32 x.
Proof.
  unfold i32. pose proof (u32_range x) as Hr.
  case_match; [by apply u32_id|].
  unfold u32 in *. rewrite <- (Z.mod_add _ 1) by lia.
  rewrite Z.mul_1_l, Z.sub_add. apply Z.mod_mod. lia.
Qed.

Lemma is_byte_u32 x : is_byte x → is_u32 x.
Proof. width. Qed.
Lemma is_u16_u32 x : is_u16 x → is_u32 x.
Proof. width. Qed.
#[export] Hint Resolve is_byte_u32 is_u16_u32 : usb.

(** ** Outcomes

    A C++ operation returns, or goes wrong in one of the ways the code can:
    an access outside an object (undefined behaviour), [std::terminate]
    (assigning to a joinable [std::thread]), or a thread blocking for ever on
    a mutex it already owns. [OutOfFuel] is the model's own: a loop did not
    finish within the iterations the definition allows it (ruled out by a
    theorem wherever it can occur), or a system call was given too few answers
    to return. *)
Inductive fault : Type :=
  | OutOfBounds
  | StdTerminate
  | SelfDeadlock
  | OutOfFuel.

Inductive res (A : Type) : Type :=
  | Ok (a : A)
  | Fault (f : fault).
Arguments Ok {A} _.
Arguments Fault {A} _.

#[export] Instance fault_eq_dec : EqDecision fault.
Proof. solve_decision. Defined.

#[export] Instance res_ret : MRet res := λ A a, Ok a.
#[export] Instance res_bind : MBind res := λ A B f m,
  match m with Ok a => f a | Fault e => Fault e end.

(** Stateful code over a component state [S]. *)
Definition M (S A : Type) : Type := S → res (A * S).
#[export] Instance M_ret {S} : MRet (M S) := λ A a s, Ok (a, s).
#[export] Instance M_bind {S} : MBind (M S) := λ A B f m s,
  match m s with Ok (a, s') => f a s' | Fault e => Fault e end.

Definition get {S} : M S S := λ s, Ok (s, s).
Definition put {S} (s : S) : M S () := λ _, Ok ((), s).
Definition modify {S} (f : S → S) : M S () := λ s, Ok ((), f s).
Definition fail {S A} (e : fault) : M S A := λ _, Fault e.
Definition lift {S A} (r : res A) : M S A := λ s,
  match r with Ok a => Ok (a, s) | Fault e => Fault e end.

Lemma M_bind_Ok {S A B} (m : M S A) (f : A → M S B) s a s' :
  m s = Ok (a, s') → (m ≫= f) s = f a s'.
Proof. intros H. unfold mbind, M_bind. by rewrite H. Qed.

(** *** Weakest preconditions

    [wp m E Q s]: run in [s], [m] returns a result and a state satisfying
    [Q], or goes wrong with a fault satisfying [E]. *)
Definition wp {S A} (m : M S A) (E : fault → Prop) (Q : A → S → Prop) (s : S) : Prop :=
  match m s with Ok (a, s') => Q a s' | Fault e => E e end.

(** No fault. *)
Definition safe (e : fault) : Prop := False.

Lemma wp_safe {S A} (m : M S A) Q s :
  wp m safe Q s ↔ ∃ a s', m s = Ok (a, s') ∧ Q a s'.
Proof.
  unfold wp, safe. destruct (m s) as [[a s']|e]; split.
  - eauto.
  - by intros (? & ? & [= <- <-] & ?).
  - done.
  - by intros (? & ? & ? & ?).
Qed.

Lemma wp_bind {S A B} (m : M S A) (f : A → M S B) E Q s :
  wp m E (λ a, wp (f a) E Q) s → wp (m ≫= f) E Q s.
Proof. unfold wp, mbind, M_bind. by destruct (m s) as [[a s']|e]. Qed.

Lemma wp_ret {S A} (a : A) E (Q : A → S → Prop) s : Q a s → wp (mret a) E Q s.
Proof. done. Qed.
Lemma wp_get {S} E (Q : S → S → Prop) s : Q s s → wp get E Q s.
Proof. done. Qed.
Lemma wp_modify {S} (f : S → S) E (Q : () → S → Prop) s : Q () (f s) → wp (modify f) E Q s.
Proof. done. Qed.
Lemma wp_fail {S A} e (E : fault → Prop) (Q : A → S → Prop) s : E e → wp (fail e) E Q s.
Proof. done. Qed.
Lemma wp_lift_Ok {S A} (r : res A) a E (Q : A → S → Prop) s :
  r = Ok a → Q a s → wp (lift r) E Q s.
Proof. by intros ->. Qed.

Lemma wp_mono {S A} (m : M S A) (E E' : fault → Prop) (Q Q' : A → S → Prop) s :
  wp m E Q s → (∀ e, E e → E' e) → (∀ a s', Q a s' → Q' a s') → wp m E' Q' s.
Proof. unfold wp. destruct (m s) as [[a s']|e]; auto. Qed.

Lemma wp_Ok {S A} (m : M S A) E (Q : A → S → Prop) s a s' :
  wp m E Q s → m s = Ok (a, s') → Q a s'.
Proof. unfold wp. intros H Hm. by rewrite Hm in H. Qed.

Lemma wp_result {S A} (m : M S A) s a s' :
  wp m safe (λ b t, b = a ∧ t = s') s → m s = Ok (a, s').
Proof. intros (? & ? & -> & -> & ->)%wp_safe. done. Qed.

Lemma wp_any {S A} (m : M S A) s : wp m (λ _, True) (λ _ _, True) s.
Proof. unfold wp. by destruct (m s) as [[a s']|e]. Qed.

(** *** Invariants kept by an operation

    [preserves I F m]: from any state with the invariant [I], [m] returns in
    one, or goes wrong with a fault in [F]. *)
Definition preserves {S A} (I : S → Prop) (F : fault → Prop) (m : M S A) : Prop :=
  ∀ s, I s → wp m F (λ _, I) s.

Lemma preserves_bind {S A B} (I : S → Prop) F (m : M S A) (f : A → M S B) :
  preserves I F m → (∀ a, preserves I F (f a)) → preserves I F (m ≫= f).
Proof. intros Hm Hf s Hs. apply wp_bind. eapply wp_mono; [by apply Hm|done|]. intros a. apply Hf. Qed.
Lemma preserves_ret {S A} (I : S → Prop) F (a : A) : preserves I F (mret a).
Proof. by intros s Hs. Qed.
Lemma preserves_get {S} (I : S → Prop) F : preserves I F get.
Proof. by intros s Hs. Qed.
Lemma preserves_fail {S A} (I : S → Prop) (F : fault → Prop) e : F e → preserves I F (fail (A := A) e).
Proof. by intros He s Hs. Qed.
Lemma preserves_lift {S A} (I : S → Prop) (F : fault → Prop) (x : res A) :
  (∀ e, x = Fault e → F e) → preserves I F (lift x).
Proof. intros Hx s Hs. unfold wp, lift. destruct x; auto. Qed.
Lemma preserves_modify {S} (I : S → Prop) F (f : S → S) :
  (∀ s, I s → I (f s)) → preserves I F (modify f).
Proof. intros Hf s Hs. by apply wp_modify, Hf. Qed.

(** One step of such a proof, by the form of the operation. *)
Ltac preserves_step :=
  lazymatch goal with
  | |- preserves _ _ (mbind _ _) => apply preserves_bind; [|intro]
  | |- preserves _ _ (mret _) => apply preserves_ret
  | |- preserves _ _ get => apply preserves_get
  | |- preserves _ _ (fail _) => by apply preserves_fail
  | |- preserves _ _ (lift _) => by apply preserves_lift
  | |- preserves _ _ (match _ with _ => _ end) => case_match
  end.

(** *** Preorders kept by an operation

    [respects R m]: whenever [m] returns, the state before and the state
    after are related by [R]. *)
Definition respects {S A} (R : S → S → Prop) (m : M S A) : Prop :=
  ∀ s a s', m s = Ok (a, s') → R s s'.

Lemma respects_preserves {S A} (R : S → S → Prop) (I : S → Prop) (m : M S A) :
  respects R m → (∀ s s', R s s' → I s → I s') → preserves I (λ _, True) m.
Proof.
  intros Hm HR s Hs. unfold wp. destruct (m s) as [[a s']|] eqn:E; [|done].
  eapply HR; [by eapply Hm|done].
Qed.

Section Respects.
Context {S : Type} (R : S → S → Prop) `{!PreOrder R}.

Lemma respects_bind {A B} (m : M S A) (f : A → M S B) :
  respects R m → (∀ a, respects R (f a)) → respects R (m ≫= f).
Proof.
  intros Hm Hf s b s'. unfold mbind, M_bind. destruct (m s) as [[a s1]|e] eqn:E; [|done].
  intros H. etrans; [by eapply Hm|by eapply Hf].
Qed.
Lemma respects_ret {A} (a : A) : respects R (mret a).
Proof. by intros s b s' [= <- <-]. Qed.
Lemma respects_get : respects R get.
Proof. by intros s b s' [= <- <-]. Qed.
Lemma respects_lift {A} (r : res A) : respects R (lift r).
Proof. intros s a s'. unfold lift. destruct r; [|done]. by intros [= <- <-]. Qed.
Lemma respects_fail {A} e : respects R (fail (A := A) e).
Proof. by intros s a s'. Qed.
Lemma respects_modify f : (∀ s, R s (f s)) → respects R (modify f).
Proof. intros H s a s' [= <- <-]. apply H. Qed.
End Respects.

(** Reduces [respects R m] to [R] on the updates [m] makes. *)
Ltac respects := repeat lazymatch goal with
  | |- ∀ _, _ => intro
  | |- respects _ (_ ≫= _) => apply respects_bind; [apply _| |]
  | |- respects _ (mret _) => apply respects_ret; apply _
  | |- respects _ get => apply respects_get; apply _
  | |- respects _ (fail _) => apply respects_fail
  | |- respects _ (lift _) => apply respects_lift; apply _
  | |- respects _ (modify _) => apply respects_modify
  | |- respects _ (match _ with _ => _ end) => case_match
  end.

(** ** Lists *)

(** [l.resize(n)] on a vector of bytes: truncates or pads with zero bytes. *)
Definition vec_resize (n : nat) (l : list Z) : list Z :=
  take n l ++ replicate (n - length l) 0.

(** [memcpy(buf.data() + off, src, src.size())]. *)
Definition memcpy (buf : list Z) (off : nat) (src : list Z) : res (list Z) :=
  if decide (off + length src ≤ length buf)%nat
  then Ok (take off buf ++ src ++ drop (off + length src) buf)
  else Fault OutOfBounds.

(** Reading [n] bytes at [off]. *)
Definition mem_read (buf : list Z) (off n : nat) : res (list Z) :=
  if decide (off + n ≤ length buf)%nat
  then Ok (take n (drop off buf)) else Fault OutOfBounds.

(** [buf[i]]. *)
Definition vec_at (buf : list Z) (i : nat) : res Z :=
  match buf !! i with Some b => Ok b | None => Fault OutOfBounds end.

Lemma length_vec_resize n l : length (vec_resize n l) = n.
Proof. unfold vec_resize. rewrite length_app, length_take, length_replicate. lia. Qed.

Lemma vec_resize_app l k :
  vec_resize (length l + k) l = l ++ replicate k 0.
Proof.
  unfold vec_resize. rewrite take_ge by lia. do 2 f_equal. lia.
Qed.

Lemma vec_resize_nil n : vec_resize n [] = replicate n 0.
Proof. unfold vec_resize. rewrite take_nil, Nat.sub_0_r. done. Qed.

(** Writing over the zero tail left by [resize]. *)
Lemma memcpy_tail (pre src : list Z) k :
  (length src ≤ k)%nat →
  memcpy (pre ++ replicate k 0) (length pre) src
  = Ok (pre ++ src ++ replicate (k - length src) 0).
Proof.
  intros Hk. unfold memcpy. rewrite length_app, length_replicate.
  rewrite decide_True by lia. rewrite take_app_length.
  rewrite drop_app_ge by lia. rewrite drop_replicate. do 4 f_equal. lia.
Qed.

Lemma memcpy_tail_exact (pre src : list Z) k off :
  length src = k → off = length pre →
  memcpy (pre ++ replicate k 0) off src = Ok (pre ++ src).
Proof.
  intros <- ->. rewrite memcpy_tail by lia.
  by rewrite Nat.sub_diag, app_nil_r.
Qed.

Lemma memcpy_head (src : list Z) k :
  (length src ≤ k)%nat →
  memcpy (replicate k 0) 0 src = Ok (src ++ replicate (k - length src) 0).
Proof. apply (memcpy_tail []). Qed.

Lemma mem_read_app pre l n off :
  off = length pre → (n ≤ length l)%nat → mem_read (pre ++ l) off n = Ok (take n l).
Proof.
  intros -> Hn. unfold mem_read. rewrite length_app.
  rewrite decide_True by lia. by rewrite drop_app_length.
Qed.

Lemma mem_read_0 l n : (n ≤ length l)%nat → mem_read l 0 n = Ok (take n l).
Proof. intros. by apply (mem_read_app []). Qed.

Lemma vec_at_nth l i : (i < length l)%nat → vec_at l i = Ok (nth i l 0).
Proof.
  intros Hi. unfold vec_at. destruct (lookup_lt_is_Some_2 l i Hi) as [x Hx].
  by rewrite nth_lookup, Hx.
Qed.

Lemma vec_at_app pre l i : vec_at (pre ++ l) (length pre + i) = vec_at l i.
Proof. unfold vec_at. rewrite lookup_app_r by lia. by rewrite Nat.add_comm, Nat.add_sub. Qed.

Lemma vec_at_app_l l k i : (i < length l)%nat → vec_at (l ++ k) i = vec_at l i.
Proof. intros Hi. unfold vec_at. by rewrite lookup_app_l. Qed.

(** [std::search]: the first position at which [p] occurs in [l]. *)
Fixpoint is_prefix (p l : list Z) : bool :=
  match p, l with
  | [], _ => true
  | _ :: _, [] => false
  | x :: p', y :: l' => (x =? y) && is_prefix p' l'
  end.

Fixpoint search (p l : list Z) : option nat :=
  if is_prefix p l then Some O
  else match l with
       | [] => None
       | _ :: l' => S <$> search p l'
       end.

Lemma is_prefix_spec p l : is_prefix p l = true ↔ ∃ k, l = p ++ k.
Proof.
  revert l. induction p as [|x p IH]; intros l; simpl.
  { split; [by exists l|done]. }
  destruct l as [|y l]; simpl.
  { split; [done|]. by intros [k ?]. }
  rewrite andb_true_iff, Z.eqb_eq, IH. split.
  - intros [-> [k ->]]. by exists k.
  - intros [k [= -> ->]]. eauto.
Qed.

Lemma is_prefix_app p l : is_prefix p (p ++ l) = true.
Proof. apply is_prefix_spec. eauto. Qed.

(** The position found is an occurrence, and no earlier position is. *)
Lemma search_Some p l i :
  search p l = Some i →
  is_prefix p (drop i l) = true ∧ ∀ j, (j < i)%nat → is_prefix p (drop j l) = false.
Proof.
  revert i. induction l as [|y l IH]; intros i.
  - simpl. destruct (is_prefix p []) eqn:E; [|done]. intros [= <-].
    split; [done|lia].
  - cbn [search]. destruct (is_prefix p (y :: l)) eqn:E.
    { intros [= <-]. split; [done|lia]. }
    intros (i' & H & ->)%fmap_Some_1. destruct (IH _ H) as [H1 H2]. split; [done|].
    intros [|j] Hj; [done|]. apply H2. lia.
Qed.

Lemma search_None p l :
  search p l = None → ∀ j, is_prefix p (drop j l) = false ∨ p = [].
Proof.
  induction l as [|y l IH].
  - simpl. destruct p; [by right|]. intros _ j. left. by rewrite drop_nil.
  - cbn [search]. destruct (is_prefix p (y :: l)) eqn:E; [done|].
    intros H%fmap_None [|j]; [by left|]. by apply IH.
Qed.

Lemma search_le p l i : search p l = Some i → (i ≤ length l)%nat.
Proof.
  revert i. induction l as [|y l IH]; intros i; cbn [search].
  - destruct (is_prefix p []); [|done]. by intros [= <-].
  - destruct (is_prefix p (y :: l)); [intros [= <-]; lia|].
    intros (i' & H & ->)%fmap_Some_1. apply IH in H. simpl. lia.
Qed.

Lemma search_lt p l i : p ≠ [] → search p l = Some i → (i < length l)%nat.
Proof.
  intros Hp H. pose proof (search_le _ _ _ H).
  destruct (search_Some _ _ _ H) as [H1 _]. apply is_prefix_spec in H1 as [k Hk].
  apply (f_equal length) in Hk. rewrite length_drop, length_app in Hk.
  destruct p; [done|]. simpl in Hk. lia.
Qed.

Lemma bytes_ok_compute l : forallb (λ b, (0 <=? b) && (b <? 256)) l = true → bytes_ok l.
Proof.
  induction l as [|b l IH]; [constructor|]. cbn [forallb]. intros [Hb Hl]%andb_true_iff.
  constructor; [unfold is_byte; lia|by apply IH].
Qed.

Lemma bytes_ok_app l1 l2 : bytes_ok (l1 ++ l2) ↔ bytes_ok l1 ∧ bytes_ok l2.
Proof. apply Forall_app. Qed.

Lemma bytes_ok_replicate_0 n : bytes_ok (replicate n 0).
Proof. apply Forall_replicate. unfold is_byte. lia. Qed.

Lemma bytes_ok_take n l : bytes_ok l → bytes_ok (take n l).
Proof. apply Forall_take. Qed.
Lemma bytes_ok_drop n l : bytes_ok l → bytes_ok (drop n l).
Proof. apply Forall_drop. Qed.
#[export] Hint Resolve bytes_ok_replicate_0 bytes_ok_take bytes_ok_drop : usb.
