(* ===== verification/Memory.v ===== *)
(** * Memory: integers and packed structs as bytes

    How the C++ code sees integers and [__attribute__((packed))] structs as
    raw bytes ([std::memcpy] to and from buffers), on a host of either byte
    order, with the socket library's [htonl]/[htons] family.  The class
    [Packed] gives the byte layout of a struct; [PackedOk] states the laws a
    layout must satisfy, and the codec lemmas are proved once from them. *)

From S2P Require Import Prelude.

(** ** Host byte order *)
Inductive byte_order := LittleEndian | BigEndian.
#[export] Instance byte_order_eq_dec : EqDecision byte_order.
Proof. solve_decision. Defined.

Class Host := host_order : byte_order.

(** ** Little-endian digits *)
Fixpoint le_bytes (n : nat) (z : Z) : list Z :=
  match n with O => [] | S n' => z mod 256 :: le_bytes n' (z / 256) end.

Fixpoint le_value (bs : list Z) : Z :=
  match bs with [] => 0 | b :: bs' => b + 256 * le_value bs' end.

Definition be_bytes (n : nat) (z : Z) : list Z := rev (le_bytes n z).
Definition be_value (bs : list Z) : Z := le_value (rev bs).

Lemma length_le_bytes n z : length (le_bytes n z) = n.
Proof. revert z. induction n as [|n IH]; intros z; simpl; [done|]. by rewrite IH. Qed.
Lemma length_be_bytes n z : length (be_bytes n z) = n.
Proof. unfold be_bytes. by rewrite length_rev, length_le_bytes. Qed.

Lemma le_bytes_ok n z : bytes_ok (le_bytes n z).
Proof.
  revert z. induction n as [|n IH]; intros z; simpl; constructor; [|done].
  unfold is_byte. pose proof (Z.mod_pos_bound z 256). lia.
Qed.

Lemma bytes_ok_rev l : bytes_ok (rev l) ↔ bytes_ok l.
Proof. split; intros H; [rewrite <- (rev_involutive l)|]; by apply Forall_rev. Qed.

Lemma be_bytes_ok n z : bytes_ok (be_bytes n z).
Proof. apply bytes_ok_rev, le_bytes_ok. Qed.

Lemma pow256_S n : 256 ^ Z.of_nat (S n) = 256 * 256 ^ Z.of_nat n.
Proof. rewrite Nat2Z.inj_succ, Z.pow_succ_r; lia. Qed.

Lemma le_value_range bs : bytes_ok bs → 0 <= le_value bs < 256 ^ Z.of_nat (length bs).
Proof.
  induction 1 as [|b bs Hb _ IH]; simpl length; [simpl; lia|].
  cbn [le_value]. rewrite pow256_S. unfold is_byte in Hb. lia.
Qed.

Lemma le_value_le_bytes n z : 0 <= z < 256 ^ Z.of_nat n → le_value (le_bytes n z) = z.
Proof.
  revert z. induction n as [|n IH]; intros z Hz; [simpl in *; lia|].
  cbn [le_bytes le_value]. rewrite pow256_S in Hz. rewrite IH.
  - pose proof (Z.div_mod z 256). lia.
  - split; [apply Z.div_pos; lia|]. apply Z.div_lt_upper_bound; lia.
Qed.

Lemma le_bytes_le_value bs : bytes_ok bs → le_bytes (length bs) (le_value bs) = bs.
Proof.
  induction 1 as [|b bs Hb _ IH]; [done|]. unfold is_byte in Hb.
  simpl length. cbn [le_bytes le_value].
  rewrite (Z.mul_comm 256), Z.mod_add, Z.mod_small by lia.
  rewrite Z.div_add, Z.div_small, Z.add_0_l by lia. by rewrite IH.
Qed.

Lemma be_value_be_bytes n z : 0 <= z < 256 ^ Z.of_nat n → be_value (be_bytes n z) = z.
Proof. intros. unfold be_value, be_bytes. rewrite rev_involutive. by apply le_value_le_bytes. Qed.

Lemma be_bytes_be_value bs : bytes_ok bs → be_bytes (length bs) (be_value bs) = bs.
Proof.
  intros H. unfold be_value, be_bytes. rewrite <- (length_rev bs).
  rewrite le_bytes_le_value by by apply bytes_ok_rev. apply rev_involutive.
Qed.

Lemma be_value_range bs : bytes_ok bs → 0 <= be_value bs < 256 ^ Z.of_nat (length bs).
Proof.
  intros H. unfold be_value. rewrite <- (length_rev bs). apply le_value_range.
  by apply bytes_ok_rev.
Qed.

(** ** Integers in memory, and byte-order conversion *)
Section HostMemory.
Context {h : Host}.

(** The bytes of an [n]-byte unsigned integer in memory. *)
Definition mem_store (n : nat) (z : Z) : list Z :=
  match host_order with LittleEndian => le_bytes n z | BigEndian => be_bytes n z end.

Definition mem_load (bs : list Z) : Z :=
  match host_order with LittleEndian => le_value bs | BigEndian => be_value bs end.

(** Byte swap of an [n]-byte integer. *)
Definition bswap (n : nat) (z : Z) : Z := be_value (le_bytes n z).

(** [htonl], [ntohl], [htons], [ntohs]: a byte swap on a little-endian host,
    the identity on a big-endian one. *)
Definition hton (n : nat) (z : Z) : Z :=
  match host_order with LittleEndian => bswap n z | BigEndian => z end.
Definition htonl : Z → Z := hton 4.
Definition ntohl : Z → Z := hton 4.
Definition htons : Z → Z := hton 2.
Definition ntohs : Z → Z := hton 2.

Lemma length_mem_store n z : length (mem_store n z) = n.
Proof. unfold mem_store. case_match; auto using length_le_bytes, length_be_bytes. Qed.

Lemma mem_store_ok n z : bytes_ok (mem_store n z).
Proof. unfold mem_store. case_match; auto using le_bytes_ok, be_bytes_ok. Qed.

Lemma mem_load_store n z : 0 <= z < 256 ^ Z.of_nat n → mem_load (mem_store n z) = z.
Proof.
  unfold mem_load, mem_store.
  case_match; auto using le_value_le_bytes, be_value_be_bytes.
Qed.

Lemma mem_store_load bs : bytes_ok bs → mem_store (length bs) (mem_load bs) = bs.
Proof.
  unfold mem_load, mem_store.
  case_match; auto using le_bytes_le_value, be_bytes_be_value.
Qed.

Lemma mem_load_range bs :
  bytes_ok bs → 0 <= mem_load bs < 256 ^ Z.of_nat (length bs).
Proof.
  unfold mem_load. case_match; auto using le_value_range, be_value_range.
Qed.

Lemma hton_range n z :
  0 <= z < 256 ^ Z.of_nat n → 0 <= hton n z < 256 ^ Z.of_nat n.
Proof.
  intros. unfold hton, bswap. case_match; [|done].
  rewrite <- (length_le_bytes n z) at 3. apply be_value_range, le_bytes_ok.
Qed.

(** On either host, storing the converted value writes network order. *)
Lemma mem_store_hton n z : mem_store n (hton n z) = be_bytes n z.
Proof.
  unfold mem_store, hton, bswap. case_match; [|done].
  pose proof (le_bytes_le_value (rev (le_bytes n z))) as E.
  rewrite length_rev, length_le_bytes in E. apply E, bytes_ok_rev, le_bytes_ok.
Qed.

(** On either host, loading then converting reads network order. *)
Lemma hton_mem_load bs : bytes_ok bs → hton (length bs) (mem_load bs) = be_value bs.
Proof.
  intros H. unfold hton, mem_load, bswap. case_match; [|done].
  by rewrite le_bytes_le_value.
Qed.

Lemma hton_involutive n z : 0 <= z < 256 ^ Z.of_nat n → hton n (hton n z) = z.
Proof.
  intros Hz. rewrite <- (mem_load_store n (hton n z)) by by apply hton_range.
  rewrite mem_store_hton. rewrite <- (length_be_bytes n z) at 1.
  rewrite hton_mem_load by apply be_bytes_ok. by apply be_value_be_bytes.
Qed.
End HostMemory.

#[global] Arguments mem_store : simpl never.
#[global] Arguments mem_load : simpl never.
#[global] Arguments be_bytes : simpl never.
#[global] Arguments be_value : simpl never.
#[global] Arguments hton : simpl never.
#[global] Arguments bswap : simpl never.

(** ** Packed structs *)

(** Cut a byte string into fields of the given widths. *)
Fixpoint cut (ws : list nat) (bs : list Z) : list (list Z) :=
  match ws with [] => [] | w :: ws' => take w bs :: cut ws' (drop w bs) end.

(** A value of a field [w] bytes wide. *)
Definition field_ok (w : nat) (v : Z) : Prop := 0 <= v < 256 ^ Z.of_nat w.

(** The layout of a packed struct: field widths, and the raw bit pattern of
    each field (a [char] array is a run of one-byte fields). *)
Class Packed (A : Type) := {
  layout : list nat;
  fields : A → list Z;
  of_fields : list Z → A;
}.

Arguments layout A {_}.

Definition sizeof (A : Type) `{Packed A} : nat := sum_list (layout A).

Section Structs.
Context {h : Host}.

(** The bytes of a struct object, and the object read back from bytes. *)
Definition struct_bytes {A} `{Packed A} (a : A) : list Z :=
  concat (zip_with mem_store (layout A) (fields a)).
Definition struct_load {A} `{Packed A} (bs : list Z) : A :=
  of_fields (map mem_load (cut (layout A) bs)).

(** The object's bytes when every field is in network order. *)
Definition struct_be_bytes {A} `{Packed A} (a : A) : list Z :=
  concat (zip_with be_bytes (layout A) (fields a)).
End Structs.

(** Laws of a layout. [wf] says every member is in the range of its type. *)
Class PackedOk (A : Type) `{Packed A} := {
  wf : A → Prop;
  fields_ok a : wf a → Forall2 field_ok (layout A) (fields a);
  of_fields_fields a : wf a → of_fields (fields a) = a;
  fields_of_fields vs : Forall2 field_ok (layout A) vs → fields (of_fields vs) = vs;
  wf_of_fields vs : Forall2 field_ok (layout A) vs → wf (of_fields vs);
}.

Section StructLaws.
Context {h : Host} {A : Type} {PA : Packed A} {PK : PackedOk A}.

Lemma length_concat_zip (f : nat → Z → list Z) ws (vs : list Z) :
  (∀ w v, length (f w v) = w) → length ws = length vs →
  length (concat (zip_with f ws vs)) = sum_list ws.
Proof.
  intros Hf. revert vs. induction ws as [|w ws IH]; intros [|v vs]; try done.
  simpl. intros [= Hl]. by rewrite length_app, Hf, IH.
Qed.

Lemma bytes_ok_concat_zip (f : nat → Z → list Z) ws (vs : list Z) :
  (∀ w v, bytes_ok (f w v)) → bytes_ok (concat (zip_with f ws vs)).
Proof.
  intros Hf. revert vs. induction ws as [|w ws IH]; intros [|v vs]; simpl; try done.
  apply bytes_ok_app. auto.
Qed.

Lemma length_struct_bytes a : wf a → length (struct_bytes a) = sizeof A.
Proof.
  intros Hw. apply length_concat_zip; [apply length_mem_store|].
  eapply Forall2_length, fields_ok, Hw.
Qed.

Lemma length_struct_be_bytes a : wf a → length (struct_be_bytes a) = sizeof A.
Proof.
  intros Hw. apply length_concat_zip; [apply length_be_bytes|].
  eapply Forall2_length, fields_ok, Hw.
Qed.

Lemma struct_bytes_ok a : bytes_ok (struct_bytes a).
Proof. apply bytes_ok_concat_zip, mem_store_ok. Qed.
Lemma struct_be_bytes_ok a : bytes_ok (struct_be_bytes a).
Proof. apply bytes_ok_concat_zip, be_bytes_ok. Qed.

Lemma cut_concat_zip (f : nat → Z → list Z) ws (vs : list Z) k :
  (∀ w v, length (f w v) = w) → length ws = length vs →
  cut ws (concat (zip_with f ws vs) ++ k) = zip_with f ws vs.
Proof.
  intros Hf. revert vs. induction ws as [|w ws IH]; intros [|v vs]; try done.
  simpl. intros [= Hl]. rewrite <- app_assoc.
  rewrite take_app_length', drop_app_length' by by rewrite Hf. by rewrite IH.
Qed.

Lemma map_load_zip_store ws vs :
  Forall2 field_ok ws vs → map mem_load (zip_with mem_store ws vs) = vs.
Proof.
  induction 1 as [|w v ws vs Hv _ IH]; simpl; [done|].
  by rewrite mem_load_store, IH.
Qed.

(** Reading back a struct's own bytes, whatever follows them. *)
Lemma struct_load_bytes a k : wf a → struct_load (struct_bytes a ++ k) = a.
Proof.
  intros Hw. unfold struct_load, struct_bytes.
  pose proof (fields_ok a Hw) as Hf.
  rewrite cut_concat_zip; [|apply length_mem_store|by eapply Forall2_length].
  rewrite map_load_zip_store by done. by apply of_fields_fields.
Qed.

Lemma cut_ok ws bs :
  bytes_ok bs → (sum_list ws ≤ length bs)%nat →
  Forall2 field_ok ws (map mem_load (cut ws bs)).
Proof.
  revert bs. induction ws as [|w ws IH]; intros bs Hb Hl; simpl; [constructor|].
  simpl in Hl. constructor.
  - pose proof (mem_load_range (take w bs)) as Hr.
    rewrite length_take, Nat.min_l in Hr by lia. apply Hr. auto with usb.
  - apply IH; [auto with usb|]. rewrite length_drop. lia.
Qed.

Lemma wf_struct_load bs :
  bytes_ok bs → (sizeof A ≤ length bs)%nat → wf (struct_load bs).
Proof. intros. by apply wf_of_fields, cut_ok. Qed.

Lemma zip_store_map_load ws bs :
  bytes_ok bs → sum_list ws = length bs →
  concat (zip_with mem_store ws (map mem_load (cut ws bs))) = bs.
Proof.
  revert bs. induction ws as [|w ws IH]; intros bs Hb Hl; simpl in *.
  { by destruct bs. }
  rewrite IH; [|auto with usb|rewrite length_drop; lia].
  rewrite <- (take_drop w bs) at 3. f_equal.
  rewrite <- (mem_store_load (take w bs)) at 2 by auto with usb.
  rewrite length_take, Nat.min_l by lia. done.
Qed.

(** Any bytes of the right length are the image of the object read from
    them: a packed struct has no padding. *)
Lemma struct_bytes_load bs :
  bytes_ok bs → length bs = sizeof A → struct_bytes (struct_load bs) = bs.
Proof.
  intros Hb Hl. unfold struct_bytes, struct_load.
  rewrite fields_of_fields by (apply cut_ok; [done|unfold sizeof in *; lia]).
  by apply zip_store_map_load.
Qed.
End StructLaws.

(** The [PackedOk] laws of a struct with a fixed number of unsigned fields:
    well formed means that each field fits its width. *)
Ltac forall2_inv :=
  repeat match goal with
         | H : Forall2 _ (_ :: _) _ |- _ => inversion H; clear H; subst
         | H : Forall2 _ [] _ |- _ => inversion H; clear H; subst
         end.

Ltac packed_plain :=
  match goal with
  | |- @PackedOk ?A ?P =>
    apply (@Build_PackedOk A P (λ a, Forall2 field_ok (layout A) (fields a)))
  end;
  [ intros ? Hf; exact Hf
  | by intros []
  | intros vs Hvs; cbn in Hvs; forall2_inv; reflexivity
  | intros vs Hvs; cbn in Hvs; forall2_inv; cbn;
    repeat first [assumption | apply List.Forall2_nil | apply List.Forall2_cons] ].

(** ** C strings *)

(** The C string at the start of a [char] array; without a terminator the
    read leaves the array. *)
Fixpoint c_str (l : list Z) : res (list Z) :=
  match l with
  | [] => Fault OutOfBounds
  | c :: l' => if c =? 0 then Ok [] else rest ← c_str l'; Ok (c :: rest)
  end.

Definition string_of_bytes (l : list Z) : string :=
  String.string_of_list_ascii (map (λ c, Ascii.ascii_of_nat (Z.to_nat c)) l).

Lemma c_str_fault l e : c_str l = Fault e → e = OutOfBounds.
Proof.
  induction l as [|c l IH]; simpl; [by intros [= <-]|].
  destruct (c =? 0); [done|]. destruct (c_str l); [done|]. intros [= <-]. by apply IH.
Qed.

Lemma c_str_app bus rest : 0 ∉ bus → c_str (bus ++ 0 :: rest) = Ok bus.
Proof.
  induction bus as [|c bus IH]; [done|]. intros [Hc Hbus]%not_elem_of_cons. cbn.
  destruct (Z.eqb_spec c 0); [congruence|]. by rewrite IH.
Qed.

Lemma c_str_terminated l : 0 ∈ l → ∃ text, c_str l = Ok text.
Proof.
  induction l as [|c l IH]; [by intros ?%not_elem_of_nil|]. cbn. intros [<-|Hl]%elem_of_cons.
  - by exists [].
  - destruct (c =? 0); [by exists []|]. destruct (IH Hl) as [text ->]. by exists (c :: text).
Qed.

Lemma c_str_unterminated l : 0 ∉ l → c_str l = Fault OutOfBounds.
Proof.
  induction l as [|c l IH]; [done|]. intros [Hc Hl]%not_elem_of_cons. cbn.
  destruct (Z.eqb_spec c 0); [congruence|]. by rewrite IH.
Qed.
