(* ===== verification/UsbTypes.v ===== *)
(** * UsbTypes: the data of [common/protocol/usb_types.h]

    Enumerations with their numeric values, the packed descriptor structs with
    their byte layouts, the URB and the device record shared by the sender and
    the receiver. *)

From S2P Require Import Prelude Memory.

(** ** Enumerations *)

(** [UsbTransferType]: only ever assigned from its enumerators. *)
Inductive UsbTransferType := CONTROL | ISOCHRONOUS | BULK | INTERRUPT.
#[export] Instance UsbTransferType_eq_dec : EqDecision UsbTransferType.
Proof. solve_decision. Defined.

Definition UsbTransferType_val (t : UsbTransferType) : Z :=
  match t with CONTROL => 0 | ISOCHRONOUS => 1 | BULK => 2 | INTERRUPT => 3 end.

(** [UsbDirection] has underlying type [uint8_t] and is also produced by a
    [static_cast] from a wire integer, so it can hold a value that is neither
    enumerator. *)
Inductive UsbDirection := OUT | IN | UsbDirection_other (v : Z).
#[export] Instance UsbDirection_eq_dec : EqDecision UsbDirection.
Proof. solve_decision. Defined.

Definition UsbDirection_val (d : UsbDirection) : Z :=
  match d with OUT => 0 | IN => 1 | UsbDirection_other v => v end.

(** [static_cast<UsbDirection>(x)]. *)
Definition UsbDirection_cast (x : Z) : UsbDirection :=
  let v := u8 x in
  if v =? 0 then OUT else if v =? 1 then IN else UsbDirection_other v.

(** A value of the type: the catch-all holds no enumerator's number. *)
Definition UsbDirection_wf (d : UsbDirection) : Prop :=
  match d with UsbDirection_other v => 2 <= v < 256 | _ => True end.

Inductive UsbSpeed := UNKNOWN | LOW | FULL | HIGH | SUPER | UsbSpeed_other (v : Z).

Definition UsbSpeed_val (s : UsbSpeed) : Z :=
  match s with
  | UNKNOWN => 0 | LOW => 1 | FULL => 2 | HIGH => 3 | SUPER => 4
  | UsbSpeed_other v => v
  end.

Inductive UsbDeviceClass :=
  | PER_INTERFACE | AUDIO | COMM | HID | PHYSICAL | IMAGE | PRINTER
  | MASS_STORAGE | HUB | DATA | SMART_CARD | CONTENT_SECURITY | VIDEO
  | PERSONAL_HEALTHCARE | DIAGNOSTIC_DEVICE | WIRELESS | MISCELLANEOUS
  | APPLICATION_SPECIFIC | VENDOR_SPECIFIC.

Definition UsbDeviceClass_val (c : UsbDeviceClass) : Z :=
  match c with
  | PER_INTERFACE => 0x00 | AUDIO => 0x01 | COMM => 0x02 | HID => 0x03
  | PHYSICAL => 0x05 | IMAGE => 0x06 | PRINTER => 0x07 | MASS_STORAGE => 0x08
  | HUB => 0x09 | DATA => 0x0A | SMART_CARD => 0x0B | CONTENT_SECURITY => 0x0D
  | VIDEO => 0x0E | PERSONAL_HEALTHCARE => 0x0F | DIAGNOSTIC_DEVICE => 0xDC
  | WIRELESS => 0xE0 | MISCELLANEOUS => 0xEF | APPLICATION_SPECIFIC => 0xFE
  | VENDOR_SPECIFIC => 0xFF
  end.

Inductive UsbStandardRequest :=
  | GET_STATUS | CLEAR_FEATURE | SET_FEATURE | SET_ADDRESS | GET_DESCRIPTOR
  | SET_DESCRIPTOR | GET_CONFIGURATION | SET_CONFIGURATION | GET_INTERFACE
  | SET_INTERFACE | SYNCH_FRAME.

Definition UsbStandardRequest_val (r : UsbStandardRequest) : Z :=
  match r with
  | GET_STATUS => 0x00 | CLEAR_FEATURE => 0x01 | SET_FEATURE => 0x03
  | SET_ADDRESS => 0x05 | GET_DESCRIPTOR => 0x06 | SET_DESCRIPTOR => 0x07
  | GET_CONFIGURATION => 0x08 | SET_CONFIGURATION => 0x09
  | GET_INTERFACE => 0x0A | SET_INTERFACE => 0x0B | SYNCH_FRAME => 0x0C
  end.

Inductive UsbDescriptorType :=
  | DEVICE | CONFIGURATION | STRING | INTERFACE | ENDPOINT | DEVICE_QUALIFIER
  | OTHER_SPEED_CONFIGURATION | INTERFACE_POWER.

Definition UsbDescriptorType_val (d : UsbDescriptorType) : Z :=
  match d with
  | DEVICE => 0x01 | CONFIGURATION => 0x02 | STRING => 0x03 | INTERFACE => 0x04
  | ENDPOINT => 0x05 | DEVICE_QUALIFIER => 0x06
  | OTHER_SPEED_CONFIGURATION => 0x07 | INTERFACE_POWER => 0x08
  end.

(** ** Packed structs *)

Record UsbDeviceDescriptor := {
  dd_bLength : Z;
  dd_bDescriptorType : Z;
  dd_bcdUSB : Z;
  dd_bDeviceClass : Z;
  dd_bDeviceSubClass : Z;
  dd_bDeviceProtocol : Z;
  dd_bMaxPacketSize0 : Z;
  dd_idVendor : Z;
  dd_idProduct : Z;
  dd_bcdDevice : Z;
  dd_iManufacturer : Z;
  dd_iProduct : Z;
  dd_iSerialNumber : Z;
  dd_bNumConfigurations : Z;
}.

#[export] Instance UsbDeviceDescriptor_packed : Packed UsbDeviceDescriptor := {
  layout := [1; 1; 2; 1; 1; 1; 1; 2; 2; 2; 1; 1; 1; 1]%nat;
  fields d :=
    [dd_bLength d; dd_bDescriptorType d; dd_bcdUSB d; dd_bDeviceClass d;
     dd_bDeviceSubClass d; dd_bDeviceProtocol d; dd_bMaxPacketSize0 d;
     dd_idVendor d; dd_idProduct d; dd_bcdDevice d; dd_iManufacturer d;
     dd_iProduct d; dd_iSerialNumber d; dd_bNumConfigurations d];
  of_fields vs :=
    let f i := nth i vs 0 in
    Build_UsbDeviceDescriptor (f 0%nat) (f 1%nat) (f 2%nat) (f 3%nat) (f 4%nat)
      (f 5%nat) (f 6%nat) (f 7%nat) (f 8%nat) (f 9%nat) (f 10%nat) (f 11%nat)
      (f 12%nat) (f 13%nat);
}.

Record UsbConfigurationDescriptor := {
  cd_bLength : Z;
  cd_bDescriptorType : Z;
  cd_wTotalLength : Z;
  cd_bNumInterfaces : Z;
  cd_bConfigurationValue : Z;
  cd_iConfiguration : Z;
  cd_bmAttributes : Z;
  cd_bMaxPower : Z;
}.

Record UsbInterfaceDescriptor := {
  id_bLength : Z;
  id_bDescriptorType : Z;
  id_bInterfaceNumber : Z;
  id_bAlternateSetting : Z;
  id_bNumEndpoints : Z;
  id_bInterfaceClass : Z;
  id_bInterfaceSubClass : Z;
  id_bInterfaceProtocol : Z;
  id_iInterface : Z;
}.

#[export] Instance UsbInterfaceDescriptor_packed : Packed UsbInterfaceDescriptor := {
  layout := [1; 1; 1; 1; 1; 1; 1; 1; 1]%nat;
  fields d :=
    [id_bLength d; id_bDescriptorType d; id_bInterfaceNumber d;
     id_bAlternateSetting d; id_bNumEndpoints d; id_bInterfaceClass d;
     id_bInterfaceSubClass d; id_bInterfaceProtocol d; id_iInterface d];
  of_fields vs :=
    let f i := nth i vs 0 in
    Build_UsbInterfaceDescriptor (f 0%nat) (f 1%nat) (f 2%nat) (f 3%nat)
      (f 4%nat) (f 5%nat) (f 6%nat) (f 7%nat) (f 8%nat);
}.

Record UsbEndpointDescriptor := {
  ed_bLength : Z;
  ed_bDescriptorType : Z;
  ed_bEndpointAddress : Z;
  ed_bmAttributes : Z;
  ed_wMaxPacketSize : Z;
  ed_bInterval : Z;
}.

#[export] Instance UsbEndpointDescriptor_packed : Packed UsbEndpointDescriptor := {
  layout := [1; 1; 1; 1; 2; 1]%nat;
  fields d :=
    [ed_bLength d; ed_bDescriptorType d; ed_bEndpointAddress d;
     ed_bmAttributes d; ed_wMaxPacketSize d; ed_bInterval d];
  of_fields vs :=
    let f i := nth i vs 0 in
    Build_UsbEndpointDescriptor (f 0%nat) (f 1%nat) (f 2%nat) (f 3%nat)
      (f 4%nat) (f 5%nat);
}.

Record UsbSetupPacket := {
  bmRequestType : Z;
  bRequest : Z;
  wValue : Z;
  wIndex : Z;
  wLength : Z;
}.

#[export] Instance UsbSetupPacket_packed : Packed UsbSetupPacket := {
  layout := [1; 1; 2; 2; 2]%nat;
  fields s := [bmRequestType s; bRequest s; wValue s; wIndex s; wLength s];
  of_fields vs :=
    let f i := nth i vs 0 in
    Build_UsbSetupPacket (f 0%nat) (f 1%nat) (f 2%nat) (f 3%nat) (f 4%nat);
}.

(** The laws of these layouts: the members are raw unsigned fields, so a
    struct is well formed when each fits its field ([packed_plain]). *)

#[export] Instance UsbDeviceDescriptor_ok : PackedOk UsbDeviceDescriptor.
Proof. packed_plain. Defined.

#[export] Instance UsbInterfaceDescriptor_ok : PackedOk UsbInterfaceDescriptor.
Proof. packed_plain. Defined.

#[export] Instance UsbEndpointDescriptor_ok : PackedOk UsbEndpointDescriptor.
Proof. packed_plain. Defined.

#[export] Instance UsbSetupPacket_ok : PackedOk UsbSetupPacket.
Proof. packed_plain. Defined.

(** ** The URB and the device record *)

Record UsbUrb := {
  urb_id : Z;                 (* uint32_t *)
  urb_type : UsbTransferType;
  urb_direction : UsbDirection;
  urb_endpoint : Z;           (* uint8_t *)
  urb_flags : Z;              (* uint32_t *)
  urb_data : list Z;
  urb_setup : UsbSetupPacket;
  urb_status : Z;             (* int32_t *)
  urb_actual_length : Z;      (* uint32_t *)
  urb_timestamp : Z;          (* uint64_t *)
}.

Definition urb_wf (u : UsbUrb) : Prop :=
  is_u32 (urb_id u) ∧ UsbDirection_wf (urb_direction u) ∧
  is_byte (urb_endpoint u) ∧ is_u32 (urb_flags u) ∧ bytes_ok (urb_data u) ∧
  wf (urb_setup u) ∧ is_i32 (urb_status u) ∧ is_u32 (urb_actual_length u) ∧
  is_u64 (urb_timestamp u).

Record UsbDevice := {
  dev_path : string;
  dev_bus_id : string;
  dev_bus_number : Z;
  dev_device_number : Z;
  dev_speed : UsbSpeed;
  dev_descriptor : UsbDeviceDescriptor;
  dev_config_descriptor : list Z;
  dev_is_connected : bool;
}.

(** ** Facts *)

Lemma UsbDirection_val_range d : UsbDirection_wf d → is_byte (UsbDirection_val d).
Proof. destruct d; simpl; unfold is_byte; lia. Qed.

Lemma UsbDirection_cast_wf x : UsbDirection_wf (UsbDirection_cast x).
Proof.
  unfold UsbDirection_cast. pose proof (u8_range x) as H. unfold is_byte in H.
  destruct (Z.eqb_spec (u8 x) 0); [done|]. destruct (Z.eqb_spec (u8 x) 1); [done|].
  simpl. lia.
Qed.

(** Storing a direction as an integer and casting it back. *)
Lemma UsbDirection_cast_val d :
  UsbDirection_wf d → UsbDirection_cast (UsbDirection_val d) = d.
Proof.
  intros H. unfold UsbDirection_cast.
  rewrite u8_id by by apply UsbDirection_val_range.
  destruct d as [| |v]; simpl in *; [done..|].
  destruct (Z.eqb_spec v 0); [lia|]. by destruct (Z.eqb_spec v 1); [lia|].
Qed.
