(* ===== verification/Buffer.v ===== *)
(** * Buffer: the byte buffer utility

    [common/utils/buffer.{h,cpp}], class [Buffer]: a vector of bytes,
    whose assignments compare addresses.  [Append] and [Prepend] of a buffer to
    itself pass the vector iterators into itself, which the standard does not
    allow; the definitions are for another buffer. *)

From S2P Require Import Prelude Memory.
From stdpp Require Import gmap.
Open Scope Z_scope.

Record Buffer := { data_ : list Z }.

Definition Buffer_of_size (size : nat) : Buffer := {| data_ := replicate size 0 |}.
Definition Buffer_of (data : list Z) : Buffer := {| data_ := data |}.

Definition Size (b : Buffer) : nat := length (data_ b).
Definition Empty (b : Buffer) : bool := bool_decide (data_ b = []).
Definition Resize (size : nat) (b : Buffer) : Buffer := {| data_ := vec_resize size (data_ b) |}.
Definition Clear (b : Buffer) : Buffer := {| data_ := [] |}.

(** The three overloads of each differ in how they name the bytes. *)
Definition Append (data : list Z) (b : Buffer) : Buffer := {| data_ := data_ b ++ data |}.
Definition Prepend (data : list Z) (b : Buffer) : Buffer := {| data_ := data ++ data_ b |}.

Definition Extract (offset size : nat) (b : Buffer) : list Z :=
  if decide (length (data_ b) ≤ offset)%nat then []
  else
    let actual_size := Nat.min size (length (data_ b) - offset) in
    take actual_size (drop offset (data_ b)).
Definition SubBuffer (offset size : nat) (b : Buffer) : Buffer := Buffer_of (Extract offset size b).

(** [std::string::npos] is [None]. *)
Definition Find (pattern : list Z) (start_pos : nat) (b : Buffer) : option nat :=
  if decide (length pattern = 0 ∨ length (data_ b) ≤ start_pos)%nat then None
  else match search pattern (drop start_pos (data_ b)) with
       | Some i => Some (start_pos + i)%nat
       | None => None
       end.

(** [operator[]], unchecked. *)
Definition at_index (b : Buffer) (index : nat) : res Z := vec_at (data_ b) index.

Definition hex_digit (d : Z) : Z := if d <? 10 then 48 + d else 87 + d.
(** [std::setw(2) << unsigned]. *)
Definition hex_byte (c : Z) : list Z := [hex_digit (c / 16); hex_digit (c mod 16)].
(** The characters; a space before every byte but the first. *)
Definition ToHexString (b : Buffer) : list Z :=
  match data_ b with
  | [] => []
  | c :: l => hex_byte c ++ concat (map (λ c, 32 :: hex_byte c) l)
  end.

Definition ToVector (b : Buffer) : list Z := data_ b.
Definition ToString (b : Buffer) : string := string_of_bytes (data_ b).

(** ** Copies and moves

    Assignments compare the addresses of the objects, which are here the keys
    of a heap; [left] is what the moved vector holds afterwards, which the
    standard leaves open (after the move constructor it is empty). *)
Abbreviation buffers := (gmap nat Buffer).

Definition buffer_at (this : nat) : M buffers Buffer := λ hp,
  match hp !! this with Some b => Ok (b, hp) | None => Fault OutOfBounds end.
Definition set_buffer (this : nat) (b : Buffer) : M buffers () := modify (λ hp, <[this := b]> hp).

Definition copy_construct (this other : nat) : M buffers () :=
  b ← buffer_at other; set_buffer this {| data_ := data_ b |}.
Definition copy_assign (this other : nat) : M buffers () :=
  if decide (this = other) then mret ()
  else b ← buffer_at other; buffer_at this;; set_buffer this {| data_ := data_ b |}.
Definition move_construct (this other : nat) : M buffers () :=
  b ← buffer_at other; set_buffer other {| data_ := [] |};; set_buffer this {| data_ := data_ b |}.
Definition move_assign (left : list Z) (this other : nat) : M buffers () :=
  if decide (this = other) then mret ()
  else
    b ← buffer_at other; buffer_at this;;
    set_buffer other {| data_ := left |};; set_buffer this {| data_ := data_ b |}.

(** ** Properties *)

(** Assignments have value semantics, also to the buffer itself: afterwards the
    target holds what the source held and every other buffer what it held; a
    copied source is unchanged, a moved one is not unless it is the target. *)
Theorem assignments_copy_values left this other hp b b' :
  hp !! other = Some b → hp !! this = Some b' →
  ∃ copied moved, copy_assign this other hp = Ok ((), copied) ∧ move_assign left this other hp = Ok ((), moved) ∧
    copied !! this = Some b ∧ moved !! this = Some b ∧ copied !! other = Some b ∧
    (this ≠ other → moved !! other = Some {| data_ := left |}) ∧
    ∀ id, id ≠ this → id ≠ other → copied !! id = hp !! id ∧ moved !! id = hp !! id.
Proof.
  intros Ho Ht. unfold copy_assign, move_assign. case_decide as E.
  - subst other. exists hp, hp. by split_and!.
  - unfold buffer_at, set_buffer, modify, mbind, M_bind. rewrite Ho, Ht. destruct b as [data].
    do 2 eexists. split_and!; [done..| | | | |]; rewrite ?lookup_insert_eq; try done.
    + by rewrite lookup_insert_ne.
    + intros _. by rewrite lookup_insert_ne, lookup_insert_eq.
    + intros id H1 H2. by rewrite !lookup_insert_ne.
Qed.

(** Hexadecimal text determines the bytes. *)
Lemma hex_byte_inj c c' : is_byte c → is_byte c' → hex_byte c = hex_byte c' → c = c'.
Proof.
  unfold is_byte, hex_byte, hex_digit. intros H H' [= E1 E2].
  pose proof (Z.div_mod c 16). pose proof (Z.div_mod c' 16).
  pose proof (Z.mod_pos_bound c 16). pose proof (Z.mod_pos_bound c' 16).
  assert (c / 16 = c' / 16) by (repeat case_match; lia).
  assert (c mod 16 = c' mod 16) by (repeat case_match; lia). lia.
Qed.

Lemma hex_bytes_inj l l' :
  bytes_ok l → bytes_ok l' →
  concat (map (λ c, 32 :: hex_byte c) l) = concat (map (λ c, 32 :: hex_byte c) l') → l = l'.
Proof.
  intros Hl. revert l'. induction Hl as [|c l Hc _ IH]; intros [|c' l'] Hl' E; try done.
  apply Forall_cons in Hl' as [Hc' Hl']. cbn in E. injection E as E1 E2 E3.
  f_equal; [|by apply IH]. apply hex_byte_inj; [done..|]. unfold hex_byte. by rewrite E1, E2.
Qed.

Theorem to_hex_string_injective b b' :
  bytes_ok (data_ b) → bytes_ok (data_ b') → ToHexString b = ToHexString b' → b = b'.
Proof.
  destruct b as [[|c l]], b' as [[|c' l']]; try done. cbn [data_].
  intros [Hc Hl]%Forall_cons [Hc' Hl']%Forall_cons E. unfold ToHexString in E. cbn [data_] in E.
  assert (c = c') as <-.
  { apply hex_byte_inj; [done..|]. unfold hex_byte in *. cbn in E. by injection E as -> -> _. }
  apply app_inv_head in E. do 2 f_equal. by apply hex_bytes_inj.
Qed.

(** Occurrence of a pattern at a position. *)
Definition occurs (pattern data : list Z) (i : nat) : Prop :=
  take (length pattern) (drop i data) = pattern.

Lemma is_prefix_take p l : is_prefix p l = true ↔ take (length p) l = p.
Proof.
  rewrite is_prefix_spec. split.
  - intros [k ->]. apply take_app_length.
  - intros H. exists (drop (length p) l). by rewrite <- H at 1; rewrite take_drop.
Qed.

(** [Find] returns the first occurrence of a non-empty pattern at or after
    the start position, counted from the beginning of the buffer, and nothing
    exactly if there is none; and [Extract] at the position found gives the
    pattern back. *)
Theorem find_first_occurrence pattern start b :
  pattern ≠ [] →
  match Find pattern start b with
  | Some i =>
    (start ≤ i)%nat ∧ (i < Size b)%nat ∧ Extract i (length pattern) b = pattern ∧
    ∀ j, (start ≤ j < i)%nat → ¬ occurs pattern (data_ b) j
  | None => ∀ j, (start ≤ j)%nat → ¬ occurs pattern (data_ b) j
  end.
Proof.
  intros Hp. destruct b as [data]. unfold Find, Extract, Size, occurs. cbn [data_].
  assert (length pattern ≠ 0%nat) as Hl by (destruct pattern; [done|cbn; lia]).
  destruct (decide _) as [[?|Hs]|Hs]; [lia| |].
  - intros j Hj H. rewrite drop_ge, take_nil in H by lia. by destruct pattern.
  - destruct (search pattern (drop start data)) as [i|] eqn:E.
    + destruct (search_Some _ _ _ E) as [H1 H2]. pose proof (search_lt _ _ _ Hp E) as Hi.
      rewrite length_drop in Hi. rewrite drop_drop in H1. apply is_prefix_take in H1.
      split; [lia|]. split; [lia|]. split.
      * rewrite decide_False by lia. rewrite Nat.min_l; [done|].
        apply (f_equal length) in H1. rewrite length_take, length_drop in H1. lia.
      * intros j Hj H. specialize (H2 (j - start)%nat ltac:(lia)). rewrite drop_drop in H2.
        replace (start + (j - start))%nat with j in H2 by lia.
        apply is_prefix_take in H. congruence.
    + intros j Hj H. destruct (search_None _ _ E (j - start)) as [H2|H2]; [|done].
      rewrite drop_drop in H2. replace (start + (j - start))%nat with j in H2 by lia.
      apply is_prefix_take in H. congruence.
Qed.

(** ** Witnesses *)

Lemma assignments_copy_values_witness :
  ∃ copied, copy_assign 1 2 (<[1%nat := Buffer_of [7]]> (<[2%nat := Buffer_of [8; 9]]> ∅)) = Ok ((), copied) ∧
    copied !! 1%nat = Some (Buffer_of [8; 9]).
Proof.
  destruct (assignments_copy_values [] 1 2 (<[1%nat := Buffer_of [7]]> (<[2%nat := Buffer_of [8; 9]]> ∅))
    (Buffer_of [8; 9]) (Buffer_of [7])) as (copied & moved & H1 & _ & H2 & _); [reflexivity..|].
  exists copied. split; [exact H1|exact H2].
Defined.

Lemma to_hex_string_injective_witness : Buffer_of [1; 255] = Buffer_of [1; 255].
Proof.
  apply to_hex_string_injective; [repeat constructor; unfold is_byte; lia..|]. vm_compute. reflexivity.
Defined.

Lemma find_first_occurrence_witness :
  ∃ i, Find [2; 3] 2 (Buffer_of [1; 2; 3; 1; 2; 3]) = Some i ∧
    Extract i 2 (Buffer_of [1; 2; 3; 1; 2; 3]) = [2; 3].
Proof.
  pose proof (find_first_occurrence [2; 3] 2 (Buffer_of [1; 2; 3; 1; 2; 3])) as H.
  assert (Find [2; 3] 2 (Buffer_of [1; 2; 3; 1; 2; 3]) = Some 4%nat) as E by (vm_compute; reflexivity).
  rewrite E in H. destruct H as (_ & _ & H & _); [discriminate|]. exists 4%nat. split; [exact E|exact H].
Defined.
