(* ===== verification/UsbipProtocol.v ===== *)
(** * UsbipProtocol: [common/protocol/usbip_protocol.{h,cpp}]

    The USBIP packet structs, their byte-order conversion, serialisation and
    parsing. [data] pointers with a length are modelled as an optional byte
    string (a null pointer is [None]) together with the length the caller
    claims, so that reading past the string is a fault. *)

From S2P Require Import Prelude Memory UsbTypes.

(** ** Data *)

Definition USBIP_VERSION : Z := 0x0111.

Inductive UsbipOpCode :=
  | OP_REQUEST | OP_REPLY | OP_DEVLIST | OP_IMPORT
  | USBIP_CMD_SUBMIT | USBIP_CMD_UNLINK | USBIP_RET_SUBMIT | USBIP_RET_UNLINK.

Definition UsbipOpCode_val (c : UsbipOpCode) : Z :=
  match c with
  | OP_REQUEST => 0x80000000 | OP_REPLY => 0x00000000
  | OP_DEVLIST => 0x00000005 | OP_IMPORT => 0x00000003
  | USBIP_CMD_SUBMIT => 0x00000001 | USBIP_CMD_UNLINK => 0x00000002
  | USBIP_RET_SUBMIT => 0x00000003 | USBIP_RET_UNLINK => 0x00000004
  end.

Record UsbipHeader := {
  command : Z;
  seqnum : Z;
  devid : Z;
  direction : Z;
  ep : Z;
}.

#[export] Instance UsbipHeader_packed : Packed UsbipHeader := {
  layout := [4; 4; 4; 4; 4]%nat;
  fields x := [command x; seqnum x; devid x; direction x; ep x];
  of_fields vs :=
    let f i := nth i vs 0 in
    Build_UsbipHeader (f 0%nat) (f 1%nat) (f 2%nat) (f 3%nat) (f 4%nat);
}.

Record UsbipCmdSubmit := {
  cmd_header : UsbipHeader;
  transfer_flags : Z;          (* uint32_t *)
  transfer_buffer_length : Z;  (* int32_t *)
  cmd_start_frame : Z;         (* int32_t *)
  cmd_number_of_packets : Z;   (* int32_t *)
  interval : Z;                (* int32_t *)
  setup : Z;                   (* uint64_t *)
}.

#[export] Instance UsbipCmdSubmit_packed : Packed UsbipCmdSubmit := {
  layout := [4; 4; 4; 4; 4; 4; 4; 4; 4; 4; 8]%nat;
  fields x :=
    fields (cmd_header x) ++
    [transfer_flags x; u32 (transfer_buffer_length x); u32 (cmd_start_frame x);
     u32 (cmd_number_of_packets x); u32 (interval x); setup x];
  of_fields vs :=
    let f i := nth i vs 0 in
    Build_UsbipCmdSubmit (of_fields (take 5 vs)) (f 5%nat) (i32 (f 6%nat))
      (i32 (f 7%nat)) (i32 (f 8%nat)) (i32 (f 9%nat)) (f 10%nat);
}.

Record UsbipRetSubmit := {
  ret_header : UsbipHeader;
  ret_status : Z;              (* int32_t *)
  ret_actual_length : Z;       (* int32_t *)
  ret_start_frame : Z;         (* int32_t *)
  ret_number_of_packets : Z;   (* int32_t *)
  error_count : Z;             (* int32_t *)
}.

#[export] Instance UsbipRetSubmit_packed : Packed UsbipRetSubmit := {
  layout := [4; 4; 4; 4; 4; 4; 4; 4; 4; 4]%nat;
  fields x :=
    fields (ret_header x) ++
    [u32 (ret_status x); u32 (ret_actual_length x); u32 (ret_start_frame x);
     u32 (ret_number_of_packets x); u32 (error_count x)];
  of_fields vs :=
    let f i := nth i vs 0 in
    Build_UsbipRetSubmit (of_fields (take 5 vs)) (i32 (f 5%nat)) (i32 (f 6%nat))
      (i32 (f 7%nat)) (i32 (f 8%nat)) (i32 (f 9%nat));
}.

(** [char path[256]] and [char busid[32]] are kept as the bytes they hold. *)
Record UsbipDeviceInfo := {
  path : list Z;
  busid : list Z;
  busnum : Z;
  devnum : Z;
  speed : Z;
  idVendor : Z;
  idProduct : Z;
  bcdDevice : Z;
  bDeviceClass : Z;
  bDeviceSubClass : Z;
  bDeviceProtocol : Z;
  bConfigurationValue : Z;
  bNumConfigurations : Z;
  bNumInterfaces : Z;
}.

Definition device_info_tail_layout : list nat := [4; 4; 4; 2; 2; 2; 1; 1; 1; 1; 1; 1]%nat.

Definition device_info_tail (x : UsbipDeviceInfo) : list Z :=
  [busnum x; devnum x; speed x; idVendor x; idProduct x; bcdDevice x;
   bDeviceClass x; bDeviceSubClass x; bDeviceProtocol x; bConfigurationValue x;
   bNumConfigurations x; bNumInterfaces x].

#[export] Instance UsbipDeviceInfo_packed : Packed UsbipDeviceInfo := {
  layout := replicate 256 1%nat ++ replicate 32 1%nat ++ device_info_tail_layout;
  fields x := path x ++ busid x ++ device_info_tail x;
  of_fields vs :=
    let f i := nth i (drop 32 (drop 256 vs)) 0 in
    Build_UsbipDeviceInfo (take 256 vs) (take 32 (drop 256 vs))
      (f 0%nat) (f 1%nat) (f 2%nat) (f 3%nat) (f 4%nat) (f 5%nat) (f 6%nat)
      (f 7%nat) (f 8%nat) (f 9%nat) (f 10%nat) (f 11%nat);
}.

(** ** Operations *)

Section Protocol.
Context {h : Host}.

(** [HostToNetwork]/[NetworkToHost], one overload per struct. *)
Definition HostToNetwork_Header (x : UsbipHeader) : UsbipHeader := {|
  command := htonl (command x);
  seqnum := htonl (seqnum x);
  devid := htonl (devid x);
  direction := htonl (direction x);
  ep := htonl (ep x);
|}.

Definition NetworkToHost_Header (x : UsbipHeader) : UsbipHeader := {|
  command := ntohl (command x);
  seqnum := ntohl (seqnum x);
  devid := ntohl (devid x);
  direction := ntohl (direction x);
  ep := ntohl (ep x);
|}.

(** The signed members convert to [uint32_t] for the call and back for the
    assignment; [setup] is left alone. *)
Definition HostToNetwork_CmdSubmit (x : UsbipCmdSubmit) : UsbipCmdSubmit := {|
  cmd_header := HostToNetwork_Header (cmd_header x);
  transfer_flags := htonl (transfer_flags x);
  transfer_buffer_length := i32 (htonl (u32 (transfer_buffer_length x)));
  cmd_start_frame := i32 (htonl (u32 (cmd_start_frame x)));
  cmd_number_of_packets := i32 (htonl (u32 (cmd_number_of_packets x)));
  interval := i32 (htonl (u32 (interval x)));
  setup := setup x;
|}.

Definition NetworkToHost_CmdSubmit (x : UsbipCmdSubmit) : UsbipCmdSubmit := {|
  cmd_header := NetworkToHost_Header (cmd_header x);
  transfer_flags := ntohl (transfer_flags x);
  transfer_buffer_length := i32 (ntohl (u32 (transfer_buffer_length x)));
  cmd_start_frame := i32 (ntohl (u32 (cmd_start_frame x)));
  cmd_number_of_packets := i32 (ntohl (u32 (cmd_number_of_packets x)));
  interval := i32 (ntohl (u32 (interval x)));
  setup := setup x;
|}.

Definition HostToNetwork_RetSubmit (x : UsbipRetSubmit) : UsbipRetSubmit := {|
  ret_header := HostToNetwork_Header (ret_header x);
  ret_status := i32 (htonl (u32 (ret_status x)));
  ret_actual_length := i32 (htonl (u32 (ret_actual_length x)));
  ret_start_frame := i32 (htonl (u32 (ret_start_frame x)));
  ret_number_of_packets := i32 (htonl (u32 (ret_number_of_packets x)));
  error_count := i32 (htonl (u32 (error_count x)));
|}.

Definition NetworkToHost_RetSubmit (x : UsbipRetSubmit) : UsbipRetSubmit := {|
  ret_header := NetworkToHost_Header (ret_header x);
  ret_status := i32 (ntohl (u32 (ret_status x)));
  ret_actual_length := i32 (ntohl (u32 (ret_actual_length x)));
  ret_start_frame := i32 (ntohl (u32 (ret_start_frame x)));
  ret_number_of_packets := i32 (ntohl (u32 (ret_number_of_packets x)));
  error_count := i32 (ntohl (u32 (error_count x)));
|}.

(** The byte-order conversion of a device entry in [SerializeDeviceList]. *)
Definition device_to_network (x : UsbipDeviceInfo) : UsbipDeviceInfo := {|
  path := path x; busid := busid x;
  busnum := htonl (busnum x);
  devnum := htonl (devnum x);
  speed := htonl (speed x);
  idVendor := htons (idVendor x);
  idProduct := htons (idProduct x);
  bcdDevice := htons (bcdDevice x);
  bDeviceClass := bDeviceClass x; bDeviceSubClass := bDeviceSubClass x;
  bDeviceProtocol := bDeviceProtocol x;
  bConfigurationValue := bConfigurationValue x;
  bNumConfigurations := bNumConfigurations x; bNumInterfaces := bNumInterfaces x;
|}.

(** The device loop: grow the buffer by one entry and copy into the gap. *)
Fixpoint SerializeDevices (devices : list UsbipDeviceInfo) (buffer : list Z)
    : res (list Z) :=
  match devices with
  | [] => Ok buffer
  | device :: rest =>
    let old_size := length buffer in
    let buffer := vec_resize (old_size + sizeof UsbipDeviceInfo) buffer in
    let net_device := device_to_network device in
    buffer ← memcpy buffer old_size (struct_bytes net_device);
    SerializeDevices rest buffer
  end.

Definition SerializeDeviceList (devices : list UsbipDeviceInfo) : res (list Z) :=
  let op_code := htonl (Z.lor (UsbipOpCode_val OP_REPLY) (UsbipOpCode_val OP_DEVLIST)) in
  let status := htonl 0 in
  let num_devices := htonl (u32 (Z.of_nat (length devices))) in
  let buffer := vec_resize (4 + 4 + 4) [] in
  buffer ← memcpy buffer 0 (mem_store 4 op_code);
  buffer ← memcpy buffer 4 (mem_store 4 status);
  buffer ← memcpy buffer 8 (mem_store 4 num_devices);
  SerializeDevices devices buffer.

(** [if (data && data_len > 0) memcpy(buffer.data() + off, data, data_len)]. *)
Definition copy_payload (buffer : list Z) (off : nat) (data : option (list Z))
    (data_len : nat) : res (list Z) :=
  match data with
  | Some bytes =>
    if decide (0 < data_len)%nat
    then src ← mem_read bytes 0 data_len; memcpy buffer off src
    else Ok buffer
  | None => Ok buffer
  end.

Definition SerializeCmdSubmit (cmd : UsbipCmdSubmit) (data : option (list Z))
    (data_len : nat) : res (list Z) :=
  let buffer := vec_resize (sizeof UsbipCmdSubmit + data_len) [] in
  let net_cmd := HostToNetwork_CmdSubmit cmd in
  buffer ← memcpy buffer 0 (struct_bytes net_cmd);
  copy_payload buffer (sizeof UsbipCmdSubmit) data data_len.

Definition SerializeRetSubmit (ret : UsbipRetSubmit) (data : option (list Z))
    (data_len : nat) : res (list Z) :=
  let buffer := vec_resize (sizeof UsbipRetSubmit + data_len) [] in
  let net_ret := HostToNetwork_RetSubmit ret in
  buffer ← memcpy buffer 0 (struct_bytes net_ret);
  copy_payload buffer (sizeof UsbipRetSubmit) data data_len.

(** The parsers return [None] for [false]. *)
Definition ParseHeader (data : list Z) (len : nat) : res (option UsbipHeader) :=
  if decide (len < sizeof UsbipHeader)%nat then Ok None
  else bytes ← mem_read data 0 (sizeof UsbipHeader);
       Ok (Some (NetworkToHost_Header (struct_load bytes))).

Definition ParseCmdSubmit (data : list Z) (len : nat) : res (option UsbipCmdSubmit) :=
  if decide (len < sizeof UsbipCmdSubmit)%nat then Ok None
  else bytes ← mem_read data 0 (sizeof UsbipCmdSubmit);
       Ok (Some (NetworkToHost_CmdSubmit (struct_load bytes))).

Definition ParseRetSubmit (data : list Z) (len : nat) : res (option UsbipRetSubmit) :=
  if decide (len < sizeof UsbipRetSubmit)%nat then Ok None
  else bytes ← mem_read data 0 (sizeof UsbipRetSubmit);
       Ok (Some (NetworkToHost_RetSubmit (struct_load bytes))).
End Protocol.

(** ** Well-formed structs *)

#[export] Instance UsbipHeader_ok : PackedOk UsbipHeader.
Proof. packed_plain. Defined.

Definition UsbipCmdSubmit_wf (x : UsbipCmdSubmit) : Prop :=
  wf (cmd_header x) ∧ is_u32 (transfer_flags x) ∧
  is_i32 (transfer_buffer_length x) ∧ is_i32 (cmd_start_frame x) ∧
  is_i32 (cmd_number_of_packets x) ∧ is_i32 (interval x) ∧ is_u64 (setup x).

Definition UsbipRetSubmit_wf (x : UsbipRetSubmit) : Prop :=
  wf (ret_header x) ∧ is_i32 (ret_status x) ∧ is_i32 (ret_actual_length x) ∧
  is_i32 (ret_start_frame x) ∧ is_i32 (ret_number_of_packets x) ∧
  is_i32 (error_count x).

Lemma u32_field x : field_ok 4 (u32 x).
Proof. apply u32_range. Qed.
Lemma u32_i32_field v : field_ok 4 v → u32 (i32 v) = v.
Proof. intros H. rewrite u32_i32. by apply u32_id. Qed.

#[export] Hint Resolve u32_field : usb.
#[export] Hint Rewrite u32_i32_field i32_u32 using assumption : usb.

Ltac solve_fields :=
  repeat first [assumption | apply List.Forall2_nil | apply u32_field | apply i32_range
               | apply List.Forall2_cons].

#[export] Instance UsbipCmdSubmit_ok : PackedOk UsbipCmdSubmit.
Proof.
  apply (Build_PackedOk _ _ UsbipCmdSubmit_wf).
  - intros x (Hh & ? & _ & _ & _ & _ & ?). cbn.
    cbn in Hh. forall2_inv. solve_fields.
  - intros [[] f l s n i st] (_ & _ & ? & ? & ? & ? & _); cbn in *.
    by autorewrite with usb.
  - intros vs Hvs. cbn in Hvs. forall2_inv. cbn. by autorewrite with usb.
  - intros vs Hvs. cbn in Hvs. forall2_inv.
    split_and!; cbn; solve_fields.
Defined.

#[export] Instance UsbipRetSubmit_ok : PackedOk UsbipRetSubmit.
Proof.
  apply (Build_PackedOk _ _ UsbipRetSubmit_wf).
  - intros x (Hh & _ & _ & _ & _ & _). cbn.
    cbn in Hh. forall2_inv. solve_fields.
  - intros [[] f l s n i] (_ & ? & ? & ? & ? & ?); cbn in *.
    by autorewrite with usb.
  - intros vs Hvs. cbn in Hvs. forall2_inv. cbn. by autorewrite with usb.
  - intros vs Hvs. cbn in Hvs. forall2_inv.
    split_and!; cbn; solve_fields.
Defined.

Definition UsbipDeviceInfo_wf (x : UsbipDeviceInfo) : Prop :=
  length (path x) = 256%nat ∧ bytes_ok (path x) ∧
  length (busid x) = 32%nat ∧ bytes_ok (busid x) ∧
  Forall2 field_ok device_info_tail_layout (device_info_tail x).

Lemma Forall2_field_bytes n l :
  Forall2 field_ok (replicate n 1%nat) l ↔ length l = n ∧ bytes_ok l.
Proof.
  revert l. induction n as [|n IH]; intros l; simpl.
  - split; [intros H; inversion H; by auto|]. by intros [->%nil_length_inv _].
  - destruct l as [|b l]; simpl.
    + split; [intros H; inversion H|by intros [? _]].
    + rewrite Forall2_cons, IH, Forall_cons.
      change (field_ok 1 b) with (is_byte b).
      split; [intros (? & -> & ?); auto|intros ([= ->] & ? & ?); auto].
Qed.

#[export] Instance UsbipDeviceInfo_ok : PackedOk UsbipDeviceInfo.
Proof.
  apply (Build_PackedOk _ _ UsbipDeviceInfo_wf).
  - intros x (Hp & Hpb & Hb & Hbb & Ht).
    apply Forall2_app; [by apply Forall2_field_bytes|].
    apply Forall2_app; [by apply Forall2_field_bytes|done].
  - intros x (Hp & _ & Hb & _ & _). cbn [fields of_fields UsbipDeviceInfo_packed].
    rewrite take_app_length', drop_app_length' by done.
    rewrite take_app_length', drop_app_length' by done. by destruct x.
  - intros vs Hvs. cbn [layout UsbipDeviceInfo_packed] in Hvs.
    apply Forall2_app_inv_l in Hvs as (p & r & Hp & Hr & ->).
    apply Forall2_app_inv_l in Hr as (b & t & Hb & Ht & ->).
    apply Forall2_field_bytes in Hp as [Hp _], Hb as [Hb _].
    cbn [fields of_fields UsbipDeviceInfo_packed path busid device_info_tail
         busnum devnum speed idVendor idProduct bcdDevice bDeviceClass
         bDeviceSubClass bDeviceProtocol bConfigurationValue bNumConfigurations
         bNumInterfaces].
    rewrite take_app_length', drop_app_length' by done.
    rewrite take_app_length', drop_app_length' by done.
    unfold device_info_tail_layout in Ht. forall2_inv. done.
  - intros vs Hvs. cbn [layout UsbipDeviceInfo_packed] in Hvs.
    apply Forall2_app_inv_l in Hvs as (p & r & Hp & Hr & ->).
    apply Forall2_app_inv_l in Hr as (b & t & Hb & Ht & ->).
    apply Forall2_field_bytes in Hp as [Hp Hpb], Hb as [Hb Hbb].
    cbn [of_fields UsbipDeviceInfo_packed]. unfold UsbipDeviceInfo_wf.
    cbn [path busid]. unfold device_info_tail.
    cbn [busnum devnum speed idVendor idProduct bcdDevice bDeviceClass
         bDeviceSubClass bDeviceProtocol bConfigurationValue bNumConfigurations
         bNumInterfaces].
    rewrite take_app_length', drop_app_length' by done.
    rewrite take_app_length', drop_app_length' by done.
    split_and!; try done. unfold device_info_tail_layout in *. forall2_inv.
    cbn [nth]. solve_fields.
Defined.

(** ** Lemmas on the conversions *)

Section ProtocolLemmas.
Context {h : Host}.

Lemma htonl_field v : field_ok 4 v → field_ok 4 (htonl v).
Proof. apply hton_range. Qed.
Lemma htons_field v : field_ok 2 v → field_ok 2 (htons v).
Proof. apply hton_range. Qed.

Lemma ntohl_htonl v : field_ok 4 v → ntohl (htonl v) = v.
Proof. apply hton_involutive. Qed.
Lemma ntohs_htons v : field_ok 2 v → ntohs (htons v) = v.
Proof. apply hton_involutive. Qed.

(** A signed member through the unsigned conversion functions. *)
Lemma signed_ntohl_htonl v : is_i32 v → i32 (ntohl (u32 (i32 (htonl (u32 v))))) = v.
Proof.
  intros Hv. rewrite u32_i32_field by apply htonl_field, u32_field.
  rewrite ntohl_htonl by apply u32_field. by apply i32_u32.
Qed.

Lemma u32_i32_htonl v : u32 (i32 (htonl (u32 v))) = htonl (u32 v).
Proof. apply u32_i32_field, htonl_field, u32_field. Qed.

Lemma wf_HostToNetwork_Header x : wf x → wf (HostToNetwork_Header x).
Proof.
  intros Hx. cbn in Hx |- *. forall2_inv.
  repeat first [apply List.Forall2_nil | apply List.Forall2_cons | by apply htonl_field].
Qed.

Lemma wf_HostToNetwork_CmdSubmit x : wf x → wf (HostToNetwork_CmdSubmit x).
Proof.
  intros (Hh & Hf & _ & _ & _ & _ & Hs).
  split_and!;
    first [by apply wf_HostToNetwork_Header | apply i32_range | by apply htonl_field | done].
Qed.

Lemma wf_HostToNetwork_RetSubmit x : wf x → wf (HostToNetwork_RetSubmit x).
Proof.
  intros (Hh & _).
  split_and!; first [by apply wf_HostToNetwork_Header | apply i32_range].
Qed.

Lemma wf_device_to_network x : wf x → wf (device_to_network x).
Proof.
  intros (? & ? & ? & ? & Ht). cbn. unfold UsbipDeviceInfo_wf; cbn [path busid].
  split_and!; try done.
  unfold device_info_tail_layout, device_info_tail in *. cbn in *. forall2_inv.
  repeat first [assumption | apply List.Forall2_nil | apply List.Forall2_cons
               | by apply htonl_field | by apply htons_field].
Qed.

Lemma NetworkToHost_HostToNetwork_Header x :
  wf x → NetworkToHost_Header (HostToNetwork_Header x) = x.
Proof.
  destruct x. intros Hx. cbn in Hx. forall2_inv.
  unfold NetworkToHost_Header, HostToNetwork_Header. cbn.
  by rewrite !ntohl_htonl.
Qed.

Lemma NetworkToHost_HostToNetwork_CmdSubmit x :
  wf x → NetworkToHost_CmdSubmit (HostToNetwork_CmdSubmit x) = x.
Proof.
  destruct x. intros (Hh & Hf & ? & ? & ? & ? & Hs).
  unfold NetworkToHost_CmdSubmit, HostToNetwork_CmdSubmit. cbn in *.
  rewrite NetworkToHost_HostToNetwork_Header by done.
  by rewrite ntohl_htonl, !signed_ntohl_htonl.
Qed.

Lemma NetworkToHost_HostToNetwork_RetSubmit x :
  wf x → NetworkToHost_RetSubmit (HostToNetwork_RetSubmit x) = x.
Proof.
  destruct x. intros (Hh & ? & ? & ? & ? & ?).
  unfold NetworkToHost_RetSubmit, HostToNetwork_RetSubmit. cbn in *.
  rewrite NetworkToHost_HostToNetwork_Header by done.
  by rewrite !signed_ntohl_htonl.
Qed.

(** [htonl] and [ntohl] are the same function, so the two directions of
    every struct conversion are too. *)
Lemma HostToNetwork_CmdSubmit_flip x :
  HostToNetwork_CmdSubmit x = NetworkToHost_CmdSubmit x.
Proof. done. Qed.
Lemma HostToNetwork_RetSubmit_flip x :
  HostToNetwork_RetSubmit x = NetworkToHost_RetSubmit x.
Proof. done. Qed.
Lemma HostToNetwork_Header_flip x : HostToNetwork_Header x = NetworkToHost_Header x.
Proof. done. Qed.

(** ** The bytes on the wire *)

Lemma store_htonl v : mem_store 4 (htonl v) = be_bytes 4 v.
Proof. apply mem_store_hton. Qed.
Lemma store_htons v : mem_store 2 (htons v) = be_bytes 2 v.
Proof. apply mem_store_hton. Qed.
Lemma store_byte v : mem_store 1 v = be_bytes 1 v.
Proof. unfold mem_store. by case_match. Qed.

(** A command on the wire: every field big-endian except [setup], whose
    eight bytes are the sender's memory as it is. *)
Definition cmd_wire (x : UsbipCmdSubmit) : list Z :=
  concat (zip_with be_bytes (replicate 10 4%nat) (take 10 (fields x)))
  ++ mem_store 8 (setup x).

Lemma struct_bytes_HostToNetwork_Header x :
  struct_bytes (HostToNetwork_Header x) = struct_be_bytes x.
Proof. unfold struct_bytes, struct_be_bytes. cbn. by rewrite !store_htonl. Qed.

Lemma struct_bytes_HostToNetwork_CmdSubmit x :
  struct_bytes (HostToNetwork_CmdSubmit x) = cmd_wire x.
Proof.
  unfold struct_bytes, cmd_wire. cbn. rewrite !u32_i32_htonl, !store_htonl.
  by rewrite <- !app_assoc, app_nil_r.
Qed.

Lemma struct_bytes_HostToNetwork_RetSubmit x :
  struct_bytes (HostToNetwork_RetSubmit x) = struct_be_bytes x.
Proof.
  unfold struct_bytes, struct_be_bytes. cbn. by rewrite !u32_i32_htonl, !store_htonl.
Qed.

Lemma zip_store_bytes n l :
  zip_with mem_store (replicate n 1%nat) l = zip_with be_bytes (replicate n 1%nat) l.
Proof.
  revert l. induction n as [|n IH]; intros [|v l]; simpl; try done.
  by rewrite store_byte, IH.
Qed.

Lemma struct_bytes_device_to_network x :
  wf x → struct_bytes (device_to_network x) = struct_be_bytes x.
Proof.
  intros (Hp & _ & Hb & _ & _). unfold struct_bytes, struct_be_bytes.
  cbn [layout fields UsbipDeviceInfo_packed device_to_network path busid].
  rewrite !zip_with_app by by rewrite length_replicate.
  rewrite !zip_store_bytes. cbn [device_info_tail_layout device_info_tail zip_with
    device_to_network busnum devnum speed idVendor idProduct bcdDevice
    bDeviceClass bDeviceSubClass bDeviceProtocol bConfigurationValue
    bNumConfigurations bNumInterfaces].
  by rewrite !store_htonl, !store_htons, !store_byte.
Qed.

Lemma copy_payload_spec pre d :
  copy_payload (pre ++ replicate (length d) 0) (length pre) (Some d) (length d)
  = Ok (pre ++ d).
Proof.
  unfold copy_payload. case_decide as Hl.
  - rewrite mem_read_0 by done. cbn. rewrite take_ge by done. by apply memcpy_tail_exact.
  - destruct d; [done|]. simpl in Hl. lia.
Qed.

Lemma serialize_struct {A} `{PackedOk A} (x : A) d :
  wf x →
  (buffer ← memcpy (vec_resize (sizeof A + length d) []) 0 (struct_bytes x);
   copy_payload buffer (sizeof A) (Some d) (length d)) = Ok (struct_bytes x ++ d).
Proof.
  intros Hx. rewrite vec_resize_nil.
  rewrite memcpy_head by (rewrite length_struct_bytes by done; lia).
  rewrite length_struct_bytes by done.
  replace (sizeof A + length d - sizeof A)%nat with (length d) by lia.
  cbn. rewrite <- (length_struct_bytes x) by done. apply copy_payload_spec.
Qed.

Lemma SerializeCmdSubmit_wire cmd d :
  wf cmd → SerializeCmdSubmit cmd (Some d) (length d) = Ok (cmd_wire cmd ++ d).
Proof.
  intros Hc. rewrite <- struct_bytes_HostToNetwork_CmdSubmit.
  apply serialize_struct, wf_HostToNetwork_CmdSubmit, Hc.
Qed.

Lemma SerializeRetSubmit_wire ret d :
  wf ret → SerializeRetSubmit ret (Some d) (length d) = Ok (struct_be_bytes ret ++ d).
Proof.
  intros Hc. rewrite <- struct_bytes_HostToNetwork_RetSubmit.
  apply serialize_struct, wf_HostToNetwork_RetSubmit, Hc.
Qed.

Lemma length_cmd_wire cmd : wf cmd → length (cmd_wire cmd) = 48%nat.
Proof.
  intros Hc. rewrite <- struct_bytes_HostToNetwork_CmdSubmit.
  by rewrite length_struct_bytes by by apply wf_HostToNetwork_CmdSubmit.
Qed.

(** The parsers on bytes that are long enough. *)
Lemma ParseCmdSubmit_read bs len :
  (48 ≤ len)%nat → (len ≤ length bs)%nat →
  ParseCmdSubmit bs len
  = Ok (Some (NetworkToHost_CmdSubmit (struct_load (take 48 bs)))).
Proof.
  intros H1 H2. unfold ParseCmdSubmit. change (sizeof UsbipCmdSubmit) with 48%nat.
  rewrite decide_False by lia. by rewrite mem_read_0 by lia.
Qed.

Lemma ParseRetSubmit_read bs len :
  (40 ≤ len)%nat → (len ≤ length bs)%nat →
  ParseRetSubmit bs len
  = Ok (Some (NetworkToHost_RetSubmit (struct_load (take 40 bs)))).
Proof.
  intros H1 H2. unfold ParseRetSubmit. change (sizeof UsbipRetSubmit) with 40%nat.
  rewrite decide_False by lia. by rewrite mem_read_0 by lia.
Qed.

Lemma ParseCmdSubmit_wire cmd d :
  wf cmd →
  ParseCmdSubmit (cmd_wire cmd ++ d) (length (cmd_wire cmd ++ d)) = Ok (Some cmd).
Proof.
  intros Hc. pose proof (length_cmd_wire cmd Hc) as Hl.
  rewrite ParseCmdSubmit_read by (rewrite ?length_app; lia).
  rewrite take_app_length' by done.
  rewrite <- struct_bytes_HostToNetwork_CmdSubmit.
  rewrite <- (app_nil_r (struct_bytes _)).
  rewrite struct_load_bytes by by apply wf_HostToNetwork_CmdSubmit.
  by rewrite NetworkToHost_HostToNetwork_CmdSubmit.
Qed.

(** ** Device list *)

Definition device_list_wire (devices : list UsbipDeviceInfo) : list Z :=
  be_bytes 4 5 ++ be_bytes 4 0 ++ be_bytes 4 (u32 (Z.of_nat (length devices)))
  ++ concat (map struct_be_bytes devices).

Lemma SerializeDevices_spec devices buffer :
  Forall wf devices →
  SerializeDevices devices buffer = Ok (buffer ++ concat (map struct_be_bytes devices)).
Proof.
  intros Hd. revert buffer. induction Hd as [|x devices Hx _ IH]; intros buffer; cbn [SerializeDevices].
  { by rewrite app_nil_r. }
  rewrite vec_resize_app, memcpy_tail_exact; [|by apply length_struct_bytes, wf_device_to_network|done].
  cbn [mbind res_bind map concat]. rewrite IH.
  by rewrite struct_bytes_device_to_network, <- app_assoc.
Qed.

Lemma SerializeDeviceList_wire devices :
  Forall wf devices → SerializeDeviceList devices = Ok (device_list_wire devices).
Proof.
  intros Hd. unfold SerializeDeviceList, device_list_wire.
  change (Z.lor _ _) with 5. rewrite !store_htonl.
  generalize (u32 (Z.of_nat (length devices))). intros n.
  change (vec_resize (4 + 4 + 4) []) with (replicate 12 0).
  rewrite memcpy_head by (rewrite length_be_bytes; lia). cbn [mbind res_bind app].
  rewrite length_be_bytes. change (12 - 4)%nat with 8%nat.
  change 4%nat with (length (be_bytes 4 5)) at 2.
  rewrite memcpy_tail by (rewrite length_be_bytes; lia). cbn [mbind res_bind].
  rewrite length_be_bytes. change (8 - 4)%nat with 4%nat.
  rewrite (app_assoc _ _ (replicate 4 0)).
  rewrite memcpy_tail_exact; [|apply length_be_bytes|done].
  cbn [mbind res_bind]. rewrite SerializeDevices_spec by done.
  by rewrite <- !app_assoc.
Qed.
End ProtocolLemmas.

(** ** Properties *)

(** C21: Round trip of a submit command: serialising a well-formed command with
    its data never writes out of bounds, produces 48 bytes and the data, and
    parsing the result gives the command back. *)
Theorem cmd_submit_roundtrip {h : Host} cmd d :
  wf cmd →
  ∃ wire, SerializeCmdSubmit cmd (Some d) (length d) = Ok wire ∧
    length wire = (48 + length d)%nat ∧ drop 48 wire = d ∧
    ParseCmdSubmit wire (length wire) = Ok (Some cmd).
Proof.
  intros Hc. pose proof (length_cmd_wire cmd Hc) as Hl.
  exists (cmd_wire cmd ++ d). split; [by apply SerializeCmdSubmit_wire|].
  split; [by rewrite length_app, Hl|].
  split; [by apply drop_app_length'|by apply ParseCmdSubmit_wire].
Qed.

(** The command parser is exact: it refuses precisely the inputs shorter
    than 48 bytes, and on any other bytes returns a well-formed command whose
    serialisation, with the remaining bytes as data, is the input. *)
Theorem cmd_submit_parse_exact {h : Host} bs :
  bytes_ok bs →
  ((length bs < 48)%nat ∧ ParseCmdSubmit bs (length bs) = Ok None) ∨
  ((48 ≤ length bs)%nat ∧ ∃ cmd,
     ParseCmdSubmit bs (length bs) = Ok (Some cmd) ∧ wf cmd ∧
     SerializeCmdSubmit cmd (Some (drop 48 bs)) (length (drop 48 bs)) = Ok bs).
Proof.
  intros Hb. destruct (decide (length bs < 48)%nat) as [Hlt|Hge].
  { left. split; [done|]. unfold ParseCmdSubmit. by rewrite decide_True. }
  right. split; [lia|]. set (raw := struct_load (take 48 bs) : UsbipCmdSubmit).
  assert (length (take 48 bs) = 48%nat) as Hl by (rewrite length_take; lia).
  assert (wf raw) as Hraw by (apply wf_struct_load; [auto with usb|by rewrite Hl]).
  assert (wf (NetworkToHost_CmdSubmit raw)) as Hw by by apply wf_HostToNetwork_CmdSubmit.
  exists (NetworkToHost_CmdSubmit raw).
  split; [apply ParseCmdSubmit_read; lia|]. split; [done|].
  rewrite SerializeCmdSubmit_wire by done.
  rewrite <- struct_bytes_HostToNetwork_CmdSubmit.
  change (NetworkToHost_CmdSubmit raw) with (HostToNetwork_CmdSubmit raw).
  rewrite (HostToNetwork_CmdSubmit_flip (HostToNetwork_CmdSubmit raw)).
  rewrite NetworkToHost_HostToNetwork_CmdSubmit by done.
  unfold raw. rewrite struct_bytes_load by (auto with usb). by rewrite take_drop.
Qed.

(** Round trip of a submit reply: 40 bytes and the data, parsed back to the
    same reply. *)
Theorem ret_submit_roundtrip {h : Host} ret d :
  wf ret →
  ∃ wire, SerializeRetSubmit ret (Some d) (length d) = Ok wire ∧
    length wire = (40 + length d)%nat ∧ drop 40 wire = d ∧
    ParseRetSubmit wire (length wire) = Ok (Some ret).
Proof.
  intros Hc. assert (length (struct_be_bytes ret) = 40%nat) as Hl
    by by rewrite length_struct_be_bytes.
  exists (struct_be_bytes ret ++ d). split; [by apply SerializeRetSubmit_wire|].
  split; [by rewrite length_app, Hl|]. split; [by apply drop_app_length'|].
  rewrite ParseRetSubmit_read by (rewrite ?length_app; lia).
  rewrite take_app_length' by done.
  rewrite <- struct_bytes_HostToNetwork_RetSubmit.
  rewrite <- (app_nil_r (struct_bytes _)).
  rewrite struct_load_bytes by by apply wf_HostToNetwork_RetSubmit.
  by rewrite NetworkToHost_HostToNetwork_RetSubmit.
Qed.

(** The wire format does not depend on the byte order of the host that
    writes it, for replies and device lists; for commands it does not either,
    except that the eight bytes of [setup] are the host's own memory: they
    differ between hosts of different order unless the value reads the same
    both ways. *)
Theorem wire_host_independent (h1 h2 : Host) cmd ret devices d :
  wf cmd → wf ret → Forall wf devices →
  SerializeRetSubmit (h := h1) ret (Some d) (length d)
  = SerializeRetSubmit (h := h2) ret (Some d) (length d) ∧
  SerializeDeviceList (h := h1) devices = SerializeDeviceList (h := h2) devices ∧
  (SerializeCmdSubmit (h := h1) cmd (Some d) (length d)
   = SerializeCmdSubmit (h := h2) cmd (Some d) (length d)
   ↔ h1 = h2 ∨ le_bytes 8 (setup cmd) = be_bytes 8 (setup cmd)).
Proof.
  intros Hc Hr Hd. split; [by rewrite !SerializeRetSubmit_wire|].
  split; [by rewrite !SerializeDeviceList_wire|].
  rewrite !SerializeCmdSubmit_wire by done. unfold cmd_wire. split.
  - intros [= E]. apply app_inv_tail in E.
    unfold mem_store, host_order in E. destruct h1, h2; auto.
  - intros [->|E]; [done|]. do 3 f_equal. unfold mem_store, host_order.
    by destruct h1, h2.
Qed.

(** ** Witnesses *)

Definition sample_cmd : UsbipCmdSubmit := {|
  cmd_header := {| command := 1; seqnum := 7; devid := 0; direction := 0; ep := 2 |};
  transfer_flags := 0; transfer_buffer_length := 3; cmd_start_frame := -1;
  cmd_number_of_packets := 0; interval := 0; setup := 0x0012000001000680 |}.

Definition sample_ret : UsbipRetSubmit := {|
  ret_header := {| command := 3; seqnum := 7; devid := 0; direction := 1; ep := 1 |};
  ret_status := -32; ret_actual_length := 3; ret_start_frame := 0;
  ret_number_of_packets := 0; error_count := 0 |}.

Lemma sample_cmd_wf : wf sample_cmd.
Proof.
  split; [|by vm_compute].
  repeat (apply List.Forall2_cons; [by vm_compute|]); apply List.Forall2_nil.
Qed.
Lemma sample_ret_wf : wf sample_ret.
Proof.
  split; [|by vm_compute].
  repeat (apply List.Forall2_cons; [by vm_compute|]); apply List.Forall2_nil.
Qed.

Lemma cmd_submit_roundtrip_witness :
  ∃ wire, SerializeCmdSubmit (h := LittleEndian) sample_cmd (Some [1; 2; 3]) 3 = Ok wire ∧
    length wire = 51%nat ∧ drop 48 wire = [1; 2; 3] ∧
    ParseCmdSubmit (h := LittleEndian) wire (length wire) = Ok (Some sample_cmd).
Proof. apply (cmd_submit_roundtrip (h := LittleEndian)), sample_cmd_wf. Defined.

Lemma cmd_submit_parse_exact_witness :
  ∃ cmd, ParseCmdSubmit (h := LittleEndian) (replicate 50 0) 50 = Ok (Some cmd) ∧
    SerializeCmdSubmit (h := LittleEndian) cmd (Some [0; 0]) 2 = Ok (replicate 50 0).
Proof.
  destruct (cmd_submit_parse_exact (h := LittleEndian) (replicate 50 0)) as [[H _]|[_ (cmd & H1 & _ & H2)]].
  - apply bytes_ok_replicate_0.
  - vm_compute in H. lia.
  - exists cmd. split; [apply H1|apply H2].
Defined.

Lemma ret_submit_roundtrip_witness :
  ∃ wire, SerializeRetSubmit (h := LittleEndian) sample_ret (Some [1; 2; 3]) 3 = Ok wire ∧
    length wire = 43%nat ∧ drop 40 wire = [1; 2; 3] ∧
    ParseRetSubmit (h := LittleEndian) wire (length wire) = Ok (Some sample_ret).
Proof. apply (ret_submit_roundtrip (h := LittleEndian)), sample_ret_wf. Defined.

Lemma wire_host_independent_witness :
  SerializeRetSubmit (h := LittleEndian) sample_ret (Some [9]) 1
  = SerializeRetSubmit (h := BigEndian) sample_ret (Some [9]) 1 ∧
  SerializeCmdSubmit (h := LittleEndian) sample_cmd (Some [9]) 1
  ≠ SerializeCmdSubmit (h := BigEndian) sample_cmd (Some [9]) 1.
Proof.
  destruct (wire_host_independent LittleEndian BigEndian sample_cmd sample_ret [] [9])
    as (H1 & _ & H2); [apply sample_cmd_wf|apply sample_ret_wf|constructor|].
  split; [apply H1|]. intros E. apply H2 in E as [E|E]; [done|]. by vm_compute in E.
Defined.
