(* ===== verification/MessageHandler.v ===== *)
(** * MessageHandler: [common/network/message_handler.{h,cpp}]

    The application's framing over TCP: a 20-byte header (magic, type, length,
    sequence, checksum, all in network order) and a payload. The receive side
    is [ProcessReceivedData]: its output is the list of messages handed to the
    message callback, in order. The callback runs while the handler's mutex is
    held and cannot reach [receive_buffer_], so listing the calls instead of
    making them inside the loop loses nothing. [next_sequence_] is a static
    counter, threaded as the state of the monad [M Z]. *)

From S2P Require Import Prelude Memory UsbTypes UsbipProtocol.

(** ** Data *)

Inductive MessageType :=
  | DEVICE_LIST_REQUEST | DEVICE_LIST_RESPONSE | DEVICE_IMPORT_REQUEST
  | DEVICE_IMPORT_RESPONSE | URB_SUBMIT | URB_RESPONSE | DEVICE_DISCONNECT
  | HEARTBEAT.
#[export] Instance MessageType_eq_dec : EqDecision MessageType.
Proof. solve_decision. Defined.

Definition MessageType_val (t : MessageType) : Z :=
  match t with
  | DEVICE_LIST_REQUEST => 1 | DEVICE_LIST_RESPONSE => 2
  | DEVICE_IMPORT_REQUEST => 3 | DEVICE_IMPORT_RESPONSE => 4
  | URB_SUBMIT => 5 | URB_RESPONSE => 6 | DEVICE_DISCONNECT => 7 | HEARTBEAT => 8
  end.

(** [switch (static_cast<MessageType>(x))]: the case taken, [None] for
    [default]. *)
Definition MessageType_cast (x : Z) : option MessageType :=
  match x with
  | 1 => Some DEVICE_LIST_REQUEST | 2 => Some DEVICE_LIST_RESPONSE
  | 3 => Some DEVICE_IMPORT_REQUEST | 4 => Some DEVICE_IMPORT_RESPONSE
  | 5 => Some URB_SUBMIT | 6 => Some URB_RESPONSE
  | 7 => Some DEVICE_DISCONNECT | 8 => Some HEARTBEAT
  | _ => None
  end.

Record MessageHeader := {
  magic : Z;
  type : Z;
  msg_length : Z;
  sequence : Z;
  checksum : Z;
}.

#[export] Instance MessageHeader_packed : Packed MessageHeader := {
  layout := [4; 4; 4; 4; 4]%nat;
  fields x := [magic x; type x; msg_length x; sequence x; checksum x];
  of_fields vs :=
    let f i := nth i vs 0 in
    Build_MessageHeader (f 0%nat) (f 1%nat) (f 2%nat) (f 3%nat) (f 4%nat);
}.

#[export] Instance MessageHeader_ok : PackedOk MessageHeader.
Proof. packed_plain. Defined.

Record NetworkMessage := {
  header : MessageHeader;
  payload : list Z;
}.

Definition MESSAGE_MAGIC : Z := 0x55534249.
Definition MAX_MESSAGE_SIZE : Z := 1024 * 1024.

(** Characters of a [std::string] as bytes. *)
Definition string_bytes (s : string) : list Z :=
  map (λ c, Z.of_nat (Ascii.nat_of_ascii c)) (String.list_ascii_of_string s).

(** ** Building messages *)

(** [return next_sequence_++] on a [uint32_t]. *)
Definition GetNextSequence : M Z Z :=
  λ next_sequence, Ok (next_sequence, u32 (next_sequence + 1)).

(** [NetworkMessage(type, data)]. *)
Definition NetworkMessage_new (t : MessageType) (data : list Z) : M Z NetworkMessage :=
  seq ← GetNextSequence;
  mret {| header := {|
            magic := MESSAGE_MAGIC;
            type := MessageType_val t;
            msg_length := u32 (Z.of_nat (length data));
            sequence := seq;
            checksum := 0 |};
          payload := data |}.

Definition CreateDeviceListRequest : M Z NetworkMessage :=
  NetworkMessage_new DEVICE_LIST_REQUEST [].

Definition CreateDeviceImportRequest (bus_id : list Z) : M Z NetworkMessage :=
  NetworkMessage_new DEVICE_IMPORT_REQUEST bus_id.

Definition CreateDeviceImportResponse (success : bool) (error : string) : M Z NetworkMessage :=
  let data := [if success then 1 else 0] in
  let data := if negb success && negb (bool_decide (error = ""%string))
              then data ++ string_bytes error else data in
  NetworkMessage_new DEVICE_IMPORT_RESPONSE data.

(** The URB is not serialised: both messages carry an empty payload. *)
Definition CreateUrbSubmit (urb : UsbUrb) : M Z NetworkMessage :=
  NetworkMessage_new URB_SUBMIT [].
Definition CreateUrbResponse (urb : UsbUrb) : M Z NetworkMessage :=
  NetworkMessage_new URB_RESPONSE [].

Definition CreateDeviceDisconnect (bus_id : list Z) : M Z NetworkMessage :=
  NetworkMessage_new DEVICE_DISCONNECT bus_id.

Definition CreateHeartbeat : M Z NetworkMessage :=
  NetworkMessage_new HEARTBEAT [].

Section Handler.
Context {h : Host}.

Definition CreateDeviceListResponse (devices : list UsbipDeviceInfo) : M Z NetworkMessage :=
  data ← lift (SerializeDeviceList devices);
  NetworkMessage_new DEVICE_LIST_RESPONSE data.

(** ** Checksums and byte order *)

Definition CalculateChecksum (data : list Z) (len : nat) : res Z :=
  bytes ← mem_read data 0 len;
  Ok (foldl (λ checksum b, u32 (checksum + b)) 0 bytes).

(** The header conversion written out at each use: [htonl]/[ntohl] of every
    member. *)
Definition header_to_network (x : MessageHeader) : MessageHeader := {|
  magic := htonl (magic x);
  type := htonl (type x);
  msg_length := htonl (msg_length x);
  sequence := htonl (sequence x);
  checksum := htonl (checksum x);
|}.
Definition header_to_host (x : MessageHeader) : MessageHeader := {|
  magic := ntohl (magic x);
  type := ntohl (type x);
  msg_length := ntohl (msg_length x);
  sequence := ntohl (sequence x);
  checksum := ntohl (checksum x);
|}.

Definition SerializeMessage (message : NetworkMessage) : res (list Z) :=
  let buffer := vec_resize (sizeof MessageHeader + length (payload message)) [] in
  sum ← CalculateChecksum (payload message) (length (payload message));
  let hd := header message in
  let hd := {| magic := magic hd; type := type hd; msg_length := msg_length hd;
               sequence := sequence hd; checksum := sum |} in
  let net := header_to_network hd in
  buffer ← memcpy buffer 0 (struct_bytes net);
  if decide (payload message = []) then Ok buffer
  else memcpy buffer (sizeof MessageHeader) (payload message).

Definition ValidateMessage (hd : MessageHeader) (data : list Z) : res bool :=
  if msg_length hd =? 0 then Ok (checksum hd =? 0)
  else sum ← CalculateChecksum data (Z.to_nat (msg_length hd));
       Ok (sum =? checksum hd).

(** ** Receiving *)

Record MessageHandler := {
  receive_buffer_ : list Z;
  message_callback_ : bool;  (* a callback has been set *)
}.

Definition MessageHandler_init : MessageHandler :=
  {| receive_buffer_ := []; message_callback_ := false |}.

Definition SetMessageCallback (m : MessageHandler) : MessageHandler :=
  {| receive_buffer_ := receive_buffer_ m; message_callback_ := true |}.

(** The message passed to the callback, if the function gets that far. *)
Definition ProcessCompleteMessage (callback : bool) (data : list Z) (len : nat)
    : res (option NetworkMessage) :=
  if decide (len < sizeof MessageHeader)%nat then Ok None
  else
    bytes ← mem_read data 0 (sizeof MessageHeader);
    let hd := header_to_host (struct_load bytes) in
    body ← (if msg_length hd >? 0
            then mem_read data (sizeof MessageHeader) (Z.to_nat (msg_length hd))
            else Ok []);
    Ok (if callback then Some {| header := hd; payload := body |} else None).

(** One iteration of the [while] loop: leave it, or go round again with the
    buffer left by [erase]/[clear] and the message delivered, if any. *)
Inductive iteration :=
  | Break
  | Again (buffer : list Z) (delivered : option NetworkMessage).

Definition process_iteration (callback : bool) (buffer : list Z) : res iteration :=
  if decide (length buffer < sizeof MessageHeader)%nat then Ok Break
  else
    bytes ← mem_read buffer 0 (sizeof MessageHeader);
    let hd := header_to_host (struct_load bytes) in
    if negb (magic hd =? MESSAGE_MAGIC) then
      match search (mem_store 4 MESSAGE_MAGIC) (drop 1 buffer) with
      | Some i => Ok (Again (drop (1 + i) buffer) None)
      | None => Ok (Again [] None)
      end
    else if msg_length hd >? MAX_MESSAGE_SIZE then
      Ok (Again (drop (sizeof MessageHeader) buffer) None)
    else
      let total_size := (sizeof MessageHeader + Z.to_nat (msg_length hd))%nat in
      if decide (length buffer < total_size)%nat then Ok Break
      else
        valid ← ValidateMessage hd (drop (sizeof MessageHeader) buffer);
        delivered ← (if valid : bool
                     then ProcessCompleteMessage callback buffer total_size
                     else Ok None);
        Ok (Again (drop total_size buffer) delivered).

Fixpoint process_loop (fuel : nat) (callback : bool) (buffer : list Z)
    : res (list NetworkMessage * list Z) :=
  match fuel with
  | O => Fault OutOfFuel
  | S fuel' =>
    it ← process_iteration callback buffer;
    match it with
    | Break => Ok ([], buffer)
    | Again buffer' delivered =>
      out ← process_loop fuel' callback buffer';
      Ok (option_list delivered ++ out.1, out.2)
    end
  end.

(** [ProcessReceivedData]. Each iteration shortens the buffer, so as many
    iterations as it has bytes, and one more, are enough. *)
Definition ProcessReceivedData (data : list Z) : M MessageHandler (list NetworkMessage) :=
  λ st,
    let buffer := receive_buffer_ st ++ data in
    out ← process_loop (S (length buffer)) (message_callback_ st) buffer;
    Ok (out.1, {| receive_buffer_ := out.2; message_callback_ := message_callback_ st |}).

(** The data callback invoked once per chunk the socket reads. *)
Fixpoint ProcessChunks (chunks : list (list Z)) : M MessageHandler (list NetworkMessage) :=
  match chunks with
  | [] => mret []
  | c :: cs => ms ← ProcessReceivedData c; ms' ← ProcessChunks cs; mret (ms ++ ms')
  end.
End Handler.

#[global] Arguments MAX_MESSAGE_SIZE : simpl never.
#[global] Arguments MESSAGE_MAGIC : simpl never.

(** ** Checksum lemmas *)

Definition byte_sum (l : list Z) : Z := foldr Z.add 0 l.

Lemma foldl_u32_sum l acc :
  is_u32 acc → foldl (λ c b, u32 (c + b)) acc l = u32 (acc + byte_sum l).
Proof.
  revert acc. induction l as [|b l IH]; intros acc Hacc; simpl.
  - rewrite Z.add_0_r. symmetry. by apply u32_id.
  - rewrite IH by apply u32_range. unfold u32.
    rewrite Zplus_mod_idemp_l. f_equal. lia.
Qed.

(** The checksum of a payload is the sum of its bytes modulo 2^32. *)
Lemma CalculateChecksum_sum l :
  CalculateChecksum l (length l) = Ok (u32 (byte_sum l)).
Proof.
  unfold CalculateChecksum. rewrite mem_read_0 by done. cbn [mbind res_bind].
  rewrite take_ge by done. by rewrite foldl_u32_sum by (unfold is_u32; lia).
Qed.

Lemma CalculateChecksum_prefix l k :
  CalculateChecksum (l ++ k) (length l) = Ok (u32 (byte_sum l)).
Proof.
  rewrite <- CalculateChecksum_sum. unfold CalculateChecksum.
  rewrite !mem_read_0 by (rewrite ?length_app; lia).
  by rewrite take_app_length, take_ge.
Qed.

Lemma byte_sum_app l k : byte_sum (l ++ k) = byte_sum l + byte_sum k.
Proof. induction l as [|x l IH]; simpl; [done|]. rewrite IH. lia. Qed.

Lemma byte_sum_permutation l k : l ≡ₚ k → byte_sum l = byte_sum k.
Proof. induction 1; simpl; lia. Qed.

(** ** Packets: a header and the payload it announces *)

Definition packet_ok (m : NetworkMessage) : Prop :=
  wf (header m) ∧ magic (header m) = MESSAGE_MAGIC ∧
  msg_length (header m) = Z.of_nat (length (payload m)) ∧
  Z.of_nat (length (payload m)) <= MAX_MESSAGE_SIZE ∧ bytes_ok (payload m).

Definition checksum_ok (m : NetworkMessage) : bool :=
  checksum (header m) =? u32 (byte_sum (payload m)).

(** A packet on the wire. *)
Definition packet_bytes (m : NetworkMessage) : list Z :=
  struct_be_bytes (header m) ++ payload m.

#[global] Arguments packet_bytes : simpl never.

(** The message with the checksum [SerializeMessage] fills in. *)
Definition with_checksum (m : NetworkMessage) : NetworkMessage := {|
  header := {| magic := magic (header m); type := type (header m);
               msg_length := msg_length (header m); sequence := sequence (header m);
               checksum := u32 (byte_sum (payload m)) |};
  payload := payload m |}.

Lemma sizeof_MessageHeader : sizeof MessageHeader = 20%nat.
Proof. done. Qed.

Lemma header_wf_fields (x : MessageHeader) :
  wf x ↔ is_u32 (magic x) ∧ is_u32 (type x) ∧ is_u32 (msg_length x) ∧
         is_u32 (sequence x) ∧ is_u32 (checksum x).
Proof.
  split.
  - intros Hx. cbn in Hx. forall2_inv. auto.
  - intros (? & ? & ? & ? & ?).
    repeat first [assumption | apply List.Forall2_nil | apply List.Forall2_cons].
Qed.

Lemma wf_with_checksum m : wf (header m) → wf (header (with_checksum m)).
Proof.
  destruct m as [[] p]. intros Hw. cbn in Hw |- *. forall2_inv.
  repeat first [assumption | apply List.Forall2_nil | apply u32_range | apply List.Forall2_cons].
Qed.

Lemma packet_ok_with_checksum m : packet_ok m → packet_ok (with_checksum m).
Proof.
  intros (Hw & ? & ? & ? & ?). split_and!; try done. by apply wf_with_checksum.
Qed.

Lemma checksum_ok_with_checksum m : checksum_ok (with_checksum m) = true.
Proof. apply Z.eqb_refl. Qed.

Section HandlerLemmas.
Context {h : Host}.

Lemma wf_header_to_network x : wf x → wf (header_to_network x).
Proof.
  intros Hx. cbn in Hx |- *. forall2_inv.
  repeat first [apply List.Forall2_nil | apply List.Forall2_cons | by apply htonl_field].
Qed.

Lemma header_to_host_network x : wf x → header_to_host (header_to_network x) = x.
Proof.
  destruct x. intros Hx. cbn in Hx. forall2_inv.
  unfold header_to_host, header_to_network. cbn. by rewrite !ntohl_htonl.
Qed.

Lemma header_to_network_bytes x : struct_bytes (header_to_network x) = struct_be_bytes x.
Proof. unfold struct_bytes, struct_be_bytes. cbn. by rewrite !store_htonl. Qed.

Lemma length_header_bytes (x : MessageHeader) : wf x → length (struct_be_bytes x) = 20%nat.
Proof. intros Hx. by rewrite length_struct_be_bytes. Qed.

(** Loading and converting the header at the front of a buffer. *)
Lemma load_header x k :
  wf x → header_to_host (struct_load (struct_be_bytes x ++ k)) = x.
Proof.
  intros Hx. rewrite <- header_to_network_bytes.
  rewrite struct_load_bytes by by apply wf_header_to_network.
  by apply header_to_host_network.
Qed.

Lemma length_packet_bytes m :
  packet_ok m → length (packet_bytes m) = (20 + length (payload m))%nat.
Proof.
  intros (Hw & _). unfold packet_bytes. by rewrite length_app, length_header_bytes.
Qed.

Lemma SerializeMessage_bytes m :
  wf (header m) → SerializeMessage m = Ok (packet_bytes (with_checksum m)).
Proof.
  intros Hw. unfold SerializeMessage. rewrite CalculateChecksum_sum.
  cbn [mbind res_bind]. set (hd := header (with_checksum m)).
  change {| magic := _; type := _; msg_length := _; sequence := _; checksum := _ |} with hd.
  assert (wf hd) as Hhd by by apply wf_with_checksum.
  rewrite vec_resize_nil, header_to_network_bytes.
  rewrite memcpy_head by (rewrite length_header_bytes by done; rewrite sizeof_MessageHeader; lia).
  rewrite length_header_bytes, sizeof_MessageHeader by done. cbn [mbind res_bind].
  replace (20 + length (payload m) - 20)%nat with (length (payload m)) by lia.
  unfold packet_bytes. fold hd. cbn [payload with_checksum].
  case_decide as E; [by rewrite E|].
  apply memcpy_tail_exact; [done|]. by rewrite length_header_bytes.
Qed.

Lemma ValidateMessage_spec hd body k :
  msg_length hd = Z.of_nat (length body) →
  ValidateMessage hd (body ++ k)
  = Ok (checksum_ok {| header := hd; payload := body |}).
Proof.
  intros Hl. unfold ValidateMessage, checksum_ok. cbn [header payload].
  destruct (Z.eqb_spec (msg_length hd) 0) as [E|E].
  - assert (body = []) as -> by (apply nil_length_inv; lia). done.
  - rewrite Hl, Nat2Z.id, CalculateChecksum_prefix. cbn [mbind res_bind].
    by rewrite Z.eqb_sym.
Qed.

Lemma ValidateMessage_exact hd body :
  msg_length hd = Z.of_nat (length body) →
  ValidateMessage hd body = Ok (checksum_ok {| header := hd; payload := body |}).
Proof. intros. rewrite <- (app_nil_r body) at 1. by apply ValidateMessage_spec. Qed.

Lemma ProcessCompleteMessage_packet callback m k :
  packet_ok m →
  ProcessCompleteMessage callback (packet_bytes m ++ k) (length (packet_bytes m))
  = Ok (if callback then Some m else None).
Proof.
  intros Hm. pose proof Hm as (Hw & _ & Hlen & _).
  pose proof (length_packet_bytes m Hm) as Hl. unfold ProcessCompleteMessage.
  rewrite sizeof_MessageHeader, decide_False by lia.
  rewrite mem_read_0 by (rewrite length_app; lia). cbn [mbind res_bind].
  unfold packet_bytes. rewrite <- app_assoc.
  rewrite take_app_length' by by rewrite length_header_bytes.
  pose proof (load_header (header m) [] Hw) as Hload. rewrite app_nil_r in Hload.
  rewrite Hload, Hlen, Nat2Z.id. change (sizeof MessageHeader) with 20%nat.
  assert ((if Z.of_nat (length (payload m)) >? 0
           then mem_read (struct_be_bytes (header m) ++ payload m ++ k) 20 (length (payload m))
           else Ok []) = Ok (payload m)) as ->; [|by destruct m].
  case_match eqn:E.
  - rewrite mem_read_app by (rewrite ?length_header_bytes, ?length_app by done; lia).
    by rewrite take_app_length.
  - assert (payload m = []) as ->; [apply nil_length_inv; lia|done].
Qed.

(** A complete packet at the front of the buffer is consumed whole, and
    delivered exactly when its checksum is right. *)
Lemma process_iteration_packet callback m k :
  packet_ok m →
  process_iteration callback (packet_bytes m ++ k)
  = Ok (Again k (if checksum_ok m && callback then Some m else None)).
Proof.
  intros Hm. pose proof Hm as (Hw & Hmagic & Hlen & Hmax & _).
  pose proof (length_packet_bytes m Hm) as Hl. unfold process_iteration.
  rewrite sizeof_MessageHeader, decide_False by (rewrite length_app; lia).
  rewrite mem_read_0 by (rewrite length_app; lia). cbn [mbind res_bind].
  assert (header_to_host (struct_load (take 20 (packet_bytes m ++ k))) = header m) as ->.
  { unfold packet_bytes. rewrite <- app_assoc.
    rewrite take_app_length' by by rewrite length_header_bytes.
    rewrite <- (app_nil_r (struct_be_bytes _)). by apply load_header. }
  rewrite Hmagic, Z.eqb_refl. cbn [negb]. rewrite Hlen, Nat2Z.id.
  destruct (Z.gtb_spec (Z.of_nat (length (payload m))) MAX_MESSAGE_SIZE); [lia|].
  rewrite decide_False by (rewrite length_app; lia).
  assert (drop 20 (packet_bytes m ++ k) = payload m ++ k) as ->.
  { unfold packet_bytes. rewrite <- app_assoc.
    by rewrite drop_app_length' by by rewrite length_header_bytes. }
  rewrite ValidateMessage_spec by done. cbn [mbind res_bind].
  rewrite <- Hl, drop_app_length.
  replace {| header := header m; payload := payload m |} with m by by destruct m.
  destruct (checksum_ok m); cbn [andb]; [|done].
  by rewrite ProcessCompleteMessage_packet.
Qed.

(** A proper prefix of a packet stays in the buffer. *)
Lemma process_iteration_partial callback m p q :
  packet_ok m → p ++ q = packet_bytes m → q ≠ [] →
  process_iteration callback p = Ok Break.
Proof.
  intros Hm Hpq Hq. pose proof Hm as (Hw & Hmagic & Hlen & Hmax & _).
  pose proof (length_packet_bytes m Hm) as Hl. rewrite <- Hpq, length_app in Hl.
  assert (length q ≠ 0%nat) by by destruct q. unfold process_iteration.
  rewrite sizeof_MessageHeader. case_decide as E; [done|].
  rewrite mem_read_0 by lia. cbn [mbind res_bind].
  assert (take 20 p = struct_be_bytes (header m)) as ->.
  { rewrite <- (take_app_le p q) by lia. rewrite Hpq. unfold packet_bytes.
    by rewrite take_app_length' by by rewrite length_header_bytes. }
  rewrite <- (app_nil_r (struct_be_bytes _)), load_header by done.
  rewrite Hmagic, Z.eqb_refl. cbn [negb]. rewrite Hlen, Nat2Z.id.
  destruct (Z.gtb_spec (Z.of_nat (length (payload m))) MAX_MESSAGE_SIZE); [lia|].
  by rewrite decide_True by lia.
Qed.
End HandlerLemmas.

(** ** The receive loop *)

Section LoopLemmas.
Context {h : Host}.

(** What an iteration on a buffer of at least a header can do. *)
Lemma process_iteration_total callback buffer :
  ∃ it, process_iteration callback buffer = Ok it ∧
    match it with
    | Break => True
    | Again buffer' _ => (length buffer' < length buffer)%nat
    end.
Proof.
  unfold process_iteration. rewrite sizeof_MessageHeader.
  case_decide as Hlen; [by exists Break|].
  rewrite mem_read_0 by lia. cbn [mbind res_bind].
  set (hd := header_to_host _).
  destruct (magic hd =? MESSAGE_MAGIC); cbn [negb].
  2: { destruct (search _ _) as [i|] eqn:Hs; (eexists; split; [done|]);
       cbv beta iota; rewrite ?length_drop; simpl length; lia. }
  destruct (msg_length hd >? MAX_MESSAGE_SIZE).
  { eexists; split; [done|]. cbv beta iota. rewrite length_drop. lia. }
  case_decide as Htot; [by exists Break|].
  assert (∃ v, ValidateMessage hd (drop 20 buffer) = Ok v) as [v ->].
  { unfold ValidateMessage, CalculateChecksum. case_match; [eauto|].
    rewrite mem_read_0 by (rewrite length_drop; lia). eauto. }
  cbn [mbind res_bind].
  assert (∃ d, (if v then ProcessCompleteMessage callback buffer
                       (20 + Z.to_nat (msg_length hd)) else Ok None) = Ok d) as [d ->].
  { destruct v; [|eauto]. unfold ProcessCompleteMessage.
    rewrite sizeof_MessageHeader, decide_False by lia.
    rewrite mem_read_0 by lia. cbn [mbind res_bind]. fold hd.
    unfold mem_read. rewrite decide_True by lia.
    destruct (_ >? _); cbn [mbind res_bind]; eauto. }
  cbn [mbind res_bind]. eexists; split; [done|]. cbv beta iota.
  rewrite length_drop. lia.
Qed.

(** With more fuel than bytes the loop finishes, without a fault, and more
    fuel changes nothing. *)
Lemma process_loop_total n callback buffer :
  (length buffer < n)%nat →
  ∃ ms rest, process_loop n callback buffer = Ok (ms, rest) ∧
    process_iteration callback rest = Ok Break ∧
    (length rest ≤ length buffer)%nat ∧
    ∀ n', (length buffer < n')%nat → process_loop n' callback buffer = Ok (ms, rest).
Proof.
  revert buffer. induction n as [|n IH]; intros buffer Hn; [lia|].
  destruct (process_iteration_total callback buffer) as ([|b d] & Hit & Hlt).
  { exists [], buffer. cbn [process_loop]. rewrite Hit. split_and!; try done.
    intros [|n'] ?; [lia|]. cbn [process_loop]. by rewrite Hit. }
  destruct (IH b) as (ms & rest & Hl & Hrest & Hle & Hind); [lia|].
  exists (option_list d ++ ms), rest. cbn [process_loop]. rewrite Hit.
  cbn [mbind res_bind]. rewrite Hl. split_and!; try done; [lia|].
  intros [|n'] ?; [lia|]. cbn [process_loop]. rewrite Hit. cbn [mbind res_bind].
  by rewrite Hind by lia.
Qed.

(** The loop with enough fuel. *)
Definition drain (callback : bool) (buffer : list Z) : res (list NetworkMessage * list Z) :=
  process_loop (S (length buffer)) callback buffer.

Lemma drain_again callback buffer b d ms rest :
  process_iteration callback buffer = Ok (Again b d) →
  drain callback b = Ok (ms, rest) →
  drain callback buffer = Ok (option_list d ++ ms, rest).
Proof.
  intros Hit Hd. unfold drain in *. cbn [process_loop]. rewrite Hit.
  cbn [mbind res_bind].
  destruct (process_iteration_total callback buffer) as (it & Hit' & Hlt).
  rewrite Hit in Hit'. injection Hit' as <-.
  destruct (process_loop_total (S (length b)) callback b) as (ms' & rest' & E & _ & _ & Hind);
    [lia|].
  rewrite Hd in E. injection E as <- <-. by rewrite Hind.
Qed.

Lemma drain_break callback buffer :
  process_iteration callback buffer = Ok Break → drain callback buffer = Ok ([], buffer).
Proof. intros Hit. unfold drain. cbn [process_loop]. by rewrite Hit. Qed.

Lemma process_iteration_short callback buffer :
  (length buffer < 20)%nat → process_iteration callback buffer = Ok Break.
Proof. intros. unfold process_iteration. by rewrite decide_True. Qed.

Lemma ProcessReceivedData_drain data st ms rest :
  drain (message_callback_ st) (receive_buffer_ st ++ data) = Ok (ms, rest) →
  ProcessReceivedData data st
  = Ok (ms, {| receive_buffer_ := rest; message_callback_ := message_callback_ st |}).
Proof. intros Hd. unfold ProcessReceivedData, drain in *. by rewrite Hd. Qed.

(** The messages a sequence of packets delivers. *)
Definition deliveries (callback : bool) (ms : list NetworkMessage) : list NetworkMessage :=
  filter (λ m, checksum_ok m && callback) ms.

Lemma deliveries_serialised ms :
  deliveries true (map with_checksum ms) = map with_checksum ms.
Proof.
  unfold deliveries. induction ms as [|m ms IH]; [done|]. cbn [map].
  by rewrite filter_cons, checksum_ok_with_checksum, IH.
Qed.

Abbreviation stream ms := (concat (map packet_bytes ms)).

(** What is left in the buffer in the middle of a stream of packets [ms]
    of which the part [q] has not arrived: an incomplete packet. *)
Definition pending (r q : list Z) (ms : list NetworkMessage) : Prop :=
  r ++ q = stream ms ∧
  match ms with
  | [] => r = []
  | m :: _ => ∃ q', q' ≠ [] ∧ r ++ q' = packet_bytes m
  end.

(** Draining any prefix of a stream of packets delivers the packets that
    are complete and keeps the beginning of the next one. *)
Lemma drain_prefix callback ms p q :
  Forall packet_ok ms → p ++ q = stream ms →
  ∃ done rest ms', ms = done ++ ms' ∧
    drain callback p = Ok (deliveries callback done, rest) ∧ pending rest q ms'.
Proof.
  intros Hms. revert p q. induction Hms as [|m ms Hm _ IH]; intros p q Hpq; cbn [map concat] in Hpq.
  { apply app_nil in Hpq as [-> ->]. exists [], [], []. by split_and!. }
  assert ((∃ p', p = packet_bytes m ++ p' ∧ p' ++ q = stream ms) ∨
          (∃ q', q' ≠ [] ∧ p ++ q' = packet_bytes m)) as [(p' & -> & Hpq')|(q' & Hq' & E)].
  { destruct (app_eq_inv _ _ _ _ Hpq) as [(k & -> & Hk)|(k & Hk & Hq)]; [by eauto|].
    destruct k as [|x k]; [|right; by exists (x :: k)]. rewrite app_nil_r in Hk. left.
    exists []. by rewrite Hk, app_nil_r. }
  - destruct (IH p' q Hpq') as (dn & rest & ms' & -> & Hd & Hp).
    exists (m :: dn), rest, ms'. split_and!; [done| |done..].
    rewrite (drain_again _ _ _ _ _ _ (process_iteration_packet callback m p' Hm) Hd).
    unfold deliveries. rewrite filter_cons. by destruct (checksum_ok m && callback).
  - exists [], p, (m :: ms). split; [done|]. split; [|by split; [|exists q']].
    apply drain_break. by eapply process_iteration_partial.
Qed.

(** Feeding a stream in chunks, from any point in the middle of it. *)
Lemma ProcessChunks_stream callback chunks r ms :
  Forall packet_ok ms → pending r (concat chunks) ms →
  ProcessChunks chunks {| receive_buffer_ := r; message_callback_ := callback |}
  = Ok (deliveries callback ms,
        {| receive_buffer_ := []; message_callback_ := callback |}).
Proof.
  revert r ms. induction chunks as [|c chunks IH]; intros r ms Hms [Hpq Hr].
  - cbn [concat] in Hpq. rewrite app_nil_r in Hpq. destruct ms as [|m ms].
    { by subst r. }
    exfalso. destruct Hr as (q' & Hq' & E). apply (f_equal length) in E.
    rewrite Hpq in E. cbn [map concat] in E. rewrite !length_app in E.
    destruct q'; [done|]. simpl in E. lia.
  - simpl concat in Hpq. rewrite app_assoc in Hpq.
    destruct (drain_prefix callback ms (r ++ c) (concat chunks) Hms Hpq)
      as (dn & rest & ms' & -> & Hd & Hp).
    apply Forall_app in Hms as [_ Hms'].
    cbn [ProcessChunks]. unfold mbind, M_bind.
    rewrite (ProcessReceivedData_drain c (Build_MessageHandler r callback) _ _ Hd).
    cbn [message_callback_].
    rewrite (IH _ _ Hms' Hp). unfold deliveries. by rewrite filter_app.
Qed.

(** The packet that starts with [p] and ends with [w]. *)
Definition completed (m : NetworkMessage) (p w : list Z) : NetworkMessage := {|
  header := header m; payload := drop 20 p ++ w |}.

Lemma completed_packet m p q w :
  packet_ok m → p ++ q = packet_bytes m → (20 ≤ length p)%nat → length w = length q → bytes_ok w →
  packet_ok (completed m p w) ∧ packet_bytes (completed m p w) = p ++ w.
Proof.
  intros (Hwf & Hmagic & Hlen & Hmax & Hb) Hpq Hp Hw Hbw. unfold packet_bytes in *.
  assert (take 20 p = struct_be_bytes (header m)) as Ht.
  { rewrite <- (take_app_le p q) by lia. rewrite Hpq.
    by rewrite take_app_length' by by rewrite length_header_bytes. }
  assert (drop 20 p ++ q = payload m) as Hd.
  { rewrite <- drop_app_le by lia. rewrite Hpq.
    by rewrite drop_app_length' by by rewrite length_header_bytes. }
  assert (length (drop 20 p ++ w) = length (payload m)) as Hl
    by (rewrite <- Hd, !length_app; lia).
  split.
  - split_and!; cbn [header completed payload]; try done; try (rewrite Hl; done).
    rewrite <- Hd in Hb. apply bytes_ok_app in Hb as [? _]. by apply bytes_ok_app.
  - cbn [header completed payload]. by rewrite <- Ht, app_assoc, take_drop.
Qed.

Lemma packet_bytes_ok m : packet_ok m → bytes_ok (packet_bytes m).
Proof. intros (Hwf & _ & _ & _ & Hb). unfold packet_bytes. apply bytes_ok_app. split; [apply struct_be_bytes_ok|done]. Qed.

Lemma ProcessReceivedData_buffer p d1 d2 callback :
  ProcessReceivedData d2 (Build_MessageHandler (p ++ d1) callback)
  = ProcessReceivedData (d1 ++ d2) (Build_MessageHandler p callback).
Proof. unfold ProcessReceivedData. cbn [receive_buffer_]. by rewrite <- app_assoc. Qed.

(** A buffer that holds the beginning [p] of a packet takes what comes next for
    its end, whatever it is. *)
Lemma stale_partial m p q callback data :
  packet_ok m → p ++ q = packet_bytes m → (20 ≤ length p)%nat → (length data < length q)%nat →
  bytes_ok data →
  ProcessReceivedData data (Build_MessageHandler p callback)
  = Ok ([], Build_MessageHandler (p ++ data) callback).
Proof.
  intros Hm Hpq Hp Hl Hb. apply (ProcessReceivedData_drain data (Build_MessageHandler p callback)).
  assert (bytes_ok q) as Hbq.
  { apply packet_bytes_ok in Hm. rewrite <- Hpq in Hm. by apply bytes_ok_app in Hm as [_ ?]. }
  destruct (completed_packet m p q (data ++ drop (length data) q)) as [Hok Hbytes]; [done..| | |].
  { rewrite length_app, length_drop. lia. }
  { apply bytes_ok_app. split; [done|]. by apply Forall_drop. }
  apply drain_break. eapply process_iteration_partial; [exact Hok| |].
  { cbn [receive_buffer_]. rewrite Hbytes. symmetry. apply app_assoc. }
  intros E. apply (f_equal length) in E. rewrite length_drop in E. cbn in E. lia.
Qed.

Lemma stale_complete m p q callback w rest ms mh :
  packet_ok m → p ++ q = packet_bytes m → (20 ≤ length p)%nat → length w = length q → bytes_ok w →
  ProcessReceivedData rest (Build_MessageHandler [] callback) = Ok (ms, mh) →
  ProcessReceivedData (w ++ rest) (Build_MessageHandler p callback)
  = Ok (deliveries callback [completed m p w] ++ ms, mh).
Proof.
  intros Hm Hpq Hp Hl Hb Hrest. destruct (completed_packet m p q w) as [Hok Hbytes]; [done..|].
  destruct (drain callback rest) as [[ms1 r1]|] eqn:E;
    [|unfold drain in E; unfold ProcessReceivedData in Hrest; cbn in Hrest, E; by rewrite E in Hrest].
  rewrite (ProcessReceivedData_drain rest (Build_MessageHandler [] callback) _ _ E) in Hrest.
  injection Hrest as <- <-.
  apply (ProcessReceivedData_drain (w ++ rest) (Build_MessageHandler p callback)). cbn [receive_buffer_ message_callback_].
  rewrite app_assoc, <- Hbytes.
  rewrite (drain_again _ _ _ _ _ _ (process_iteration_packet callback _ rest Hok) E).
  unfold deliveries. rewrite filter_cons, filter_nil. by destruct (checksum_ok _ && callback).
Qed.
(** Serialised messages, in whatever chunks, against an empty buffer. *)
Lemma stream_delivery ms wires chunks :
  Forall packet_ok ms →
  Forall2 (λ m w, SerializeMessage m = Ok w) ms wires →
  concat chunks = concat wires →
  ProcessChunks chunks (SetMessageCallback MessageHandler_init)
  = Ok (map with_checksum ms, SetMessageCallback MessageHandler_init).
Proof.
  intros Hms Hw Hc.
  assert (Forall packet_ok (map with_checksum ms)) as Hok.
  { apply Forall_map. eapply Forall_impl; [exact Hms|]. apply packet_ok_with_checksum. }
  assert (concat wires = concat (map packet_bytes (map with_checksum ms))) as Hs.
  { clear Hc Hok. f_equal. induction Hw as [|m w ms' ws Hmw _ IH]; [done|].
    apply Forall_cons in Hms as [(Hwf & _) Hms]. rewrite SerializeMessage_bytes in Hmw by done.
    injection Hmw as <-. cbn [map]. f_equal. by apply IH. }
  unfold SetMessageCallback, MessageHandler_init. cbn [receive_buffer_].
  rewrite (ProcessChunks_stream true chunks [] (map with_checksum ms)); [|done|].
  - by rewrite deliveries_serialised.
  - split; [by rewrite <- Hs|]. destruct ms as [|m ms']; [done|].
    exists (packet_bytes (with_checksum m)). split; [|done].
    apply Forall_cons in Hok as [Hm _]. intros E. apply (f_equal length) in E.
    rewrite length_packet_bytes in E by done. done.
Qed.
End LoopLemmas.

(** ** What the loop delivers and leaves, for arbitrary bytes *)

Section ArbitraryInput.
Context {h : Host}.

(** Any 20 bytes are the wire form of the header read from them. *)
Lemma header_bytes_load bs :
  bytes_ok bs → length bs = 20%nat →
  struct_be_bytes (header_to_host (struct_load bs)) = bs ∧
  wf (header_to_host (struct_load bs)).
Proof.
  intros Hb Hl.
  assert (wf (struct_load bs : MessageHeader)) as Hw
    by (apply wf_struct_load; [done|rewrite sizeof_MessageHeader; lia]).
  split; [|by apply (wf_header_to_network (struct_load bs))].
  rewrite <- header_to_network_bytes.
  change header_to_network with header_to_host at 1.
  change (header_to_host (struct_load bs)) with (header_to_network (struct_load bs)).
  rewrite header_to_host_network by done. by apply struct_bytes_load.
Qed.

Lemma take_4_struct_be_bytes (x : MessageHeader) k :
  take 4 (struct_be_bytes x ++ k) = be_bytes 4 (magic x).
Proof.
  unfold struct_be_bytes. cbn [layout fields MessageHeader_packed zip_with concat].
  rewrite <- app_assoc. by rewrite take_app_length' by by rewrite length_be_bytes.
Qed.

(** The magic test of the loop looks at the first four bytes on the wire. *)
Lemma header_magic_load bs k :
  bytes_ok bs → length bs = 20%nat →
  magic (header_to_host (struct_load bs)) = MESSAGE_MAGIC
  ↔ take 4 (bs ++ k) = be_bytes 4 MESSAGE_MAGIC.
Proof.
  intros Hb Hl. destruct (header_bytes_load bs Hb Hl) as [E Hw].
  rewrite <- E at 2. rewrite take_4_struct_be_bytes. split; [by intros ->|].
  intros Hm. apply (f_equal be_value) in Hm.
  rewrite !be_value_be_bytes in Hm; [done|done|].
  by apply header_wf_fields in Hw as (? & _).
Qed.

(** A delivered message is a complete packet at the front of the buffer,
    with the right checksum. *)
Lemma process_iteration_delivery callback buffer buffer' m :
  bytes_ok buffer →
  process_iteration callback buffer = Ok (Again buffer' (Some m)) →
  packet_ok m ∧ checksum_ok m = true ∧ buffer = packet_bytes m ++ buffer'.
Proof.
  intros Hb. unfold process_iteration. rewrite sizeof_MessageHeader.
  case_decide as Hlen; [done|]. rewrite mem_read_0 by lia. cbn [mbind res_bind].
  destruct (header_bytes_load (take 20 buffer)) as [Ebs Hw];
    [auto with usb|rewrite length_take; lia|].
  set (hd := header_to_host _) in *.
  destruct (Z.eqb_spec (magic hd) MESSAGE_MAGIC) as [Hmagic|]; cbn [negb];
    [|by destruct (search _ _)].
  destruct (Z.gtb_spec (msg_length hd) MAX_MESSAGE_SIZE); [done|].
  case_decide as Htot; [done|].
  set (body := take (Z.to_nat (msg_length hd)) (drop 20 buffer)).
  set (pm := {| header := hd; payload := body |}).
  assert (0 <= msg_length hd) by (apply header_wf_fields in Hw as (_ & _ & ? & _); width).
  assert (length body = Z.to_nat (msg_length hd)) as Hbl
    by (unfold body; rewrite length_take, length_drop; lia).
  assert (packet_ok pm) as Hpm
    by (split_and!; cbn [pm header payload]; try done; [lia|lia|unfold body; auto with usb]).
  assert (buffer = packet_bytes pm ++ drop (20 + Z.to_nat (msg_length hd)) buffer) as Ebuf.
  { unfold packet_bytes. cbn [pm header payload]. rewrite Ebs. unfold body.
    rewrite <- app_assoc, <- drop_drop, !take_drop. done. }
  pose proof (process_iteration_packet callback pm
    (drop (20 + Z.to_nat (msg_length hd)) buffer) Hpm) as Hit.
  rewrite <- Ebuf in Hit. unfold process_iteration in Hit.
  rewrite sizeof_MessageHeader, decide_False, mem_read_0 in Hit by lia.
  cbn [mbind res_bind] in Hit. fold hd in Hit.
  rewrite Hmagic, Z.eqb_refl in Hit. cbn [negb] in Hit.
  destruct (Z.gtb_spec (msg_length hd) MAX_MESSAGE_SIZE); [lia|].
  rewrite decide_False in Hit by lia. rewrite Hit.
  intros [= <- Hd]. destruct (checksum_ok pm) eqn:Hc, callback; try done.
  injection Hd as <-. done.
Qed.

(** Every message delivered occurs, as a complete valid packet, in the
    bytes it was extracted from. *)
Lemma process_loop_sound n callback buffer ms rest :
  bytes_ok buffer → process_loop n callback buffer = Ok (ms, rest) →
  Forall (λ m, packet_ok m ∧ checksum_ok m = true ∧
               ∃ a b, buffer = a ++ packet_bytes m ++ b) ms ∧
  ∃ a, buffer = a ++ rest.
Proof.
  revert buffer ms rest. induction n as [|n IH]; intros buffer ms rest Hb; [done|].
  cbn [process_loop].
  destruct (process_iteration_total callback buffer) as ([|b d] & Hit & _);
    rewrite Hit; cbn [mbind res_bind].
  { intros [= <- <-]. split; [constructor|by exists []]. }
  destruct (process_loop n callback b) as [[ms' rest']|] eqn:Hl; [|done].
  intros [= <- <-].
  assert (∃ a, buffer = a ++ b) as [a Ha].
  { revert Hit. unfold process_iteration. case_decide; [done|].
    rewrite mem_read_0 by lia. cbn [mbind res_bind]. set (hd := header_to_host _).
    assert (∀ k, ∃ a, buffer = a ++ drop k buffer) as Hdrop
      by (intros k; exists (take k buffer); by rewrite take_drop).
    destruct (negb _).
    { destruct (search _ _); intros [= <- <-]; [apply Hdrop|].
      exists buffer. by rewrite app_nil_r. }
    destruct (_ >? _); [intros [= <- <-]; apply Hdrop|].
    case_decide; [done|]. destruct (ValidateMessage _ _) as [v|]; [|done].
    cbn [mbind res_bind]. destruct (if v then _ else _); [|done].
    intros [= <- <-]. apply Hdrop. }
  assert (bytes_ok b) as Hbb by (rewrite Ha in Hb; by apply bytes_ok_app in Hb as [_ ?]).
  destruct (IH b ms' rest' Hbb Hl) as [Hms [a' Ha']].
  split; [|exists (a ++ a'); by rewrite Ha, Ha', app_assoc].
  apply Forall_app. split.
  - destruct d as [m|]; [|constructor]. constructor; [|constructor].
    destruct (process_iteration_delivery _ _ _ _ Hb Hit) as (? & ? & E).
    split_and!; [done..|]. by exists [], b.
  - eapply Forall_impl; [exact Hms|]. intros m (? & ? & x & y & E).
    split_and!; [done..|]. exists (a ++ x), y. by rewrite Ha, E, app_assoc.
Qed.

(** The loop stops only with less than a header, or with a header announcing
    at most the maximum and a payload still to come. *)
Lemma process_iteration_break callback buffer :
  bytes_ok buffer → process_iteration callback buffer = Ok Break →
  Z.of_nat (length buffer) < 20 + MAX_MESSAGE_SIZE ∧
  ((length buffer < 20)%nat ∨ take 4 buffer = be_bytes 4 MESSAGE_MAGIC).
Proof.
  intros Hb. unfold process_iteration. rewrite sizeof_MessageHeader.
  case_decide as Hlen.
  { intros _. unfold MAX_MESSAGE_SIZE. split; [lia|by left]. }
  rewrite mem_read_0 by lia. cbn [mbind res_bind].
  assert (length (take 20 buffer) = 20%nat) as Hl by (rewrite length_take; lia).
  assert (bytes_ok (take 20 buffer)) as Hbt by auto with usb.
  pose proof (header_magic_load (take 20 buffer) (drop 20 buffer) Hbt Hl) as Hmg.
  rewrite take_drop in Hmg. set (hd := header_to_host _) in *.
  destruct (Z.eqb_spec (magic hd) MESSAGE_MAGIC) as [Hmagic|]; cbn [negb];
    [|by destruct (search _ _)].
  destruct (Z.gtb_spec (msg_length hd) MAX_MESSAGE_SIZE); [done|].
  case_decide as Htot.
  { intros _. split; [|right; by apply Hmg].
    assert (0 <= MAX_MESSAGE_SIZE) by done. lia. }
  destruct (ValidateMessage _ _) as [v|]; [|done]. cbn [mbind res_bind].
  by destruct (if v then _ else _).
Qed.
End ArbitraryInput.

(** ** Resynchronisation after a bad magic

    The code searches for the bytes of the constant [MESSAGE_MAGIC] in host
    memory order, not for the bytes a sender puts on the wire. *)

Section Resync.
Context {h : Host}.

Lemma process_iteration_mismatch callback buffer :
  bytes_ok buffer → (20 ≤ length buffer)%nat →
  take 4 buffer ≠ be_bytes 4 MESSAGE_MAGIC →
  process_iteration callback buffer
  = Ok (Again (match search (mem_store 4 MESSAGE_MAGIC) (drop 1 buffer) with
               | Some i => drop (1 + i) buffer
               | None => []
               end) None).
Proof.
  intros Hb Hlen Hne. unfold process_iteration.
  rewrite sizeof_MessageHeader, decide_False, mem_read_0 by lia. cbn [mbind res_bind].
  pose proof (header_magic_load (take 20 buffer) (drop 20 buffer)) as Hmg.
  rewrite take_drop in Hmg.
  destruct (Z.eqb_spec (magic (header_to_host (struct_load (take 20 buffer)))) MESSAGE_MAGIC)
    as [E|]; cbn [negb]; [|by destruct (search _ _)].
  exfalso. apply Hne, Hmg; [auto with usb|rewrite length_take; lia|done].
Qed.

Lemma drain_nil callback : drain callback [] = Ok ([], []).
Proof. apply drain_break, process_iteration_short. simpl. lia. Qed.

(** When the host's order is not the network's, every position the search
    finds is again a mismatch. *)
Lemma drain_mismatch callback buffer :
  mem_store 4 MESSAGE_MAGIC ≠ be_bytes 4 MESSAGE_MAGIC →
  bytes_ok buffer → (20 ≤ length buffer)%nat →
  take 4 buffer ≠ be_bytes 4 MESSAGE_MAGIC →
  ∃ rest, drain callback buffer = Ok ([], rest) ∧ (length rest < 20)%nat.
Proof.
  intros Horder. remember (length buffer) as n eqn:Hn. revert buffer Hn.
  induction (lt_wf n) as [n _ IH]. intros buffer -> Hb Hlen Hne.
  pose proof (process_iteration_mismatch callback buffer Hb Hlen Hne) as Hit.
  destruct (search _ _) as [i|] eqn:Hs.
  2: { exists []. split; [|simpl; lia]. by eapply (drain_again _ _ _ None), drain_nil. }
  set (b := drop (1 + i) buffer) in *.
  destruct (decide (length b < 20)%nat) as [Hshort|Hlong].
  { exists b. split; [|done].
    by eapply (drain_again _ _ _ None), drain_break, process_iteration_short. }
  assert (length b < length buffer)%nat by (unfold b; rewrite length_drop; lia).
  destruct (IH (length b)) with (buffer := b) as (rest & Hd & Hr);
    [done|done|unfold b; auto with usb|lia| |].
  - destruct (search_Some _ _ _ Hs) as [Hp _]. rewrite drop_drop in Hp.
    apply is_prefix_spec in Hp as [k Hk]. unfold b. rewrite Hk.
    by rewrite take_app_length' by by rewrite length_mem_store.
  - exists rest. split; [|done]. by eapply (drain_again _ _ _ None).
Qed.

(** When the two orders agree, the search lands on the next packet. *)
Lemma drain_resync callback g buffer :
  mem_store 4 MESSAGE_MAGIC = be_bytes 4 MESSAGE_MAGIC →
  bytes_ok (g ++ buffer) → (20 ≤ length (g ++ buffer))%nat →
  take 4 (g ++ buffer) ≠ be_bytes 4 MESSAGE_MAGIC →
  g ≠ [] → search (be_bytes 4 MESSAGE_MAGIC) (drop 1 (g ++ buffer)) = Some (length g - 1)%nat →
  drain callback (g ++ buffer) = drain callback buffer.
Proof.
  intros Horder Hb Hlen Hne Hg Hs.
  pose proof (process_iteration_mismatch callback _ Hb Hlen Hne) as Hit.
  rewrite Horder, Hs in Hit.
  assert (1 + (length g - 1) = length g)%nat as E by (destruct g; [done|simpl; lia]).
  rewrite E, drop_app_length in Hit.
  destruct (process_loop_total (S (length buffer)) callback buffer) as (ms & rest & Hd & _);
    [lia|].
  fold (drain callback buffer) in Hd. rewrite Hd. by eapply (drain_again _ _ _ None).
Qed.
End Resync.

(** ** Properties *)

Section Properties.
Context {h : Host}.

(** C2: Framing is correct whatever TCP does to the stream. If messages with
    payloads of at most 1 MiB are serialised and the bytes arrive cut into
    chunks in any way (empty chunks, chunks that split a header, several
    messages in one chunk), the receiver hands exactly those messages to
    its callback, in order, each with the checksum the serialiser filled
    in, and its buffer ends empty. *)
Theorem message_stream_delivery ms wires chunks :
  Forall packet_ok ms →
  Forall2 (λ m w, SerializeMessage m = Ok w) ms wires →
  concat chunks = concat wires →
  ProcessChunks chunks (SetMessageCallback MessageHandler_init)
  = Ok (map with_checksum ms, SetMessageCallback MessageHandler_init).
Proof. apply stream_delivery. Qed.

(** C29: Corrupted packets are dropped without losing their neighbours: of a
    stream of packets with correct magic and length, cut into any chunks,
    exactly those whose checksum matches their payload are delivered. *)
Theorem corrupted_packets_dropped ms chunks :
  Forall packet_ok ms →
  concat chunks = concat (map packet_bytes ms) →
  ProcessChunks chunks (SetMessageCallback MessageHandler_init)
  = Ok (filter (λ m, checksum_ok m) ms, SetMessageCallback MessageHandler_init).
Proof.
  intros Hms Hc. unfold SetMessageCallback, MessageHandler_init. cbn [receive_buffer_].
  rewrite (ProcessChunks_stream true chunks [] ms); [|done|].
  - do 2 f_equal. unfold deliveries. apply list_filter_iff. intros m. by rewrite andb_true_r.
  - split; [done|]. destruct ms as [|m ms']; [done|].
    exists (packet_bytes m). split; [|done].
    apply Forall_cons in Hms as [Hm _]. intros E. apply (f_equal length) in E.
    rewrite length_packet_bytes in E by done. done.
Qed.

(** C19: [ProcessReceivedData] always returns, without touching memory
    outside the buffer, for any bytes whatever; what it keeps is a suffix of
    what it had, shorter than a header plus the maximum payload, and either
    shorter than a header or starting with the magic. *)
Theorem receive_total_bounded st data :
  bytes_ok (receive_buffer_ st ++ data) →
  ∃ ms st', ProcessReceivedData data st = Ok (ms, st') ∧
    Z.of_nat (length (receive_buffer_ st')) < 20 + MAX_MESSAGE_SIZE ∧
    ((length (receive_buffer_ st') < 20)%nat ∨
     take 4 (receive_buffer_ st') = be_bytes 4 MESSAGE_MAGIC) ∧
    ∃ a, receive_buffer_ st ++ data = a ++ receive_buffer_ st'.
Proof.
  intros Hb.
  destruct (process_loop_total (S (length (receive_buffer_ st ++ data)))
              (message_callback_ st) (receive_buffer_ st ++ data))
    as (ms & rest & Hl & Hbrk & _); [lia|].
  destruct (process_loop_sound _ _ _ _ _ Hb Hl) as [_ [a Ha]].
  eexists ms, _. split; [by apply ProcessReceivedData_drain|]. cbn [receive_buffer_].
  assert (bytes_ok rest) as Hr by (rewrite Ha in Hb; by apply bytes_ok_app in Hb as [_ ?]).
  destruct (process_iteration_break _ _ Hr Hbrk). split_and!; [done..|by exists a].
Qed.

(** C20: Nothing is invented: every message handed to the callback, from any
    byte stream, has the magic, a length field equal to its payload's size
    and at most 1 MiB, a checksum equal to the byte sum of its payload, and
    its packet occurs contiguously in the bytes received. *)
Theorem delivered_messages_valid st data ms st' :
  bytes_ok (receive_buffer_ st ++ data) →
  ProcessReceivedData data st = Ok (ms, st') →
  Forall (λ m, packet_ok m ∧ checksum_ok m = true ∧
    ∃ a b, receive_buffer_ st ++ data = a ++ packet_bytes m ++ b) ms.
Proof.
  intros Hb. unfold ProcessReceivedData.
  destruct (process_loop _ _ _) as [[ms' rest]|] eqn:Hl; [|done].
  intros [= <- _]. by apply process_loop_sound in Hl as [? _].
Qed.

(** What the checksum detects and what it does not: replacing one byte
    of a payload by a different one always invalidates the packet, and no
    permutation of the payload's bytes ever does. *)
Theorem checksum_detection hd pre b post :
  bytes_ok (pre ++ b :: post) →
  msg_length hd = Z.of_nat (length (pre ++ b :: post)) →
  ValidateMessage hd (pre ++ b :: post) = Ok true →
  (∀ b', is_byte b' → b' ≠ b → ValidateMessage hd (pre ++ b' :: post) = Ok false) ∧
  (∀ l, l ≡ₚ pre ++ b :: post → ValidateMessage hd l = Ok true).
Proof.
  intros Hb Hlen. rewrite ValidateMessage_exact by done. unfold checksum_ok. cbn [header payload].
  intros [= Hc%Z.eqb_eq]. split.
  - intros b' Hb' Hne. rewrite ValidateMessage_exact by (by rewrite Hlen, !length_app).
    unfold checksum_ok. cbn [header payload]. f_equal. apply Z.eqb_neq. rewrite Hc.
    rewrite !byte_sum_app. simpl. apply bytes_ok_app in Hb as [_ Hb]. inversion_clear Hb.
    unfold u32, is_byte in *. intros E.
    assert ((b - b') mod 4294967296 = 0) as E'.
    { replace (b - b') with ((byte_sum pre + (b + byte_sum post))
        - (byte_sum pre + (b' + byte_sum post))) by lia.
      by rewrite Zminus_mod, E, Z.sub_diag. }
    apply Z.mod_divide in E' as [q Hq]; [|lia].
    assert (q = 0) as -> by lia. lia.
  - intros l Hl. rewrite ValidateMessage_exact by by rewrite Hlen, Hl.
    unfold checksum_ok. cbn [header payload].
    rewrite Hc, (byte_sum_permutation _ _ Hl). by rewrite Z.eqb_refl.
Qed.

End Properties.

(** C35: On a little-endian host one bad byte costs the rest of the buffer.
    Whenever the buffered bytes do not start with the wire form of the magic,
    not one message is delivered from them, however many complete valid
    packets follow: the search looks for the magic in host order, so every
    position it finds is a mismatch again, until fewer than 20 bytes are
    left. *)
Theorem resync_loses_packets_little_endian st data :
  let buffer := receive_buffer_ st ++ data in
  bytes_ok buffer → (20 ≤ length buffer)%nat →
  take 4 buffer ≠ be_bytes 4 MESSAGE_MAGIC →
  ∃ st', ProcessReceivedData (h := LittleEndian) data st = Ok ([], st') ∧
         (length (receive_buffer_ st') < 20)%nat.
Proof.
  intros buffer Hb Hlen Hne.
  destruct (drain_mismatch (h := LittleEndian) (message_callback_ st) buffer)
    as (rest & Hd & Hr); [by vm_compute|done..|].
  eexists. split; [by apply (ProcessReceivedData_drain (h := LittleEndian))|done].
Qed.

(** On a big-endian host, where the two orders agree, the same code
    recovers: garbage in front of a packet is skipped up to the first
    occurrence of the magic and the packet behind it is processed as if the
    garbage had never been there. *)
Theorem resync_recovers_big_endian g buffer callback :
  let st := {| receive_buffer_ := []; message_callback_ := callback |} in
  bytes_ok (g ++ buffer) → (20 ≤ length (g ++ buffer))%nat → g ≠ [] →
  take 4 (g ++ buffer) ≠ be_bytes 4 MESSAGE_MAGIC →
  search (be_bytes 4 MESSAGE_MAGIC) (drop 1 (g ++ buffer)) = Some (length g - 1)%nat →
  ProcessReceivedData (h := BigEndian) (g ++ buffer) st
  = ProcessReceivedData (h := BigEndian) buffer st.
Proof.
  intros st Hb Hlen Hg Hne Hs.
  pose proof (drain_resync (h := BigEndian) callback g buffer) as Hd.
  destruct (process_loop_total (h := BigEndian) (S (length buffer)) callback buffer)
    as (ms & rest & Hl & _); [lia|].
  rewrite (ProcessReceivedData_drain (h := BigEndian) buffer st _ _ Hl).
  apply (ProcessReceivedData_drain (h := BigEndian)).
  cbn [receive_buffer_ st app message_callback_]. rewrite Hd; done.
Qed.

(** The message the constructor builds. *)
Definition new_message (t : MessageType) (data : list Z) (seq : Z) : NetworkMessage := {|
  header := {| magic := MESSAGE_MAGIC; type := MessageType_val t;
               msg_length := u32 (Z.of_nat (length data)); sequence := seq; checksum := 0 |};
  payload := data |}.

Lemma NetworkMessage_new_run t data seq :
  NetworkMessage_new t data seq = Ok (new_message t data seq, u32 (seq + 1)).
Proof. done. Qed.

Lemma new_message_ok t data seq :
  is_u32 seq → bytes_ok data → Z.of_nat (length data) <= MAX_MESSAGE_SIZE →
  packet_ok (new_message t data seq).
Proof.
  intros Hseq Hb Hlen. unfold MAX_MESSAGE_SIZE in Hlen.
  assert (u32 (Z.of_nat (length data)) = Z.of_nat (length data)) as E
    by (apply u32_id; unfold is_u32; lia).
  unfold packet_ok. cbn [new_message header payload magic msg_length]. split; [|by auto].
  apply header_wf_fields. cbn [magic type msg_length sequence checksum].
  split; [by vm_compute|]. split; [by destruct t|]. split; [apply u32_range|].
  split; [done|by vm_compute].
Qed.

Lemma MessageType_cast_val t : MessageType_cast (MessageType_val t) = Some t.
Proof. by destruct t. Qed.

(** A new message carries the static counter's value and advances it by
    one modulo 2^32, announces its payload's size, and is a packet the
    receiver accepts as long as the payload is at most 1 MiB. *)
Theorem new_message_well_formed t data seq :
  is_u32 seq → bytes_ok data → Z.of_nat (length data) <= MAX_MESSAGE_SIZE →
  ∃ m, NetworkMessage_new t data seq = Ok (m, u32 (seq + 1)) ∧
    packet_ok m ∧ payload m = data ∧ sequence (header m) = seq ∧
    MessageType_cast (type (header m)) = Some t.
Proof.
  intros Hseq Hb Hlen. exists (new_message t data seq).
  split_and!; [done|by apply new_message_ok|done|done|apply MessageType_cast_val].
Qed.

(** ** Witnesses *)

(** A concrete list of bytes. *)
Ltac bytes_compute := repeat (apply Forall_cons_2; [by vm_compute|]); apply Forall_nil_2.

Ltac packet_compute :=
  split; [apply header_wf_fields; by vm_compute|];
  split; [by vm_compute|]; split; [by vm_compute|]; split; [by vm_compute|];
  bytes_compute.

Definition sample_heartbeat : NetworkMessage := {|
  header := {| magic := MESSAGE_MAGIC; type := 8; msg_length := 0; sequence := 1;
               checksum := 0 |};
  payload := [] |}.

Definition sample_import : NetworkMessage := {|
  header := {| magic := MESSAGE_MAGIC; type := 3; msg_length := 3; sequence := 2;
               checksum := 0 |};
  payload := [49; 45; 50] |}.

Lemma sample_heartbeat_ok : packet_ok sample_heartbeat.
Proof. packet_compute. Qed.
Lemma sample_import_ok : packet_ok sample_import.
Proof. packet_compute. Qed.

Lemma message_stream_delivery_witness :
  let wire := packet_bytes (with_checksum sample_heartbeat)
              ++ packet_bytes (with_checksum sample_import) in
  ProcessChunks (h := LittleEndian) [take 7 wire; []; drop 7 wire]
    (SetMessageCallback MessageHandler_init)
  = Ok ([with_checksum sample_heartbeat; with_checksum sample_import],
        SetMessageCallback MessageHandler_init).
Proof.
  apply (message_stream_delivery (h := LittleEndian) [sample_heartbeat; sample_import]
    [packet_bytes (with_checksum sample_heartbeat); packet_bytes (with_checksum sample_import)]).
  - auto using Forall_cons_2, Forall_nil_2, sample_heartbeat_ok, sample_import_ok.
  - repeat constructor.
  - vm_compute. reflexivity.
Defined.

Lemma corrupted_packets_dropped_witness :
  ProcessChunks (h := LittleEndian)
    [packet_bytes sample_import ++ packet_bytes (with_checksum sample_import)]
    (SetMessageCallback MessageHandler_init)
  = Ok ([with_checksum sample_import], SetMessageCallback MessageHandler_init).
Proof.
  apply (corrupted_packets_dropped (h := LittleEndian)
    [sample_import; with_checksum sample_import]).
  - auto using Forall_cons_2, Forall_nil_2, sample_import_ok, packet_ok_with_checksum.
  - vm_compute. reflexivity.
Defined.

Lemma receive_total_bounded_witness :
  ∃ ms st', ProcessReceivedData (h := LittleEndian) [1; 2; 3] MessageHandler_init = Ok (ms, st') ∧
    Z.of_nat (length (receive_buffer_ st')) < 20 + MAX_MESSAGE_SIZE ∧
    ((length (receive_buffer_ st') < 20)%nat ∨
     take 4 (receive_buffer_ st') = be_bytes 4 MESSAGE_MAGIC) ∧
    ∃ a, receive_buffer_ MessageHandler_init ++ [1; 2; 3] = a ++ receive_buffer_ st'.
Proof.
  apply (receive_total_bounded (h := LittleEndian)).
  bytes_compute.
Defined.

Lemma delivered_messages_valid_witness :
  Forall (λ m, packet_ok m ∧ checksum_ok m = true ∧
    ∃ a b, packet_bytes sample_heartbeat = a ++ packet_bytes m ++ b) [sample_heartbeat].
Proof.
  apply (delivered_messages_valid (h := LittleEndian) (SetMessageCallback MessageHandler_init)
    (packet_bytes sample_heartbeat) [sample_heartbeat] (SetMessageCallback MessageHandler_init)).
  - apply bytes_ok_app. split; [constructor|].
    unfold packet_bytes. apply bytes_ok_app. split; [apply struct_be_bytes_ok|constructor].
  - vm_compute. reflexivity.
Defined.

Lemma checksum_detection_witness :
  ValidateMessage (header (with_checksum sample_import)) ([49] ++ 46 :: [50])
  = Ok false ∧
  ValidateMessage (header (with_checksum sample_import)) [50; 45; 49] = Ok true.
Proof.
  destruct (checksum_detection (header (with_checksum sample_import))
    [49] 45 [50]) as [H1 H2].
  - bytes_compute.
  - reflexivity.
  - vm_compute. reflexivity.
  - split; [apply H1; by vm_compute|]. apply H2. cbn [app].
    etransitivity; [apply perm_swap|]. etransitivity; [apply perm_skip, perm_swap|].
    apply perm_swap.
Defined.


Lemma resync_loses_packets_little_endian_witness :
  ∃ st', ProcessReceivedData (h := LittleEndian) (0 :: packet_bytes sample_heartbeat)
           (SetMessageCallback MessageHandler_init) = Ok ([], st') ∧
         (length (receive_buffer_ st') < 20)%nat.
Proof.
  apply (resync_loses_packets_little_endian (SetMessageCallback MessageHandler_init)).
  - apply Forall_cons. split; [by vm_compute|].
    unfold packet_bytes. apply bytes_ok_app. split; [apply struct_be_bytes_ok|constructor].
  - vm_compute. lia.
  - by vm_compute.
Defined.

Lemma resync_recovers_big_endian_witness :
  ProcessReceivedData (h := BigEndian) ([0] ++ packet_bytes sample_heartbeat)
    (SetMessageCallback MessageHandler_init)
  = ProcessReceivedData (h := BigEndian) (packet_bytes sample_heartbeat)
    (SetMessageCallback MessageHandler_init).
Proof.
  apply (resync_recovers_big_endian [0] (packet_bytes sample_heartbeat) true).
  - apply Forall_cons. split; [by vm_compute|].
    unfold packet_bytes. apply bytes_ok_app. split; [apply struct_be_bytes_ok|constructor].
  - vm_compute. lia.
  - done.
  - by vm_compute.
  - by vm_compute.
Defined.

Lemma new_message_well_formed_witness :
  ∃ m, NetworkMessage_new DEVICE_IMPORT_REQUEST [49; 45; 50] 7 = Ok (m, 8) ∧
    packet_ok m ∧ payload m = [49; 45; 50] ∧ sequence (header m) = 7 ∧
    MessageType_cast (type (header m)) = Some DEVICE_IMPORT_REQUEST.
Proof.
  apply (new_message_well_formed DEVICE_IMPORT_REQUEST [49; 45; 50] 7); [by vm_compute| |by vm_compute].
  bytes_compute.
Defined.
