(* ===== verification/VirtualUsbDevice.v ===== *)
(** * VirtualUsbDevice: URB handling of the receiver's virtual device

    [receiver/virtual_device/virtual_usb_device.cpp], class
    [VirtualUsbDevice]: its state and the handlers behind [ProcessUrb]. The
    handlers return the URBs passed to [urb_response_callback_], in order.
    Then its polling thread and its access to files, which nothing calls.
    Creation, attachment and teardown, which go through the port table of
    [UsbipManager], are in [UsbipManager.v]. *)

From S2P Require Import Prelude Memory UsbTypes UsbipProtocol MessageHandler.
From stdpp Require Import gmap.
Open Scope Z_scope.

(** ** State *)

Record VirtualUsbDevice := {
  device_info_ : UsbipDeviceInfo;
  urb_response_callback_ : bool;  (* a callback has been set *)
  created_ : bool;
  attached_ : bool;
  processing_ : bool;
  urb_thread_ : bool;             (* joinable *)
  usbip_port_path_ : string;
  device_path_ : string;
  port_number_ : Z;
  current_configuration_ : Z;
  device_descriptor_ : list Z;
  config_descriptor_ : list Z;
  string_descriptors_ : list string;
}.

Definition set_current_configuration_ (c : Z) (d : VirtualUsbDevice) : VirtualUsbDevice :=
  d {{ current_configuration_ := c }}.

(** The constructor; [info] is the indeterminate initial [device_info_]. *)
Definition VirtualUsbDevice_init (info : UsbipDeviceInfo) : VirtualUsbDevice := {|
  device_info_ := info; urb_response_callback_ := false;
  created_ := false; attached_ := false; processing_ := false; urb_thread_ := false;
  usbip_port_path_ := ""; device_path_ := ""; port_number_ := -1;
  current_configuration_ := 0; device_descriptor_ := []; config_descriptor_ := [];
  string_descriptors_ := [""; "USB Redirector"; "Virtual Mass Storage"; "123456789"];
|}.

Definition SetUrbResponseCallback (d : VirtualUsbDevice) : VirtualUsbDevice :=
  d {{ urb_response_callback_ := true }}.

(** ** Descriptors *)

Section Device.
Context {h : Host}.

(** The struct [CreateDeviceDescriptors] fills in. *)
Definition new_device_descriptor (info : UsbipDeviceInfo) : UsbDeviceDescriptor := {|
  dd_bLength := 18;
  dd_bDescriptorType := UsbDescriptorType_val DEVICE;
  dd_bcdUSB := 0x0200;
  dd_bDeviceClass := bDeviceClass info;
  dd_bDeviceSubClass := bDeviceSubClass info;
  dd_bDeviceProtocol := bDeviceProtocol info;
  dd_bMaxPacketSize0 := 64;
  dd_idVendor := idVendor info;
  dd_idProduct := idProduct info;
  dd_bcdDevice := bcdDevice info;
  dd_iManufacturer := 1;
  dd_iProduct := 2;
  dd_iSerialNumber := 3;
  dd_bNumConfigurations := 1;
|}.

(** Writing through [reinterpret_cast] replaces the 18 bytes; the
    configuration descriptor is only resized. *)
Definition CreateDeviceDescriptors : M VirtualUsbDevice () := λ d,
  let buf := vec_resize 18 (device_descriptor_ d) in
  buf ← memcpy buf 0 (struct_bytes (new_device_descriptor (device_info_ d)));
  Ok ((), d {{ device_descriptor_ := buf;
               config_descriptor_ := vec_resize 32 (config_descriptor_ d) }}).

Definition GetDeviceDescriptor (d : VirtualUsbDevice) : list Z := device_descriptor_ d.
Definition GetConfigurationDescriptor (d : VirtualUsbDevice) : list Z := config_descriptor_ d.

Definition GetStringDescriptor (d : VirtualUsbDevice) (index : Z) : list Z :=
  match string_descriptors_ d !! Z.to_nat index with
  | Some str =>
    if index =? 0 then [4; 3; 0x09; 0x04]
    else
      u8 (2 + Z.of_nat (String.length str) * 2) :: 3
      :: flat_map (λ c, [c; 0]) (string_bytes str)
  | None => []
  end.

(** ** Control requests *)

Definition HandleStandardRequest (s : UsbSetupPacket) : M VirtualUsbDevice (list Z) := λ d,
  if bRequest s =? UsbStandardRequest_val GET_DESCRIPTOR then
    let desc_type := Z.land (Z.shiftr (wValue s) 8) 0xFF in
    let desc_index := Z.land (wValue s) 0xFF in
    Ok (if desc_type =? UsbDescriptorType_val DEVICE then GetDeviceDescriptor d
        else if desc_type =? UsbDescriptorType_val CONFIGURATION then GetConfigurationDescriptor d
        else if desc_type =? UsbDescriptorType_val STRING then GetStringDescriptor d desc_index
        else [], d)
  else if bRequest s =? UsbStandardRequest_val SET_CONFIGURATION then
    Ok ([], set_current_configuration_ (Z.land (wValue s) 0xFF) d)
  else if bRequest s =? UsbStandardRequest_val GET_CONFIGURATION then
    Ok ([current_configuration_ d], d)
  else Ok ([], d).

Definition HandleClassRequest (d : VirtualUsbDevice) (s : UsbSetupPacket) : list Z :=
  if bDeviceClass (device_info_ d) =? UsbDeviceClass_val MASS_STORAGE then
    if bRequest s =? 0xFF then []
    else if bRequest s =? 0xFE then [0]
    else []
  else [].

Definition HandleVendorRequest (s : UsbSetupPacket) : list Z := [].

(** ** URBs *)

Definition flip_direction (dir : UsbDirection) : UsbDirection :=
  match dir with IN => OUT | _ => IN end.

(** The response URB: a copy with the direction flipped, status 0 and the
    given data. *)
Definition make_response (urb : UsbUrb) (data : list Z) : UsbUrb := {|
  urb_id := urb_id urb; urb_type := urb_type urb;
  urb_direction := flip_direction (urb_direction urb);
  urb_endpoint := urb_endpoint urb; urb_flags := urb_flags urb;
  urb_data := data; urb_setup := urb_setup urb;
  urb_status := 0;
  urb_actual_length := u32 (Z.of_nat (length data));
  urb_timestamp := urb_timestamp urb;
|}.

(** [if (urb_response_callback_) urb_response_callback_(response)]. *)
Definition respond (response : UsbUrb) : M VirtualUsbDevice (list UsbUrb) := λ d,
  Ok (if urb_response_callback_ d then [response] else [], d).

Definition HandleControlUrb (urb : UsbUrb) : M VirtualUsbDevice (list UsbUrb) :=
  let s := urb_setup urb in
  let kind := Z.land (bmRequestType s) 0x60 in
  data ← (if kind =? 0x00 then HandleStandardRequest s
          else if kind =? 0x20 then d ← get; mret (HandleClassRequest d s)
          else if kind =? 0x40 then mret (HandleVendorRequest s)
          else mret (urb_data urb));
  respond (make_response urb data).

Definition SimulateDeviceResponse (urb : UsbUrb) : M VirtualUsbDevice (list UsbUrb) :=
  respond (make_response urb
    (match urb_direction urb with OUT => [] | _ => [0x00; 0x01; 0x02; 0x03] end)).

Definition ProcessScsiCommand (cbw_data : list Z) : res (list Z) :=
  if decide (31 ≤ length cbw_data)%nat then
    scsi_cmd ← vec_at cbw_data 15;
    if scsi_cmd =? 0x12 then
      let response := vec_resize 36 [] in
      response ← memcpy response 0 [0x00];
      response ← memcpy response 1 [0x80];
      response ← memcpy response 2 [0x04];
      response ← memcpy response 3 [0x02];
      response ← memcpy response 4 [31];
      vendor ← mem_read (string_bytes "Virtual " ++ [0]) 0 8;
      product ← mem_read (string_bytes "Mass Storage   " ++ [0]) 0 16;
      response ← memcpy response 8 vendor;
      memcpy response 16 product
    else if scsi_cmd =? 0x25 then
      let response := vec_resize 8 [] in
      let last_block := htonl 1023 in
      let block_size := htonl 512 in
      response ← memcpy response 0 (mem_store 4 last_block);
      memcpy response 4 (mem_store 4 block_size)
    else Ok []
  else Ok [].

Definition HandleMassStorageUrb (urb : UsbUrb) : M VirtualUsbDevice (list UsbUrb) :=
  data ← (match urb_direction urb with
          | OUT =>
            if decide (31 ≤ length (urb_data urb))%nat
            then lift (ProcessScsiCommand (urb_data urb))
            else mret (urb_data urb)
          | _ =>
            let data := vec_resize 13 (urb_data urb) in
            let signature := 0x53425355 in
            lift (memcpy data 0 (mem_store 4 signature))
          end);
  respond (make_response urb data).

Definition HandleBulkUrb (urb : UsbUrb) : M VirtualUsbDevice (list UsbUrb) :=
  d ← get;
  if bDeviceClass (device_info_ d) =? UsbDeviceClass_val MASS_STORAGE
  then HandleMassStorageUrb urb else SimulateDeviceResponse urb.

Definition HandleInterruptUrb (urb : UsbUrb) : M VirtualUsbDevice (list UsbUrb) :=
  SimulateDeviceResponse urb.

Definition HandleIsochronousUrb (urb : UsbUrb) : M VirtualUsbDevice (list UsbUrb) :=
  SimulateDeviceResponse urb.

Definition ProcessUrb (urb : UsbUrb) : M VirtualUsbDevice (list UsbUrb) :=
  d ← get;
  if negb (attached_ d) then mret []
  else match urb_type urb with
       | CONTROL => HandleControlUrb urb
       | BULK => HandleBulkUrb urb
       | INTERRUPT => HandleInterruptUrb urb
       | ISOCHRONOUS => HandleIsochronousUrb urb
       end.
End Device.

(** ** The thread and the files of a device *)

Definition GetDevicePath (d : VirtualUsbDevice) : string := device_path_ d.

(** The thread of an attached device polls [processing_]; [others] is what
    the other threads do while it sleeps.  False when it still runs after
    them. *)
Fixpoint UrbProcessingThread (others : list (M VirtualUsbDevice ())) : M VirtualUsbDevice bool :=
  d ← get;
  if negb (processing_ d) then mret true
  else
    match others with
    | [] => mret false
    | m :: others' => m;; UrbProcessingThread others'
    end.

(** Files by name. [opens]: whether the file can be opened; a stream passes
    [early] bytes on before [good] is asked, and the rest when it is
    destroyed; [accepted] is how many the disk takes. *)
Abbreviation disk := (gmap string (list Z)).

Record file_answers := { opens : bool; early : nat; accepted : nat }.

Definition WriteToFile (file : file_answers) (path : string) (content : list Z) : M disk bool :=
  if negb (opens file) then mret false
  else
    modify (λ fs, <[path := take (accepted file) content]> fs);;
    mret (bool_decide (early file `min` length content ≤ accepted file)%nat).

Definition ReadFromFile (can_open : bool) (path : string) (fs : disk) : list Z :=
  match fs !! path with Some content => if can_open then content else [] | None => [] end.

(** ** Lemmas *)

Section DeviceLemmas.
Context {h : Host}.

(** The 36 bytes of the INQUIRY answer. *)
Definition inquiry_response : list Z :=
  [0x00; 0x80; 0x04; 0x02; 31; 0; 0; 0] ++ string_bytes "Virtual "
  ++ string_bytes "Mass Storage   " ++ [0] ++ [0; 0; 0; 0].

(** SCSI commands never fault: INQUIRY and READ CAPACITY (10) have fixed
    answers, every other command and every short CBW an empty one. *)
Lemma ProcessScsiCommand_spec cbw :
  ProcessScsiCommand cbw
  = Ok (if decide (31 ≤ length cbw)%nat then
          match nth 15 cbw 0 with
          | 0x12 => inquiry_response
          | 0x25 => be_bytes 4 1023 ++ be_bytes 4 512
          | _ => []
          end
        else []).
Proof.
  unfold ProcessScsiCommand. case_decide as Hl; [|done].
  destruct (lookup_lt_is_Some_2 cbw 15) as [c Hc]; [lia|].
  unfold vec_at. rewrite Hc. cbn [mbind res_bind].
  rewrite nth_lookup, Hc. cbn [default].
  destruct (Z.eqb_spec c 0x12) as [->|Hne1]; [by vm_compute|].
  destruct (Z.eqb_spec c 0x25) as [->|Hne2].
  - rewrite !store_htonl. cbn [mbind res_bind].
    change (vec_resize 8 []) with (replicate 8 0).
    rewrite memcpy_head by (rewrite length_be_bytes; lia). cbn [mbind res_bind].
    apply memcpy_tail_exact; [by rewrite !length_be_bytes|by rewrite length_be_bytes].
  - repeat (case_match; try done); congruence.
Qed.

(** ** The response to a URB *)

Lemma HandleStandardRequest_total s d :
  ∃ data c, HandleStandardRequest s d = Ok (data, set_current_configuration_ c d).
Proof.
  assert (d = set_current_configuration_ (current_configuration_ d) d) as E by by destruct d.
  unfold HandleStandardRequest.
  destruct (_ =? _); [|destruct (_ =? _); [by eauto|destruct (_ =? _)]];
    eexists _, (current_configuration_ d); by rewrite <- E.
Qed.

Lemma ProcessUrb_total urb d :
  attached_ d = true →
  ∃ data c, ProcessUrb urb d
            = Ok (if urb_response_callback_ d then [make_response urb data] else [],
                  set_current_configuration_ c d).
Proof.
  intros Ha. unfold ProcessUrb, mbind, M_bind, get. rewrite Ha. cbn [negb].
  assert (∀ data, respond (make_response urb data) d
    = Ok (if urb_response_callback_ d then [make_response urb data] else [],
          set_current_configuration_ (current_configuration_ d) d)) as Hresp
    by (intros data; unfold respond; by destruct d).
  assert (∃ data c, SimulateDeviceResponse urb d
            = Ok (if urb_response_callback_ d then [make_response urb data] else [],
                  set_current_configuration_ c d)) as Hsim
    by (unfold SimulateDeviceResponse; eauto).
  destruct (urb_type urb); [|exact Hsim| |exact Hsim].
  - unfold HandleControlUrb, mbind, M_bind. destruct (_ =? 0).
    { destruct (HandleStandardRequest_total (urb_setup urb) d) as (data & c & ->).
      exists data, c. by destruct d. }
    unfold get, mret, M_ret. destruct (_ =? 0x20); [by eauto|].
    destruct (_ =? 0x40); by eauto.
  - unfold HandleBulkUrb, mbind, M_bind, get. destruct (_ =? _); [|exact Hsim].
    unfold HandleMassStorageUrb, mbind, M_bind. unfold lift, mret, M_ret.
    assert (∃ data, memcpy (vec_resize 13 (urb_data urb)) 0 (mem_store 4 0x53425355) = Ok data)
      as [csw Hcsw].
    { unfold memcpy. rewrite length_vec_resize, length_mem_store. by eauto. }
    destruct (urb_direction urb); rewrite ?Hcsw; [|by eauto..].
    case_decide; [|by eauto]. rewrite ProcessScsiCommand_spec. by eauto.
Qed.
(** The answer to a bulk URB of a mass-storage device. *)
Lemma HandleMassStorageUrb_run urb d :
  urb_response_callback_ d = true →
  HandleMassStorageUrb urb d = Ok ([make_response urb
    (match urb_direction urb with
     | OUT =>
       if decide (31 ≤ length (urb_data urb))%nat then
         match nth 15 (urb_data urb) 0 with
         | 0x12 => inquiry_response
         | 0x25 => be_bytes 4 1023 ++ be_bytes 4 512
         | _ => []
         end
       else urb_data urb
     | _ => mem_store 4 0x53425355 ++ drop 4 (vec_resize 13 (urb_data urb))
     end)], d).
Proof.
  intros Hcb. unfold HandleMassStorageUrb, mbind, M_bind, lift, mret, M_ret.
  assert (memcpy (vec_resize 13 (urb_data urb)) 0 (mem_store 4 0x53425355)
          = Ok (mem_store 4 0x53425355 ++ drop 4 (vec_resize 13 (urb_data urb)))) as Hcsw.
  { unfold memcpy. by rewrite length_vec_resize, length_mem_store. }
  rewrite Hcsw. unfold respond.
  destruct (urb_direction urb); [|by rewrite Hcb..].
  case_decide; [|by rewrite Hcb].
  rewrite ProcessScsiCommand_spec, decide_True by done. by rewrite Hcb.
Qed.
End DeviceLemmas.

Lemma create_descriptors_spec {h : Host} d :
  wf (new_device_descriptor (device_info_ d)) → config_descriptor_ d = [] →
  ∃ d', CreateDeviceDescriptors d = Ok ((), d') ∧
    device_descriptor_ d' = struct_bytes (new_device_descriptor (device_info_ d)) ∧
    config_descriptor_ d' = replicate 32 0 ∧
    string_descriptors_ d' = string_descriptors_ d ∧ attached_ d' = attached_ d ∧
    urb_response_callback_ d' = urb_response_callback_ d.
Proof.
  intros Hw Hc. pose proof (length_struct_bytes _ Hw) as Hl.
  change (sizeof UsbDeviceDescriptor) with 18%nat in Hl.
  unfold CreateDeviceDescriptors. unfold memcpy.
  rewrite length_vec_resize, Hl, decide_True by lia. cbn [mbind res_bind].
  eexists. split; [done|]. cbn. rewrite Hc.
  split_and!; try done. unfold vec_resize at 1.
  rewrite drop_ge by (rewrite length_vec_resize; lia). by rewrite app_nil_r.
Qed.

(** ** Properties *)

(** C22: An attached device answers every URB, of any transfer type, with
    exactly one response: same id, type, endpoint, flags, setup packet and
    timestamp, direction reversed, status 0 and an actual length equal to the
    size of its data. Nothing of the device changes but, at most, the current
    configuration. A device that is not attached answers nothing. *)
Theorem process_urb_one_response {h : Host} urb d :
  urb_response_callback_ d = true →
  (attached_ d = false ∧ ProcessUrb urb d = Ok ([], d)) ∨
  (attached_ d = true ∧ ∃ r c,
     ProcessUrb urb d = Ok ([r], set_current_configuration_ c d) ∧
     urb_id r = urb_id urb ∧ urb_type r = urb_type urb ∧
     urb_endpoint r = urb_endpoint urb ∧ urb_flags r = urb_flags urb ∧
     urb_setup r = urb_setup urb ∧ urb_timestamp r = urb_timestamp urb ∧
     urb_direction r ≠ urb_direction urb ∧ urb_status r = 0 ∧
     urb_actual_length r = u32 (Z.of_nat (length (urb_data r)))).
Proof.
  intros Hcb. destruct (attached_ d) eqn:Ha.
  - right. split; [done|]. destruct (ProcessUrb_total urb d Ha) as (data & c & ->).
    rewrite Hcb. exists (make_response urb data), c. cbn.
    split_and!; try done. by destruct (urb_direction urb).
  - left. split; [done|]. unfold ProcessUrb, mbind, M_bind, get. by rewrite Ha.
Qed.

(** GET_DESCRIPTOR(DEVICE) on a device whose descriptors have been created
    returns 18 bytes that read back, as the packed struct, to the descriptor
    built from the imported device's ids and class; GET_DESCRIPTOR
    (CONFIGURATION) returns 32 zero bytes. *)
Theorem get_descriptor_device {h : Host} d d' s :
  wf (new_device_descriptor (device_info_ d)) → config_descriptor_ d = [] →
  CreateDeviceDescriptors d = Ok ((), d') →
  bRequest s = 6 →
  (Z.land (Z.shiftr (wValue s) 8) 0xFF = 1 →
   ∃ bytes, HandleStandardRequest s d' = Ok (bytes, d') ∧ length bytes = 18%nat ∧
     struct_load bytes = new_device_descriptor (device_info_ d)) ∧
  (Z.land (Z.shiftr (wValue s) 8) 0xFF = 2 →
   HandleStandardRequest s d' = Ok (replicate 32 0, d')).
Proof.
  intros Hw Hc Hd Hr.
  destruct (create_descriptors_spec d Hw Hc) as (d'' & E & Hdd & Hcd & _).
  rewrite Hd in E. injection E as <-.
  unfold HandleStandardRequest, GetDeviceDescriptor, GetConfigurationDescriptor.
  rewrite Hr. cbn [UsbStandardRequest_val Z.eqb Pos.eqb].
  split; intros ->; cbn [UsbDescriptorType_val Z.eqb Pos.eqb]; [|by rewrite Hcd].
  rewrite Hdd. eexists. split; [done|]. split; [by rewrite length_struct_bytes|].
  rewrite <- (app_nil_r (struct_bytes _)). by apply struct_load_bytes.
Qed.

Lemma length_string_bytes s : length (string_bytes s) = String.length s.
Proof.
  unfold string_bytes. rewrite length_map.
  induction s as [|c s IH]; simpl; [done|]. by rewrite IH.
Qed.

(** The UTF-16LE code units of a string descriptor. *)
Fixpoint utf16_units (l : list Z) : list Z :=
  match l with lo :: hi :: l' => lo + 256 * hi :: utf16_units l' | _ => [] end.

Lemma utf16_units_flat l : utf16_units (flat_map (λ c, [c; 0]) l) = l.
Proof. induction l as [|c l IH]; simpl; [done|]. rewrite IH. f_equal. lia. Qed.

Lemma length_flat_pairs l : length (flat_map (λ c, [c; 0]) l) = (2 * length l)%nat.
Proof. induction l as [|c l IH]; simpl in *; [done|]. lia. Qed.

(** String descriptors are well formed. For an index in the table (other
    than 0) whose string has at most 126 characters, the first byte is the
    descriptor's size, the second is 3, and the rest decodes as UTF-16LE to
    the string; index 0 is the US-English language list; an index outside the
    table gives an empty answer. *)
Theorem string_descriptor_well_formed d index :
  is_byte index →
  match string_descriptors_ d !! Z.to_nat index with
  | None => GetStringDescriptor d index = []
  | Some str =>
    if index =? 0 then GetStringDescriptor d index = [4; 3; 9; 4]
    else (String.length str ≤ 126)%nat →
      ∃ units, GetStringDescriptor d index
               = Z.of_nat (length (GetStringDescriptor d index)) :: 3 :: units ∧
        utf16_units units = string_bytes str
  end.
Proof.
  intros Hi. unfold GetStringDescriptor.
  destruct (string_descriptors_ d !! Z.to_nat index) as [str|]; [|done].
  destruct (index =? 0); [done|]. intros Hl.
  exists (flat_map (λ c, [c; 0]) (string_bytes str)). split; [|apply utf16_units_flat].
  f_equal. cbn [length]. rewrite length_flat_pairs, length_string_bytes.
  rewrite u8_id by (unfold is_byte; lia). lia.
Qed.

(** SET_CONFIGURATION stores the low byte of wValue and the next
    GET_CONFIGURATION returns it; no other standard request changes the
    device. *)
Theorem configuration_requests d s s' :
  0 <= wValue s → bRequest s' = 8 →
  (bRequest s = 9 → ∃ d', HandleStandardRequest s d = Ok ([], d') ∧
     HandleStandardRequest s' d' = Ok ([wValue s mod 256], d')) ∧
  (bRequest s ≠ 9 → ∃ data, HandleStandardRequest s d = Ok (data, d)).
Proof.
  intros Hv Hs'. unfold HandleStandardRequest. split; intros Hs.
  - rewrite Hs. cbn [UsbStandardRequest_val Z.eqb Pos.eqb].
    eexists. split; [done|]. rewrite Hs'. cbn.
    change 255 with (Z.ones 8). by rewrite Z.land_ones by lia.
  - destruct (_ =? _); [eauto|]. cbn [UsbStandardRequest_val].
    destruct (Z.eqb_spec (bRequest s) 9); [done|]. destruct (_ =? _); eauto.
Qed.

(** Bulk URBs of an attached mass-storage device. An OUT URB with a whole
    CBW is answered with INQUIRY data (36 bytes), with the capacity 1024
    blocks of 512 bytes in network order, or with nothing, by its SCSI
    opcode; a shorter OUT URB is echoed. An IN URB is answered with 13 bytes:
    the CSW signature as the host stores it, then whatever the request's own
    data held at offsets 4 to 12 (zero where it had none). *)
Theorem mass_storage_bulk {h : Host} urb d :
  attached_ d = true → urb_response_callback_ d = true →
  urb_type urb = BULK → bDeviceClass (device_info_ d) = 8 →
  ProcessUrb urb d = Ok ([make_response urb
    (match urb_direction urb with
     | OUT =>
       if decide (31 ≤ length (urb_data urb))%nat then
         match nth 15 (urb_data urb) 0 with
         | 0x12 => inquiry_response
         | 0x25 => be_bytes 4 1023 ++ be_bytes 4 512
         | _ => []
         end
       else urb_data urb
     | _ => mem_store 4 0x53425355 ++ drop 4 (vec_resize 13 (urb_data urb))
     end)], d).
Proof.
  intros Ha Hcb Ht Hcls. unfold ProcessUrb, mbind, M_bind, get. rewrite Ha, Ht. cbn [negb].
  unfold HandleBulkUrb, mbind, M_bind, get. rewrite Hcls. cbn [UsbDeviceClass_val Z.eqb Pos.eqb].
  by apply HandleMassStorageUrb_run.
Qed.

(** The thread ends exactly at its first look at a cleared flag, changes
    nothing itself, and runs as long as the flag is set. *)
Theorem urb_thread_polls others m later d d1 :
  UrbProcessingThread others d = Ok (false, d1) → processing_ d1 = true ∧
  ∀ d2, m d1 = Ok ((), d2) → processing_ d2 = false →
    UrbProcessingThread (others ++ m :: later) d = Ok (true, d2).
Proof.
  revert d. induction others as [|o others IH]; intros d; cbn [UrbProcessingThread app];
    unfold get, mbind, M_bind; destruct (processing_ d) eqn:Hp; try done; cbn [negb].
  - intros [= <-]. split; [done|]. intros d2 -> Hp2.
    destruct later as [|m' later]; cbn [UrbProcessingThread]; unfold get, mbind, M_bind; by rewrite Hp2.
  - destruct (o d) as [[[] d']|]; [|done]. apply IH.
Qed.

(** A file whose content the disk took in full reads back as it was written;
    no other file changes.  A result of true does not say so much: bytes still
    in the stream may be refused after it. *)
Theorem files_round_trip file path content fs :
  opens file = true →
  ∃ ok fs', WriteToFile file path content fs = Ok (ok, fs') ∧
    ReadFromFile true path fs' = take (accepted file) content ∧
    (length content ≤ accepted file → ok = true ∧ ReadFromFile true path fs' = content)%nat ∧
    (early file = 0%nat → ok = true) ∧ ∀ path', path' ≠ path → fs' !! path' = fs !! path'.
Proof.
  intros Ho. unfold WriteToFile. rewrite Ho. cbn [negb]. do 2 eexists. split; [reflexivity|].
  unfold ReadFromFile. rewrite lookup_insert_eq. split_and!; [done| |..].
  - intros Hl. rewrite take_ge by done. split; [|done]. apply bool_decide_eq_true. lia.
  - intros ->. apply bool_decide_eq_true. lia.
  - intros path' Hne. by rewrite lookup_insert_ne.
Qed.

(** ** Witnesses *)

Definition sample_info : UsbipDeviceInfo := {|
  path := replicate 256 0; busid := [49; 45; 50] ++ replicate 29 0;
  busnum := 1; devnum := 2; speed := 3; idVendor := 0x1234; idProduct := 0x5678;
  bcdDevice := 0x0100; bDeviceClass := 8; bDeviceSubClass := 6; bDeviceProtocol := 0x50;
  bConfigurationValue := 1; bNumConfigurations := 1; bNumInterfaces := 1 |}.

Definition sample_device (attached : bool) : VirtualUsbDevice := {|
  device_info_ := sample_info; urb_response_callback_ := true;
  created_ := true; attached_ := attached; processing_ := attached; urb_thread_ := attached;
  usbip_port_path_ := ""; device_path_ := ""; port_number_ := 0;
  current_configuration_ := 0; device_descriptor_ := []; config_descriptor_ := [];
  string_descriptors_ := string_descriptors_ (VirtualUsbDevice_init sample_info) |}.

Definition sample_setup (req value : Z) : UsbSetupPacket :=
  {| bmRequestType := 0x80; bRequest := req; wValue := value; wIndex := 0; wLength := 64 |}.

Definition sample_urb (t : UsbTransferType) (dir : UsbDirection) (data : list Z) : UsbUrb := {|
  urb_id := 5; urb_type := t; urb_direction := dir; urb_endpoint := 1; urb_flags := 0;
  urb_data := data; urb_setup := sample_setup 6 0x0100; urb_status := 0;
  urb_actual_length := Z.of_nat (length data); urb_timestamp := 0 |}.

Lemma process_urb_one_response_witness :
  ∃ r c, ProcessUrb (h := LittleEndian) (sample_urb BULK IN []) (sample_device true)
         = Ok ([r], set_current_configuration_ c (sample_device true)) ∧
    urb_id r = 5 ∧ urb_direction r ≠ IN ∧ urb_status r = 0.
Proof.
  destruct (process_urb_one_response (h := LittleEndian) (sample_urb BULK IN []) (sample_device true) eq_refl)
    as [[H _]|[_ (r & c & H & Hid & _ & _ & _ & _ & _ & Hdir & Hst & _)]]; [done|].
  exists r, c. split_and!; [apply H|apply Hid|apply Hdir|apply Hst].
Defined.

Lemma get_descriptor_device_witness :
  ∃ d' bytes, CreateDeviceDescriptors (h := LittleEndian) (sample_device true) = Ok ((), d') ∧
    HandleStandardRequest (sample_setup 6 0x0100) d' = Ok (bytes, d') ∧ length bytes = 18%nat ∧
    struct_load (h := LittleEndian) bytes = new_device_descriptor sample_info.
Proof.
  assert (∃ d', CreateDeviceDescriptors (h := LittleEndian) (sample_device true) = Ok ((), d'))
    as [d' Hd'] by (eexists; vm_compute; reflexivity).
  destruct (get_descriptor_device (h := LittleEndian) (sample_device true) d' (sample_setup 6 0x0100))
    as [H _].
  - repeat (apply List.Forall2_cons; [by vm_compute|]); apply List.Forall2_nil.
  - reflexivity.
  - exact Hd'.
  - reflexivity.
  - destruct (H eq_refl) as (bytes & H1 & H2 & H3). by exists d', bytes.
Defined.

Lemma string_descriptor_well_formed_witness :
  ∃ units, GetStringDescriptor (sample_device true) 2
           = Z.of_nat (length (GetStringDescriptor (sample_device true) 2)) :: 3 :: units ∧
    utf16_units units = string_bytes "Virtual Mass Storage".
Proof.
  apply (string_descriptor_well_formed (sample_device true) 2); [by vm_compute|vm_compute; lia].
Defined.

Lemma configuration_requests_witness :
  ∃ d', HandleStandardRequest (sample_setup 9 0x0301) (sample_device true) = Ok ([], d') ∧
     HandleStandardRequest (sample_setup 8 0) d' = Ok ([1], d').
Proof.
  apply (configuration_requests (sample_device true) (sample_setup 9 0x0301) (sample_setup 8 0));
    by vm_compute.
Defined.

Lemma mass_storage_bulk_witness :
  ProcessUrb (h := LittleEndian) (sample_urb BULK OUT (replicate 15 0 ++ [0x25] ++ replicate 15 0))
    (sample_device true)
  = Ok ([make_response (sample_urb BULK OUT (replicate 15 0 ++ [0x25] ++ replicate 15 0))
           [0; 0; 3; 255; 0; 0; 2; 0]], sample_device true).
Proof.
  apply (mass_storage_bulk (h := LittleEndian)
    (sample_urb BULK OUT (replicate 15 0 ++ [0x25] ++ replicate 15 0)) (sample_device true));
    reflexivity.
Defined.

Lemma urb_thread_polls_witness :
  UrbProcessingThread [modify id; modify (λ d, d {{ processing_ := false }}); modify id]
    (sample_device true) = Ok (true, (sample_device true) {{ processing_ := false }}).
Proof.
  destruct (urb_thread_polls [modify id] (modify (λ d, d {{ processing_ := false }})) [modify id]
    (sample_device true) (sample_device true)) as [_ H]; [reflexivity|].
  apply H; reflexivity.
Defined.

Lemma files_round_trip_witness :
  ∃ fs', WriteToFile {| opens := true; early := 0; accepted := 1 |} "f" [1; 2] ∅ = Ok (true, fs') ∧
    ReadFromFile true "f" fs' = [1].
Proof.
  destruct (files_round_trip {| opens := true; early := 0; accepted := 1 |} "f" [1; 2] ∅ eq_refl)
    as (ok & fs' & H1 & H2 & _ & H3 & _).
  exists fs'. rewrite (H3 eq_refl) in H1. split; [exact H1|exact H2].
Defined.
