(* ===== verification/UsbipManager.v ===== *)
(** * UsbipManager: the port table and the lifecycle of virtual devices

    [receiver/virtual_device/virtual_usb_device.cpp]: class [UsbipManager],
    and the members of [VirtualUsbDevice] that create, attach, detach and
    destroy a device.  Devices are objects behind [shared_ptr], so the state
    is a heap of devices by identity, the manager singleton, the mutexes held
    by the running thread and the shell commands executed so far.  A
    [std::lock_guard] on a mutex the thread already holds never returns:
    [SelfDeadlock].  [std::system] is a parameter: the exit status of a
    command, given the commands before it. *)

From S2P Require Import Prelude Memory UsbTypes UsbipProtocol MessageHandler VirtualUsbDevice.
From stdpp Require Import gmap.
Open Scope Z_scope.

(** ** State *)

Inductive mutex := ManagerMutex | DeviceMutex (id : nat).
#[export] Instance mutex_eq_dec : EqDecision mutex.
Proof. solve_decision. Defined.

Record UsbipManager := {
  virtual_devices_ : list nat;
  port_usage_ : list bool;
  initialized_ : bool;
}.

Record world := {
  manager : UsbipManager;
  devices : gmap nat VirtualUsbDevice;
  next_device : nat;
  held : list mutex;
  shell : list string;
}.

Definition world_init : world := {|
  manager := {| virtual_devices_ := []; port_usage_ := []; initialized_ := false |};
  devices := ∅; next_device := 0; held := []; shell := [];
|}.

(** [std::lock_guard<std::mutex> lock(m)] for the rest of a function body. *)
Definition lock_guard {A} (m : mutex) (body : M world A) : M world A := λ w,
  if decide (m ∈ held w) then Fault SelfDeadlock
  else match body (w {{ held := m :: held w }}) with
       | Ok (a, w') => Ok (a, w' {{ held := held w }})
       | Fault e => Fault e
       end.

(** Access to an object through a pointer that must be valid. *)
Definition get_device (id : nat) : M world VirtualUsbDevice := λ w,
  match devices w !! id with Some d => Ok (d, w) | None => Fault OutOfBounds end.
Definition put_device (id : nat) (d : VirtualUsbDevice) : M world () := λ w,
  Ok ((), w {{ devices := <[id := d]> (devices w) }}).
Definition modify_manager (f : UsbipManager → UsbipManager) : M world () := λ w,
  Ok ((), w {{ manager := f (manager w) }}).

(** A member function of the device run on the object [id]. *)
Definition on_device {A} (id : nat) (m : M VirtualUsbDevice A) : M world A :=
  d ← get_device id;
  match m d with
  | Ok (a, d') => put_device id d';; mret a
  | Fault e => fail e
  end.

(** [std::make_shared<VirtualUsbDevice>()]; [info] is the indeterminate
    contents of the new object's [device_info_]. *)
Definition make_device (info : UsbipDeviceInfo) : M world nat := λ w,
  Ok (next_device w,
      w {{ devices := <[next_device w := VirtualUsbDevice_init info]> (devices w);
           next_device := S (next_device w) }}).

(** ** The manager *)

Section Manager.
Context {h : Host}.
Variable std_system : list string → string → Z.

Definition system (command : string) : M world Z := λ w,
  Ok (std_system (shell w) command, w {{ shell := shell w ++ [command] }}).

Definition LoadKernelModule : M world bool :=
  result ← system "modprobe vhci-hcd"; mret (result =? 0).
Definition UnloadKernelModule : M world bool :=
  result ← system "modprobe -r vhci-hcd"; mret (result =? 0).
Definition IsUsbipModuleLoaded : M world bool :=
  result ← system "lsmod | grep -q vhci_hcd"; mret (result =? 0).

(** [port_usage_.resize(8, false)]. *)
Definition resize_ports (l : list bool) : list bool :=
  take 8 l ++ replicate (8 - length l) false.

Definition UsbipManager_Initialize : M world bool :=
  lock_guard ManagerMutex (
    w ← get;
    if initialized_ (manager w) then mret true
    else
      modify_manager (λ m, m {{ port_usage_ := resize_ports (port_usage_ m) }});;
      ok ← LoadKernelModule;
      if negb ok then mret false
      else modify_manager (λ m, m {{ initialized_ := true }});; mret true).

(** The scan of [GetAvailablePort]. *)
Fixpoint first_free (l : list bool) : option nat :=
  match l with
  | [] => None
  | used :: l' => if used then S <$> first_free l' else Some O
  end.

Definition GetAvailablePort : M world Z :=
  lock_guard ManagerMutex (
    w ← get;
    match first_free (port_usage_ (manager w)) with
    | Some i =>
      modify_manager (λ m, m {{ port_usage_ := <[i := true]> (port_usage_ m) }});;
      mret (Z.of_nat i)
    | None => mret (-1)
    end).

Definition ReleasePort (port : Z) : M world () :=
  lock_guard ManagerMutex (
    w ← get;
    if (port >=? 0) && (port <? Z.of_nat (length (port_usage_ (manager w))))
    then modify_manager (λ m, m {{ port_usage_ := <[Z.to_nat port := false]> (port_usage_ m) }})
    else mret ()).

(** Indices of the ports in use, from [i] on. *)
Fixpoint active_from (i : Z) (l : list bool) : list Z :=
  match l with
  | [] => []
  | used :: l' => (if used then [i] else []) ++ active_from (i + 1) l'
  end.

Definition GetActivePorts : M world (list Z) :=
  lock_guard ManagerMutex (w ← get; mret (active_from 0 (port_usage_ (manager w)))).

(** ** Device lifecycle *)

Definition ExecuteCommand (command : string) : M world bool :=
  result ← system command; mret (result =? 0).

Definition attach_command (port : Z) (bus : list Z) : string :=
  "echo 'attach " +:+ to_string port +:+ " " +:+ string_of_bytes bus
  +:+ "' > /sys/devices/platform/vhci_hcd.0/attach".

Definition AttachToPort (id : nat) : M world bool :=
  d ← get_device id;
  bus ← lift (c_str (busid (device_info_ d)));
  ExecuteCommand (attach_command (port_number_ d) bus).

Definition detach_command (port : Z) : string :=
  "echo 'detach " +:+ to_string port +:+ "' > /sys/devices/platform/vhci_hcd.0/detach".

Definition DetachFromPort (id : nat) : M world bool :=
  d ← get_device id;
  ExecuteCommand (detach_command (port_number_ d)).

Definition CreateDevice (id : nat) (info : UsbipDeviceInfo) : M world bool :=
  lock_guard (DeviceMutex id) (
    d ← get_device id;
    if created_ d then mret true
    else
      put_device id (d {{ device_info_ := info }});;
      port ← GetAvailablePort;
      d ← get_device id;
      put_device id (d {{ port_number_ := port }});;
      if port <? 0 then mret false
      else
        d ← get_device id;
        put_device id (d {{
          usbip_port_path_ := "/sys/devices/platform/vhci_hcd.0/usb" +:+ to_string (port + 1);
          device_path_ := "/dev/bus/usb/" +:+ to_string (port + 1) +:+ "/001" }});;
        on_device id CreateDeviceDescriptors;;
        d ← get_device id;
        put_device id (d {{ created_ := true }});;
        mret true).

Definition AttachDevice (id : nat) : M world bool :=
  lock_guard (DeviceMutex id) (
    d ← get_device id;
    if negb (created_ d) then mret false
    else if attached_ d then mret true
    else
      ok ← AttachToPort id;
      if negb ok then mret false
      else
        d ← get_device id;
        put_device id (d {{ processing_ := true }});;
        (* assigning to a std::thread that is still joinable terminates *)
        (if urb_thread_ d then fail StdTerminate
         else put_device id (d {{ processing_ := true; urb_thread_ := true }}));;
        d ← get_device id;
        put_device id (d {{ attached_ := true }});;
        mret true).

(** The join returns: the thread's loop ends once [processing_] is false. *)
Definition DetachDevice (id : nat) : M world bool :=
  lock_guard (DeviceMutex id) (
    d ← get_device id;
    if negb (attached_ d) then mret true
    else
      put_device id (d {{ processing_ := false; urb_thread_ := false }});;
      DetachFromPort id;;
      d ← get_device id;
      put_device id (d {{ attached_ := false }});;
      mret true).

Definition DestroyDevice (id : nat) : M world () :=
  DetachDevice id;;
  lock_guard (DeviceMutex id) (
    d ← get_device id;
    if created_ d then
      (if port_number_ d >=? 0
       then ReleasePort (port_number_ d);;
            d ← get_device id;
            put_device id (d {{ port_number_ := -1 }})
       else mret ());;
      d ← get_device id;
      put_device id (d {{ created_ := false }})
    else mret ()).

(** [UsbipManager::CreateVirtualDevice]: [None] is the null pointer. *)
Definition CreateVirtualDevice (junk info : UsbipDeviceInfo) : M world (option nat) :=
  lock_guard ManagerMutex (
    id ← make_device junk;
    ok ← CreateDevice id info;
    if ok : bool then
      modify_manager (λ m, m {{ virtual_devices_ := virtual_devices_ m ++ [id] }});;
      mret (Some id)
    else mret None).

(** [virtual_devices_.erase(it)] at the position [std::find] returned. *)
Fixpoint erase_first (id : nat) (l : list nat) : list nat :=
  match l with
  | [] => []
  | x :: l' => if decide (x = id) then l' else x :: erase_first id l'
  end.

Definition RemoveVirtualDevice (id : nat) : M world bool :=
  lock_guard ManagerMutex (
    w ← get;
    if decide (id ∈ virtual_devices_ (manager w)) then
      DestroyDevice id;;
      modify_manager (λ m, m {{ virtual_devices_ :=
        erase_first id (virtual_devices_ m) }});;
      mret true
    else mret false).

(** [virtual_devices_.clear()] runs the destructor, and so [DestroyDevice],
    of every device the list was the last owner of: here, of all of them. *)
Fixpoint destroy_all (ids : list nat) : M world () :=
  match ids with [] => mret () | id :: ids' => DestroyDevice id;; destroy_all ids' end.

Definition UsbipManager_Cleanup : M world () :=
  lock_guard ManagerMutex (
    w ← get;
    if negb (initialized_ (manager w)) then mret ()
    else
      destroy_all (virtual_devices_ (manager w));;
      modify_manager (λ m, m {{ virtual_devices_ := [] }});;
      UnloadKernelModule;;
      modify_manager (λ m, m {{ initialized_ := false }})).
End Manager.

(** ** Runs of the operations

    One rule per primitive, on a world given by its components. *)

Abbreviation W := Build_world.

Section Runs.
Context {h : Host}.
Implicit Types (mg : UsbipManager) (devs : gmap nat VirtualUsbDevice).

Lemma wp_lock_guard {A} m (body : M world A) E Q mg devs nd hd sh :
  m ∉ hd →
  wp body E (λ a w', Q a (W (manager w') (devices w') (next_device w') hd (shell w')))
    (W mg devs nd (m :: hd) sh) →
  wp (lock_guard m body) E Q (W mg devs nd hd sh).
Proof.
  intros Hm H. unfold wp, lock_guard in *. cbn. rewrite decide_False by done.
  by destruct (body _) as [[a w']|e].
Qed.

Lemma wp_lock_held {A} m (body : M world A) (E : fault → Prop) Q mg devs nd hd sh :
  m ∈ hd → E SelfDeadlock → wp (lock_guard m body) E Q (W mg devs nd hd sh).
Proof. intros Hm H. unfold wp, lock_guard. cbn. by rewrite decide_True. Qed.

Lemma wp_get_device id d E Q mg devs nd hd sh :
  devs !! id = Some d → Q d (W mg devs nd hd sh) →
  wp (get_device id) E Q (W mg devs nd hd sh).
Proof. intros Hd H. unfold wp, get_device. cbn. by rewrite Hd. Qed.

Lemma wp_put_device id d E (Q : () → world → Prop) mg devs nd hd sh :
  Q () (W mg (<[id := d]> devs) nd hd sh) →
  wp (put_device id d) E Q (W mg devs nd hd sh).
Proof. done. Qed.

Lemma wp_modify_manager f E (Q : () → world → Prop) mg devs nd hd sh :
  Q () (W (f mg) devs nd hd sh) →
  wp (modify_manager f) E Q (W mg devs nd hd sh).
Proof. done. Qed.

Lemma wp_system std_system c E (Q : Z → world → Prop) mg devs nd hd sh :
  Q (std_system sh c) (W mg devs nd hd (sh ++ [c])) →
  wp (system std_system c) E Q (W mg devs nd hd sh).
Proof. done. Qed.

Lemma wp_on_device {A} id (m : M VirtualUsbDevice A) d a d' E (Q : A → world → Prop)
    mg devs nd hd sh :
  devs !! id = Some d → m d = Ok (a, d') → Q a (W mg (<[id := d']> devs) nd hd sh) →
  wp (on_device id m) E Q (W mg devs nd hd sh).
Proof.
  intros Hd Hm H. apply wp_bind, (wp_get_device _ d); [done|].
  cbv beta. by rewrite Hm.
Qed.
End Runs.

Ltac wp_lookup :=
  cbn [devices]; rewrite ?insert_insert_eq, ?lookup_insert_eq; first [eassumption | reflexivity].
Ltac wp_step :=
  lazymatch goal with
  | |- wp (_ ≫= _) _ _ _ => apply wp_bind
  | |- wp (mret _) _ _ _ => apply wp_ret
  | |- wp get _ _ _ => apply wp_get
  | |- wp (put_device _ _) _ _ _ => apply wp_put_device
  | |- wp (modify_manager _) _ _ _ => apply wp_modify_manager
  | |- wp (system _ _) _ _ _ => apply wp_system
  | |- wp (get_device _) _ _ _ => eapply wp_get_device; [wp_lookup|]
  | |- wp (lock_guard _ _) _ _ _ => apply wp_lock_guard; [set_solver|]
  end; cbn [manager devices next_device held shell].
Ltac wp_run := repeat (wp_step; rewrite ?insert_insert_eq).

(** ** The invariant of the port table *)

(** The port a device holds. *)
Definition owns (d : VirtualUsbDevice) : option nat :=
  if created_ d then Some (Z.to_nat (port_number_ d)) else None.

Record device_ok (d : VirtualUsbDevice) : Prop := {
  ok_port : if created_ d then 0 <= port_number_ d else port_number_ d = -1;
  ok_attached : attached_ d = true → created_ d = true;
  ok_processing : processing_ d = attached_ d;
  ok_thread : urb_thread_ d = attached_ d;
}.

(** [ports] are the ports in use, by the devices [devs] that own them. *)
Record table_ok (ports : list bool) (devs : gmap nat VirtualUsbDevice) : Prop := {
  table_used i : ports !! i = Some true ↔ ∃ id d, devs !! id = Some d ∧ owns d = Some i;
  table_inj i id1 id2 d1 d2 :
    devs !! id1 = Some d1 → devs !! id2 = Some d2 →
    owns d1 = Some i → owns d2 = Some i → id1 = id2;
  table_devices id d : devs !! id = Some d → device_ok d;
}.

Record world_ok (w : world) : Prop := {
  ok_held : held w = [];
  ok_list : virtual_devices_ (manager w) = [];
  ok_length : port_usage_ (manager w) = [] ∨ length (port_usage_ (manager w)) = 8%nat;
  ok_fresh id : (next_device w ≤ id)%nat → devices w !! id = None;
  ok_table : table_ok (port_usage_ (manager w)) (devices w);
}.

(** Replacing a device that keeps its port, claiming a free port, releasing
    a held one. *)
Lemma table_update ports devs id d d' :
  table_ok ports devs → devs !! id = Some d → owns d' = owns d → device_ok d' →
  table_ok ports (<[id := d']> devs).
Proof.
  intros [Hu Hi Hd] Hid Ho Hok. split.
  - intros i. rewrite Hu. split; intros (j & e & Hj & He).
    + destruct (decide (j = id)) as [->|].
      * exists id, d'. rewrite lookup_insert_eq. split; [done|congruence].
      * exists j, e. by rewrite lookup_insert_ne.
    + apply lookup_insert_Some in Hj as [[<- <-]|[? ?]]; [|by eauto].
      exists id, d. split; [done|congruence].
  - intros i j1 j2 e1 e2 H1 H2 Ho1 Ho2.
    apply lookup_insert_Some in H1 as [[<- <-]|[? ?]];
      apply lookup_insert_Some in H2 as [[<- <-]|[? ?]];
      [done|apply (Hi i id j2 d e2)|apply (Hi i j1 id e1 d)|eauto]; congruence.
  - intros j e [[<- <-]|[? ?]]%lookup_insert_Some; eauto.
Qed.

Lemma table_claim ports devs id d d' i :
  table_ok ports devs → devs !! id = Some d → owns d = None →
  ports !! i = Some false → owns d' = Some i → device_ok d' →
  table_ok (<[i := true]> ports) (<[id := d']> devs).
Proof.
  intros [Hu Hi Hd] Hid Ho Hp Ho' Hok.
  pose proof (lookup_lt_Some _ _ _ Hp) as Hl.
  assert (∀ j e, devs !! j = Some e → owns e = Some i → False) as Hfree.
  { intros j e Hj He. assert (ports !! i = Some true) by (apply Hu; eauto). congruence. }
  split.
  - intros k. rewrite list_lookup_insert_Some. split.
    + intros [(<- & _ & _)|[Hne Hk]].
      { exists id, d'. by rewrite lookup_insert_eq. }
      apply Hu in Hk as (j & e & Hj & He). exists j, e.
      rewrite lookup_insert_ne by (intros <-; congruence). done.
    + intros (j & e & [[<- <-]|[? Hj]]%lookup_insert_Some & He).
      { assert (i = k) as <- by congruence. by left. }
      right. split; [intros <-; eauto|]. apply Hu. eauto.
  - intros k j1 j2 e1 e2 H1 H2 Ho1 Ho2.
    apply lookup_insert_Some in H1 as [[<- <-]|[? ?]];
      apply lookup_insert_Some in H2 as [[<- <-]|[? ?]]; [done|..].
    + exfalso. apply (Hfree j2 e2); congruence.
    + exfalso. apply (Hfree j1 e1); congruence.
    + eauto.
  - intros j e [[<- <-]|[? ?]]%lookup_insert_Some; eauto.
Qed.

Lemma table_release ports devs id d d' i :
  table_ok ports devs → devs !! id = Some d → owns d = Some i →
  owns d' = None → device_ok d' →
  table_ok (<[i := false]> ports) (<[id := d']> devs).
Proof.
  intros [Hu Hi Hd] Hid Ho Ho' Hok. split.
  - intros k. rewrite list_lookup_insert_Some. split.
    + intros [(_ & ? & _)|[Hne Hk]]; [done|].
      apply Hu in Hk as (j & e & Hj & He). exists j, e.
      rewrite lookup_insert_ne by (intros <-; congruence). done.
    + intros (j & e & [[<- <-]|[? Hj]]%lookup_insert_Some & He); [congruence|].
      right. split; [|apply Hu; eauto]. intros <-. by destruct (Hi i id j d e).
  - intros k j1 j2 e1 e2 H1 H2 Ho1 Ho2.
    apply lookup_insert_Some in H1 as [[<- <-]|[? ?]];
      apply lookup_insert_Some in H2 as [[<- <-]|[? ?]]; [done|congruence..|eauto].
  - intros j e [[<- <-]|[? ?]]%lookup_insert_Some; eauto.
Qed.

Lemma table_new ports devs id d :
  table_ok ports devs → devs !! id = None → owns d = None → device_ok d →
  table_ok ports (<[id := d]> devs).
Proof.
  intros [Hu Hi Hd] Hid Ho Hok. split.
  - intros k. rewrite Hu. split; intros (j & e & Hj & He).
    + exists j, e. rewrite lookup_insert_ne by congruence. done.
    + apply lookup_insert_Some in Hj as [[<- <-]|[? ?]]; [congruence|eauto].
  - intros k j1 j2 e1 e2 H1 H2 Ho1 Ho2.
    apply lookup_insert_Some in H1 as [[<- <-]|[? ?]];
      apply lookup_insert_Some in H2 as [[<- <-]|[? ?]]; [done|congruence..|eauto].
  - intros j e [[<- <-]|[? ?]]%lookup_insert_Some; eauto.
Qed.

(** [GetAvailablePort]'s scan finds the lowest free port. *)
Lemma first_free_Some l i :
  first_free l = Some i → l !! i = Some false ∧ ∀ j, (j < i)%nat → l !! j = Some true.
Proof.
  revert i. induction l as [|[] l IH]; simpl; [done|..].
  - intros i (k & Hk & ->)%fmap_Some_1. destruct (IH _ Hk) as [H1 H2].
    split; [done|]. intros [|j] Hj; [done|]. apply H2. lia.
  - intros i [= <-]. split; [done|lia].
Qed.

Lemma first_free_None l : first_free l = None → ∀ i, l !! i ≠ Some false.
Proof.
  induction l as [|[] l IH]; simpl; [done| |done].
  intros H%fmap_None [|i]; [done|]. by apply IH.
Qed.

(** ** The operations, one by one *)

Section Operations.
Context {h : Host}.
Implicit Types (mg : UsbipManager) (devs : gmap nat VirtualUsbDevice).

Definition claim_port mg (i : nat) : UsbipManager :=
  mg {{ port_usage_ := <[i := true]> (port_usage_ mg) }}.
Definition free_port mg (i : nat) : UsbipManager :=
  mg {{ port_usage_ := <[i := false]> (port_usage_ mg) }}.

(** The device after a successful [CreateDevice] on port [i], and after one
    that found no port. *)
Definition created_device (d : VirtualUsbDevice) (info : UsbipDeviceInfo) (i : nat)
    : VirtualUsbDevice := d {{
  device_info_ := info;
  port_number_ := Z.of_nat i;
  usbip_port_path_ := "/sys/devices/platform/vhci_hcd.0/usb" +:+ to_string (Z.of_nat i + 1);
  device_path_ := "/dev/bus/usb/" +:+ to_string (Z.of_nat i + 1) +:+ "/001";
  device_descriptor_ := struct_bytes (new_device_descriptor info);
  config_descriptor_ := vec_resize 32 (config_descriptor_ d);
  created_ := true }}.
Definition portless_device (d : VirtualUsbDevice) (info : UsbipDeviceInfo) : VirtualUsbDevice :=
  d {{ device_info_ := info; port_number_ := -1 }}.
Definition attached_device (d : VirtualUsbDevice) : VirtualUsbDevice :=
  d {{ processing_ := true; urb_thread_ := true; attached_ := true }}.
Definition detached_device (d : VirtualUsbDevice) : VirtualUsbDevice :=
  d {{ processing_ := false; urb_thread_ := false; attached_ := false }}.
Definition destroyed_device (d : VirtualUsbDevice) : VirtualUsbDevice :=
  d {{ port_number_ := -1; created_ := false }}.

Lemma descriptors_run d :
  CreateDeviceDescriptors d
  = Ok ((), d {{ device_descriptor_ := struct_bytes (new_device_descriptor (device_info_ d));
                 config_descriptor_ := vec_resize 32 (config_descriptor_ d) }}).
Proof.
  unfold CreateDeviceDescriptors, memcpy.
  assert (length (struct_bytes (new_device_descriptor (device_info_ d))) = 18%nat) as Hl
    by by destruct h.
  rewrite length_vec_resize, Hl, decide_True by done. cbn [mbind res_bind].
  rewrite drop_ge by (by rewrite length_vec_resize). by rewrite app_nil_r.
Qed.

Lemma wp_GetAvailablePort E (Q : Z → world → Prop) mg devs nd hd sh :
  ManagerMutex ∉ hd →
  match first_free (port_usage_ mg) with
  | Some i => Q (Z.of_nat i) (W (claim_port mg i) devs nd hd sh)
  | None => Q (-1) (W mg devs nd hd sh)
  end →
  wp GetAvailablePort E Q (W mg devs nd hd sh).
Proof.
  intros Hm H. unfold GetAvailablePort. wp_run.
  destruct (first_free _); wp_run; exact H.
Qed.

Lemma wp_ReleasePort E (Q : () → world → Prop) mg devs nd hd sh i :
  ManagerMutex ∉ hd → (i < length (port_usage_ mg))%nat →
  Q () (W (free_port mg i) devs nd hd sh) →
  wp (ReleasePort (Z.of_nat i)) E Q (W mg devs nd hd sh).
Proof.
  intros Hm Hi H. unfold ReleasePort. wp_run.
  destruct (Z.geb_spec (Z.of_nat i) 0); [|lia].
  destruct (Z.ltb_spec (Z.of_nat i) (Z.of_nat (length (port_usage_ mg)))); [|lia].
  cbn [andb]. wp_run. by rewrite Nat2Z.id.
Qed.

Lemma wp_CreateDevice id info d E (Q : bool → world → Prop) mg devs nd sh :
  devs !! id = Some d →
  (if created_ d then Q true (W mg devs nd [] sh)
   else match first_free (port_usage_ mg) with
        | Some i =>
          Q true (W (claim_port mg i) (<[id := created_device d info i]> devs) nd [] sh)
        | None => Q false (W mg (<[id := portless_device d info]> devs) nd [] sh)
        end) →
  wp (CreateDevice id info) E Q (W mg devs nd [] sh).
Proof.
  intros Hd H. unfold CreateDevice. wp_run. destruct (created_ d) eqn:Hc; wp_run; [done|].
  apply wp_GetAvailablePort; [set_solver|].
  destruct (first_free (port_usage_ mg)) as [i|]; wp_run; [|done].
  destruct (Z.ltb_spec (Z.of_nat i) 0); [lia|]. wp_run.
  eapply wp_on_device; [apply lookup_insert_eq|apply descriptors_run|].
  rewrite insert_insert_eq. wp_run. by destruct d.
Qed.

Lemma wp_CreateVirtualDevice junk info (E : fault → Prop) Q mg devs nd sh :
  E SelfDeadlock → wp (CreateVirtualDevice junk info) E Q (W mg devs nd [] sh).
Proof.
  intros H. unfold CreateVirtualDevice, make_device. wp_run. unfold wp at 1. cbn.
  unfold CreateDevice. wp_run. cbn [created_ VirtualUsbDevice_init]. wp_run.
  apply wp_lock_held; [set_solver|done].
Qed.

Variable std_system : list string → string → Z.

Lemma wp_AttachDevice id d E (Q : bool → world → Prop) mg devs nd sh :
  devs !! id = Some d → urb_thread_ d = attached_ d →
  (if negb (created_ d) then Q false (W mg devs nd [] sh)
   else if attached_ d then Q true (W mg devs nd [] sh)
   else match c_str (busid (device_info_ d)) with
        | Ok bus =>
          let command := attach_command (port_number_ d) bus in
          if std_system sh command =? 0
          then Q true (W mg (<[id := attached_device d]> devs) nd [] (sh ++ [command]))
          else Q false (W mg devs nd [] (sh ++ [command]))
        | Fault e => E e
        end) →
  wp (AttachDevice std_system id) E Q (W mg devs nd [] sh).
Proof.
  intros Hd Ht H. unfold AttachDevice. wp_run.
  destruct (created_ d); cbn [negb] in *; wp_run; [|done].
  destruct (attached_ d); wp_run; [done|].
  unfold AttachToPort. wp_run.
  destruct (c_str _) as [bus|e]; [|done]. eapply wp_lift_Ok; [done|].
  unfold ExecuteCommand. wp_run. cbv zeta in H.
  destruct (_ =? 0); cbn [negb]; wp_run; [|done].
  cbn. rewrite Ht. wp_run. exact H.
Qed.

(** The device and the log after a [DetachDevice]. *)
Definition after_detach (d : VirtualUsbDevice) : VirtualUsbDevice :=
  if attached_ d then detached_device d else d.
Definition detach_log (d : VirtualUsbDevice) : list string :=
  if attached_ d then [detach_command (port_number_ d)] else [].

Lemma after_detach_created d : created_ (after_detach d) = created_ d.
Proof. unfold after_detach. by destruct (attached_ d). Qed.
Lemma after_detach_port d : port_number_ (after_detach d) = port_number_ d.
Proof. unfold after_detach. by destruct (attached_ d). Qed.

Lemma wp_DetachDevice id d E (Q : bool → world → Prop) mg devs nd sh :
  devs !! id = Some d →
  Q true (W mg (<[id := after_detach d]> devs) nd [] (sh ++ detach_log d)) →
  wp (DetachDevice std_system id) E Q (W mg devs nd [] sh).
Proof.
  intros Hd H. unfold DetachDevice. wp_run. unfold after_detach, detach_log in H.
  destruct (attached_ d); cbn [negb]; wp_run.
  - unfold DetachFromPort, ExecuteCommand. wp_run. exact H.
  - by rewrite insert_id, app_nil_r in H.
Qed.

Lemma wp_DestroyDevice id d E (Q : () → world → Prop) mg devs nd sh :
  devs !! id = Some d →
  (∀ i, owns d = Some i → port_number_ d = Z.of_nat i ∧ (i < length (port_usage_ mg))%nat) →
  match owns d with
  | Some i => Q () (W (free_port mg i) (<[id := destroyed_device (after_detach d)]> devs)
                      nd [] (sh ++ detach_log d))
  | None => Q () (W mg (<[id := after_detach d]> devs) nd [] (sh ++ detach_log d))
  end →
  wp (DestroyDevice std_system id) E Q (W mg devs nd [] sh).
Proof.
  intros Hd Hp H. unfold DestroyDevice. apply wp_bind, (wp_DetachDevice _ d); [done|].
  wp_run. unfold owns in *. rewrite after_detach_created.
  destruct (created_ d); wp_run; [|done].
  destruct (Hp _ eq_refl) as [Hn Hl]. rewrite after_detach_port.
  destruct (Z.geb_spec (port_number_ d) 0); [|lia]. wp_run.
  rewrite Hn. apply wp_ReleasePort; [set_solver|done|]. wp_run. exact H.
Qed.

End Operations.

(** ** Reachable worlds *)

Inductive op :=
  | OpInitialize
  | OpCleanup
  | OpNew (info : UsbipDeviceInfo)
  | OpSetCallback (id : nat)
  | OpCreate (id : nat) (info : UsbipDeviceInfo)
  | OpAttach (id : nat)
  | OpDetach (id : nat)
  | OpDestroy (id : nat)
  | OpUrb (id : nat) (urb : UsbUrb)
  | OpActivePorts
  | OpCreateVirtual (junk info : UsbipDeviceInfo)
  | OpRemoveVirtual (id : nat).

(** The object an operation is called on. *)
Definition op_device (o : op) : option nat :=
  match o with
  | OpSetCallback id | OpCreate id _ | OpAttach id | OpDetach id | OpDestroy id
  | OpUrb id _ => Some id
  | _ => None
  end.

Section Reachable.
Context {h : Host}.
Variable std_system : list string → string → Z.

Definition run (o : op) : M world () :=
  match o with
  | OpInitialize => UsbipManager_Initialize std_system;; mret ()
  | OpCleanup => UsbipManager_Cleanup std_system
  | OpNew info => make_device info;; mret ()
  | OpSetCallback id => d ← get_device id; put_device id (SetUrbResponseCallback d)
  | OpCreate id info => CreateDevice id info;; mret ()
  | OpAttach id => AttachDevice std_system id;; mret ()
  | OpDetach id => DetachDevice std_system id;; mret ()
  | OpDestroy id => DestroyDevice std_system id
  | OpUrb id urb => on_device id (ProcessUrb urb);; mret ()
  | OpActivePorts => GetActivePorts;; mret ()
  | OpCreateVirtual junk info => CreateVirtualDevice junk info;; mret ()
  | OpRemoveVirtual id => RemoveVirtualDevice std_system id;; mret ()
  end.

(** The worlds the program can get to by calling the operations, in any
    order, on devices that exist. *)
Inductive reachable : world → Prop :=
  | reachable_init : reachable world_init
  | reachable_step w o w' :
      reachable w → run o w = Ok ((), w') → reachable w'.

(** The faults an operation may end in. *)
Definition op_fault (o : op) (w : world) (e : fault) : Prop :=
  match o with
  | OpCreateVirtual _ _ => e = SelfDeadlock
  | OpAttach id => e = OutOfBounds ∧
      ∃ d, devices w !! id = Some d ∧ c_str (busid (device_info_ d)) = Fault OutOfBounds
  | _ => False
  end.

Lemma owns_ok d i : device_ok d → owns d = Some i → port_number_ d = Z.of_nat i.
Proof.
  intros [Hp _ _ _]. unfold owns. destruct (created_ d); [|done]. intros [= <-]. lia.
Qed.

(** Worlds that differ in the shell log only, or in a device that keeps its
    port. *)
Lemma ok_shell mg devs nd sh sh' :
  world_ok (W mg devs nd [] sh) → world_ok (W mg devs nd [] sh').
Proof. intros []. by split. Qed.

Lemma ok_update mg devs nd sh sh' id d d' :
  world_ok (W mg devs nd [] sh) → devs !! id = Some d → owns d' = owns d → device_ok d' →
  world_ok (W mg (<[id := d']> devs) nd [] sh').
Proof.
  intros [_ Hv Hl Hf Ht] Hd Ho Hok. split; cbn in *; [done..| |by eapply table_update].
  intros j Hj. rewrite lookup_insert_ne; [auto|]. intros <-.
  rewrite Hf in Hd; [done|lia].
Qed.

Lemma ok_device mg devs nd sh id d :
  world_ok (W mg devs nd [] sh) → devs !! id = Some d → device_ok d.
Proof. intros [_ _ _ _ Ht]. apply Ht. Qed.

Lemma preserve_create id info d mg devs nd sh :
  world_ok (W mg devs nd [] sh) → devs !! id = Some d →
  wp (CreateDevice id info) safe (λ _ w', world_ok w') (W mg devs nd [] sh).
Proof.
  intros Hw Hd. pose proof (ok_device _ _ _ _ _ _ Hw Hd) as [Hp Ha Hpr Ht].
  apply (wp_CreateDevice _ _ d); [done|].
  destruct (created_ d) eqn:Hc; [done|].
  destruct (attached_ d) eqn:Hat; [by specialize (Ha eq_refl)|].
  destruct (first_free (port_usage_ mg)) as [i|] eqn:Hi.
  - apply first_free_Some in Hi as [Hi _]. destruct Hw as [_ Hv Hl Hf Htab].
    split; cbn in *; [done|done| | |].
    + right. rewrite length_insert. destruct Hl as [Hl|]; [|done].
      by rewrite Hl in Hi.
    + intros j Hj. rewrite lookup_insert_ne; [auto|]. intros <-.
      rewrite Hf in Hd; [done|lia].
    + eapply table_claim; [done|done|..]; [by unfold owns; rewrite Hc|done| |].
      * unfold owns. cbn. by rewrite Nat2Z.id.
      * destruct d; split; cbn in *; [lia|done|congruence..].
  - eapply ok_update; [done..| |].
    + unfold owns. destruct d; cbn in *; by subst.
    + destruct d; cbn in *; subst; by split.
Qed.

Lemma after_detach_ok d : device_ok d → device_ok (after_detach d) ∧ attached_ (after_detach d) = false.
Proof.
  intros [Hp Ha Hpr Ht]. unfold after_detach. destruct (attached_ d) eqn:E; [|by split; [split; rewrite ?E|]].
  destruct d; cbn in *; subst. by split; [split|].
Qed.

Lemma preserve_destroy id d mg devs nd sh :
  world_ok (W mg devs nd [] sh) → devs !! id = Some d →
  wp (DestroyDevice std_system id) safe (λ _ w', world_ok w') (W mg devs nd [] sh).
Proof.
  intros Hw Hd. pose proof (ok_device _ _ _ _ _ _ Hw Hd) as Hok.
  pose proof (after_detach_ok d Hok) as [Hok' Hat].
  apply (wp_DestroyDevice _ _ d); [done|..].
  { intros i Hi. split; [by apply owns_ok|]. eapply lookup_lt_Some, Hw; eauto. }
  destruct (owns d) as [i|] eqn:Ho.
  - destruct Hw as [_ Hv Hl Hf Htab]. split; cbn in *; [done|done| | |].
    + rewrite length_insert. destruct Hl as [->|]; [by left|by right].
    + intros j Hj. rewrite lookup_insert_ne; [auto|]. intros <-.
      rewrite Hf in Hd; [done|lia].
    + eapply table_release; [done..|]. destruct Hok'. destruct (after_detach d).
      cbn in *. split; cbn; congruence.
  - eapply ok_update; [done|done| |done]. unfold owns. by rewrite after_detach_created, after_detach_port.
Qed.

Lemma preserve_urb id urb d mg devs nd sh :
  world_ok (W mg devs nd [] sh) → devs !! id = Some d →
  wp (on_device id (ProcessUrb urb)) safe (λ _ w', world_ok w') (W mg devs nd [] sh).
Proof.
  intros Hw Hd. pose proof (ok_device _ _ _ _ _ _ Hw Hd) as [? ? ? ?].
  destruct (attached_ d) eqn:Ha.
  - destruct (ProcessUrb_total urb d Ha) as (data & c & Hrun).
    eapply wp_on_device; [done..|]. eapply ok_update; [done|done|done|].
    destruct d; cbn in *; subst; split; cbn; auto.
  - eapply wp_on_device; [done| |].
    + unfold ProcessUrb, mbind, M_bind, get. rewrite Ha. done.
    + eapply ok_update; [done|done|done|]. by eapply ok_device.
Qed.

(** The first [Initialize] creates the eight ports; a later one, after a
    failed load or a [Cleanup], keeps the table. *)
Lemma resize_ports_table ports devs :
  ports = [] ∨ length ports = 8%nat → table_ok ports devs →
  length (resize_ports ports) = 8%nat ∧ table_ok (resize_ports ports) devs.
Proof.
  intros [->|Hl] [Hu Hi Hd]; unfold resize_ports.
  - split; [done|]. split; [|done..]. intros i. rewrite <- Hu. simpl.
    split; [|done]. intros H. by do 9 (destruct i as [|i]; simpl in H; [done|]).
  - rewrite Hl, take_ge by lia. cbn. rewrite app_nil_r. by split; [|split].
Qed.

Lemma preserve_initialize mg devs nd sh :
  world_ok (W mg devs nd [] sh) →
  wp (UsbipManager_Initialize std_system) safe (λ _ w', world_ok w') (W mg devs nd [] sh).
Proof.
  intros Hw. unfold UsbipManager_Initialize. wp_run.
  destruct (initialized_ mg); wp_run; [done|].
  unfold LoadKernelModule. wp_run.
  destruct Hw as [_ Hv Hl Hf Ht]. destruct mg as [vs ports ini]; cbn in *.
  destruct (resize_ports_table ports devs Hl Ht) as [Hl' Ht'].
  destruct (_ =? 0); cbn [negb]; wp_run; split; cbn; auto.
Qed.

Lemma preserve_cleanup mg devs nd sh :
  world_ok (W mg devs nd [] sh) →
  wp (UsbipManager_Cleanup std_system) safe (λ _ w', world_ok w') (W mg devs nd [] sh).
Proof.
  intros Hw. unfold UsbipManager_Cleanup. wp_run.
  destruct (initialized_ mg); cbn [negb]; wp_run; [|done].
  destruct Hw as [_ Hv Hl Hf Ht]. destruct mg as [vs ports ini]; cbn in *. subst vs.
  cbn [destroy_all]. wp_run. unfold UnloadKernelModule. wp_run. split; cbn; auto.
Qed.

Lemma preserve_new info mg devs nd sh :
  world_ok (W mg devs nd [] sh) →
  wp (make_device info) safe (λ _ w', world_ok w') (W mg devs nd [] sh).
Proof.
  intros [_ Hv Hl Hf Ht]. cbn in *. unfold wp, make_device. cbn.
  split; cbn; [done..| |].
  - intros j Hj. rewrite lookup_insert_ne by lia. apply Hf. lia.
  - by apply table_new; [|apply Hf| |split].
Qed.

Lemma preserve_attach id d mg devs nd sh :
  world_ok (W mg devs nd [] sh) → devs !! id = Some d →
  wp (AttachDevice std_system id)
     (λ e, c_str (busid (device_info_ d)) = Fault e) (λ _ w', world_ok w') (W mg devs nd [] sh).
Proof.
  intros Hw Hd. pose proof (ok_device _ _ _ _ _ _ Hw Hd) as Hok.
  apply (wp_AttachDevice _ _ d); [done|by destruct Hok|].
  destruct (created_ d) eqn:Hc; cbn [negb]; [|done].
  destruct (attached_ d) eqn:Ha; [done|].
  destruct (c_str _) as [bus|e]; [|done]. cbv zeta.
  destruct (_ =? 0); [|by eapply ok_shell].
  eapply ok_update; [done..|]. destruct Hok. destruct d; cbn in *; subst.
  by split.
Qed.

Lemma preserve_detach id d mg devs nd sh :
  world_ok (W mg devs nd [] sh) → devs !! id = Some d →
  wp (DetachDevice std_system id) safe (λ _ w', world_ok w') (W mg devs nd [] sh).
Proof.
  intros Hw Hd. pose proof (ok_device _ _ _ _ _ _ Hw Hd) as Hok.
  apply (wp_DetachDevice _ _ d); [done|].
  eapply ok_update; [done..| |by apply after_detach_ok].
  unfold owns. by rewrite after_detach_created, after_detach_port.
Qed.

Lemma owns_iff d i :
  device_ok d → owns d = Some i ↔ created_ d = true ∧ port_number_ d = Z.of_nat i.
Proof.
  intros Hok. split.
  - intros Ho. split; [|by apply owns_ok]. unfold owns in Ho. by destruct (created_ d).
  - unfold owns. intros [-> ->]. by rewrite Nat2Z.id.
Qed.

Lemma run_preserves w o :
  world_ok w → (∀ id, op_device o = Some id → is_Some (devices w !! id)) →
  wp (run o) (op_fault o w) (λ _ w', world_ok w') w.
Proof.
  intros Hw Hex. destruct w as [mg devs nd hd sh].
  assert (hd = []) as -> by apply Hw. cbn [devices] in Hex.
  assert (∀ id, op_device o = Some id → ∃ d, devs !! id = Some d) as Hd
    by (intros id Hid; destruct (Hex id Hid); eauto).
  assert (∀ A (m : M world A),
    wp m safe (λ _ w', world_ok w') (W mg devs nd [] sh) →
    wp (m;; mret ()) (op_fault o (W mg devs nd [] sh)) (λ _ w', world_ok w')
       (W mg devs nd [] sh)) as Hseq.
  { intros A m Hm. apply wp_bind. by eapply wp_mono. }
  destruct o as [| |info|id|id info|id|id|id|id urb| |junk info|id]; cbn [run];
    try (destruct (Hd id eq_refl) as [d Hid]).
  - apply Hseq, preserve_initialize, Hw.
  - by eapply wp_mono; [apply preserve_cleanup, Hw|..].
  - apply Hseq, preserve_new, Hw.
  - wp_run. eapply ok_update; [done..|]. by destruct (ok_device _ _ _ _ _ _ Hw Hid).
  - by eapply Hseq, preserve_create.
  - apply wp_bind. eapply wp_mono; [by eapply preserve_attach| |done].
    intros e He. pose proof (c_str_fault _ _ He) as ->. split; [done|]. by exists d.
  - by eapply Hseq, preserve_detach.
  - by eapply wp_mono; [eapply preserve_destroy|..].
  - by eapply Hseq, preserve_urb.
  - apply Hseq. unfold GetActivePorts. wp_run. done.
  - apply wp_bind. by apply wp_CreateVirtualDevice.
  - apply Hseq. unfold RemoveVirtualDevice. wp_run.
    pose proof (ok_list _ Hw) as Hv. cbn in Hv.
    rewrite Hv, decide_False by set_solver. wp_run. done.
Qed.

Lemma world_init_ok : world_ok world_init.
Proof.
  split; cbn; [done|done|by left|done|]. split.
  - intros i. split; [done|]. intros (id & d & Hd & _). by rewrite lookup_empty in Hd.
  - intros i id1 id2 d1 d2 Hd. by rewrite lookup_empty in Hd.
  - intros id d Hd. by rewrite lookup_empty in Hd.
Qed.

(** An operation that returned was called on an existing device. *)
Lemma run_device w o w' id :
  run o w = Ok ((), w') → held w = [] → op_device o = Some id → is_Some (devices w !! id).
Proof.
  intros Hrun Hh Ho. destruct w as [mg devs nd hd sh]. cbn in *. subst hd.
  destruct (devs !! id) as [d|] eqn:Hd; [done|]. exfalso.
  destruct o; cbn in Ho; inversion Ho; subst; cbn [run] in Hrun;
    unfold CreateDevice, AttachDevice, DestroyDevice, DetachDevice, on_device,
      lock_guard, get_device, mbind, M_bind in Hrun;
    cbn in Hrun; rewrite Hd in Hrun; done.
Qed.

Lemma reachable_ok w : reachable w → world_ok w.
Proof.
  induction 1 as [|w o w' _ IH Hrun]; [apply world_init_ok|].
  eapply (wp_Ok (run o) (op_fault o w) (λ _ w', world_ok w')); [|exact Hrun].
  apply run_preserves; [done|]. intros id. eapply run_device; [done|apply IH].
Qed.

(** ** Properties *)

(** In every reachable world the port table and the devices agree: a port
    is marked used exactly if some created device has its number, and then
    only one device has; a device that is not created has no port and is not
    attached; the processing thread exists exactly while a device is
    attached. *)
Theorem ports_owned_once w :
  reachable w →
  (∀ i, port_usage_ (manager w) !! i = Some true ↔
     ∃ id d, devices w !! id = Some d ∧ created_ d = true ∧ port_number_ d = Z.of_nat i ∧
       ∀ id' d', devices w !! id' = Some d' → created_ d' = true →
                 port_number_ d' = Z.of_nat i → id' = id) ∧
  (∀ id d, devices w !! id = Some d →
     urb_thread_ d = attached_ d ∧ processing_ d = attached_ d ∧
     if created_ d then 0 <= port_number_ d < 8
     else port_number_ d = -1 ∧ attached_ d = false).
Proof.
  intros Hr. destruct (reachable_ok w Hr) as [_ _ Hl _ [Hu Hi Hd]]. split.
  - intros i. rewrite Hu. split.
    + intros (id & d & Hid & Ho). exists id, d.
      pose proof Ho as [Hc Hp]%owns_iff; [|by eauto]. split_and!; [done..|].
      intros id' d' Hid' Hc' Hp'. eapply Hi; [done..| |done]. apply owns_iff; eauto.
    + intros (id & d & Hid & Hc & Hp & _). exists id, d. split; [done|].
      apply owns_iff; eauto.
  - intros id d Hid. pose proof (Hd _ _ Hid) as [Hp Ha Hpr Ht]. split_and!; [done..|].
    destruct (created_ d) eqn:Hc; [|split; [done|]; destruct (attached_ d); [by specialize (Ha eq_refl)|done]].
    assert (port_usage_ (manager w) !! Z.to_nat (port_number_ d) = Some true) as Hlt.
    { apply Hu. exists id, d. unfold owns. by rewrite Hc. }
    apply lookup_lt_Some in Hlt. destruct Hl as [Hl|Hl]; rewrite Hl in Hlt; simpl in Hlt; lia.
Qed.

(** C28: The lifecycle operations do not go wrong. Called on existing devices
    in any reachable world, each returns, except that attaching a device whose
    bus id has no terminator reads outside the array. [CreateVirtualDevice]
    never returns: the thread locks the manager's mutex a second time; so no
    device gets into the manager's list and [RemoveVirtualDevice] finds
    none. *)
Theorem lifecycle_faults w o :
  reachable w → (∀ id, op_device o = Some id → is_Some (devices w !! id)) →
  match run o w with
  | Ok (_, w') => virtual_devices_ (manager w') = [] ∧ held w' = []
  | Fault e => op_fault o w e
  end ∧
  (∀ junk info, CreateVirtualDevice junk info w = Fault SelfDeadlock) ∧
  (∀ id, RemoveVirtualDevice std_system id w = Ok (false, w)).
Proof.
  intros Hr Hex. pose proof (reachable_ok w Hr) as Hw. split_and!.
  - pose proof (run_preserves w o Hw Hex) as H. unfold wp in H.
    destruct (run o w) as [[[] w']|e]; [|done]. split; apply H.
  - intros junk info. destruct w as [mg devs nd hd sh].
    assert (hd = []) as -> by apply Hw.
    pose proof (wp_CreateVirtualDevice junk info (λ e, e = SelfDeadlock) (λ _ _, False)
      mg devs nd sh eq_refl) as H.
    unfold wp in H. destruct (CreateVirtualDevice _ _ _) as [[? ?]|e]; [done|by subst].
  - intros id. destruct w as [mg devs nd hd sh]. assert (hd = []) as -> by apply Hw.
    unfold RemoveVirtualDevice, lock_guard, get, mbind, M_bind. cbn.
    pose proof (ok_list _ Hw) as Hv. cbn in Hv. rewrite Hv. done.
Qed.

(** [CreateDevice] in a reachable world claims the lowest free port,
    names the device's paths after it and builds its descriptors; with all
    eight ports taken (or none created yet) it fails and claims nothing.
    Destroying the device gives the table of ports back as it was. *)
Theorem create_then_destroy w id d info :
  reachable w → devices w !! id = Some d → created_ d = false →
  (∃ i w1 w2,
     port_usage_ (manager w) !! i = Some false ∧
     (∀ j, (j < i)%nat → port_usage_ (manager w) !! j = Some true) ∧
     CreateDevice id info w = Ok (true, w1) ∧
     devices w1 = <[id := created_device d info i]> (devices w) ∧
     port_usage_ (manager w1) = <[i := true]> (port_usage_ (manager w)) ∧
     DestroyDevice std_system id w1 = Ok ((), w2) ∧
     port_usage_ (manager w2) = port_usage_ (manager w) ∧ shell w2 = shell w) ∨
  ((∀ i, port_usage_ (manager w) !! i ≠ Some false) ∧
   ∃ w1, CreateDevice id info w = Ok (false, w1) ∧
     port_usage_ (manager w1) = port_usage_ (manager w)).
Proof.
  intros Hr Hd Hc. pose proof (reachable_ok w Hr) as Hw.
  destruct w as [mg devs nd hd sh]. assert (hd = []) as -> by apply Hw.
  pose proof (ok_device _ _ _ _ _ _ Hw Hd) as Hok. cbn in *.
  destruct (first_free (port_usage_ mg)) as [i|] eqn:Hi.
  - left. pose proof (first_free_Some _ _ Hi) as [Hfree Hmin].
    pose proof (lookup_lt_Some _ _ _ Hfree) as Hlt.
    assert (attached_ d = false) as Ha
      by (destruct Hok as [_ Ha _ _]; destruct (attached_ d); [|done]; by rewrite Ha in Hc).
    exists i,
      (W (claim_port mg i) (<[id := created_device d info i]> devs) nd [] sh),
      (W (free_port (claim_port mg i) i)
         (<[id := destroyed_device (after_detach (created_device d info i))]>
            (<[id := created_device d info i]> devs))
         nd [] (sh ++ detach_log (created_device d info i))).
    split_and!; [done|done| |reflexivity|reflexivity| | |].
    + apply wp_result, (wp_CreateDevice _ _ d); [done|]. rewrite Hc, Hi. done.
    + apply wp_result, (wp_DestroyDevice _ _ (created_device d info i)).
      * by rewrite lookup_insert_eq.
      * intros j. unfold owns. cbn. rewrite Nat2Z.id. intros [= <-].
        by rewrite length_insert.
      * unfold owns. cbn. rewrite Nat2Z.id. split; reflexivity.
    + cbn. rewrite list_insert_insert_eq. by apply list_insert_id.
    + cbn. unfold detach_log. destruct d; cbn in *; subst. apply app_nil_r.
  - right. split; [by apply first_free_None|]. eexists. split.
    + apply wp_result, (wp_CreateDevice _ _ d); [done|]. rewrite Hc, Hi. split; reflexivity.
    + done.
Qed.

(** Attaching a created device runs exactly one shell command, in which
    the bus id stands verbatim up to its terminator, whatever characters it
    has; the device is attached exactly if the command's status is 0. Detaching
    then puts every device back as it was and runs the detach command. *)
Theorem attach_runs_bus_id w id d bus rest :
  reachable w → devices w !! id = Some d → created_ d = true → attached_ d = false →
  busid (device_info_ d) = bus ++ 0 :: rest → 0 ∉ bus →
  let command := "echo 'attach " +:+ to_string (port_number_ d) +:+ " " +:+ string_of_bytes bus
                 +:+ "' > /sys/devices/platform/vhci_hcd.0/attach" in
  ∃ ok w', AttachDevice std_system id w = Ok (ok, w') ∧
    shell w' = shell w ++ [command] ∧
    ok = (std_system (shell w) command =? 0) ∧
    devices w' = (if ok then <[id := attached_device d]> (devices w) else devices w) ∧
    ∃ w'', DetachDevice std_system id w' = Ok (true, w'') ∧ devices w'' = devices w ∧
      shell w'' = shell w' ++ (if ok then [detach_command (port_number_ d)] else []).
Proof.
  intros Hr Hd Hc Ha Hbus Hz command. pose proof (reachable_ok w Hr) as Hw.
  destruct w as [mg devs nd hd sh]. assert (hd = []) as -> by apply Hw. cbn in *.
  pose proof (ok_device _ _ _ _ _ _ Hw Hd) as [_ _ Hpr Ht]. rewrite Ha in Hpr, Ht.
  set (ok := std_system sh command =? 0).
  set (devs' := if ok then <[id := attached_device d]> devs else devs).
  set (log := if ok then [detach_command (port_number_ d)] else []).
  exists ok, (W mg devs' nd [] (sh ++ [command])). split_and!; [|done..|].
  { apply wp_result, (wp_AttachDevice _ _ d); [done|congruence|].
    rewrite Hc, Ha, Hbus, c_str_app by done. cbn [negb]. cbv zeta.
    change (attach_command (port_number_ d) bus) with command.
    change (std_system sh command =? 0) with ok. unfold devs'. by destruct ok. }
  exists (W mg devs nd [] ((sh ++ [command]) ++ log)). split_and!; [|done..].
  apply wp_result.
  set (d' := if ok then attached_device d else d).
  assert (devs' !! id = Some d') as Hd'
    by (unfold devs', d'; destruct ok; [apply lookup_insert_eq|done]).
  apply (wp_DetachDevice _ _ d'); [done|]. split; [done|].
  assert (after_detach d' = d) as ->.
  { unfold after_detach, d'. destruct ok; destruct d; cbn in *; by subst. }
  assert (detach_log d' = log) as ->.
  { unfold detach_log, d', log. destruct ok; [done|by rewrite Ha]. }
  f_equal. unfold devs'. destruct ok; [rewrite insert_insert_eq|]; by apply insert_id.
Qed.
End Reachable.

(** ** Witnesses *)

(** Every command succeeds. *)
Definition system_ok (log : list string) (command : string) : Z := 0.

Definition sample_ops : list op :=
  [OpInitialize; OpNew sample_info; OpNew sample_info; OpCreate 0 sample_info;
   OpCreate 1 sample_info; OpAttach 1; OpDestroy 0; OpNew sample_info].

Definition run_all {h : Host} (ops : list op) (w : world) : res world :=
  foldl (λ r o, w ← r; '(_, w') ← run system_ok o w; Ok w') (Ok w) ops.

Lemma run_all_reachable {h : Host} ops w w' :
  reachable system_ok w → run_all ops w = Ok w' → reachable system_ok w'.
Proof.
  revert w. induction ops as [|o ops IH]; intros w Hr Hrun; [by injection Hrun as <-|].
  cbn in Hrun. destruct (run system_ok o w) as [[[] w1]|e] eqn:E.
  - apply (IH w1); [by econstructor|done].
  - exfalso. clear -Hrun. induction ops as [|o' ops IH]; [done|]. by apply IH.
Qed.

(** Device 0 was destroyed, device 1 is attached on port 1, device 2 is new. *)
Definition sample_world : world :=
  match run_all (h := LittleEndian) sample_ops world_init with
  | Ok w => w | Fault _ => world_init end.

Lemma sample_world_reachable : reachable (h := LittleEndian) system_ok sample_world.
Proof.
  apply (run_all_reachable (h := LittleEndian) sample_ops world_init).
  - apply reachable_init.
  - vm_compute. reflexivity.
Qed.

Lemma ports_owned_once_witness :
  port_usage_ (manager sample_world) !! 1%nat = Some true ∧
  ∃ id d, devices sample_world !! id = Some d ∧ created_ d = true ∧ port_number_ d = 1.
Proof.
  destruct (ports_owned_once (h := LittleEndian) system_ok sample_world sample_world_reachable)
    as [H _].
  assert (port_usage_ (manager sample_world) !! 1%nat = Some true) as Hp
    by (vm_compute; reflexivity).
  split; [exact Hp|]. destruct (proj1 (H 1%nat) Hp) as (id & d & H1 & H2 & H3 & _).
  exists id, d. split; [exact H1|split; [exact H2|exact H3]].
Defined.

Lemma lifecycle_faults_witness :
  CreateVirtualDevice (h := LittleEndian) sample_info sample_info sample_world
  = Fault SelfDeadlock.
Proof.
  apply (lifecycle_faults (h := LittleEndian) system_ok sample_world OpInitialize
    sample_world_reachable). intros id Hid. discriminate Hid.
Defined.

Lemma create_then_destroy_witness :
  ∃ i w1, CreateDevice (h := LittleEndian) 2 sample_info sample_world = Ok (true, w1) ∧
    port_usage_ (manager w1) = <[i := true]> (port_usage_ (manager sample_world)).
Proof.
  destruct (create_then_destroy (h := LittleEndian) system_ok sample_world 2
    (VirtualUsbDevice_init sample_info) sample_info sample_world_reachable)
    as [(i & w1 & w2 & _ & _ & H1 & _ & H2 & _)|[H _]].
  - vm_compute. reflexivity.
  - reflexivity.
  - exists i, w1. split; [exact H1|exact H2].
  - exfalso. apply (H 0%nat). vm_compute. reflexivity.
Defined.

(** A bus id that closes the quote. *)
Definition hostile_info : UsbipDeviceInfo :=
  sample_info {{ busid := string_bytes "1'; reboot; '" ++ replicate 19 0 }}.

Definition hostile_world : world :=
  match run_all (h := LittleEndian)
    [OpInitialize; OpNew sample_info; OpCreate 0 hostile_info] world_init with
  | Ok w => w | Fault _ => world_init end.

Lemma hostile_world_reachable : reachable (h := LittleEndian) system_ok hostile_world.
Proof.
  apply (run_all_reachable (h := LittleEndian)
    [OpInitialize; OpNew sample_info; OpCreate 0 hostile_info] world_init).
  - apply reachable_init.
  - vm_compute. reflexivity.
Qed.

Lemma attach_runs_bus_id_witness :
  ∃ w', AttachDevice system_ok 0 hostile_world = Ok (true, w') ∧
    shell w' = ["modprobe vhci-hcd";
      "echo 'attach 0 1'; reboot; '' > /sys/devices/platform/vhci_hcd.0/attach"]%string.
Proof.
  destruct (attach_runs_bus_id (h := LittleEndian) system_ok hostile_world 0
    (created_device (h := LittleEndian) (VirtualUsbDevice_init sample_info) hostile_info 0)
    (string_bytes "1'; reboot; '") (replicate 18 0) hostile_world_reachable)
    as (ok & w' & H1 & H2 & H3 & _).
  - vm_compute. reflexivity.
  - reflexivity.
  - reflexivity.
  - reflexivity.
  - apply (bool_decide_unpack _). by vm_compute.
  - exists w'. rewrite H3 in H1. split; [exact H1|]. rewrite H2. vm_compute. reflexivity.
Defined.
