(* ===== verification/Registry.v ===== *)
(** * Registry: what the USBIP manager promises

    An abstract view of [UsbipManager] and the virtual devices of
    [UsbipManager.v]: which device holds which of eight ports, and which
    devices are attached.  The operations of the code refine its steps. *)

From S2P Require Import Prelude Memory UsbTypes UsbipProtocol MessageHandler VirtualUsbDevice UsbipManager.
From stdpp Require Import gmap.
Open Scope Z_scope.

(** ** The specification *)

(** [ready]: the ports have been set up. *)
Record registry := {
  holders : gmap nat nat;   (* port to device *)
  online : gset nat;
  ready : bool;
}.
Definition registry_init : registry := {| holders := ∅; online := ∅; ready := false |}.

Definition holds_port (r : registry) (id : nat) : Prop := ∃ i, holders r !! i = Some id.
Definition lowest_free (r : registry) (i : nat) : Prop :=
  (i < 8)%nat ∧ holders r !! i = None ∧ ∀ j, (j < i)%nat → is_Some (holders r !! j).

Definition registry_release (id : nat) (r : registry) : registry :=
  r {{ holders := filter (λ p, p.2 ≠ id) (holders r); online := online r ∖ {[id]} }}.

(** Only initialising, creating, attaching, detaching and destroying concern
    the ports. *)
Definition bystander (o : op) : bool :=
  match o with
  | OpInitialize | OpCreate _ _ | OpAttach _ | OpDetach _ | OpDestroy _ => false
  | _ => true
  end.

Inductive registry_step : op → registry → registry → Prop :=
  | spec_initialize r : registry_step OpInitialize r (r {{ ready := true }})
  | spec_claim id info r i :
      ready r = true → ¬ holds_port r id → lowest_free r i →
      registry_step (OpCreate id info) r (r {{ holders := <[i := id]> (holders r) }})
  | spec_full id info r :
      (∀ i, ready r = true → ¬ lowest_free r i) → registry_step (OpCreate id info) r r
  | spec_created id info r : holds_port r id → registry_step (OpCreate id info) r r
  | spec_attach id r :
      holds_port r id → registry_step (OpAttach id) r (r {{ online := online r ∪ {[id]} }})
  | spec_attach_fails id r : id ∉ online r → registry_step (OpAttach id) r r
  | spec_detach id r : registry_step (OpDetach id) r (r {{ online := online r ∖ {[id]} }})
  | spec_destroy id r : registry_step (OpDestroy id) r (registry_release id r)
  | spec_bystander o r : bystander o = true → registry_step o r r.

Inductive registry_steps : registry → list op → registry → Prop :=
  | registry_nil r : registry_steps r [] r
  | registry_cons r o r1 os r' :
      registry_step o r r1 → registry_steps r1 os r' → registry_steps r (o :: os) r'.

(** Eight ports, one device each, one port a device, and only holders are
    attached. *)
Record registry_ok (r : registry) : Prop := {
  registry_ports i id : holders r !! i = Some id → (i < 8)%nat;
  registry_single i j id : holders r !! i = Some id → holders r !! j = Some id → i = j;
  registry_online id : id ∈ online r → holds_port r id;
}.

Lemma registry_step_ok o r r' : registry_step o r r' → registry_ok r → registry_ok r'.
Proof.
  intros Hs [Hp Hi Ho]. destruct Hs as [r|id info r i Hr Hn (Hi8 & Hf & _)|id info r|id info r|id r Hh|id r|id r|id r|o r];
    try done.
  - split; cbn.
    + intros j id'. rewrite lookup_insert_Some. intros [[<- _]|[_ ?]]; [done|by eapply Hp].
    + intros j k id'. rewrite !lookup_insert_Some.
      intros [[<- <-]|[? Hj]] [[<- Hid]|[? Hk]]; subst; try done.
      * destruct Hn. by exists k.
      * destruct Hn. by exists j.
      * by eapply Hi.
    + intros id' (j & Hj)%Ho. exists j. cbn. rewrite lookup_insert_ne; [done|]. intros ->. congruence.
  - split; cbn; [done..|]. intros id' [Hin| ->%elem_of_singleton]%elem_of_union; [by apply Ho|done].
  - split; cbn; [done..|]. intros id' [Hin _]%elem_of_difference. by apply Ho.
  - split; cbn.
    + intros i id' [Hl _]%map_lookup_filter_Some. by eapply Hp.
    + intros i j id' [H1 _]%map_lookup_filter_Some [H2 _]%map_lookup_filter_Some. by eapply Hi.
    + intros id' [(i & Hl)%Ho Hne%not_elem_of_singleton]%elem_of_difference. exists i.
      by apply map_lookup_filter_Some.
Qed.

(** ** The refinement *)

(** The abstract state of a world. *)
Record represents (w : world) (r : registry) : Prop := {
  rep_holders i id :
    holders r !! i = Some id ↔ ∃ d, devices w !! id = Some d ∧ owns d = Some i;
  rep_online id : id ∈ online r ↔ ∃ d, devices w !! id = Some d ∧ attached_ d = true;
  rep_ready : ready r = true ↔ port_usage_ (manager w) ≠ [];
  rep_initialized : initialized_ (manager w) = true → ready r = true;
}.

Section Refinement.
Context {h : Host}.
Variable std_system : list string → string → Z.
Implicit Types (mg : UsbipManager) (devs : gmap nat VirtualUsbDevice).

(** The devices with a property, and after one has been replaced. *)
Lemma exists_at (P : VirtualUsbDevice → Prop) devs id d :
  devs !! id = Some d → (∃ e, devs !! id = Some e ∧ P e) ↔ P d.
Proof. intros Hd. rewrite Hd. split; [by intros (e & [= <-] & He)|by exists d]. Qed.
Lemma exists_insert (P : VirtualUsbDevice → Prop) devs id d j :
  (∃ e, <[id := d]> devs !! j = Some e ∧ P e) ↔
  if decide (j = id) then P d else ∃ e, devs !! j = Some e ∧ P e.
Proof.
  destruct (decide (j = id)) as [->|Hne]; [apply exists_at, lookup_insert_eq|by rewrite lookup_insert_ne].
Qed.

Ltac at_device Hd :=
  lazymatch type of Hd with ?devs !! ?id = Some ?d =>
    match goal with |- context [∃ e, devs !! id = Some e ∧ @?P e] =>
      rewrite (exists_at P devs id d Hd) end end.

(** A device that keeps its port and its state. *)
Lemma rep_update mg devs nd sh sh' id d d' r :
  represents (W mg devs nd [] sh) r → devs !! id = Some d → owns d' = owns d → attached_ d' = attached_ d →
  represents (W mg (<[id := d']> devs) nd [] sh') r.
Proof.
  intros [Hh Ho Hr Hi] Hd E1 E2. split; cbn in *; [| |done..].
  - intros i j. rewrite Hh, exists_insert, E1. destruct (decide _) as [->|]; [by at_device Hd|done].
  - intros j. rewrite Ho, exists_insert, E2. destruct (decide _) as [->|]; [by at_device Hd|done].
Qed.

Lemma rep_shell mg devs nd sh sh' r :
  represents (W mg devs nd [] sh) r → represents (W mg devs nd [] sh') r.
Proof. intros []. by split. Qed.

(** The ports in use are the ones held. *)
Lemma rep_used w r i :
  world_ok w → represents w r → is_Some (holders r !! i) ↔ port_usage_ (manager w) !! i = Some true.
Proof.
  intros [_ _ _ _ Ht] [Hh _ _ _]. rewrite (table_used _ _ Ht). split.
  - intros [id Hid]. exists id. by apply Hh.
  - intros (id & d & Hd & Ho). exists id. apply Hh. by exists d.
Qed.

Lemma rep_lowest w r i :
  world_ok w → represents w r → first_free (port_usage_ (manager w)) = Some i →
  ready r = true ∧ lowest_free r i.
Proof.
  intros Hw Hr Hf. pose proof (first_free_Some _ _ Hf) as [Hi Hlow]. pose proof (lookup_lt_Some _ _ _ Hi) as Hlt.
  split; [apply Hr; by intros E; rewrite E in Hi|]. split_and!.
  - destruct (ok_length _ Hw) as [E|E]; rewrite E in Hlt; cbn in Hlt; lia.
  - apply eq_None_not_Some. rewrite (rep_used w r i) by done. by rewrite Hi.
  - intros j Hj. rewrite (rep_used w r j) by done. by apply Hlow.
Qed.

Lemma rep_full w r i :
  world_ok w → represents w r → first_free (port_usage_ (manager w)) = None → ready r = true → ¬ lowest_free r i.
Proof.
  intros Hw Hr Hf Hready (Hi & Hfree & _). apply (rep_ready _ _ Hr) in Hready.
  destruct (ok_length _ Hw) as [E|E]; [done|].
  destruct (lookup_lt_is_Some_2 (port_usage_ (manager w)) i) as [[] Hl]; [lia| |].
  - apply (rep_used w r i) in Hl as [id Hid]; [congruence|done..].
  - by apply (first_free_None _ Hf i).
Qed.

Lemma rep_holds w r id d :
  represents w r → devices w !! id = Some d → holds_port r id ↔ created_ d = true.
Proof.
  intros Hr Hd. unfold holds_port, owns. split.
  - intros (i & Hi). apply (rep_holders _ _ Hr) in Hi as (e & He & Ho). unfold owns in Ho.
    rewrite Hd in He. injection He as <-. by destruct (created_ d).
  - intros Hc. exists (Z.to_nat (port_number_ d)). apply (rep_holders _ _ Hr). exists d. unfold owns. by rewrite Hc.
Qed.

(** The operation's result is a step of the specification. *)
Definition simulated (o : op) (r : registry) (w' : world) : Prop :=
  ∃ r', registry_step o r r' ∧ represents w' r'.

Lemma simulated_bystander o r w : bystander o = true → represents w r → simulated o r w.
Proof. intros Ho Hr. exists r. by split; [constructor|]. Qed.

Lemma simulate_create id info d mg devs nd sh r :
  world_ok (W mg devs nd [] sh) → represents (W mg devs nd [] sh) r → devs !! id = Some d →
  wp (CreateDevice id info) safe (λ _, simulated (OpCreate id info) r) (W mg devs nd [] sh).
Proof.
  intros Hw Hr Hd. pose proof (ok_device _ _ _ _ _ _ Hw Hd) as [Hp Ha _ _].
  apply (wp_CreateDevice _ _ d); [done|]. destruct (created_ d) eqn:Hc.
  { exists r. split; [|done]. apply spec_created. by apply (rep_holds _ _ id d Hr). }
  destruct (attached_ d) eqn:Hat; [by specialize (Ha eq_refl)|].
  destruct (first_free (port_usage_ mg)) as [i|] eqn:Hi.
  - destruct (rep_lowest _ _ i Hw Hr Hi) as [Hready Hlow].
    assert (¬ holds_port r id) as Hno by (rewrite (rep_holds _ _ id d Hr Hd); by rewrite Hc).
    eexists. split; [by eapply spec_claim|]. destruct Hr as [Hh Ho Hrd Hin]. split; cbn in *.
    + intros k j. rewrite lookup_insert_Some, exists_insert.
      replace (owns (created_device d info i)) with (Some i) by (unfold owns; cbn; by rewrite Nat2Z.id).
      destruct Hlow as (_ & Hfree & _). destruct (decide (j = id)) as [->|Hne].
      * assert (holders r !! k ≠ Some id) by (intros Hk; apply Hno; by exists k).
        split; [by intros [[-> _]|[_ ?]]|intros [= ->]; by left].
      * rewrite <- Hh. split; [by intros [[_ <-]|[_ ?]]|]. intros Hk. right. split; [congruence|done].
    + intros j. rewrite Ho, exists_insert.
      replace (attached_ (created_device d info i)) with false by by destruct d.
      destruct (decide (j = id)) as [->|]; [|done]. at_device Hd. by rewrite Hat.
    + rewrite Hrd, <- !length_zero_iff_nil, length_insert. done.
    + done.
  - exists r. split; [apply spec_full; intros i Hready; by apply (rep_full _ _ i Hw Hr Hi)|].
    eapply rep_update; [done..| |]; [unfold owns; by destruct d; cbn in *; subst|by destruct d; cbn in *; subst].
Qed.

Lemma simulate_attach id d mg devs nd sh r :
  world_ok (W mg devs nd [] sh) → represents (W mg devs nd [] sh) r → devs !! id = Some d →
  wp (AttachDevice std_system id) (λ _, True) (λ _, simulated (OpAttach id) r) (W mg devs nd [] sh).
Proof.
  intros Hw Hr Hd. pose proof (ok_device _ _ _ _ _ _ Hw Hd) as [Hp Ha _ Ht].
  pose proof (rep_holds _ _ id d Hr Hd) as Hheld.
  assert (attached_ d = true → holds_port r id) as Hatt by (intros E; by apply Hheld, Ha).
  assert (id ∈ online r ↔ attached_ d = true) as Hon.
  { rewrite (rep_online _ _ Hr). cbn. by at_device Hd. }
  assert (∀ sh', attached_ d = false → simulated (OpAttach id) r (W mg devs nd [] sh')) as Hfails.
  { intros sh' E. exists r. split; [apply spec_attach_fails; by rewrite Hon, E|by eapply rep_shell]. }
  apply (wp_AttachDevice _ _ d); [done|congruence|]. destruct (created_ d) eqn:Hc; cbn [negb].
  2: { apply Hfails. destruct (attached_ d); [by specialize (Ha eq_refl)|done]. }
  destruct (attached_ d) eqn:Hat.
  { eexists. split; [by apply spec_attach, Hheld|]. replace (r {{ online := online r ∪ {[id]} }}) with r; [done|].
    assert (online r ∪ {[id]} = online r) as ->; [|by destruct r]. apply set_eq. intros x.
    rewrite elem_of_union, elem_of_singleton. split; [intros [?| ->]; [done|by apply Hon]|by left]. }
  destruct (c_str _) as [bus|e]; [|done]. cbv zeta. destruct (_ =? 0); [|by apply Hfails].
  eexists. split; [by apply spec_attach, Hheld|]. destruct Hr as [Hh Ho Hrd Hin]. split; cbn in *; [| |done..].
  - intros k j. rewrite Hh, exists_insert.
    replace (owns (attached_device d)) with (owns d) by by destruct d.
    destruct (decide (j = id)) as [->|]; [by at_device Hd|done].
  - intros j. rewrite elem_of_union, elem_of_singleton, Ho, exists_insert.
    replace (attached_ (attached_device d)) with true by by destruct d.
    destruct (decide (j = id)); tauto.
Qed.

Lemma simulate_detach id d mg devs nd sh sh' r :
  represents (W mg devs nd [] sh) r → devs !! id = Some d →
  represents (W mg (<[id := after_detach d]> devs) nd [] sh') (r {{ online := online r ∖ {[id]} }}).
Proof.
  intros [Hh Ho Hrd Hin] Hd. split; cbn in *; [| |done..].
  - intros k j. rewrite Hh, exists_insert.
    replace (owns (after_detach d)) with (owns d) by (unfold owns; by rewrite after_detach_created, after_detach_port).
    destruct (decide (j = id)) as [->|]; [by at_device Hd|done].
  - intros j. rewrite elem_of_difference, elem_of_singleton, Ho, exists_insert.
    assert (attached_ (after_detach d) = false) as -> by (unfold after_detach; by destruct (attached_ d) eqn:E, d).
    destruct (decide (j = id)); [split; [tauto|done]|tauto].
Qed.

Lemma simulate_destroy id d mg devs nd sh r :
  world_ok (W mg devs nd [] sh) → represents (W mg devs nd [] sh) r → devs !! id = Some d →
  wp (DestroyDevice std_system id) safe (λ _, simulated (OpDestroy id) r) (W mg devs nd [] sh).
Proof.
  intros Hw Hr Hd. pose proof (ok_device _ _ _ _ _ _ Hw Hd) as Hok.
  apply (wp_DestroyDevice _ _ d); [done|..].
  { intros i Hi. split; [by apply owns_ok|]. eapply lookup_lt_Some, Hw; eauto. }
  pose proof (simulate_detach id d mg devs nd sh (sh ++ detach_log d) r Hr Hd) as [Hh Ho Hrd Hin]. cbn in *.
  assert (∀ k j, filter (λ p, p.2 ≠ id) (holders r) !! k = Some j ↔ holders r !! k = Some j ∧ j ≠ id) as Hfilter
    by (intros k j; apply map_lookup_filter_Some).
  destruct (owns d) as [i|] eqn:Howns.
  - exists (registry_release id r). split; [constructor|]. split; cbn.
    + intros k j. rewrite Hfilter, Hh, !exists_insert.
      replace (owns (destroyed_device (after_detach d))) with (@None nat) by by destruct (after_detach d).
      destruct (decide (j = id)); [split; [tauto|done]|tauto].
    + intros j. rewrite Ho, !exists_insert.
      replace (attached_ (destroyed_device (after_detach d))) with (attached_ (after_detach d)) by by destruct (after_detach d).
      done.
    + rewrite Hrd, <- !length_zero_iff_nil, length_insert. done.
    + done.
  - exists (registry_release id r). split; [constructor|]. split; cbn; [|done..].
    intros k j. rewrite Hfilter, Hh, exists_insert.
    replace (owns (after_detach d)) with (@None nat)
      by (rewrite <- Howns; unfold owns; by rewrite after_detach_created, after_detach_port).
    destruct (decide (j = id)); [split; [tauto|done]|tauto].
Qed.

Lemma simulate_initialize mg devs nd sh r :
  world_ok (W mg devs nd [] sh) → represents (W mg devs nd [] sh) r →
  wp (UsbipManager_Initialize std_system) safe (λ _, simulated OpInitialize r) (W mg devs nd [] sh).
Proof.
  intros Hw [Hh Ho Hrd Hin]. destruct mg as [vs ports ini]. cbn in *.
  pose proof (resize_ports_table ports devs (ok_length _ Hw) (ok_table _ Hw)) as [Hl _].
  assert (∀ ini' sh', represents (W (Build_UsbipManager vs (resize_ports ports) ini') devs nd [] sh')
    (r {{ ready := true }})) as Hready.
  { intros ini' sh'. split; cbn; [done|done| |done]. split; [|done]. intros _ E. by rewrite E in Hl. }
  unfold UsbipManager_Initialize. wp_run. destruct ini; cbn; wp_run.
  - exists (r {{ ready := true }}). split; [constructor|]. split; cbn; [done|done| |done].
    split; [|done]. intros _. by apply Hrd, Hin.
  - unfold LoadKernelModule. wp_run. destruct (_ =? 0); cbn [negb]; wp_run;
      (exists (r {{ ready := true }}); split; [constructor|apply Hready]).
Qed.

Lemma simulate_new info mg devs nd sh r :
  world_ok (W mg devs nd [] sh) → represents (W mg devs nd [] sh) r →
  wp (make_device info) safe (λ _, simulated (OpNew info) r) (W mg devs nd [] sh).
Proof.
  intros Hw [Hh Ho Hrd Hin]. apply simulated_bystander; [done|]. cbn in *.
  assert (devs !! nd = None) as Hf by (apply (ok_fresh _ Hw); cbn; lia).
  split; cbn; [| |done..]; intros; rewrite ?Hh, ?Ho, exists_insert; destruct (decide _) as [->|]; try done;
    split; try done; intros (e & He & _); by rewrite Hf in He.
Qed.

Lemma simulate_cleanup mg devs nd sh r :
  world_ok (W mg devs nd [] sh) → represents (W mg devs nd [] sh) r →
  wp (UsbipManager_Cleanup std_system) safe (λ _, simulated OpCleanup r) (W mg devs nd [] sh).
Proof.
  intros Hw [Hh Ho Hrd Hin]. pose proof (ok_list _ Hw) as Hv. destruct mg as [vs ports ini]. cbn in *. subst vs.
  unfold UsbipManager_Cleanup. wp_run. destruct ini; cbn [negb UsbipManager.initialized_ destroy_all UsbipManager.virtual_devices_]; wp_run.
  - cbn [destroy_all]. wp_run. unfold UnloadKernelModule. wp_run. by apply simulated_bystander.
  - by apply simulated_bystander.
Qed.

Lemma run_simulates w o r :
  world_ok w → represents w r → (∀ id, op_device o = Some id → is_Some (devices w !! id)) →
  wp (run std_system o) (λ _, True) (λ _, simulated o r) w.
Proof.
  intros Hw Hr Hex. destruct w as [mg devs nd hd sh]. assert (hd = []) as -> by apply Hw. cbn [devices] in Hex.
  assert (∀ A (m : M world A), wp m safe (λ _, simulated o r) (W mg devs nd [] sh) →
    wp (m;; mret ()) (λ _, True) (λ _, simulated o r) (W mg devs nd [] sh)) as Hseq.
  { intros A m Hm. apply wp_bind. by eapply wp_mono. }
  destruct o as [| |info|id|id info|id|id|id|id urb| |junk info|id]; cbn [run];
    try (destruct (Hex id eq_refl) as [d Hd]).
  - by apply Hseq, simulate_initialize.
  - by eapply wp_mono; [apply simulate_cleanup|..].
  - by apply Hseq, simulate_new.
  - wp_run. apply simulated_bystander; [done|]. eapply rep_update; [done..| |]; by destruct d.
  - by eapply Hseq, simulate_create.
  - apply wp_bind. by eapply simulate_attach.
  - apply Hseq, (wp_DetachDevice _ _ d); [done|]. eexists. split; [constructor|by eapply simulate_detach].
  - by eapply wp_mono; [eapply simulate_destroy|..].
  - apply Hseq. destruct (attached_ d) eqn:Ha.
    + destruct (ProcessUrb_total urb d Ha) as (data & c & Hrun). eapply wp_on_device; [done..|].
      apply simulated_bystander; [done|]. eapply rep_update; [done..| |]; by destruct d.
    + eapply wp_on_device; [done|unfold ProcessUrb, mbind, M_bind, get; by rewrite Ha|].
      apply simulated_bystander; [done|]. by eapply rep_update.
  - apply Hseq. unfold GetActivePorts. wp_run. by apply simulated_bystander.
  - apply wp_bind. by apply wp_CreateVirtualDevice.
  - apply Hseq. unfold RemoveVirtualDevice. wp_run. pose proof (ok_list _ Hw) as Hv. cbn in Hv.
    rewrite Hv, decide_False by set_solver. wp_run. by apply simulated_bystander.
Qed.

(** A sequence of operations. *)
Fixpoint run_ops (os : list op) : M world () :=
  match os with [] => mret () | o :: os' => run std_system o;; run_ops os' end.

Lemma world_init_represents : represents world_init registry_init.
Proof.
  split; cbn; [| |done..].
  - intros i id. rewrite lookup_empty. split; [done|]. intros (d & Hd & _). by rewrite lookup_empty in Hd.
  - intros id. rewrite elem_of_empty. split; [done|]. intros (d & Hd & _). by rewrite lookup_empty in Hd.
Qed.

(** C18: The manager refines the registry. Whatever operations are called on the
    manager and its devices, in whatever order, and whatever the shell
    answers, they are steps of the abstract registry: creating a device gives
    it the lowest free of the eight ports, or nothing if there is none or it
    has one; attaching and detaching change only whether it is attached;
    destroying it, and nothing else, frees its port. And in the registry a
    port belongs to one device, a device to one port, and only devices with a
    port are attached. *)
Theorem manager_refines_registry os w :
  run_ops os world_init = Ok ((), w) →
  ∃ r, registry_steps registry_init os r ∧ represents w r ∧ registry_ok r.
Proof.
  assert (registry_ok registry_init) as Hinit.
  { split; cbn; [by intros i id ?|by intros i j id ?|]. by intros id ?%not_elem_of_empty. }
  assert (∀ w0 r0, world_ok w0 → represents w0 r0 → registry_ok r0 → run_ops os w0 = Ok ((), w) →
    ∃ r, registry_steps r0 os r ∧ represents w r ∧ registry_ok r) as Hall;
    [|by apply Hall; [apply world_init_ok|apply world_init_represents|]].
  clear Hinit. induction os as [|o os IH]; intros w0 r0 Hw Hr Hok Hrun.
  { injection Hrun as ->. exists r0. by split; [constructor|]. }
  cbn [run_ops] in Hrun. unfold mbind, M_bind in Hrun.
  destruct (run std_system o w0) as [[[] w1]|] eqn:E; [|done].
  assert (∀ id, op_device o = Some id → is_Some (devices w0 !! id)) as Hex
    by (intros id; eapply run_device; [done|apply Hw]).
  pose proof (wp_Ok _ _ _ _ _ _ (run_preserves std_system w0 o Hw Hex) E) as Hw1.
  destruct (wp_Ok _ _ _ _ _ _ (run_simulates w0 o r0 Hw Hr Hex) E) as (r1 & Hs & Hr1).
  destruct (IH w1 r1 Hw1 Hr1 (registry_step_ok _ _ _ Hs Hok) Hrun) as (r & Hsteps & Hrep & Hrok).
  exists r. by split; [econstructor|].
Qed.
End Refinement.

(** ** Witness *)

(** Device 1 is attached, device 0's port is free again. *)
Lemma manager_refines_registry_witness :
  ∃ r, registry_steps registry_init sample_ops r ∧ holders r !! 1%nat = Some 1%nat ∧
    holders r !! 0%nat = None ∧ 1%nat ∈ online r.
Proof.
  assert (run_ops (h := LittleEndian) system_ok sample_ops world_init = Ok ((), sample_world)) as Hrun
    by (vm_compute; reflexivity).
  destruct (manager_refines_registry (h := LittleEndian) system_ok sample_ops sample_world Hrun)
    as (r & Hsteps & Hr & _).
  exists r. split; [exact Hsteps|]. split; [|split].
  - apply (rep_holders _ _ Hr). eexists. split; vm_compute; reflexivity.
  - apply eq_None_not_Some. rewrite (rep_used sample_world r 0 (reachable_ok _ _ sample_world_reachable) Hr).
    vm_compute. discriminate.
  - apply (rep_online _ _ Hr). eexists. split; vm_compute; reflexivity.
Defined.
