(* ===== verification/TcpSocket.v ===== *)
(** * TcpSocket: the socket wrapper and its threads

    [common/network/tcp_socket.cpp], class [TcpSocket] (the class [TcpServer]
    of the header has no implementation).  The operating system's answers are
    arguments of the operations.  The receive thread, the accept thread and
    the detached client threads are loops that alternate between their loop
    test and a blocking call; [step] interleaves them with the calls of the
    owner.  What the socket does to the outside (callbacks, bytes sent,
    descriptors closed) is the list [events], in order. *)

From S2P Require Import Prelude Memory UsbTypes UsbipProtocol MessageHandler.

(** ** State *)

(** A thread's loop: about to test its condition, inside the blocking call,
    or over (but not joined). *)
Inductive loop_state := AtTest | InCall | Done.
#[export] Instance loop_state_eq_dec : EqDecision loop_state.
Proof. solve_decision. Defined.

Inductive event :=
  | EvError (message : string)
  | EvConnect (connected : bool)
  | EvData (data : list Z)
  | EvSend (data : list Z)
  | EvClose (fd : Z).

(** [receive_thread_] and [accept_thread_] are [None] when not joinable;
    [client_threads] are the detached threads with their descriptors. *)
Record TcpSocket := {
  socket_fd_ : Z;
  is_connected_ : bool;
  is_listening_ : bool;
  should_stop_ : bool;
  receive_thread_ : option loop_state;
  accept_thread_ : option loop_state;
  client_fds_ : list Z;
  client_threads : list (Z * loop_state);
  data_callback_ : bool;
  error_callback_ : bool;
  connect_callback_ : bool;
  events : list event;
}.

Definition TcpSocket_init : TcpSocket := {|
  socket_fd_ := -1; is_connected_ := false; is_listening_ := false; should_stop_ := false;
  receive_thread_ := None; accept_thread_ := None; client_fds_ := []; client_threads := [];
  data_callback_ := false; error_callback_ := false; connect_callback_ := false;
  events := [];
|}.

Definition SetDataCallback (s : TcpSocket) : TcpSocket := s {{ data_callback_ := true }}.
Definition SetErrorCallback (s : TcpSocket) : TcpSocket := s {{ error_callback_ := true }}.
Definition SetConnectCallback (s : TcpSocket) : TcpSocket := s {{ connect_callback_ := true }}.

(** ** The operating system's answers *)

(** Results of the calls [Connect] and [Listen] make; [os_errno] is the text
    of [strerror(errno)] after the failing one. *)
Record os_answers := {
  os_socket : Z;       (* socket(2); negative on failure *)
  os_setsockopt : Z;
  os_pton : Z;         (* inet_pton(3); 1 on success *)
  os_bind : Z;
  os_listen : Z;
  os_connect : Z;
  os_errno : string;
}.

Inductive send_answer := Sent (n : nat) | SendAgain | SendError (errno : string).
Inductive recv_answer := Received (data : list Z) | Closed | RecvAgain | RecvError (errno : string).
Inductive accept_answer := Accepted (fd : Z) | AcceptAgain | AcceptError (errno : string).

(** ** Helpers *)

Definition emit (e : event) : M TcpSocket () :=
  modify (λ s, s {{ events := events s ++ [e] }}).
Definition NotifyError (error : string) : M TcpSocket () :=
  s ← get; if error_callback_ s then emit (EvError error) else mret ().
Definition NotifyConnect (connected : bool) : M TcpSocket () :=
  s ← get; if connect_callback_ s then emit (EvConnect connected) else mret ().
Definition NotifyData (data : list Z) : M TcpSocket () :=
  s ← get; if data_callback_ s then emit (EvData data) else mret ().

(** Assigning a new thread to a [std::thread] that is still joinable calls
    [std::terminate]. *)
Definition start_thread (old : option loop_state) : res (option loop_state) :=
  match old with Some _ => Fault StdTerminate | None => Ok (Some AtTest) end.

(** The error exits: report, close the descriptor, forget it. *)
Definition give_up_socket (error : string) : M TcpSocket bool :=
  NotifyError error;;
  s ← get;
  emit (EvClose (socket_fd_ s));;
  modify (λ s, s {{ socket_fd_ := -1 }});;
  mret false.

(** ** Operations of the owner *)

Definition Connect (host : string) (os : os_answers) : M TcpSocket bool :=
  s ← get;
  if is_connected_ s then mret false
  else
    modify (λ s, s {{ socket_fd_ := os_socket os }});;
    if os_socket os <? 0 then
      NotifyError ("Failed to create socket: " +:+ os_errno os);; mret false
    else if os_pton os <=? 0 then give_up_socket ("Invalid address: " +:+ host)
    else if os_connect os <? 0 then give_up_socket ("Failed to connect: " +:+ os_errno os)
    else
      modify (λ s, s {{ is_connected_ := true; should_stop_ := false }});;
      s ← get;
      thread ← lift (start_thread (receive_thread_ s));
      modify (λ s, s {{ receive_thread_ := thread }});;
      NotifyConnect true;;
      mret true.

Definition Listen (bind_addr : string) (os : os_answers) : M TcpSocket bool :=
  s ← get;
  if is_listening_ s then mret false
  else
    modify (λ s, s {{ socket_fd_ := os_socket os }});;
    if os_socket os <? 0 then
      NotifyError ("Failed to create socket: " +:+ os_errno os);; mret false
    else if os_setsockopt os <? 0 then
      give_up_socket ("Failed to set socket options: " +:+ os_errno os)
    else if negb (bool_decide (bind_addr = "") || bool_decide (bind_addr = "0.0.0.0"))
            && (os_pton os <=? 0)
    then give_up_socket ("Invalid bind address: " +:+ bind_addr)
    else if os_bind os <? 0 then give_up_socket ("Failed to bind: " +:+ os_errno os)
    else if os_listen os <? 0 then give_up_socket ("Failed to listen: " +:+ os_errno os)
    else
      modify (λ s, s {{ is_listening_ := true; should_stop_ := false }});;
      s ← get;
      thread ← lift (start_thread (accept_thread_ s));
      modify (λ s, s {{ accept_thread_ := thread }});;
      mret true.

(** The loop of [Send] on what is left to send. [None]: the answers given are
    used up and the call is still in progress. *)
Fixpoint send_loop (data : list Z) (answers : list send_answer) : M TcpSocket (option bool) :=
  match data with
  | [] => mret (Some true)
  | _ =>
    match answers with
    | [] => mret None
    | Sent n :: answers' => emit (EvSend (take n data));; send_loop (drop n data) answers'
    | SendAgain :: answers' => send_loop data answers'
    | SendError e :: _ => NotifyError ("Send failed: " +:+ e);; mret (Some false)
    end
  end.

Definition Send (data : list Z) (answers : list send_answer) : M TcpSocket (option bool) :=
  s ← get;
  if negb (is_connected_ s) || (socket_fd_ s <? 0) then mret (Some false)
  else send_loop data answers.

(** [Close] up to the joins, and the joins (which wait for both threads to be
    over) with the rest. *)
Definition Close_begin : M TcpSocket () :=
  modify (λ s, s {{ should_stop_ := true; is_connected_ := false; is_listening_ := false }});;
  s ← get;
  (if socket_fd_ s >=? 0
   then emit (EvClose (socket_fd_ s));; modify (λ s, s {{ socket_fd_ := -1 }})
   else mret ());;
  s ← get;
  modify (λ s, s {{ events := events s ++ map EvClose (client_fds_ s); client_fds_ := [] }}).

Definition Close_end : M TcpSocket () :=
  modify (λ s, s {{ receive_thread_ := None; accept_thread_ := None }});;
  NotifyConnect false.

(** ** The threads *)

(** [ReceiveThread]: one test of the loop, with what follows the loop when it
    fails, and one answer of [recv]. *)
Definition receive_end : M TcpSocket () :=
  modify (λ s, s {{ is_connected_ := false }});;
  NotifyConnect false;;
  modify (λ s, s {{ receive_thread_ := Some Done }}).

Definition receive_test : M TcpSocket () :=
  s ← get;
  if negb (should_stop_ s) && is_connected_ s
  then modify (λ s, s {{ receive_thread_ := Some InCall }})
  else receive_end.

Definition receive_answer (a : recv_answer) : M TcpSocket () :=
  match a with
  | Received data => NotifyData data;; modify (λ s, s {{ receive_thread_ := Some AtTest }})
  | Closed => receive_end
  | RecvAgain => modify (λ s, s {{ receive_thread_ := Some AtTest }})
  | RecvError e => NotifyError ("Receive failed: " +:+ e);; receive_end
  end.

(** [AcceptThread]. *)
Definition accept_test : M TcpSocket () :=
  s ← get;
  if negb (should_stop_ s) && is_listening_ s
  then modify (λ s, s {{ accept_thread_ := Some InCall }})
  else modify (λ s, s {{ accept_thread_ := Some Done }}).

Definition accept_answer_step (a : accept_answer) : M TcpSocket () :=
  (match a with
   | Accepted fd =>
     modify (λ s, s {{ client_fds_ := client_fds_ s ++ [fd];
                       client_threads := client_threads s ++ [(fd, AtTest)] }})
   | AcceptAgain => mret ()
   | AcceptError e =>
     s ← get;
     if should_stop_ s then mret () else NotifyError ("Accept failed: " +:+ e)
   end);;
  modify (λ s, s {{ accept_thread_ := Some AtTest }}).

(** [HandleClient] in client thread [i]. *)
Definition client_at (i : nat) : M TcpSocket (Z * loop_state) :=
  s ← get;
  lift (match client_threads s !! i with Some t => Ok t | None => Fault OutOfBounds end).
Definition set_client (i : nat) (l : loop_state) : M TcpSocket () :=
  t ← client_at i;
  modify (λ s, s {{ client_threads := <[i := (t.1, l)]> (client_threads s) }}).

Definition client_end (i : nat) : M TcpSocket () :=
  t ← client_at i;
  emit (EvClose t.1);;
  modify (λ s, s {{ client_fds_ := filter (λ fd, fd ≠ t.1) (client_fds_ s) }});;
  set_client i Done.

Definition client_test (i : nat) : M TcpSocket () :=
  s ← get;
  if should_stop_ s then client_end i else set_client i InCall.

Definition client_answer (i : nat) (a : recv_answer) : M TcpSocket () :=
  match a with
  | Received data => NotifyData data;; set_client i AtTest
  | Closed | RecvError _ => client_end i
  | RecvAgain => set_client i AtTest
  end.

(** ** Addresses *)

(** What [getsockname] or [getpeername] answers: the address as [inet_ntop]
    writes it and the port in network order, or a failure. *)
Definition address {h : Host} (fd : Z) (answer : option (string * Z)) : string :=
  if fd <? 0 then ""
  else
    match answer with
    | None => ""
    | Some (ip_str, sin_port) => ip_str +:+ ":" +:+ to_string (ntohs sin_port)
    end.
Definition GetLocalAddress {h : Host} (getsockname : option (string * Z)) (s : TcpSocket) : string :=
  address (socket_fd_ s) getsockname.
Definition GetRemoteAddress {h : Host} (getpeername : option (string * Z)) (s : TcpSocket) : string :=
  address (socket_fd_ s) getpeername.

(** ** Interleavings *)

Inductive action :=
  | DoConnect (host : string) (os : os_answers)
  | DoListen (bind_addr : string) (os : os_answers)
  | DoSend (data : list Z) (answers : list send_answer)
  | DoCloseBegin
  | DoCloseEnd
  | ReceiveTest
  | ReceiveAnswer (a : recv_answer)
  | AcceptTest
  | AcceptAnswer (a : accept_answer)
  | ClientTest (i : nat)
  | ClientAnswer (i : nat) (a : recv_answer).

(** A join returns once the thread is over. *)
Definition joined (t : option loop_state) : bool :=
  bool_decide (t = None ∨ t = Some Done).

(** Which actions a thread can take next. *)
Definition enabled (s : TcpSocket) (a : action) : bool :=
  match a with
  | DoCloseEnd => joined (receive_thread_ s) && joined (accept_thread_ s)
  | ReceiveTest => bool_decide (receive_thread_ s = Some AtTest)
  | ReceiveAnswer _ => bool_decide (receive_thread_ s = Some InCall)
  | AcceptTest => bool_decide (accept_thread_ s = Some AtTest)
  | AcceptAnswer _ => bool_decide (accept_thread_ s = Some InCall)
  | ClientTest i => bool_decide (snd <$> client_threads s !! i = Some AtTest)
  | ClientAnswer i _ => bool_decide (snd <$> client_threads s !! i = Some InCall)
  | _ => true
  end.

Definition perform (a : action) : M TcpSocket () :=
  match a with
  | DoConnect host os => Connect host os;; mret ()
  | DoListen addr os => Listen addr os;; mret ()
  | DoSend data answers => Send data answers;; mret ()
  | DoCloseBegin => Close_begin
  | DoCloseEnd => Close_end
  | ReceiveTest => receive_test
  | ReceiveAnswer a => receive_answer a
  | AcceptTest => accept_test
  | AcceptAnswer a => accept_answer_step a
  | ClientTest i => client_test i
  | ClientAnswer i a => client_answer i a
  end.

Inductive step : TcpSocket → action → TcpSocket → Prop :=
  | step_intro s a s' : enabled s a = true → perform a s = Ok ((), s') → step s a s'.

(** [steps s l s']: the actions [l] lead from [s] to [s']. *)
Inductive steps : TcpSocket → list action → TcpSocket → Prop :=
  | steps_nil s : steps s [] s
  | steps_cons s a s1 l s' : step s a s1 → steps s1 l s' → steps s (a :: l) s'.

(** ** What the actions change

    [changes R a]: the action [a] relates the states before and after by the
    preorder [R]; proved for each action from its updates. *)

Definition changes (R : TcpSocket → TcpSocket → Prop) (a : action) : Prop :=
  respects R (perform a).

(** Unfold an action down to its updates. *)
Ltac action :=
  unfold changes; cbn [perform];
  unfold Connect, Listen, Close_begin, Close_end, receive_test, receive_answer, receive_end,
    accept_test, accept_answer_step, client_test, client_answer, client_end, set_client, client_at,
    give_up_socket, NotifyError, NotifyConnect, NotifyData, emit;
  respects.

(** [Send] only appends to the events. *)
Lemma respects_Send (R : TcpSocket → TcpSocket → Prop) `{!PreOrder R} data answers :
  (∀ s ev, R s (s {{ events := events s ++ ev }})) → respects R (Send data answers).
Proof.
  intros HR. assert (∀ answers data, respects R (send_loop data answers)) as Hloop.
  { clear data answers. induction answers as [|a answers IH]; intros [|b data]; cbn [send_loop];
      [apply respects_ret, _..|].
    destruct a; unfold NotifyError, emit; respects; auto. }
  unfold Send. respects. apply Hloop.
Qed.

(** The events only grow. *)
Definition grows (s s' : TcpSocket) : Prop := ∃ ev, events s' = events s ++ ev.
#[export] Instance grows_preorder : PreOrder grows.
Proof.
  split; [intros s; exists []; by rewrite app_nil_r|].
  intros s1 s2 s3 [e1 H1] [e2 H2]. exists (e1 ++ e2). by rewrite H2, H1, app_assoc.
Qed.
Lemma grows_same s s' : events s' = events s → grows s s'.
Proof. intros E. exists []. by rewrite app_nil_r. Qed.
Lemma grows_app s s' ev : events s' = events s ++ ev → grows s s'.
Proof. intros E. by exists ev. Qed.

Lemma action_grows a : changes grows a.
Proof.
  destruct a; try (action; (apply grows_same; reflexivity) || (eapply grows_app; reflexivity)).
  unfold changes. cbn [perform]. respects. apply respects_Send; [apply _|].
  intros s ev. by exists ev.
Qed.

(** ** [Connect] *)

(** The system lets the connection through. *)
Definition os_connects (os : os_answers) : bool :=
  (0 <=? os_socket os) && (0 <? os_pton os) && (0 <=? os_connect os).

Lemma Connect_cases host os s :
  (∃ s', Connect host os s = Ok (false, s') ∧ receive_thread_ s' = receive_thread_ s ∧
     is_connected_ s' = is_connected_ s ∧ (is_connected_ s = true ∨ os_connects os = false)) ∨
  (is_connected_ s = false ∧ os_connects os = true ∧
   if receive_thread_ s is Some _ then Connect host os s = Fault StdTerminate
   else ∃ s', Connect host os s = Ok (true, s') ∧ receive_thread_ s' = Some AtTest ∧
     is_connected_ s' = true).
Proof.
  unfold os_connects. destruct (is_connected_ s) eqn:Hc.
  { left. exists s. unfold Connect, mbind, M_bind, get. rewrite Hc. auto. }
  unfold Connect, give_up_socket, NotifyError, NotifyConnect, emit, modify, get, lift, mbind, M_bind,
    mret, M_ret.
  rewrite Hc. destruct s as [fd conn lis stop rx ax cfds cth dcb ecb ccb evs].
  cbn in *. subst conn.
  destruct (Z.ltb_spec (os_socket os) 0), (Z.leb_spec 0 (os_socket os)); try lia; cbn.
  { left. destruct ecb; eexists; split_and!; (reflexivity || by right). }
  destruct (Z.leb_spec (os_pton os) 0), (Z.ltb_spec 0 (os_pton os)); try lia; cbn.
  { left. destruct ecb; eexists; split_and!; (reflexivity || by right). }
  destruct (Z.ltb_spec (os_connect os) 0), (Z.leb_spec 0 (os_connect os)); try lia; cbn.
  { left. destruct ecb; eexists; split_and!; (reflexivity || by right). }
  right. split_and!; [done..|]. destruct rx; cbn; [done|].
  destruct ccb; eexists; split_and!; reflexivity.
Qed.

(** A joinable receive thread stays joinable until a join. *)
Definition stays_joinable (s s' : TcpSocket) : Prop :=
  receive_thread_ s ≠ None → receive_thread_ s' ≠ None.
#[export] Instance stays_joinable_preorder : PreOrder stays_joinable.
Proof. split; [by intros s H|]. intros s1 s2 s3 H1 H2 H. auto. Qed.

Lemma action_joinable a : a ≠ DoCloseEnd → changes stays_joinable a.
Proof.
  intros Ha. destruct a; try done;
    try (action; intros Hj; (exact Hj || discriminate)).
  - unfold changes. cbn [perform]. respects. intros s r s' Hrun Hj.
    destruct (Connect_cases host os s) as [(s1 & E & Hrx & _)|(_ & _ & Hrx)].
    + rewrite E in Hrun. injection Hrun as <- <-. by rewrite Hrx.
    + destruct (receive_thread_ s); [|done]. congruence.
  - unfold changes. cbn [perform]. respects. apply respects_Send; [apply _|]. by intros s ev Hj.
Qed.

(** Without [Connect] a socket that is not connected stays so. *)
Definition stays_offline (s s' : TcpSocket) : Prop :=
  is_connected_ s = false → is_connected_ s' = false.
#[export] Instance stays_offline_preorder : PreOrder stays_offline.
Proof. split; [by intros s H|]. intros s1 s2 s3 H1 H2 H. auto. Qed.

Lemma action_offline a : (∀ host os, a ≠ DoConnect host os) → changes stays_offline a.
Proof.
  intros Ha. destruct a; try (action; intros Hj; (exact Hj || reflexivity)).
  - by destruct (Ha host os).
  - unfold changes. cbn [perform]. respects. apply respects_Send; [apply _|]. by intros s ev Hj.
Qed.

(** The state of client thread [i] changes only by its own actions. *)
Definition keeps_client (i : nat) (s s' : TcpSocket) : Prop :=
  ∀ t, client_threads s !! i = Some t → client_threads s' !! i = Some t.
#[export] Instance keeps_client_preorder i : PreOrder (keeps_client i).
Proof. split; [by intros s t|]. intros s1 s2 s3 H1 H2 t Ht. auto. Qed.

Definition of_client (a : action) : option nat :=
  match a with ClientTest i | ClientAnswer i _ => Some i | _ => None end.

Lemma action_keeps_client i a : of_client a ≠ Some i → changes (keeps_client i) a.
Proof.
  intros Ha. destruct a; cbn in Ha; try (action; intros t Ht; exact Ht).
  - unfold changes. cbn [perform]. respects. apply respects_Send; [apply _|]. by intros s ev t Ht.
  - action; intros t Ht; try exact Ht. by apply lookup_app_l_Some.
  - action; intros t Ht; try exact Ht; cbn; (rewrite list_lookup_insert_ne; [exact Ht|congruence]).
  - action; intros t Ht; try exact Ht; cbn; (rewrite list_lookup_insert_ne; [exact Ht|congruence]).
Qed.

(** ** Runs *)

Lemma step_inv s a s' : step s a s' → enabled s a = true ∧ perform a s = Ok ((), s').
Proof. by destruct 1. Qed.

Lemma step_changes R a s s' : changes R a → step s a s' → R s s'.
Proof. intros H [_ Hrun]%step_inv. exact (H _ _ _ Hrun). Qed.

Lemma steps_changes (R : TcpSocket → TcpSocket → Prop) `{!PreOrder R} s l s' :
  (∀ a, a ∈ l → changes R a) → steps s l s' → R s s'.
Proof.
  intros H Hs. induction Hs as [|s a s1 l s' Hst _ IH]; [done|].
  etrans; [eapply step_changes; [apply H|done]; by left|].
  apply IH. intros b Hb. apply H. by right.
Qed.

Lemma steps_app s l1 l2 s' :
  steps s (l1 ++ l2) s' ↔ ∃ s1, steps s l1 s1 ∧ steps s1 l2 s'.
Proof.
  split.
  - revert s. induction l1 as [|a l1 IH]; intros s H; [exists s; by split; [constructor|]|].
    inversion H as [|? ? s1 ? ? Ha Hl]; subst. destruct (IH _ Hl) as (s2 & H1 & H2).
    exists s2. split; [by econstructor|done].
  - intros (s1 & H1 & H2). induction H1; [done|]. econstructor; eauto.
Qed.

(** ** Sending *)

(** The bytes handed to the network. *)
Definition sent_bytes (evs : list event) : list Z :=
  flat_map (λ e, match e with EvSend d => d | _ => [] end) evs.

(** What the answers allow to be sent. *)
Definition progress_of (answers : list send_answer) : nat :=
  sum_list_with (λ a, match a with Sent n => n | _ => 0%nat end) answers.

Definition is_send_error (a : send_answer) : Prop :=
  match a with SendError _ => True | _ => False end.

Lemma sent_bytes_app a b : sent_bytes (a ++ b) = sent_bytes a ++ sent_bytes b.
Proof. apply flat_map_app. Qed.

Lemma send_loop_spec answers data s :
  ∃ r ev rest, send_loop data answers s = Ok (r, s {{ events := events s ++ ev }}) ∧
    data = sent_bytes ev ++ rest ∧
    match r with
    | Some true => rest = []
    | Some false => Exists is_send_error answers ∧ rest ≠ []
    | None => rest ≠ [] ∧ (progress_of answers < length data)%nat ∧
              ¬ Exists is_send_error answers
    end.
Proof.
  revert data s. induction answers as [|a answers IH]; intros [|b data] s.
  1, 3: exists (Some true), [], []; cbn [send_loop]; rewrite app_nil_r; by destruct s.
  { exists None, [], (b :: data). cbn [send_loop]. rewrite app_nil_r. split_and!; [by destruct s|done|done|cbn; lia|].
    intros H; by apply Exists_nil in H. }
  destruct a as [n| |e].
  - destruct (IH (drop n (b :: data)) (s {{ events := events s ++ [EvSend (take n (b :: data))] }}))
      as (r & ev & rest & E & Hd & Hr).
    exists r, (EvSend (take n (b :: data)) :: ev), rest. cbn [send_loop].
    unfold emit, modify, mbind, M_bind. rewrite E. split_and!.
    + destruct s; cbn. by rewrite <- app_assoc.
    + cbn [sent_bytes flat_map]. fold (sent_bytes ev). rewrite <- app_assoc, <- Hd.
      by rewrite take_drop.
    + destruct r as [[]|]; [done|destruct Hr; split; [by right|done]|].
      destruct Hr as (H1 & H2 & H3). split_and!; [done| |].
      * rewrite length_drop in H2. cbn [progress_of sum_list_with].
        unfold progress_of in H2. cbn [length] in *. lia.
      * intros [[]|H]%Exists_cons. done.
  - destruct (IH (b :: data) s) as (r & ev & rest & E & Hd & Hr).
    exists r, ev, rest. split_and!; [done..|]. destruct r as [[]|]; [done|destruct Hr; split; [by right|done]|].
    destruct Hr as (H1 & H2 & H3). split_and!; [done..|].
    intros [[]|H]%Exists_cons. done.
  - exists (Some false), (if error_callback_ s then [EvError ("Send failed: " +:+ e)] else []),
      (b :: data).
    split_and!; [|by destruct (error_callback_ s)|by left|done].
    cbn [send_loop]. unfold NotifyError, emit, modify, get, mbind, M_bind. destruct s as [fd conn lis stop rx ax cfds cth dcb [] ccb evs]; cbn; [done|].
    by rewrite app_nil_r.
Qed.

(** ** Stopping *)

Definition thread_action (a : action) : Prop :=
  match a with
  | ReceiveTest | ReceiveAnswer _ | AcceptTest | AcceptAnswer _ | ClientTest _ | ClientAnswer _ _ => True
  | _ => False
  end.

(** How many more actions a thread can take once it is told to stop; a
    blocked accept may still start one more client thread. *)
Definition loop_work (l : loop_state) : nat :=
  match l with AtTest => 1 | InCall => 2 | Done => 0 end.
Definition accept_work (l : loop_state) : nat :=
  match l with AtTest => 1 | InCall => 3 | Done => 0 end.
Definition work (s : TcpSocket) : nat :=
  from_option loop_work 0%nat (receive_thread_ s)
  + from_option accept_work 0%nat (accept_thread_ s)
  + sum_list_with (λ t, loop_work t.2) (client_threads s).

Lemma sum_list_insert {A} (f : A → nat) l i x y :
  l !! i = Some x →
  (sum_list_with f (<[i := y]> l) + f x = sum_list_with f l + f y)%nat.
Proof.
  revert i. induction l as [|z l IH]; intros [|i]; simpl; [done..| |].
  - intros [= ->]. lia.
  - intros H. specialize (IH _ H). lia.
Qed.

(** The end of a client thread, and an intermediate state of it. *)
Lemma set_client_spec i fd l l' s :
  client_threads s !! i = Some (fd, l) →
  set_client i l' s = Ok ((), s {{ client_threads := <[i := (fd, l')]> (client_threads s) }}).
Proof.
  intros H. unfold set_client, client_at, lift, modify, get, mbind, M_bind. by rewrite H.
Qed.

Lemma client_end_spec i fd l s :
  client_threads s !! i = Some (fd, l) →
  client_end i s = Ok ((), s {{
    events := events s ++ [EvClose fd];
    client_fds_ := filter (λ x, x ≠ fd) (client_fds_ s);
    client_threads := <[i := (fd, Done)]> (client_threads s) }}).
Proof.
  intros H. unfold client_end, client_at, lift, emit, modify, get.
  unfold mbind, M_bind at 1. unfold M_bind at 1. rewrite H. cbn [fst].
  unfold M_bind at 1 2. by rewrite (set_client_spec i fd l).
Qed.

(** Every action of a client thread, on the thread's own entry. *)
Lemma client_action_spec s a s' i :
  step s a s' → of_client a = Some i →
  ∃ fd l l' ev, client_threads s !! i = Some (fd, l) ∧
    client_threads s' = <[i := (fd, l')]> (client_threads s) ∧
    should_stop_ s' = should_stop_ s ∧ receive_thread_ s' = receive_thread_ s ∧
    accept_thread_ s' = accept_thread_ s ∧
    events s' = events s ++ ev ∧
    (l = AtTest ∧ l' = (if should_stop_ s then Done else InCall) ∨ l = InCall ∧ l' ≠ InCall) ∧
    (l' = Done → ev = [EvClose fd]).
Proof.
  intros [Hen Hrun]%step_inv Ha. destruct a as [| | | | | | | | |j|j a]; cbn in Ha; try done;
    injection Ha as ->; cbn [enabled perform] in Hen, Hrun;
    apply bool_decide_eq_true in Hen;
    destruct (client_threads s !! i) as [[fd l]|] eqn:E; try done; cbn in Hen;
    injection Hen as ->.
  - unfold client_test, get, mbind, M_bind in Hrun. destruct (should_stop_ s) eqn:Hs.
    + rewrite (client_end_spec i fd AtTest) in Hrun by done. injection Hrun as <-.
      exists fd, AtTest, Done, [EvClose fd]. split_and!; auto.
    + rewrite (set_client_spec i fd AtTest) in Hrun by done. injection Hrun as <-.
      exists fd, AtTest, InCall, []. cbn. rewrite app_nil_r. split_and!; auto. done.
  - assert (∀ s1, client_threads s1 = client_threads s → should_stop_ s1 = should_stop_ s →
      receive_thread_ s1 = receive_thread_ s → accept_thread_ s1 = accept_thread_ s →
      ∀ ev, events s1 = events s ++ ev → set_client i AtTest s1 = Ok ((), s') →
      ∃ fd0 l l' ev, Some (fd, InCall) = Some (fd0, l) ∧
        client_threads s' = <[i := (fd0, l')]> (client_threads s) ∧
        should_stop_ s' = should_stop_ s ∧ receive_thread_ s' = receive_thread_ s ∧
        accept_thread_ s' = accept_thread_ s ∧ events s' = events s ++ ev ∧
        (l = AtTest ∧ l' = (if should_stop_ s then Done else InCall) ∨ l = InCall ∧ l' ≠ InCall) ∧
        (l' = Done → ev = [EvClose fd0])) as Hset.
    { intros s1 Hc Hs Hr Hacc ev Hev Hrun1.
      rewrite (set_client_spec i fd InCall) in Hrun1 by congruence. injection Hrun1 as <-.
      exists fd, InCall, AtTest, ev. cbn. rewrite <- Hc. split_and!; auto. done. }
    destruct a as [data| | |e]; cbn [client_answer] in Hrun.
    + unfold NotifyData, emit, modify, get, mbind, M_bind in Hrun.
      destruct (data_callback_ s).
      * by eapply Hset, Hrun.
      * eapply (Hset s); [done..|symmetry; apply app_nil_r|done].
    + rewrite (client_end_spec i fd InCall) in Hrun by done. injection Hrun as <-.
      exists fd, InCall, Done, [EvClose fd]. split_and!; auto.
    + eapply (Hset s); [done..|symmetry; apply app_nil_r|done].
    + rewrite (client_end_spec i fd InCall) in Hrun by done. injection Hrun as <-.
      exists fd, InCall, Done, [EvClose fd]. split_and!; auto.
Qed.

(** Told to stop, every action of a thread brings it closer to its end. *)
Lemma thread_step_work s a s' :
  should_stop_ s = true → thread_action a → step s a s' →
  should_stop_ s' = true ∧ (work s' < work s)%nat.
Proof.
  intros Hstop Ha Hst. destruct (of_client a) as [i|] eqn:Hi.
  { destruct (client_action_spec s a s' i Hst Hi) as
      (fd & l & l' & ev & E & Hc & Hs & Hr & Hacc & _ & Hl & _).
    split; [congruence|]. unfold work. rewrite Hr, Hacc, Hc.
    pose proof (sum_list_insert (λ t, loop_work t.2) _ i _ (fd, l') E) as Hsum. cbn [snd] in Hsum.
    rewrite Hstop in Hl.
    destruct Hl as [[-> ->]|[-> Hl']]; [cbn in Hsum; lia|].
    destruct l'; [|done|]; cbn in Hsum; lia. }
  apply step_inv in Hst as [Hen Hrun].
  destruct s as [fd conn lis stop rx ax cfds cth dcb ecb ccb evs]. cbn in Hstop. subst stop.
  destruct a as [| | | | | |a| |a| |]; try done; cbn in Hen;
    apply bool_decide_eq_true in Hen as ->.
  - cbn in Hrun. destruct ccb; injection Hrun as <-; (split; [done|unfold work; cbn; lia]).
  - destruct a; cbn in Hrun; [destruct dcb|destruct ccb| |destruct ecb, ccb];
      injection Hrun as <-; (split; [done|unfold work; cbn; lia]).
  - cbn in Hrun. injection Hrun as <-. split; [done|unfold work; cbn; lia].
  - destruct a; cbn in Hrun; injection Hrun as <-; (split; [done|unfold work; cbn]);
      rewrite ?sum_list_with_app; cbn; lia.
Qed.

Lemma sum_list_with_zero {A} (f : A → nat) l :
  sum_list_with f l = 0%nat → ∀ x, x ∈ l → f x = 0%nat.
Proof.
  induction l as [|y l IH]; simpl; [intros _ x Hx; by apply elem_of_nil in Hx|].
  intros H x [->|Hx]%elem_of_cons; [lia|]. apply IH; [lia|done].
Qed.

(** A client thread that gets to its end has closed its descriptor on the
    way. *)
Lemma client_done_closes s l s' i fd st :
  steps s l s' → client_threads s !! i = Some (fd, st) → st ≠ Done →
  client_threads s' !! i = Some (fd, Done) →
  ∃ ev1 ev2, events s' = events s ++ ev1 ++ [EvClose fd] ++ ev2.
Proof.
  intros Hs. revert st. induction Hs as [s|s a s1 l s' Hst Hs IH]; intros st Hi Hne Hd.
  { rewrite Hi in Hd. by injection Hd. }
  destruct (decide (of_client a = Some i)) as [Ha|Ha].
  - destruct (client_action_spec s a s1 i Hst Ha) as
      (fd' & l0 & l' & ev & E & Hc & _ & _ & _ & Hev & _ & Hdone).
    assert (fd' = fd ∧ l0 = st) as [-> ->] by (split; congruence).
    destruct (decide (l' = Done)) as [->|Hl'].
    + destruct (steps_changes grows s1 l s') as [ev2 H2]; [intros; apply action_grows|done|].
      exists [], ev2. by rewrite H2, Hev, Hdone, <- app_assoc.
    + destruct (IH l') as (ev1 & ev2 & H2); [|done..|].
      { rewrite Hc. apply list_lookup_insert_eq. by eapply lookup_lt_Some. }
      exists (ev ++ ev1), ev2. by rewrite H2, Hev, <- !app_assoc.
  - assert (client_threads s1 !! i = Some (fd, st)) as Hi1
      by (eapply (step_changes (keeps_client i)); [by apply action_keeps_client|done..]).
    destruct (step_changes grows a s s1 (action_grows a) Hst) as [ev H1].
    destruct (IH st Hi1 Hne Hd) as (ev1 & ev2 & H2).
    exists (ev ++ ev1), ev2. by rewrite H2, H1, <- !app_assoc.
Qed.

(** ** Properties *)


(** C31: A socket connects once. After a successful [Connect], whatever the
    peer, the threads and the owner do short of completing a [Close], another
    [Connect] either finds the socket still connected or fails to connect or,
    when the peer had ended the connection and a new one is accepted,
    terminates the program: the old receive thread is still joinable. After
    the joins of [Close] a connection can be made again. *)
Theorem connect_once s0 host0 os0 s l s1 host os :
  Connect host0 os0 s0 = Ok (true, s) → steps s l s1 → DoCloseEnd ∉ l →
  (if negb (is_connected_ s1) && os_connects os
   then Connect host os s1 = Fault StdTerminate
   else ∃ s2, Connect host os s1 = Ok (false, s2)) ∧
  (∀ s2, step s1 DoCloseEnd s2 → is_connected_ s2 = false → os_connects os = true →
     ∃ s3, Connect host os s2 = Ok (true, s3)).
Proof.
  intros Hc Hs Hl.
  assert (receive_thread_ s ≠ None) as Hj.
  { destruct (Connect_cases host0 os0 s0) as [(s' & E & _)|(_ & _ & Hrx)]; [congruence|].
    destruct (receive_thread_ s0); [congruence|]. destruct Hrx as (s' & E & Hrx & _).
    assert (s' = s) as <- by congruence. by rewrite Hrx. }
  assert (receive_thread_ s1 ≠ None) as Hj1.
  { eapply (steps_changes stays_joinable); [|exact Hs|done]. intros a Ha.
    apply action_joinable. congruence. }
  split.
  - destruct (Connect_cases host os s1) as [(s' & E & _ & _ & H)|(Hn & Ho & Hrx)].
    + destruct H as [-> | ->]; rewrite ?andb_false_r; cbn; eauto.
    + rewrite Hn, Ho. cbn. by destruct (receive_thread_ s1).
  - intros s2 [_ Hrun]%step_inv Hn Ho.
    destruct (Connect_cases host os s2) as [(s3 & E & _ & _ & H)|(_ & _ & Hrx)].
    { exfalso. destruct H; congruence. }
    assert (receive_thread_ s2 = None) as Hnone.
    { cbn [perform] in Hrun. unfold Close_end, NotifyConnect, emit, modify, get, mbind, M_bind in Hrun.
      destruct s1 as [fd conn lis stop rx ax cfds cth dcb ecb ccb evs]. cbn in Hrun.
      destruct ccb; injection Hrun as <-; done. }
    rewrite Hnone in Hrx. destruct Hrx as (s3 & E & _). eauto.
Qed.

(** A listening socket cannot send. As long as [Connect] is never called
    on it, [Send] returns false and sends nothing, whatever clients have
    connected. *)
Theorem listening_socket_never_sends l s data answers :
  steps TcpSocket_init l s → (∀ host os, DoConnect host os ∉ l) →
  Send data answers s = Ok (Some false, s).
Proof.
  intros Hs Hl. assert (is_connected_ s = false) as Hc.
  { eapply (steps_changes stays_offline); [|exact Hs|done]. intros a Ha.
    apply action_offline. intros host os ->. by apply (Hl host os). }
  unfold Send, mbind at 1, M_bind, get. by rewrite Hc.
Qed.


(** The descriptor of a client that is connected when the owner calls
    [Close] is closed twice: by [Close] and again at the end of the client's
    thread, by when the number may belong to another file. *)
Theorem client_closed_twice s s1 l s2 i fd st :
  client_threads s !! i = Some (fd, st) → st ≠ Done → fd ∈ client_fds_ s →
  step s DoCloseBegin s1 → steps s1 l s2 → client_threads s2 !! i = Some (fd, Done) →
  ∃ ev1 ev2 ev3, events s2 = events s ++ ev1 ++ [EvClose fd] ++ ev2 ++ [EvClose fd] ++ ev3.
Proof.
  intros Hi Hne Hin [_ Hrun]%step_inv Hs Hd.
  assert (client_threads s1 = client_threads s ∧
    ∃ pre, events s1 = events s ++ pre ++ map EvClose (client_fds_ s)) as [Hc [pre Hev]].
  { destruct s as [sfd conn lis stop rx ax cfds cth dcb ecb ccb evs]. cbn in Hrun.
    unfold Close_begin, emit, modify, get, mbind, M_bind in Hrun. cbn in Hrun.
    destruct (sfd >=? 0); injection Hrun as <-; (split; [done|]); cbn.
    - exists [EvClose sfd]. by rewrite <- app_assoc.
    - by exists []. }
  apply list_elem_of_split in Hin as (l1 & l3 & Hsplit).
  destruct (client_done_closes s1 l s2 i fd st) as (ev1 & ev2 & H2); [done|congruence|done..|].
  exists (pre ++ map EvClose l1), (map EvClose l3 ++ ev1), ev2.
  rewrite H2, Hev, Hsplit, map_app. cbn [map]. by rewrite <- !app_assoc.
Qed.

(** ** Witnesses *)

Fixpoint exec (l : list action) (s : TcpSocket) : option TcpSocket :=
  match l with
  | [] => Some s
  | a :: l' =>
    if enabled s a then match perform a s with Ok (_, s1) => exec l' s1 | Fault _ => None end
    else None
  end.

Lemma exec_steps l s s' : exec l s = Some s' → steps s l s'.
Proof.
  revert s. induction l as [|a l IH]; intros s; cbn; [intros [= <-]; constructor|].
  destruct (enabled s a) eqn:E; [|done]. destruct (perform a s) as [[[] s1]|] eqn:Hp; [|done].
  intros H. econstructor; [by constructor|]. by apply IH.
Qed.

Definition os_ok : os_answers := {|
  os_socket := 5; os_setsockopt := 0; os_pton := 1; os_bind := 0; os_listen := 0;
  os_connect := 0; os_errno := "" |}.

Definition sample_socket : TcpSocket :=
  SetConnectCallback (SetErrorCallback (SetDataCallback TcpSocket_init)).

Definition connected_socket : TcpSocket :=
  match Connect "127.0.0.1" os_ok sample_socket with
  | Ok (_, s) => s | Fault _ => sample_socket end.

(** A listener with one client, blocked in its [recv]. *)
Definition listen_actions : list action :=
  [DoListen "" os_ok; AcceptTest; AcceptAnswer (Accepted 6); ClientTest 0; AcceptTest].
Definition listening_socket : TcpSocket :=
  default sample_socket (exec listen_actions TcpSocket_init).

Lemma listening_socket_steps : steps TcpSocket_init listen_actions listening_socket.
Proof. apply exec_steps. vm_compute. reflexivity. Qed.


(** The peer closes; connecting again terminates. *)
Definition dropped_socket : TcpSocket :=
  default sample_socket (exec [ReceiveTest; ReceiveAnswer Closed] connected_socket).

Lemma connect_once_witness :
  is_connected_ dropped_socket = false ∧
  Connect "127.0.0.1" os_ok dropped_socket = Fault StdTerminate.
Proof.
  split; [reflexivity|].
  apply (connect_once sample_socket "127.0.0.1" os_ok connected_socket
    [ReceiveTest; ReceiveAnswer Closed] dropped_socket "127.0.0.1" os_ok).
  - vm_compute. reflexivity.
  - apply exec_steps. vm_compute. reflexivity.
  - intros H. repeat (apply elem_of_cons in H as [H|H]; [discriminate H|]).
    by apply elem_of_nil in H.
Defined.

Lemma listening_socket_never_sends_witness :
  Send [1; 2; 3] [Sent 3] listening_socket = Ok (Some false, listening_socket).
Proof.
  apply (listening_socket_never_sends listen_actions); [exact listening_socket_steps|].
  intros host os H.
  repeat (apply elem_of_cons in H as [H|H]; [discriminate H|]). by apply elem_of_nil in H.
Defined.

Definition closing_socket : TcpSocket :=
  match Close_begin listening_socket with Ok (_, s) => s | Fault _ => listening_socket end.
Definition closing_actions : list action :=
  [ClientAnswer 0 (RecvError "EBADF"); AcceptAnswer (AcceptError "EBADF"); AcceptTest].
Definition closed_socket : TcpSocket :=
  default closing_socket (exec closing_actions closing_socket).

Lemma closing_steps :
  step listening_socket DoCloseBegin closing_socket ∧
  steps closing_socket closing_actions closed_socket.
Proof. split; [by constructor|]. apply exec_steps. vm_compute. reflexivity. Qed.


Lemma client_closed_twice_witness :
  ∃ ev1 ev2 ev3, events closed_socket
    = events listening_socket ++ ev1 ++ [EvClose 6] ++ ev2 ++ [EvClose 6] ++ ev3.
Proof.
  apply (client_closed_twice listening_socket closing_socket closing_actions closed_socket 0 6 InCall).
  - reflexivity.
  - discriminate.
  - apply list_elem_of_singleton. reflexivity.
  - apply closing_steps.
  - apply closing_steps.
  - reflexivity.
Defined.
