(* ===== verification/UsbDeviceManager.v ===== *)
(** * UsbDeviceManager: the sender's access to USB devices

    [sender/usb/usb_device_manager.cpp]: class [UsbDevice] (here
    [SenderUsbDevice], the protocol's [UsbDevice] being the struct of
    [usb_types.h]) and class [UsbDeviceManager].  libusb is not part of the
    repository: its calls are the operations of the class [Libusb] over a
    library state [L], what a device answers is the record [libusb_device],
    and [LibusbOk] states the documented bound on transfers.  The hotplug thread
    is given the events libusb handles in each of its turns. *)

From S2P Require Import Prelude Memory UsbTypes.

(** ** libusb *)

(** Each call takes and returns the library's state; the return code 0 is
    [LIBUSB_SUCCESS].  The transfers return the code, the contents of the
    caller's buffer afterwards and, for bulk and interrupt, the length
    transferred. *)
Class Libusb (L : Type) := {
  libusb_open : L → Z * L;
  libusb_close : L → L;
  libusb_claim_interface : Z → L → Z * L;
  libusb_release_interface : Z → L → Z * L;
  libusb_control_transfer : Z → Z → Z → Z → list Z → L → Z * list Z * L;
  libusb_bulk_transfer : Z → list Z → L → Z * list Z * Z * L;
  libusb_interrupt_transfer : Z → list Z → L → Z * list Z * Z * L;
  libusb_submit_transfer : L → Z * L;
  libusb_get_string_descriptor_ascii : Z → nat → L → Z * list Z * L;
}.

#[global] Arguments libusb_open : simpl never.
#[global] Arguments libusb_close : simpl never.
#[global] Arguments libusb_claim_interface : simpl never.
#[global] Arguments libusb_release_interface : simpl never.
#[global] Arguments libusb_control_transfer : simpl never.
#[global] Arguments libusb_bulk_transfer : simpl never.

(** A transfer writes inside the buffer it was given, at most its length. *)
Class LibusbOk (L : Type) `{Libusb L} := {
  bulk_transfer_length ep data l ret data' n l' :
    libusb_bulk_transfer ep data l = (ret, data', n, l') →
    length data' = length data ∧ (bytes_ok data → bytes_ok data');
  control_transfer_length rt rq v i data l ret data' l' :
    libusb_control_transfer rt rq v i data l = (ret, data', l') → length data' = length data;
}.

(** What libusb reports of an attached device: the memory of the two
    descriptor structs it fills in.  [lu_config] is the object the returned
    pointer addresses and its field [wTotalLength]. *)
Record libusb_device := {
  lu_bus : Z;
  lu_address : Z;
  lu_speed : Z;
  lu_descriptor : option (list Z);
  lu_config : option (list Z * Z);
}.

(** ** UsbDevice *)

Record SenderUsbDevice (L : Type) := {
  device_ : option libusb_device;
  handle_ : bool;
  device_info_ : UsbDevice;
  claimed_interfaces_ : list Z;
  usb : L;
}.
Arguments device_ {L} _.
Arguments handle_ {L} _.
Arguments device_info_ {L} _.
Arguments claimed_interfaces_ {L} _.
Arguments usb {L} _.
Arguments Build_SenderUsbDevice {L} _ _ _ _ _.

(** [std::setfill('0') << std::setw(3) << n]. *)
Definition pad3 (n : Z) : string :=
  let s := to_string n in
  Nat.iter (3 - String.length s) (fun t => "0" +:+ t) s.

Definition UsbSpeed_cast (x : Z) : UsbSpeed :=
  match x with
  | 0 => UNKNOWN | 1 => LOW | 2 => FULL | 3 => HIGH | 4 => SUPER
  | v => UsbSpeed_other v
  end.

Section UsbDevice.
Context {h : Host} {L : Type} `{Libusb L}.

Definition GetPath (dev : option libusb_device) : string :=
  match dev with
  | None => ""
  | Some d => "/dev/bus/usb/" +:+ pad3 (lu_bus d) +:+ "/" +:+ pad3 (lu_address d)
  end.

Definition GetBusId (dev : option libusb_device) : string :=
  match dev with
  | None => ""
  | Some d => to_string (lu_bus d) +:+ "-" +:+ to_string (lu_address d)
  end.

(** [LoadDeviceInfo] on the default-initialised [info]: [assign] copies
    [wTotalLength] bytes from the address of the config struct. *)
Definition LoadDeviceInfo (dev : option libusb_device) (info : UsbDevice) : res UsbDevice :=
  match dev with
  | None => Ok info
  | Some d =>
    let info := info {{
      dev_path := GetPath dev; dev_bus_id := GetBusId dev;
      dev_bus_number := lu_bus d; dev_device_number := lu_address d;
      dev_speed := UsbSpeed_cast (lu_speed d); dev_is_connected := true }} in
    let info := match lu_descriptor d with
                | Some bytes => info {{ dev_descriptor := struct_load bytes }}
                | None => info
                end in
    match lu_config d with
    | Some (object, wTotalLength) =>
      bytes ← mem_read object 0 (Z.to_nat wTotalLength);
      Ok (info {{ dev_config_descriptor := bytes }})
    | None => Ok info
    end
  end.

(** The constructor. *)
Definition UsbDevice_new (dev : option libusb_device) (info : UsbDevice) (l : L)
    : res (SenderUsbDevice L) :=
  info ← LoadDeviceInfo dev info;
  Ok {| device_ := dev; handle_ := false; device_info_ := info;
        claimed_interfaces_ := []; usb := l |}.

(** A libusb call that returns a code. *)
Definition call (f : L → Z * L) : M (SenderUsbDevice L) Z := λ d,
  let '(ret, l) := f (usb d) in Ok (ret, d {{ usb := l }}).

Definition Open : M (SenderUsbDevice L) bool :=
  d ← get;
  if handle_ d then mret true
  else
    ret ← call libusb_open;
    if negb (ret =? 0) then mret false
    else modify (λ d, d {{ handle_ := true }});; mret true.

Fixpoint release_all (claimed : list Z) : M (SenderUsbDevice L) () :=
  match claimed with
  | [] => mret ()
  | i :: claimed' => call (libusb_release_interface i);; release_all claimed'
  end.

Definition Close : M (SenderUsbDevice L) () :=
  d ← get;
  release_all (claimed_interfaces_ d);;
  modify (λ d, d {{ claimed_interfaces_ := [] }});;
  d ← get;
  if handle_ d then modify (λ d, d {{ usb := libusb_close (usb d); handle_ := false }})
  else mret ().

Definition ClaimInterface (interface_number : Z) : M (SenderUsbDevice L) bool :=
  d ← get;
  if negb (handle_ d) then mret false
  else
    ret ← call (libusb_claim_interface interface_number);
    if negb (ret =? 0) then mret false
    else
      modify (λ d, d {{ claimed_interfaces_ := claimed_interfaces_ d ++ [interface_number] }});;
      mret true.

(** [erase] at the position [std::find] returns. *)
Fixpoint erase_first (x : Z) (l : list Z) : list Z :=
  match l with [] => [] | y :: l' => if x =? y then l' else y :: erase_first x l' end.

Definition ReleaseInterface (interface_number : Z) : M (SenderUsbDevice L) bool :=
  d ← get;
  if negb (handle_ d) then mret true
  else
    ret ← call (libusb_release_interface interface_number);
    if negb (ret =? 0) then mret false
    else
      modify (λ d, d {{ claimed_interfaces_ :=
        erase_first interface_number (claimed_interfaces_ d) }});;
      mret true.

(** The transfers: success, the buffer afterwards, the actual length. *)
Definition ControlTransfer (request_type request value index : Z) (data : list Z)
    : M (SenderUsbDevice L) (bool * list Z * Z) := λ d,
  if negb (handle_ d) then Ok ((false, data, 0), d)
  else
    let '(ret, data', l) := libusb_control_transfer request_type request value index data (usb d) in
    Ok ((negb (ret <? 0), data', ret), d {{ usb := l }}).

Definition BulkTransfer (endpoint : Z) (data : list Z)
    : M (SenderUsbDevice L) (bool * list Z * Z) := λ d,
  if negb (handle_ d) then Ok ((false, data, 0), d)
  else
    let '(ret, data', n, l) := libusb_bulk_transfer endpoint data (usb d) in
    Ok ((ret =? 0, data', n), d {{ usb := l }}).

Definition InterruptTransfer (endpoint : Z) (data : list Z)
    : M (SenderUsbDevice L) (bool * list Z * Z) := λ d,
  if negb (handle_ d) then Ok ((false, data, 0), d)
  else
    let '(ret, data', n, l) := libusb_interrupt_transfer endpoint data (usb d) in
    Ok ((ret =? 0, data', n), d {{ usb := l }}).

Definition SubmitTransfer : M (SenderUsbDevice L) bool :=
  d ← get;
  if negb (handle_ d) then mret false
  else ret ← call libusb_submit_transfer; mret (ret =? 0).

Definition GetDeviceDescriptor (d : SenderUsbDevice L) : option UsbDeviceDescriptor :=
  dev ← device_ d; bytes ← lu_descriptor dev; Some (struct_load bytes).

Definition GetConfigDescriptor (d : SenderUsbDevice L) : res (option (list Z)) :=
  match device_ d ≫= lu_config with
  | None => Ok None
  | Some (object, wTotalLength) =>
    bytes ← mem_read object 0 (Z.to_nat wTotalLength); Ok (Some bytes)
  end.

Definition GetStringDescriptor (desc_index : Z) : M (SenderUsbDevice L) (option (list Z)) := λ d,
  if negb (handle_ d) then Ok (None, d)
  else
    let '(ret, buffer, l) := libusb_get_string_descriptor_ascii desc_index 256 (usb d) in
    Ok (if ret <? 0 then None else Some (take (Z.to_nat ret) buffer), d {{ usb := l }}).
End UsbDevice.

(** ** UsbDeviceManager *)

(** What the manager keeps; [notified] are the calls of the device callback
    (the device's information, or null, and the flag). *)
Record UsbDeviceManager := {
  context_ : bool;
  monitoring_ : bool;
  hotplug_thread_ : bool;     (* joinable *)
  hotplug_handle_ : Z;
  device_callback_ : bool;
  notified : list (option UsbDevice * bool);
}.

Definition UsbDeviceManager_init : UsbDeviceManager := {|
  context_ := false; monitoring_ := false; hotplug_thread_ := false; hotplug_handle_ := 0;
  device_callback_ := false; notified := [] |}.

Section Manager.
Context {h : Host}.

(** [libusb_init]'s return code. *)
Definition Initialize (ret : Z) : M UsbDeviceManager bool :=
  if ret =? 0 then modify (λ m, m {{ context_ := true }});; mret true else mret false.

(** [CreateDevice] on a device from libusb; [junk] is the indeterminate
    initial [device_info_]. *)
Definition CreateDevice (junk : UsbDevice) (dev : libusb_device) : res UsbDevice :=
  LoadDeviceInfo (Some dev) junk.

Fixpoint create_devices (junk : UsbDevice) (devs : list libusb_device) : res (list UsbDevice) :=
  match devs with
  | [] => Ok []
  | dev :: devs' =>
    info ← CreateDevice junk dev; infos ← create_devices junk devs'; Ok (info :: infos)
  end.

(** [list] is the device list libusb returns, or none on an error. *)
Definition EnumerateDevices (junk : UsbDevice) (list : option (list libusb_device))
    (m : UsbDeviceManager) : res (Datatypes.list UsbDevice) :=
  if negb (context_ m) then Ok []
  else match list with
       | None => Ok []
       | Some devs => create_devices junk devs
       end.

Definition IsMassStorageDevice (desc : UsbDeviceDescriptor) : bool :=
  dd_bDeviceClass desc =? UsbDeviceClass_val MASS_STORAGE.

Definition GetMassStorageDevices junk list m : res (Datatypes.list UsbDevice) :=
  all_devices ← EnumerateDevices junk list m;
  Ok (filter (λ info, dd_bDeviceClass (dev_descriptor info) = UsbDeviceClass_val MASS_STORAGE)
        all_devices).

Fixpoint find_if {A} (p : A → bool) (l : list A) : option A :=
  match l with [] => None | x :: l' => if p x then Some x else find_if p l' end.

Definition FindDevice (vendor_id product_id : Z) junk list m : res (option UsbDevice) :=
  devices ← EnumerateDevices junk list m;
  Ok (find_if (λ info, (dd_idVendor (dev_descriptor info) =? vendor_id)
                       && (dd_idProduct (dev_descriptor info) =? product_id)) devices).

Definition FindDeviceByPath (path : string) junk list m : res (option UsbDevice) :=
  devices ← EnumerateDevices junk list m;
  Ok (find_if (λ info, bool_decide (dev_path info = path)) devices).

(** [supported]: [libusb_has_capability]; [ret], [handle]: the results of
    registering the callback. *)
Definition StartHotplugMonitoring (supported : bool) (ret handle : Z) : M UsbDeviceManager () :=
  m ← get;
  if monitoring_ m || negb (context_ m) then mret ()
  else if negb supported then mret ()
  else
    modify (λ m, m {{ hotplug_handle_ := handle }});;
    if negb (ret =? 0) then mret ()
    else
      modify (λ m, m {{ monitoring_ := true }});;
      (if hotplug_thread_ m then fail StdTerminate
       else modify (λ m, m {{ hotplug_thread_ := true }})).

Definition StopHotplugMonitoring : M UsbDeviceManager () :=
  m ← get;
  if negb (monitoring_ m) then mret ()
  else
    modify (λ m, m {{ monitoring_ := false; hotplug_thread_ := false }});;
    m ← get;
    if negb (hotplug_handle_ m =? 0) && context_ m
    then modify (λ m, m {{ hotplug_handle_ := 0 }}) else mret ().

Definition Cleanup : M UsbDeviceManager () :=
  StopHotplugMonitoring;; modify (λ m, m {{ context_ := false }}).

(** The hotplug callback, on an arrival or a departure. *)
Definition HotplugCallback (junk : UsbDevice) (arrived : option libusb_device)
    : M UsbDeviceManager () :=
  match arrived with
  | Some dev =>
    info ← lift (CreateDevice junk dev);
    modify (λ m, if device_callback_ m
                 then m {{ notified := notified m ++ [(Some info, true)] }} else m)
  | None =>
    modify (λ m, if device_callback_ m
                 then m {{ notified := notified m ++ [(None, false)] }} else m)
  end.

(** A turn of the hotplug thread: the events libusb handles in it, and whether
    [StopHotplugMonitoring], on another thread, clears the flag meanwhile. *)
Record hotplug_turn := { hotplug_events : list (option libusb_device); stops : bool }.

Fixpoint handle_events (junk : UsbDevice) (l : list (option libusb_device)) : M UsbDeviceManager () :=
  match l with
  | [] => mret ()
  | e :: l' => HotplugCallback junk e;; handle_events junk l'
  end.

(** False when it still runs after the turns. *)
Fixpoint HotplugThread (junk : UsbDevice) (turns : list hotplug_turn) : M UsbDeviceManager bool :=
  m ← get;
  if negb (monitoring_ m) then mret true
  else
    match turns with
    | [] => mret false
    | t :: turns' =>
      handle_events junk (hotplug_events t);;
      (if stops t then modify (λ m, m {{ monitoring_ := false }}) else mret ());;
      HotplugThread junk turns'
    end.
End Manager.

(** ** Paths name devices *)

Lemma pad3_bytes :
  Forall (λ n, String.length (pad3 n) = 3%nat) (seqZ 0 256) ∧ NoDup (map pad3 (seqZ 0 256)).
Proof. split; apply (bool_decide_unpack _); vm_compute; reflexivity. Qed.

Lemma length_pad3 n : is_byte n → String.length (pad3 n) = 3%nat.
Proof.
  intros Hn. destruct pad3_bytes as [H _]. rewrite Forall_forall in H. apply H.
  apply elem_of_seqZ. unfold is_byte in Hn. lia.
Qed.

Lemma pad3_inj n m : is_byte n → is_byte m → pad3 n = pad3 m → n = m.
Proof.
  intros Hn Hm E. destruct pad3_bytes as [_ H].
  assert (∀ k, is_byte k → map pad3 (seqZ 0 256) !! Z.to_nat k = Some (pad3 k)) as Hk.
  { intros k Hk. unfold is_byte in Hk. rewrite list_lookup_fmap, lookup_seqZ_lt by lia.
    cbn. do 2 f_equal. lia. }
  assert (Z.to_nat n = Z.to_nat m) as Hi.
  { eapply (NoDup_lookup _ _ _ _ H (Hk n Hn)). rewrite E. by apply Hk. }
  unfold is_byte in *. lia.
Qed.

Lemma string_app_inj s1 s2 t1 t2 :
  String.length s1 = String.length s2 → s1 +:+ t1 = s2 +:+ t2 → s1 = s2 ∧ t1 = t2.
Proof.
  revert s2. induction s1 as [|c s1 IH]; intros [|c2 s2]; simpl; try done.
  intros [= Hl] [= -> H]. destruct (IH _ Hl H) as [-> ->]. done.
Qed.

Definition address_ok (d : libusb_device) : Prop := is_byte (lu_bus d) ∧ is_byte (lu_address d).

Lemma GetPath_inj d1 d2 :
  address_ok d1 → address_ok d2 → GetPath (Some d1) = GetPath (Some d2) →
  lu_bus d1 = lu_bus d2 ∧ lu_address d1 = lu_address d2.
Proof.
  intros [Hb1 Ha1] [Hb2 Ha2] E. unfold GetPath in E.
  apply string_app_inj in E as [_ E]; [|done].
  apply string_app_inj in E as [Hb E]; [|by rewrite !length_pad3].
  apply string_app_inj in E as [_ Ha]; [|done].
  split; by apply pad3_inj.
Qed.

Section FindByPath.
Context {h : Host}.

Lemma CreateDevice_path junk d info :
  CreateDevice junk d = Ok info → dev_path info = GetPath (Some d).
Proof.
  unfold CreateDevice, LoadDeviceInfo. destruct (lu_config d) as [[object total]|].
  - destruct (mem_read _ _ _) as [bytes|]; [|done]. cbn [mbind res_bind].
    intros [= <-]. by destruct (lu_descriptor d).
  - intros [= <-]. by destruct (lu_descriptor d).
Qed.

Lemma create_devices_lookup junk devs infos :
  create_devices junk devs = Ok infos →
  Forall2 (λ d info, CreateDevice junk d = Ok info) devs infos.
Proof.
  revert infos. induction devs as [|d devs IH]; intros infos; cbn [create_devices].
  { intros [= <-]. constructor. }
  destruct (CreateDevice junk d) as [info|] eqn:E; [|done]. cbn [mbind res_bind].
  destruct (create_devices junk devs) as [rest|]; [|done]. cbn [mbind res_bind].
  intros [= <-]. constructor; auto.
Qed.

(** Among devices with different bus and device numbers, looking a device
    up by the path [GetPath] gives it returns that very device's
    information. *)
Theorem find_device_by_path junk devs infos m i d :
  context_ m = true → create_devices junk devs = Ok infos → Forall address_ok devs →
  NoDup (map (λ d, (lu_bus d, lu_address d)) devs) → devs !! i = Some d →
  ∃ info, infos !! i = Some info ∧ dev_path info = GetPath (Some d) ∧
    FindDeviceByPath (GetPath (Some d)) junk (Some devs) m = Ok (Some info).
Proof.
  intros Hctx Hc Ha Hnd Hi. pose proof (create_devices_lookup _ _ _ Hc) as H2.
  destruct (Forall2_lookup_l _ _ _ _ _ H2 Hi) as (info & Hinfo & Hd).
  exists info. split; [done|]. split; [by eapply CreateDevice_path|].
  unfold FindDeviceByPath, EnumerateDevices. rewrite Hctx, Hc. cbn [negb mbind res_bind].
  f_equal. clear Hc Hctx m. revert i Hi Hinfo.
  induction H2 as [|d' info' devs infos Hd' H2 IH]; intros [|i] Hi Hinfo; try done.
  - injection Hi as <-. injection Hinfo as <-. cbn [find_if].
    rewrite (CreateDevice_path _ _ _ Hd). by rewrite bool_decide_eq_true_2.
  - apply Forall_cons in Ha as [Ha1 Ha]. cbn [map] in Hnd. apply NoDup_cons in Hnd as [Hn Hnd].
    cbn in Hi, Hinfo. cbn [find_if]. rewrite (CreateDevice_path _ _ _ Hd').
    rewrite bool_decide_eq_false_2; [by eapply IH|].
    intros E. apply Hn. apply list_elem_of_fmap. exists d. split.
    + rewrite Forall_forall in Ha. apply list_elem_of_lookup_2 in Hi.
      destruct (GetPath_inj _ _ Ha1 (Ha _ Hi) E). congruence.
    + by eapply list_elem_of_lookup_2.
Qed.
End FindByPath.

(** ** The hotplug thread *)

Section Hotplug.
Context {h : Host}.
Variable junk : UsbDevice.

(** The call of the callback an event leads to. *)
Definition notifies (e : option libusb_device) (n : option UsbDevice * bool) : Prop :=
  match e with
  | Some dev => ∃ info, CreateDevice junk dev = Ok info ∧ n = (Some info, true)
  | None => n = (None, false)
  end.

Lemma handle_events_notify l m m' :
  device_callback_ m = true → handle_events junk l m = Ok ((), m') →
  ∃ ns, Forall2 notifies l ns ∧ m' = m {{ notified := notified m ++ ns }}.
Proof.
  revert m. induction l as [|e l IH]; intros m Hcb; cbn [handle_events].
  { intros [= <-]. exists []. split; [constructor|]. rewrite app_nil_r. by destruct m. }
  assert (∀ n m1, m1 = m {{ notified := notified m ++ [n] }} → notifies e n →
    handle_events junk l m1 = Ok ((), m') →
    ∃ ns, Forall2 notifies (e :: l) ns ∧ m' = m {{ notified := notified m ++ ns }}) as Hnext.
  { intros n m1 -> Hn Hrun. apply IH in Hrun as (ns & Hns & ->); [|done].
    exists (n :: ns). split; [by constructor|]. cbn. by rewrite <- app_assoc. }
  destruct e as [dev|]; cbn [HotplugCallback]; unfold lift, modify, mbind, M_bind; rewrite ?Hcb.
  - destruct (CreateDevice junk dev) as [info|] eqn:E; [|done]. rewrite Hcb.
    intros Hrun. eapply (Hnext (Some info, true)); [done|by exists info|exact Hrun].
  - intros Hrun. by eapply (Hnext (None, false)).
Qed.

(** The thread handles the events of every turn up to and including the one
    during which monitoring is stopped, and calls the device callback once for
    each, in order; then it ends, whatever would come later. *)
Theorem hotplug_thread_notifies before t after m b m' :
  monitoring_ m = true → device_callback_ m = true →
  Forall (λ t, stops t = false) before → stops t = true →
  HotplugThread junk (before ++ t :: after) m = Ok (b, m') →
  b = true ∧ monitoring_ m' = false ∧
  ∃ ns, Forall2 notifies (concat (map hotplug_events (before ++ [t]))) ns ∧
    notified m' = notified m ++ ns.
Proof.
  intros Hm Hcb Hbefore Ht. revert m Hm Hcb. induction Hbefore as [|t0 before Ht0 _ IH]; intros m Hm Hcb;
    cbn [HotplugThread app map concat]; unfold get, mbind, M_bind; rewrite Hm; cbn [negb].
  - destruct (handle_events _ _ m) as [[[] m1]|] eqn:E; [|done].
    apply handle_events_notify in E as (ns & Hns & ->); [|done]. rewrite Ht. unfold modify.
    destruct after; cbn; intros [= <- <-]; (split; [done|]; split; [done|]); exists ns; by rewrite app_nil_r.
  - destruct (handle_events _ _ m) as [[[] m1]|] eqn:E; [|done].
    apply handle_events_notify in E as (ns & Hns & ->); [|done]. rewrite Ht0. intros Hrun.
    apply IH in Hrun as (-> & Hm' & ns' & Hns' & Hn'); [|done..].
    split; [done|]. split; [done|]. exists (ns ++ ns'). split; [by apply Forall2_app|].
    rewrite Hn'. cbn. by rewrite app_assoc.
Qed.
End Hotplug.

(** ** Witness *)

Definition sample_config_object : list Z :=
  [9; 2; 32; 0; 1; 1; 0; 0x80; 50] ++ replicate 31 0.

Definition sample_descriptor : list Z :=
  [18; 1; 0; 2; 8; 6; 0x50; 64; 0x34; 0x12; 0x78; 0x56; 0; 1; 1; 2; 3; 1].

Definition sample_usb_device (addr : Z) : libusb_device := {|
  lu_bus := 1; lu_address := addr; lu_speed := 3; lu_descriptor := Some sample_descriptor;
  lu_config := Some (sample_config_object, 32) |}.

Definition empty_info : UsbDevice := {|
  dev_path := ""; dev_bus_id := ""; dev_bus_number := 0; dev_device_number := 0;
  dev_speed := UNKNOWN;
  dev_descriptor := struct_load (h := LittleEndian) (replicate 18 0);
  dev_config_descriptor := []; dev_is_connected := false |}.

Definition sample_manager : UsbDeviceManager := UsbDeviceManager_init {{ context_ := true }}.

Lemma find_device_by_path_witness :
  ∃ info, dev_path info = "/dev/bus/usb/001/012"%string ∧
    FindDeviceByPath (h := LittleEndian) "/dev/bus/usb/001/012" empty_info
      (Some [sample_usb_device 3; sample_usb_device 12]) sample_manager = Ok (Some info).
Proof.
  destruct (find_device_by_path (h := LittleEndian) empty_info
    [sample_usb_device 3; sample_usb_device 12]
    (match create_devices (h := LittleEndian) empty_info [sample_usb_device 3; sample_usb_device 12]
     with Ok l => l | Fault _ => [] end)
    sample_manager 1 (sample_usb_device 12)) as (info & _ & H1 & H2).
  - reflexivity.
  - vm_compute. reflexivity.
  - repeat (apply List.Forall_cons; [split; vm_compute; split; congruence|]). apply List.Forall_nil.
  - apply (bool_decide_unpack _). vm_compute. reflexivity.
  - reflexivity.
  - exists info. split; [exact H1|exact H2].
Defined.

Lemma hotplug_thread_notifies_witness :
  ∃ m', HotplugThread (h := LittleEndian) empty_info
    [{| hotplug_events := [Some (sample_usb_device 3)]; stops := false |};
     {| hotplug_events := [None]; stops := true |};
     {| hotplug_events := [None]; stops := false |}]
    (sample_manager {{ monitoring_ := true; device_callback_ := true }}) = Ok (true, m') ∧
    length (notified m') = 2%nat.
Proof.
  eexists. assert (∀ P Q : Prop, P → (P → Q) → P ∧ Q) as Hand by (intros P Q HP H; exact (conj HP (H HP))).
  eapply Hand; [vm_compute; reflexivity|]. intros Hrun.
  pose proof (hotplug_thread_notifies (h := LittleEndian) empty_info
    [{| hotplug_events := [Some (sample_usb_device 3)]; stops := false |}]
    {| hotplug_events := [None]; stops := true |} [{| hotplug_events := [None]; stops := false |}]
    (sample_manager {{ monitoring_ := true; device_callback_ := true }}) true) as Hthm.
  edestruct Hthm as (_ & _ & ns & H2 & H3); [reflexivity..| |reflexivity|exact Hrun|].
  { apply List.Forall_cons; [reflexivity|apply List.Forall_nil]. }
  rewrite H3. apply Forall2_length in H2. cbn. rewrite <- H2. reflexivity.
Defined.
