(* ===== verification/MassStorage.v ===== *)
(** * MassStorage: the bulk-only mass-storage driver

    [sender/usb/mass_storage_device.cpp], class [MassStorageDevice].  The
    driver is written against the interface [Transport], the operations it
    calls on its device; [SenderUsbDevice] implements the interface. *)

From S2P Require Import Prelude Memory UsbTypes UsbDeviceManager.

(** ** The device as the driver uses it *)

Class Transport (D : Type) := {
  transport_info : D → UsbDevice;
  transport_open : M D bool;
  transport_close : M D ();
  transport_claim : Z → M D bool;
  transport_release : Z → M D bool;
  transport_control : Z → Z → Z → Z → list Z → M D (bool * list Z * Z);
  transport_bulk : Z → list Z → M D (bool * list Z * Z);
}.

(** What the driver relies on: the calls return, and a bulk transfer stays
    inside its buffer. *)
Class TransportOk (D : Type) `{Transport D} := {
  transport_open_total d : ∃ b d', transport_open d = Ok (b, d') ∧ transport_info d' = transport_info d;
  transport_claim_total i d :
    ∃ b d', transport_claim i d = Ok (b, d') ∧ transport_info d' = transport_info d;
  transport_control_total rt rq v i data d :
    ∃ r d', transport_control rt rq v i data d = Ok (r, d') ∧ transport_info d' = transport_info d;
  transport_bulk_total ep data d :
    ∃ ok data' n d', transport_bulk ep data d = Ok ((ok, data', n), d') ∧
      length data' = length data ∧ (bytes_ok data → bytes_ok data') ∧
      transport_info d' = transport_info d;
}.

#[export] Instance usb_device_transport {L} `{Libusb L} : Transport (SenderUsbDevice L) := {
  transport_info := device_info_;
  transport_open := Open;
  transport_close := Close;
  transport_claim := ClaimInterface;
  transport_release := ReleaseInterface;
  transport_control := ControlTransfer;
  transport_bulk := BulkTransfer;
}.

#[export] Instance usb_device_transport_ok {L} `{LibusbOk L} : TransportOk (SenderUsbDevice L).
Proof.
  split; cbn [transport_info transport_open transport_claim transport_control transport_bulk
    usb_device_transport].
  - intros [dev hdl info cl l]. unfold Open, call, get, modify, mbind, M_bind, mret, M_ret. cbn.
    destruct hdl; [by eexists _, _|]. cbn. destruct (libusb_open _) as [ret l'].
    cbn. destruct (ret =? 0); by eexists _, _.
  - intros i [dev hdl info cl l]. unfold ClaimInterface, call, get, modify, mbind, M_bind, mret, M_ret.
    cbn. destruct hdl; [|by eexists _, _]. cbn. destruct (libusb_claim_interface i _) as [ret l'].
    cbn. destruct (ret =? 0); by eexists _, _.
  - intros rt rq v i data [dev hdl info cl l]. unfold ControlTransfer. cbn.
    destruct hdl; [|by eexists _, _].
    cbn. destruct (libusb_control_transfer rt rq v i data _) as [[ret data'] l']. by eexists _, _.
  - intros ep data [dev hdl info cl l]. unfold BulkTransfer. cbn.
    destruct hdl; [|by eexists _, _, _, _].
    cbn. destruct (libusb_bulk_transfer ep data _) as [[[ret data'] n] l'] eqn:E.
    destruct (bulk_transfer_length _ _ _ _ _ _ _ E). by eexists _, _, _, _.
Qed.

(** ** Constants and structs *)

Definition CBW_SIGNATURE : Z := 0x43425355.
Definition CSW_SIGNATURE : Z := 0x53425355.
Definition CBW_FLAG_DATA_IN : Z := 0x80.

Inductive ScsiCommand :=
  | TEST_UNIT_READY | REQUEST_SENSE | INQUIRY | READ_CAPACITY_10 | READ_10 | WRITE_10
  | READ_CAPACITY_16 | READ_16 | WRITE_16.
Definition ScsiCommand_val (c : ScsiCommand) : Z :=
  match c with
  | TEST_UNIT_READY => 0x00 | REQUEST_SENSE => 0x03 | INQUIRY => 0x12
  | READ_CAPACITY_10 => 0x25 | READ_10 => 0x28 | WRITE_10 => 0x2A
  | READ_CAPACITY_16 => 0x9E | READ_16 => 0x88 | WRITE_16 => 0x8A
  end.

Inductive MassStorageRequest := BULK_ONLY_MASS_STORAGE_RESET | GET_MAX_LUN.
Definition MassStorageRequest_val (r : MassStorageRequest) : Z :=
  match r with BULK_ONLY_MASS_STORAGE_RESET => 0xFF | GET_MAX_LUN => 0xFE end.

(** [CBWCB] is the array of 16 command bytes. *)
Record CommandBlockWrapper := {
  dCBWSignature : Z;
  dCBWTag : Z;
  dCBWDataTransferLength : Z;
  bmCBWFlags : Z;
  bCBWLUN : Z;
  bCBWCBLength : Z;
  CBWCB : list Z;
}.

Record CommandStatusWrapper := {
  dCSWSignature : Z;
  dCSWTag : Z;
  dCSWDataResidue : Z;
  bCSWStatus : Z;
}.

#[export] Instance CommandStatusWrapper_packed : Packed CommandStatusWrapper := {
  layout := [4; 4; 4; 1]%nat;
  fields c := [dCSWSignature c; dCSWTag c; dCSWDataResidue c; bCSWStatus c];
  of_fields l :=
    {| dCSWSignature := nth 0 l 0; dCSWTag := nth 1 l 0; dCSWDataResidue := nth 2 l 0;
       bCSWStatus := nth 3 l 0 |};
}.

#[export] Instance CommandStatusWrapper_ok : PackedOk CommandStatusWrapper.
Proof. packed_plain. Defined.

#[export] Instance CommandBlockWrapper_packed : Packed CommandBlockWrapper := {
  layout := [4; 4; 4; 1; 1; 1]%nat ++ replicate 16 1%nat;
  fields c := [dCBWSignature c; dCBWTag c; dCBWDataTransferLength c; bmCBWFlags c; bCBWLUN c;
               bCBWCBLength c] ++ CBWCB c;
  of_fields l :=
    {| dCBWSignature := nth 0 l 0; dCBWTag := nth 1 l 0; dCBWDataTransferLength := nth 2 l 0;
       bmCBWFlags := nth 3 l 0; bCBWLUN := nth 4 l 0; bCBWCBLength := nth 5 l 0;
       CBWCB := drop 6 l |};
}.

(** ** State *)

Record EndpointInfo := { address : Z; max_packet_size : Z; is_in : bool }.
Definition EndpointInfo_zero : EndpointInfo :=
  {| address := 0; max_packet_size := 0; is_in := false |}.

Record MassStorageDevice (D : Type) := {
  device : D;
  data_callback_ : bool;
  initialized_ : bool;
  capturing_ : bool;
  interface_number_ : Z;
  bulk_in_endpoint_ : EndpointInfo;
  bulk_out_endpoint_ : EndpointInfo;
  next_tag_ : Z;
  total_blocks_ : Z;
  block_size_ : Z;
}.
Arguments device {D} _.
Arguments data_callback_ {D} _.
Arguments initialized_ {D} _.
Arguments capturing_ {D} _.
Arguments interface_number_ {D} _.
Arguments bulk_in_endpoint_ {D} _.
Arguments bulk_out_endpoint_ {D} _.
Arguments next_tag_ {D} _.
Arguments total_blocks_ {D} _.
Arguments block_size_ {D} _.

Definition MassStorageDevice_new {D} (d : D) : MassStorageDevice D := {|
  device := d; data_callback_ := false; initialized_ := false; capturing_ := false;
  interface_number_ := -1; bulk_in_endpoint_ := EndpointInfo_zero;
  bulk_out_endpoint_ := EndpointInfo_zero; next_tag_ := 1; total_blocks_ := 0; block_size_ := 512;
|}.

Section Driver.
Context {h : Host} {D : Type} `{Transport D}.

(** A call on the device. *)
Definition on_device {A} (m : M D A) : M (MassStorageDevice D) A := λ s,
  match m (device s) with
  | Ok (a, d) => Ok (a, s {{ device := d }})
  | Fault e => Fault e
  end.

(** [next_tag_++]. *)
Definition take_tag : M (MassStorageDevice D) Z := λ s,
  Ok (next_tag_ s, s {{ next_tag_ := u32 (next_tag_ s + 1) }}).

(** ** Endpoints *)

(** The body of the loop of [FindEndpoints] for the descriptor at [offset],
    of [desc_length] bytes and type [desc_type]. *)
Definition scan_descriptor (config : list Z) (offset : nat) (desc_length desc_type : Z)
    : M (MassStorageDevice D) () :=
  s ← get;
  if desc_type =? UsbDescriptorType_val INTERFACE then
    if desc_length >=? 9 then
      bytes ← lift (mem_read config offset (sizeof UsbInterfaceDescriptor));
      let iface_desc : UsbInterfaceDescriptor := struct_load bytes in
      if id_bInterfaceClass iface_desc =? UsbDeviceClass_val MASS_STORAGE
      then modify (λ s, s {{ interface_number_ := id_bInterfaceNumber iface_desc }})
      else mret ()
    else mret ()
  else if desc_type =? UsbDescriptorType_val ENDPOINT then
    if (desc_length >=? 7) && (interface_number_ s >=? 0) then
      bytes ← lift (mem_read config offset (sizeof UsbEndpointDescriptor));
      let ep_desc : UsbEndpointDescriptor := struct_load bytes in
      if Z.land (ed_bmAttributes ep_desc) 0x03 =? UsbTransferType_val BULK then
        let ep_info := {|
          address := ed_bEndpointAddress ep_desc;
          max_packet_size := ed_wMaxPacketSize ep_desc;
          is_in := negb (Z.land (ed_bEndpointAddress ep_desc) 0x80 =? 0) |} in
        if is_in ep_info then modify (λ s, s {{ bulk_in_endpoint_ := ep_info }})
        else modify (λ s, s {{ bulk_out_endpoint_ := ep_info }})
      else mret ()
    else mret ()
  else mret ().

(** The loop; a turn advances by at least one byte, so the bytes left are
    fuel enough. *)
Fixpoint find_loop (fuel : nat) (config : list Z) (offset : nat) : M (MassStorageDevice D) () :=
  if decide (offset < length config)%nat then
    match fuel with
    | O => fail OutOfFuel
    | S fuel' =>
      if decide (length config < offset + 2)%nat then mret ()
      else
        desc_length ← lift (vec_at config offset);
        desc_type ← lift (vec_at config (offset + 1));
        if (desc_length =? 0) || bool_decide (length config < offset + Z.to_nat desc_length)%nat
        then mret ()
        else
          scan_descriptor config offset desc_length desc_type;;
          find_loop fuel' config (offset + Z.to_nat desc_length)
    end
  else mret ().

Definition FindEndpoints : M (MassStorageDevice D) bool :=
  s ← get;
  let config := dev_config_descriptor (transport_info (device s)) in
  match config with
  | [] => mret false
  | _ =>
    find_loop (length config) config 0;;
    s ← get;
    mret ((interface_number_ s >=? 0) && negb (address (bulk_in_endpoint_ s) =? 0)
          && negb (address (bulk_out_endpoint_ s) =? 0))
  end.

(** ** Bulk-only transport *)

(** [interface_number_] is passed as a [uint16_t]. *)
Definition ResetDevice : M (MassStorageDevice D) bool :=
  s ← get;
  r ← on_device (transport_control 0x21 (MassStorageRequest_val BULK_ONLY_MASS_STORAGE_RESET)
                   0 (u16 (interface_number_ s)) []);
  mret r.1.1.

(** Success and [max_lun]. *)
Definition GetMaxLun (max_lun : Z) : M (MassStorageDevice D) (bool * Z) :=
  s ← get;
  r ← on_device (transport_control 0xA1 (MassStorageRequest_val GET_MAX_LUN)
                   0 (u16 (interface_number_ s)) [max_lun]);
  mret (r.1.1 && (r.2 =? 1), nth 0 r.1.2 max_lun).

Definition SendCBW (cbw : CommandBlockWrapper) : M (MassStorageDevice D) bool :=
  s ← get;
  r ← on_device (transport_bulk (address (bulk_out_endpoint_ s)) (struct_bytes cbw));
  mret (r.1.1 && (r.2 =? 31)).

(** [buffer] is the memory of the caller's [csw]. *)
Definition ReceiveCSW (buffer : list Z) (expected_tag : Z)
    : M (MassStorageDevice D) (bool * CommandStatusWrapper) :=
  s ← get;
  r ← on_device (transport_bulk (address (bulk_in_endpoint_ s)) buffer);
  let csw := struct_load r.1.2 in
  mret (if negb r.1.1 || negb (r.2 =? 13) then false
        else (dCSWSignature csw =? CSW_SIGNATURE) && (dCSWTag csw =? expected_tag), csw).

Definition TransferData (is_read : bool) (data : list Z) (length : Z)
    : M (MassStorageDevice D) (bool * list Z) :=
  if length =? 0 then mret (true, data)
  else
    let data := vec_resize (Z.to_nat length) data in
    s ← get;
    let endpoint := if is_read then address (bulk_in_endpoint_ s)
                    else address (bulk_out_endpoint_ s) in
    r ← on_device (transport_bulk endpoint data);
    mret (r.1.1 && (u32 r.2 =? length), r.1.2).

(** ** Capacity *)

Definition capacity_cbw (tag length cdb_length : Z) (cdb : list Z) : CommandBlockWrapper := {|
  dCBWSignature := CBW_SIGNATURE; dCBWTag := tag; dCBWDataTransferLength := length;
  bmCBWFlags := CBW_FLAG_DATA_IN; bCBWLUN := 0; bCBWCBLength := cdb_length; CBWCB := cdb |}.
Definition read_capacity_16 (tag : Z) : CommandBlockWrapper :=
  capacity_cbw tag 32 16 ([ScsiCommand_val READ_CAPACITY_16; 0x10] ++ replicate 14 0).
Definition read_capacity_10 (tag : Z) : CommandBlockWrapper :=
  capacity_cbw tag 8 10 ([ScsiCommand_val READ_CAPACITY_10] ++ replicate 15 0).

(** [(b0 << 24) | (b1 << 16) | (b2 << 8) | b3], an [int], as [uint32_t]. *)
Definition be32_at (data : list Z) (i : nat) : Z :=
  u32 (Z.lor (Z.lor (Z.lor (Z.shiftl (nth i data 0) 24) (Z.shiftl (nth (i + 1) data 0) 16))
                    (Z.shiftl (nth (i + 2) data 0) 8)) (nth (i + 3) data 0)).

(** The loop that shifts eight bytes into [total_blocks]. *)
Definition be64_of (data : list Z) : Z :=
  foldl (λ acc b, Z.lor (u64 (Z.shiftl acc 8)) b) 0 (take 8 data).

(** The end of [GetCapacity]: the status of the last command; [csw_memory] is
    the indeterminate memory of the local [csw]. *)
Definition capacity_status (csw_memory : list Z) (tag total_blocks block_size : Z)
    : M (MassStorageDevice D) (bool * Z * Z) :=
  r ← ReceiveCSW csw_memory tag;
  mret (if negb r.1 then (false, total_blocks, block_size)
        else (bCSWStatus r.2 =? 0, total_blocks, block_size)).

(** Success, and the reference parameters [total_blocks] and [block_size]
    afterwards. *)
Definition GetCapacity (csw_memory : list Z) (total_blocks block_size : Z)
    : M (MassStorageDevice D) (bool * Z * Z) :=
  tag ← take_tag;
  sent ← SendCBW (read_capacity_16 tag);
  if negb sent then mret (false, total_blocks, block_size)
  else
    r ← TransferData true [] 32;
    if negb r.1 then
      tag ← take_tag;
      sent ← SendCBW (read_capacity_10 tag);
      if negb sent then mret (false, total_blocks, block_size)
      else
        r ← TransferData true r.2 8;
        if negb r.1 then mret (false, total_blocks, block_size)
        else if decide (8 ≤ length r.2)%nat
        then capacity_status csw_memory tag (u64 (be32_at r.2 0 + 1)) (be32_at r.2 4)
        else capacity_status csw_memory tag total_blocks block_size
    else if decide (32 ≤ length r.2)%nat
    then capacity_status csw_memory tag (u64 (be64_of r.2 + 1)) (be32_at r.2 8)
    else capacity_status csw_memory tag total_blocks block_size.

(** ** Lifecycle *)

Definition Initialize (csw_memory : list Z) (capacity_memory : Z) : M (MassStorageDevice D) bool :=
  s ← get;
  if initialized_ s then mret true
  else
    opened ← on_device transport_open;
    if negb opened then mret false
    else
      found ← FindEndpoints;
      if negb found then mret false
      else
        s ← get;
        claimed ← on_device (transport_claim (interface_number_ s));
        if negb claimed then mret false
        else
          ResetDevice;;
          s ← get;
          r ← GetCapacity csw_memory capacity_memory (block_size_ s);
          modify (λ s, s {{ block_size_ := r.2 }});;
          (if r.1.1 : bool then modify (λ s, s {{ total_blocks_ := r.1.2 }}) else mret ());;
          modify (λ s, s {{ initialized_ := true }});;
          mret true.

Definition StartCapture : M (MassStorageDevice D) bool :=
  s ← get;
  if negb (initialized_ s) || capturing_ s then mret false
  else modify (λ s, s {{ capturing_ := true }});; mret true.

Definition StopCapture : M (MassStorageDevice D) () :=
  modify (λ s, s {{ capturing_ := false }}).

Definition Cleanup : M (MassStorageDevice D) () :=
  StopCapture;;
  s ← get;
  (if initialized_ s then
     on_device (transport_release (interface_number_ s));; on_device transport_close
   else mret ());;
  modify (λ s, s {{ initialized_ := false }}).

(** ** URBs; [now] is the clock and [junk] the indeterminate setup packet. *)

Definition CreateControlUrb (now request_type request value index : Z) (data : list Z)
    : M (MassStorageDevice D) UsbUrb :=
  tag ← take_tag;
  mret {|
    urb_id := tag; urb_type := CONTROL;
    urb_direction := if Z.land request_type 0x80 =? 0 then OUT else IN;
    urb_endpoint := 0; urb_flags := 0; urb_data := data;
    urb_setup := {| bmRequestType := request_type; bRequest := request; wValue := value;
                    wIndex := index; wLength := u16 (Z.of_nat (length data)) |};
    urb_status := 0; urb_actual_length := 0; urb_timestamp := now |}.

Definition CreateBulkUrb (now : Z) (junk : UsbSetupPacket) (endpoint : Z) (data : list Z)
    (direction : UsbDirection) : M (MassStorageDevice D) UsbUrb :=
  tag ← take_tag;
  mret {|
    urb_id := tag; urb_type := BULK; urb_direction := direction;
    urb_endpoint := endpoint; urb_flags := 0; urb_data := data; urb_setup := junk;
    urb_status := 0; urb_actual_length := u32 (Z.of_nat (length data)); urb_timestamp := now |}.
End Driver.

(** ** The endpoint search *)

Section Endpoints.
Context {h : Host} {D : Type} `{Transport D}.
Implicit Types (s : MassStorageDevice D).

(** What the search keeps: the endpoints have their directions, nothing but
    the three results changes. *)
Record search_ok s0 s : Prop := {
  search_in : bulk_in_endpoint_ s = bulk_in_endpoint_ s0 ∨
    Z.land (address (bulk_in_endpoint_ s)) 0x80 ≠ 0;
  search_out : bulk_out_endpoint_ s = bulk_out_endpoint_ s0 ∨
    Z.land (address (bulk_out_endpoint_ s)) 0x80 = 0;
  search_device : device s = device s0;
  search_tag : next_tag_ s = next_tag_ s0;
  search_flags : initialized_ s = initialized_ s0 ∧ capturing_ s = capturing_ s0;
}.

Lemma search_ok_refl s : search_ok s s.
Proof. split; auto. Qed.

Lemma scan_descriptor_safe config offset len type s0 s :
  (offset + Z.to_nat len ≤ length config)%nat → search_ok s0 s →
  wp (scan_descriptor config offset len type) safe (λ _ s', search_ok s0 s') s.
Proof.
  intros Hlen Hs. unfold scan_descriptor. apply wp_bind, wp_get. cbv beta.
  assert (∀ n, Z.of_nat n ≤ len → mem_read config offset n = Ok (take n (drop offset config)))
    as Hread.
  { intros n Hn. unfold mem_read. rewrite decide_True by lia. done. }
  destruct (type =? _).
  - destruct (Z.geb_spec len 9); [|done]. apply wp_bind. eapply wp_lift_Ok.
    { apply Hread. by vm_compute. }
    cbv beta zeta. destruct (_ =? _); [|done]. destruct Hs. by split.
  - destruct (type =? _); [|done].
    destruct (Z.geb_spec len 7); [|done]. destruct (_ >=? 0); [|done]. cbn [andb].
    apply wp_bind. eapply wp_lift_Ok.
    { apply Hread. by vm_compute. }
    cbv beta zeta. destruct (_ =? _); [|done]. cbn [is_in].
    destruct (Z.eqb_spec (Z.land (ed_bEndpointAddress (struct_load
      (take (sizeof UsbEndpointDescriptor) (drop offset config)))) 0x80) 0) as [E|E];
      cbn [negb]; destruct Hs; split; auto.
Qed.

Lemma find_loop_safe fuel config offset s0 s :
  (length config ≤ offset + fuel)%nat → bytes_ok config → search_ok s0 s →
  wp (find_loop fuel config offset) safe (λ _ s', search_ok s0 s') s.
Proof.
  revert offset s. induction fuel as [|fuel IH]; intros offset s Hf Hb Hs; cbn [find_loop].
  { by rewrite decide_False by lia. }
  case_decide; [|done]. case_decide; [done|].
  destruct (lookup_lt_is_Some_2 config offset) as [l Hl]; [lia|].
  destruct (lookup_lt_is_Some_2 config (offset + 1)%nat) as [t Ht]; [lia|].
  apply wp_bind, (wp_lift_Ok _ l); [unfold vec_at; by rewrite Hl|].
  apply wp_bind, (wp_lift_Ok _ t); [unfold vec_at; by rewrite Ht|]. cbv beta.
  pose proof (Forall_lookup_1 _ _ _ _ Hb Hl) as [Hl0 _].
  destruct (Z.eqb_spec l 0); [done|]. case_bool_decide; [done|]. cbn [orb].
  apply wp_bind. eapply wp_mono; [apply scan_descriptor_safe; [lia|exact Hs]|done|].
  intros [] s' Hs'. apply IH; [lia|done|done].
Qed.

(** *** On a well-formed list of descriptors *)

(** A descriptor starts with its length and its type. *)
Definition descriptor_ok (d : list Z) : Prop :=
  (2 ≤ length d)%nat ∧ nth 0 d 0 = Z.of_nat (length d).

Definition desc_type (d : list Z) : Z := nth 1 d 0.

(** The number of a mass-storage interface descriptor. *)
Definition msc_interface (d : list Z) : option Z :=
  if (desc_type d =? 4) && (9 <=? nth 0 d 0) && (nth 5 d 0 =? 8)
  then Some (nth 2 d 0) else None.

(** The endpoint of a bulk endpoint descriptor. *)
Definition bulk_endpoint (d : list Z) : option EndpointInfo :=
  if (desc_type d =? 5) && (7 <=? nth 0 d 0) && (Z.land (nth 3 d 0) 3 =? 2)
  then Some {| address := nth 2 d 0; max_packet_size := mem_load [nth 4 d 0; nth 5 d 0];
               is_in := negb (Z.land (nth 2 d 0) 0x80 =? 0) |}
  else None.

(** One descriptor's effect on the search. *)
Definition scan_step s (d : list Z) : MassStorageDevice D :=
  match msc_interface d with
  | Some n => s {{ interface_number_ := n }}
  | None =>
    match bulk_endpoint d with
    | Some e =>
      if interface_number_ s >=? 0 then
        if is_in e then s {{ bulk_in_endpoint_ := e }} else s {{ bulk_out_endpoint_ := e }}
      else s
    | None => s
    end
  end.

Lemma mem_load_byte b : mem_load [b] = b.
Proof. unfold mem_load, be_value. destruct h; cbn; lia. Qed.

Lemma interface_load (d : list Z) :
  (9 ≤ length d)%nat →
  let i : UsbInterfaceDescriptor := struct_load (take 9 d) in
  id_bInterfaceNumber i = nth 2 d 0 ∧ id_bInterfaceClass i = nth 5 d 0.
Proof.
  intros Hd. do 9 (destruct d as [|? d]; [simpl in Hd; lia|]).
  cbn. by rewrite !mem_load_byte.
Qed.

Lemma endpoint_load (d : list Z) :
  (7 ≤ length d)%nat →
  let e : UsbEndpointDescriptor := struct_load (take 7 d) in
  ed_bEndpointAddress e = nth 2 d 0 ∧ ed_bmAttributes e = nth 3 d 0 ∧
  ed_wMaxPacketSize e = mem_load [nth 4 d 0; nth 5 d 0].
Proof.
  intros Hd. do 7 (destruct d as [|? d]; [simpl in Hd; lia|]).
  cbn. by rewrite !mem_load_byte.
Qed.

Lemma scan_descriptor_step pre d post s :
  descriptor_ok d →
  scan_descriptor (pre ++ d ++ post) (length pre) (nth 0 d 0) (nth 1 d 0) s
  = Ok ((), scan_step s d).
Proof.
  intros [Hl H0]. unfold scan_step, msc_interface, bulk_endpoint, desc_type. rewrite H0.
  assert (∀ n, (n ≤ length d)%nat →
    mem_read (pre ++ d ++ post) (length pre) n = Ok (take n d)) as Hread.
  { intros n Hn. rewrite mem_read_app by (rewrite ?length_app; lia). by rewrite take_app_le. }
  unfold scan_descriptor, get, mbind, M_bind, lift.
  cbn [UsbDescriptorType_val UsbDeviceClass_val UsbTransferType_val].
  destruct (Z.eqb_spec (nth 1 d 0) 4) as [E|E].
  - rewrite E. cbn [andb Z.eqb Pos.eqb].
    destruct (Z.geb_spec (Z.of_nat (length d)) 9), (Z.leb_spec 9 (Z.of_nat (length d)));
      try lia; [|done].
    change (sizeof UsbInterfaceDescriptor) with 9%nat. rewrite Hread by lia.
    destruct (interface_load d) as [-> ->]; [lia|]. cbn [andb].
    by destruct (nth 5 d 0 =? 8).
  - cbn [andb]. destruct (nth 1 d 0 =? 5); [|done]. cbn [andb].
    destruct (Z.geb_spec (Z.of_nat (length d)) 7), (Z.leb_spec 7 (Z.of_nat (length d)));
      try lia; [|done]. cbn [andb].
    change (sizeof UsbEndpointDescriptor) with 7%nat.
    destruct (interface_number_ s >=? 0); [|by destruct (_ =? 2)].
    rewrite Hread by lia. destruct (endpoint_load d) as (-> & -> & ->); [lia|].
    destruct (Z.land (nth 3 d 0) 3 =? 2); [|done]. cbn [is_in]. by destruct (negb _).
Qed.

Lemma find_loop_descriptors descs pre fuel s :
  Forall descriptor_ok descs → (length (concat descs) ≤ fuel)%nat →
  find_loop fuel (pre ++ concat descs) (length pre) s = Ok ((), foldl scan_step s descs).
Proof.
  intros Hd. revert pre fuel s. induction Hd as [|d descs Hdok Hds IH]; intros pre fuel s Hf.
  { cbn [concat]. rewrite app_nil_r. destruct fuel; cbn [find_loop];
      by rewrite decide_False by lia. }
  cbn [concat foldl] in *. rewrite length_app in Hf. pose proof Hdok as [Hl H0].
  destruct fuel as [|fuel]; [lia|]. cbn [find_loop].
  rewrite !length_app. rewrite decide_True by lia. rewrite decide_False by lia.
  assert (vec_at (pre ++ d ++ concat descs) (length pre) = Ok (nth 0 d 0)) as Hlen.
  { rewrite <- (Nat.add_0_r (length pre)), vec_at_app, vec_at_app_l, vec_at_nth by lia. done. }
  assert (vec_at (pre ++ d ++ concat descs) (length pre + 1) = Ok (nth 1 d 0)) as Htype.
  { rewrite vec_at_app, vec_at_app_l, vec_at_nth by lia. done. }
  unfold mbind, M_bind, lift. rewrite Hlen, Htype.
  destruct (Z.eqb_spec (nth 0 d 0) 0); [lia|].
  rewrite bool_decide_eq_false_2 by (rewrite H0, Nat2Z.id; lia). cbn [orb].
  rewrite scan_descriptor_step by done.
  rewrite H0, Nat2Z.id, <- length_app, app_assoc. apply IH. lia.
Qed.

(** The loop on a configuration, from the first byte. *)
Lemma FindEndpoints_fold descs s :
  Forall descriptor_ok descs → descs ≠ [] →
  dev_config_descriptor (transport_info (device s)) = concat descs →
  let s' := foldl scan_step s descs in
  FindEndpoints s = Ok ((interface_number_ s' >=? 0) && negb (address (bulk_in_endpoint_ s') =? 0)
                        && negb (address (bulk_out_endpoint_ s') =? 0), s').
Proof.
  intros Hd Hne Hc s'. unfold FindEndpoints, mbind, M_bind, get. rewrite Hc.
  destruct (concat descs) as [|b c] eqn:E.
  { destruct descs as [|d descs]; [done|]. apply Forall_cons in Hd as [[Hl _] _].
    simpl in E. apply app_eq_nil in E as [-> _]. simpl in Hl. lia. }
  pose proof (find_loop_descriptors descs [] (length (concat descs)) s Hd (le_n _)) as Hl.
  rewrite E in Hl. cbn [app length] in Hl. cbn [length]. by rewrite Hl.
Qed.

(** The loop on the first [n] bytes of a struct image: nine bytes of a
    configuration descriptor, then a zero. *)
Lemma struct_image_loop s object n :
  nth 0 object 0 = 9 → nth 1 object 0 = 2 → nth 9 object 0 = 0 → (10 ≤ length object)%nat →
  find_loop (length (take n object)) (take n object) 0 s = Ok ((), s).
Proof.
  intros H0 H1 H9 Hlen. set (config := take n object).
  assert (∀ i, (i < length config)%nat → vec_at config i = Ok (nth i object 0)) as Hat.
  { intros i Hi. rewrite vec_at_nth by done. unfold config in *. rewrite length_take in Hi.
    by rewrite !nth_lookup, lookup_take_lt by lia. }
  destruct (length config) as [|k] eqn:E; [cbn [find_loop]; by rewrite decide_False by lia|].
  cbn [find_loop]. rewrite decide_True by lia. case_decide; [done|].
  unfold mbind, M_bind, lift. rewrite !Hat by lia. cbn [Nat.add]. rewrite H0, H1.
  change (9 =? 0) with false. cbn [orb]. case_bool_decide; [done|].
  unfold scan_descriptor, mbind, M_bind, get. cbn [UsbDescriptorType_val Z.eqb Pos.eqb].
  unfold mret, M_ret. change (0 + Z.to_nat 9)%nat with 9%nat.
  destruct k as [|k]; cbn [find_loop]; (case_decide; [|done]); [lia|].
  case_decide; [done|]. unfold mbind, M_bind, lift. rewrite !Hat by lia. change (Z.to_nat 9) with 9%nat. by rewrite H9.
Qed.

(** *** Which endpoints are found *)

(** The last endpoint of direction [dir] among bulk endpoint descriptors. *)
Definition last_endpoint (dir : bool) (descs : list (list Z)) : option EndpointInfo :=
  last (filter (λ e, is_in e = dir) (omap bulk_endpoint descs)).

Lemma msc_interface_nonneg d n : bytes_ok d → msc_interface d = Some n → 0 <= n.
Proof.
  intros Hd. unfold msc_interface. destruct (_ && _); [|done]. intros [= <-].
  destruct (decide (2 < length d)%nat) as [Hl|Hl]; [by apply (Forall_nth is_byte)|].
  by rewrite nth_overflow by lia.
Qed.

Lemma last_interface_nonneg descs n :
  Forall (Forall is_byte) descs → last (omap msc_interface descs) = Some n → 0 <= n.
Proof.
  intros Hb E. apply last_Some_elem_of, list_elem_of_omap in E as (d & Hd & E).
  rewrite Forall_forall in Hb. eapply msc_interface_nonneg; [by apply Hb|exact E].
Qed.

Lemma scan_post post s :
  0 <= interface_number_ s → Forall (Forall is_byte) post →
  let s' := foldl scan_step s post in
  interface_number_ s' = default (interface_number_ s) (last (omap msc_interface post)) ∧
  bulk_in_endpoint_ s' = default (bulk_in_endpoint_ s) (last_endpoint true post) ∧
  bulk_out_endpoint_ s' = default (bulk_out_endpoint_ s) (last_endpoint false post).
Proof.
  intros H0 Hb. induction post as [|d post IH] using rev_ind; [done|].
  apply Forall_app in Hb as [Hb _].
  destruct (IH Hb) as (Hi & Hin & Hout). clear IH. cbv zeta.
  unfold last_endpoint in *. rewrite foldl_app, !omap_app, !filter_app. cbn [foldl].
  set (s1 := foldl scan_step s post) in *.
  assert (0 <= interface_number_ s1) as H1.
  { rewrite Hi. destruct (last _) as [n|] eqn:E; [|done]. by eapply last_interface_nonneg. }
  cbn [omap list_omap]. unfold scan_step.
  destruct (msc_interface d) as [n|] eqn:Em.
  - assert (bulk_endpoint d = None) as ->.
    { unfold msc_interface, bulk_endpoint in *. destruct (Z.eqb_spec (desc_type d) 5) as [E|]; [|done].
      by rewrite E in Em. }
    rewrite !filter_nil, !app_nil_r. cbn. by rewrite last_snoc.
  - destruct (bulk_endpoint d) as [e|] eqn:Ee.
    + destruct (Z.geb_spec (interface_number_ s1) 0); [|lia].
      rewrite app_nil_r. destruct (is_in e) eqn:Ein.
      * rewrite (filter_cons_True _ e) by done. rewrite (filter_cons_False _ e) by congruence.
        rewrite !filter_nil, app_nil_r, last_snoc. cbn. by split_and!.
      * rewrite (filter_cons_False _ e) by congruence. rewrite (filter_cons_True _ e) by done.
        rewrite !filter_nil, app_nil_r, last_snoc. cbn. by split_and!.
    + rewrite !filter_nil, !app_nil_r. by split_and!.
Qed.
End Endpoints.

(** ** Numbers read big-endian *)

Lemma lor_byte a b : is_byte b → Z.lor (Z.shiftl a 8) b = a * 256 + b.
Proof.
  intros Hb. assert (Z.land (Z.shiftl a 8) b = 0) as Hland.
  { apply Z.bits_inj'. intros n Hn. rewrite Z.land_spec, Z.bits_0, Z.shiftl_spec by lia.
    destruct (Z.ltb_spec n 8); [by rewrite Z.testbit_neg_r by lia|].
    apply andb_false_iff. right. destruct (decide (b = 0)) as [->|]; [apply Z.bits_0|].
    apply Z.bits_above_log2; [apply Hb|]. apply Z.log2_lt_pow2; [destruct Hb; lia|].
    destruct Hb. assert (2 ^ 8 <= 2 ^ n) by (apply Z.pow_le_mono_r; lia).
    change (2 ^ 8) with 256 in *. lia. }
  pose proof (Z.add_lor_land (Z.shiftl a 8) b) as H. rewrite Hland, Z.shiftl_mul_pow2 in H by lia.
  rewrite Z.shiftl_mul_pow2 by lia. change (2 ^ 8) with 256 in *. lia.
Qed.

Lemma be_value_snoc l b : be_value (l ++ [b]) = be_value l * 256 + b.
Proof. unfold be_value. rewrite rev_unit. cbn. lia. Qed.

Lemma be32_at_value data i :
  bytes_ok data → (i + 4 ≤ length data)%nat →
  be32_at data i = be_value (take 4 (drop i data)).
Proof.
  intros Hb Hl. unfold be32_at.
  assert (∀ j, (j < 4)%nat → nth (i + j) data 0 = nth j (drop i data) 0) as Hnth
    by (intros j _; by rewrite !nth_lookup, lookup_drop).
  rewrite <- (Nat.add_0_r i) at 1. rewrite !Hnth by lia.
  assert (bytes_ok (drop i data)) as Hd by by apply Forall_drop.
  assert (4 ≤ length (drop i data))%nat as Hl' by (rewrite length_drop; lia).
  destruct (drop i data) as [|b0 [|b1 [|b2 [|b3 r]]]]; simpl in Hl'; try lia.
  apply Forall_cons in Hd as [H0 Hd]. apply Forall_cons in Hd as [H1 Hd].
  apply Forall_cons in Hd as [H2 Hd]. apply Forall_cons in Hd as [H3 _].
  cbn [nth take]. unfold be_value. rewrite take_0. cbn [rev app le_value].
  replace (Z.shiftl b0 24) with (Z.shiftl (Z.shiftl b0 8) 16) by by rewrite Z.shiftl_shiftl.
  rewrite <- Z.shiftl_lor, lor_byte by done.
  replace (Z.shiftl (b0 * 256 + b1) 16) with (Z.shiftl (Z.shiftl (b0 * 256 + b1) 8) 8)
    by by rewrite Z.shiftl_shiftl.
  rewrite <- Z.shiftl_lor, !lor_byte by done.
  rewrite u32_id; [lia|]. unfold is_byte, is_u32 in *. lia.
Qed.

Lemma be64_of_value data :
  bytes_ok data → be64_of data = be_value (take 8 data).
Proof.
  intros Hb. unfold be64_of. assert (bytes_ok (take 8 data)) as Ht by by apply Forall_take.
  assert (length (take 8 data) ≤ 8)%nat as Hl by (rewrite length_take; lia).
  revert Ht Hl. generalize (take 8 data) as l. clear. intros l Hl Hn.
  induction l as [|b l IH] using rev_ind; [done|].
  apply Forall_app in Hl as [Hl [Hb _]%Forall_cons]. rewrite length_app in Hn. cbn in Hn.
  rewrite foldl_app. cbn [foldl]. rewrite IH by (done || lia). rewrite be_value_snoc.
  pose proof (be_value_range l Hl) as Hr.
  assert (256 ^ Z.of_nat (length l) <= 256 ^ 7) as Hp by (apply Z.pow_le_mono_r; lia).
  change (256 ^ 7) with 72057594037927936 in Hp.
  rewrite u64_id; [by apply lor_byte|]. rewrite Z.shiftl_mul_pow2 by lia.
  change (2 ^ 8) with 256. unfold is_u64. lia.
Qed.

(** ** Commands *)

Section Commands.
Context {h : Host} {D : Type} `{Transport D}.
Implicit Types (s : MassStorageDevice D).

(** A bulk transfer of the whole buffer, which then holds [reply]. *)
Definition bulk_moves (ep : Z) (buffer reply : list Z) (d d' : D) : Prop :=
  transport_bulk ep buffer d = Ok ((true, reply, Z.of_nat (length buffer)), d').

(** A bulk transfer that fails, or moves less than the buffer. *)
Definition bulk_falls_short (ep : Z) (buffer reply : list Z) (d d' : D) : Prop :=
  ∃ ok n, transport_bulk ep buffer d = Ok ((ok, reply, n), d') ∧
    (ok = false ∨ u32 n ≠ Z.of_nat (length buffer)).

(** The 13 bytes of a command status. *)
Definition csw_bytes (tag residue status : Z) : list Z :=
  struct_bytes {| dCSWSignature := CSW_SIGNATURE; dCSWTag := tag;
                  dCSWDataResidue := residue; bCSWStatus := status |}.

Lemma length_cbw tag len n cdb : length cdb = 16%nat →
  length (struct_bytes (capacity_cbw tag len n cdb)) = 31%nat.
Proof.
  intros Hc. unfold struct_bytes. rewrite length_concat_zip.
  - by vm_compute.
  - intros. apply length_mem_store.
  - cbn. by rewrite Hc.
Qed.

Lemma SendCBW_moves s cbw reply d' :
  length (struct_bytes cbw) = 31%nat →
  bulk_moves (address (bulk_out_endpoint_ s)) (struct_bytes cbw) reply (device s) d' →
  SendCBW cbw s = Ok (true, s {{ device := d' }}).
Proof.
  intros Hl H1. unfold SendCBW, on_device, mbind, M_bind, get. rewrite H1, Hl. done.
Qed.

Lemma TransferData_moves s data n reply d' :
  0 < n < 4294967296 →
  bulk_moves (address (bulk_in_endpoint_ s)) (vec_resize (Z.to_nat n) data) reply (device s) d' →
  TransferData true data n s = Ok ((true, reply), s {{ device := d' }}).
Proof.
  intros Hn H1. unfold TransferData. destruct (Z.eqb_spec n 0); [lia|].
  unfold on_device, mbind, M_bind, get. rewrite H1, length_vec_resize. cbn [fst snd].
  rewrite u32_id by (unfold is_u32; lia). unfold mret, M_ret. cbn [andb].
  destruct (Z.eqb_spec (Z.of_nat (Z.to_nat n)) n); [done|lia].
Qed.

Lemma TransferData_short s data n reply d' :
  0 < n < 4294967296 →
  bulk_falls_short (address (bulk_in_endpoint_ s)) (vec_resize (Z.to_nat n) data) reply (device s) d' →
  TransferData true data n s = Ok ((false, reply), s {{ device := d' }}).
Proof.
  intros Hn (ok & m & H1 & Hs). unfold TransferData. destruct (Z.eqb_spec n 0); [lia|].
  unfold on_device, mbind, M_bind, get. rewrite H1. unfold mret, M_ret. cbn [fst snd].
  do 3 f_equal. destruct Hs as [->|Hs]; [done|]. apply andb_false_iff. right.
  rewrite length_vec_resize in Hs. apply Z.eqb_neq. lia.
Qed.

Lemma csw_load tag residue status :
  is_u32 tag → is_u32 residue → is_byte status →
  struct_load (csw_bytes tag residue status) =
    {| dCSWSignature := CSW_SIGNATURE; dCSWTag := tag;
       dCSWDataResidue := residue; bCSWStatus := status |}.
Proof.
  intros Ht Hr Hs. unfold csw_bytes. rewrite <- (app_nil_r (struct_bytes _)).
  apply struct_load_bytes.
  unfold is_byte, is_u32 in *. cbn.
  repeat (apply List.Forall2_cons; [unfold field_ok, CSW_SIGNATURE; cbn; lia|]).
  apply List.Forall2_nil.
Qed.

Lemma length_csw_bytes tag residue status : length (csw_bytes tag residue status) = 13%nat.
Proof. unfold csw_bytes, struct_bytes. by destruct h. Qed.

(** The status phase: signature and tag match, the status decides. *)
Lemma capacity_status_moves s csw_memory tag residue status t b d' :
  length csw_memory = 13%nat → is_u32 tag → is_u32 residue → is_byte status →
  bulk_moves (address (bulk_in_endpoint_ s)) csw_memory (csw_bytes tag residue status)
    (device s) d' →
  capacity_status csw_memory tag t b s = Ok ((status =? 0, t, b), s {{ device := d' }}).
Proof.
  intros Hl Ht Hr Hs H1. unfold capacity_status, ReceiveCSW, on_device, mbind, M_bind, get.
  rewrite H1, Hl. cbn [fst snd]. rewrite csw_load by done.
  cbn [dCSWSignature dCSWTag]. by rewrite !Z.eqb_refl.
Qed.

(** [ReceiveCSW] accepts 13 bytes that start with the signature and the
    expected tag, and nothing else. *)
Lemma ReceiveCSW_spec s buffer tag ok reply n d' :
  transport_bulk (address (bulk_in_endpoint_ s)) buffer (device s) = Ok ((ok, reply, n), d') →
  bytes_ok reply → length reply = 13%nat → is_u32 tag →
  ∃ b, ReceiveCSW buffer tag s = Ok ((b, struct_load reply), s {{ device := d' }}) ∧
    (b = true ↔ ok = true ∧ n = 13 ∧
       ∃ rest, reply = mem_store 4 CSW_SIGNATURE ++ mem_store 4 tag ++ rest).
Proof.
  intros H1 Hb Hl Ht. unfold ReceiveCSW, on_device, mbind, M_bind, get. rewrite H1.
  cbn [fst snd]. eexists. split; [done|].
  pose proof (struct_bytes_load (A := CommandStatusWrapper) reply Hb Hl) as Hreply.
  set (c := struct_load (A := CommandStatusWrapper) reply) in *.
  destruct ok; cbn [negb orb]; [|split; [done|by intros []]].
  destruct (Z.eqb_spec n 13) as [->|]; cbn [negb]; [|split; [done|by intros (_ & ? & _)]].
  rewrite andb_true_iff, !Z.eqb_eq. split.
  - intros [Hs Htag]. split_and!; [done..|]. rewrite <- Hreply. clearbody c.
    unfold struct_bytes. cbn.
    rewrite Hs, Htag. eauto.
  - intros (_ & _ & rest & Hr). unfold c. rewrite Hr. unfold struct_load. cbn.
    rewrite !take_app_length', !drop_app_length' by by rewrite length_mem_store.
    rewrite take_app_length' by by rewrite length_mem_store.
    split; apply mem_load_store; [by unfold CSW_SIGNATURE; cbn|].
    unfold is_u32 in Ht. cbn. lia.
Qed.
End Commands.

(** ** Properties *)

Section Properties.
Context {h : Host} {D : Type} `{Transport D}.
Implicit Types (s : MassStorageDevice D).

(** The search for endpoints terminates without reading outside the
    configuration, whatever bytes the device reports; it touches nothing but
    its results, and if it succeeds on a new driver, the endpoint found for
    input has the direction bit set and the one for output has not. *)
Theorem find_endpoints_total s :
  bytes_ok (dev_config_descriptor (transport_info (device s))) →
  ∃ b s', FindEndpoints s = Ok (b, s') ∧ device s' = device s ∧ next_tag_ s' = next_tag_ s ∧
    (b = true → bulk_in_endpoint_ s = EndpointInfo_zero → bulk_out_endpoint_ s = EndpointInfo_zero →
     0 <= interface_number_ s' ∧
     Z.land (address (bulk_in_endpoint_ s')) 0x80 ≠ 0 ∧
     Z.land (address (bulk_out_endpoint_ s')) 0x80 = 0 ∧ address (bulk_out_endpoint_ s') ≠ 0).
Proof.
  intros Hb. unfold FindEndpoints, mbind, M_bind, get.
  set (config := dev_config_descriptor (transport_info (device s))) in *.
  destruct config as [|c config'] eqn:E.
  { exists false, s. by split_and!. }
  pose proof (find_loop_safe (length (c :: config')) (c :: config') 0 s s
    (le_n _) Hb (search_ok_refl s)) as H1.
  apply wp_safe in H1 as ([] & s' & -> & [Hin Hout Hdev Htag _]).
  eexists _, s'. split; [done|]. split_and!; [done..|].
  intros [[Hi Ha]%andb_true_iff Ho]%andb_true_iff Hz1 Hz2.
  apply negb_true_iff, Z.eqb_neq in Ha, Ho. rewrite Hz1 in Hin. rewrite Hz2 in Hout.
  apply Z.geb_le in Hi. split_and!; [lia| | |done].
  - destruct Hin as [Hin|]; [|done]. by rewrite Hin in Ha.
  - destruct Hout as [Hout|]; [|done]. by rewrite Hout in Ho.
Qed.

(** On a well-formed configuration a new driver takes the number of the
    last mass-storage interface, and the last bulk input and the last bulk
    output endpoint that come after the first mass-storage interface: also
    those of a later interface of another class. Without a mass-storage
    interface it finds nothing. *)
Theorem find_endpoints_last s descs pre iface post n :
  Forall descriptor_ok descs → Forall (Forall is_byte) descs →
  dev_config_descriptor (transport_info (device s)) = concat descs →
  interface_number_ s = -1 → descs = pre ++ iface :: post →
  Forall (λ d, msc_interface d = None) pre → msc_interface iface = Some n →
  let s' := foldl scan_step s descs in
  let bulk_in := default (bulk_in_endpoint_ s) (last_endpoint true post) in
  let bulk_out := default (bulk_out_endpoint_ s) (last_endpoint false post) in
  FindEndpoints s = Ok (negb (address bulk_in =? 0) && negb (address bulk_out =? 0), s') ∧
  interface_number_ s' = default n (last (omap msc_interface post)) ∧
  bulk_in_endpoint_ s' = bulk_in ∧ bulk_out_endpoint_ s' = bulk_out.
Proof.
  intros Hok Hb Hc Hs -> Hpre Hn s' bulk_in bulk_out.
  assert (foldl scan_step s pre = s) as Hskip.
  { clear -Hpre Hs. induction Hpre as [|d pre Hd Hpre IH]; [done|]. cbn [foldl].
    unfold scan_step at 2. rewrite Hd, Hs. cbn. by destruct (bulk_endpoint d). }
  assert (s' = foldl scan_step (s {{ interface_number_ := n }}) post) as Hs'.
  { unfold s'. rewrite foldl_app, Hskip. cbn [foldl]. unfold scan_step at 2. by rewrite Hn. }
  apply Forall_app in Hb as [_ [Hbi Hbp]%Forall_cons].
  pose proof (msc_interface_nonneg _ _ Hbi Hn) as Hn0.
  destruct (scan_post post (s {{ interface_number_ := n }})) as (Hi & Hin & Hout);
    [exact Hn0|exact Hbp|].
  rewrite <- Hs' in Hi, Hin, Hout.
  assert (0 <= interface_number_ s') as Hi0.
  { rewrite Hi. destruct (last _) as [m|] eqn:E; [|exact Hn0]. by eapply last_interface_nonneg. }
  split_and!; [|exact Hi|exact Hin|exact Hout].
  rewrite (FindEndpoints_fold _ s Hok); [|by destruct pre|done]. fold s'.
  destruct (Z.geb_spec (interface_number_ s') 0); [|lia]. by rewrite Hin, Hout.
Qed.

(** The configuration descriptor that [LoadDeviceInfo] stores is not the
    device's: it is the memory of libusb's parsed struct. If the total length
    exceeds that object, the copy reads past it. Otherwise, where the padding
    after the struct's nine descriptor fields is zero, the driver finds no
    endpoints in it, whatever interfaces the device has. *)
Theorem loaded_config_has_no_endpoints s dev junk object total :
  lu_config dev = Some (object, total) → 0 <= total →
  match LoadDeviceInfo (Some dev) junk with
  | Fault e => e = OutOfBounds ∧ Z.of_nat (length object) < total
  | Ok info =>
    dev_config_descriptor info = take (Z.to_nat total) object ∧
    (nth 0 object 0 = 9 → nth 1 object 0 = 2 → nth 9 object 0 = 0 →
     (10 ≤ length object)%nat → interface_number_ s < 0 →
     transport_info (device s) = info → FindEndpoints s = Ok (false, s))
  end.
Proof.
  intros Hc Ht. unfold LoadDeviceInfo. rewrite Hc. unfold mem_read. cbn [Nat.add].
  case_decide as Hl; cbn [mbind res_bind]; [|split; [done|lia]].
  rewrite drop_0. split; [done|]. intros H0 H1 H9 Hlen Hi Hinfo.
  unfold FindEndpoints, mbind, M_bind, get. rewrite Hinfo. cbn [dev_config_descriptor].
  pose proof (struct_image_loop s object (Z.to_nat total) H0 H1 H9 Hlen) as Hloop.
  change (dev_config_descriptor _) with (take (Z.to_nat total) object).
  destruct (take (Z.to_nat total) object) as [|o l]; [done|]. cbn iota. rewrite Hloop.
  destruct (Z.geb_spec (interface_number_ s) 0); [lia|done].
Qed.

(** C23: What [GetCapacity] reports. If the device answers READ CAPACITY (16)
    with 32 bytes and a matching status, the number of blocks is one more than
    the big-endian number in the first eight bytes, modulo 2^64, and the block
    size is the one in the next four. If it does not deliver the 32 bytes but
    answers READ CAPACITY (10), the numbers come from the eight bytes of that
    answer. The commands carry consecutive tags, and the result is success
    exactly if the final status is 0. *)
Theorem get_capacity_spec s t0 b0 csw_memory :
  length csw_memory = 13%nat → is_u32 (next_tag_ s) →
  let inp := address (bulk_in_endpoint_ s) in
  let out := address (bulk_out_endpoint_ s) in
  let tag := next_tag_ s in
  (∀ data rep residue status d1 d2 d3,
     bytes_ok data → length data = 32%nat → is_u32 residue → is_byte status →
     bulk_moves out (struct_bytes (read_capacity_16 tag)) rep (device s) d1 →
     bulk_moves inp (replicate 32 0) data d1 d2 →
     bulk_moves inp csw_memory (csw_bytes tag residue status) d2 d3 →
     GetCapacity csw_memory t0 b0 s =
       Ok ((status =? 0, (be_value (take 8 data) + 1) mod 2 ^ 64, be_value (take 4 (drop 8 data))),
           s {{ device := d3; next_tag_ := u32 (tag + 1) }})) ∧
  (∀ junk data rep rep' residue status d1 d2 d3 d4 d5,
     bytes_ok data → length data = 8%nat → is_u32 residue → is_byte status →
     bulk_moves out (struct_bytes (read_capacity_16 tag)) rep (device s) d1 →
     bulk_falls_short inp (replicate 32 0) junk d1 d2 →
     bulk_moves out (struct_bytes (read_capacity_10 (u32 (tag + 1)))) rep' d2 d3 →
     bulk_moves inp (vec_resize 8 junk) data d3 d4 →
     bulk_moves inp csw_memory (csw_bytes (u32 (tag + 1)) residue status) d4 d5 →
     GetCapacity csw_memory t0 b0 s =
       Ok ((status =? 0, be_value (take 4 data) + 1, be_value (drop 4 data)),
           s {{ device := d5; next_tag_ := u32 (u32 (tag + 1) + 1) }})).
Proof.
  intros Hc Ht inp out tag. split.
  - intros data rep residue status d1 d2 d3 Hb Hl Hr Hs H1 H2 H3.
    unfold GetCapacity, take_tag. unfold mbind at 1, M_bind at 1.
    set (s0 := s {{ next_tag_ := u32 (next_tag_ s + 1) }}).
    unfold mbind at 1, M_bind at 1.
    rewrite (SendCBW_moves s0 _ rep d1) by (by apply length_cbw || exact H1). cbn [negb].
    unfold mbind at 1, M_bind at 1.
    rewrite (TransferData_moves (s0 {{ device := d1 }}) [] 32 data d2) by (lia || exact H2).
    cbn [fst snd negb]. rewrite decide_True by lia.
    rewrite (capacity_status_moves _ _ _ residue status _ _ d3) by (done || exact H3).
    rewrite be64_of_value, be32_at_value by (done || lia). by destruct s.
  - intros junk data rep rep' residue status d1 d2 d3 d4 d5 Hb Hl Hr Hs H1 H2 H3 H4 H5.
    unfold GetCapacity, take_tag. unfold mbind at 1, M_bind at 1.
    set (s0 := s {{ next_tag_ := u32 (next_tag_ s + 1) }}).
    unfold mbind at 1, M_bind at 1.
    rewrite (SendCBW_moves s0 _ rep d1) by (by apply length_cbw || exact H1). cbn [negb].
    unfold mbind at 1, M_bind at 1.
    rewrite (TransferData_short (s0 {{ device := d1 }}) [] 32 junk d2) by (lia || exact H2).
    cbn [fst snd negb]. unfold mbind at 1, M_bind at 1. cbv beta iota.
    set (s1 := (s0 {{ device := d1 }} {{ device := d2 }}) {{ next_tag_ := u32 (u32 (tag + 1) + 1) }}).
    change (next_tag_ (s0 {{ device := d1 }} {{ device := d2 }})) with (u32 (tag + 1)).
    change (s0 {{ device := d1 }} {{ device := d2 }}
      {{ next_tag_ := u32 (u32 (tag + 1) + 1) }}) with s1.
    unfold mbind at 1, M_bind at 1. change (SendCBW (read_capacity_10 (u32 (tag + 1))) _)
      with (SendCBW (read_capacity_10 (u32 (tag + 1))) s1).
    rewrite (SendCBW_moves s1 _ rep' d3) by (by apply length_cbw || exact H3). cbn [negb].
    unfold mbind at 1, M_bind at 1.
    rewrite (TransferData_moves (s1 {{ device := d3 }}) junk 8 data d4) by (lia || exact H4).
    cbn [fst snd negb]. rewrite decide_True by lia.
    rewrite (capacity_status_moves _ _ _ residue status _ _ d5)
      by (done || exact H5 || apply u32_range).
    rewrite !be32_at_value by (done || lia).
    rewrite (take_ge (drop 4 data)) by (rewrite length_drop; lia). rewrite drop_0.
    rewrite u64_id; [by destruct s|].
    pose proof (be_value_range (take 4 data)) as Hv. rewrite length_take, Hl in Hv.
    change (256 ^ Z.of_nat (4 `min` 8)) with 4294967296 in Hv.
    unfold is_u64. specialize (Hv ltac:(by apply Forall_take)). lia.
Qed.
End Properties.

(** *** Transfers in a hotplug callback *)

Section Busy.
Context {h : Host} {D : Type} `{Transport D}.
Implicit Types (s : MassStorageDevice D).
(** No bulk transfer succeeds. *)
Definition bulk_refused : Prop :=
  ∀ ep data (d : D) r d', transport_bulk ep data d = Ok (r, d') → r.1.1 = false.

Definition same_capacity s s' : Prop :=
  total_blocks_ s' = total_blocks_ s ∧ block_size_ s' = block_size_ s.
#[local] Instance same_capacity_preorder : PreOrder same_capacity.
Proof. split; [done|]. intros s1 s2 s3 [? ?] [? ?]. split; congruence. Qed.

Lemma same_capacity_device {A} (m : M D A) : respects same_capacity (on_device m).
Proof. intros s a s'. unfold on_device. destruct (m _) as [[b d]|]; [|done]. by intros [= <- <-]. Qed.

Lemma same_capacity_endpoints : respects same_capacity (FindEndpoints (D := D)).
Proof.
  assert (∀ fuel config offset, respects same_capacity (find_loop (D := D) fuel config offset)) as Hloop.
  { intros fuel. induction fuel as [|fuel IH]; intros config offset; cbn [find_loop];
      unfold scan_descriptor; respects; done. }
  unfold FindEndpoints. respects; auto.
Qed.

Lemma same_capacity_reset : respects same_capacity (ResetDevice (D := D)).
Proof. unfold ResetDevice. respects. apply same_capacity_device. Qed.

Lemma GetCapacity_refused csw_memory total_blocks block_size s r s' :
  bulk_refused → GetCapacity csw_memory total_blocks block_size s = Ok (r, s') →
  r = (false, total_blocks, block_size) ∧ same_capacity s s'.
Proof.
  intros Hno. unfold GetCapacity, SendCBW, take_tag, on_device, get, mbind, M_bind, mret, M_ret.
  destruct (transport_bulk _ _ _) as [[r' d']|] eqn:E; [|done]. cbn.
  rewrite (Hno _ _ _ _ _ E). cbn. by intros [= <- <-].
Qed.

(** A driver made where libusb refuses synchronous transfers, as it documents
    for hotplug callbacks ([LIBUSB_ERROR_BUSY]), which is where
    [OnDeviceHotplug] makes its drivers: [Initialize] succeeds all the same,
    and the driver says that its device has no blocks. *)
Theorem busy_driver_has_no_blocks usb csw_memory capacity_memory d :
  bulk_refused → Initialize csw_memory capacity_memory (MassStorageDevice_new usb) = Ok (true, d) →
  initialized_ d = true ∧ total_blocks_ d = 0 ∧ block_size_ d = 512.
Proof.
  intros Hno. unfold Initialize. cbn. unfold get at 1, mbind at 1, M_bind at 1. cbn.
  unfold mbind at 1, M_bind at 1.
  destruct (on_device transport_open _) as [[[] s1]|] eqn:E1; [| |done]; [|done].
  apply same_capacity_device in E1. cbn [negb]. unfold mbind at 1, M_bind at 1.
  destruct (FindEndpoints s1) as [[[] s2]|] eqn:E2; [| |done]; [|done].
  apply same_capacity_endpoints in E2. cbn [negb]. unfold get at 1, mbind at 1 2, M_bind at 1 2.
  destruct (on_device (transport_claim _) s2) as [[[] s3]|] eqn:E3; [| |done]; [|done].
  apply same_capacity_device in E3. cbn [negb]. unfold mbind at 1, M_bind at 1.
  destruct (ResetDevice s3) as [[b s4]|] eqn:E4; [|done].
  apply same_capacity_reset in E4. rewrite (M_bind_Ok _ _ s4 s4 s4 eq_refl). unfold mbind at 1, M_bind at 1.
  destruct (GetCapacity _ _ _ s4) as [[r s5]|] eqn:E5; [|done].
  destruct (GetCapacity_refused _ _ _ _ _ _ Hno E5) as [-> H5].
  assert (same_capacity (MassStorageDevice_new usb) s5) as [Ht Hb].
  { etrans; [exact E1|]. etrans; [exact E2|]. etrans; [exact E3|]. by etrans. }
  assert (same_capacity (MassStorageDevice_new usb) s4) as [_ Hb4].
  { etrans; [exact E1|]. etrans; [exact E2|]. by etrans. }
  cbn. intros [= <-]. cbn. done.
Qed.
End Busy.

(** ** Witnesses *)

(** A device that answers bulk transfers from a script. *)
Record scripted := { sc_info : UsbDevice; sc_bulk : list (bool * list Z * Z) }.

#[export] Instance scripted_transport : Transport scripted := {
  transport_info := sc_info;
  transport_open := mret true;
  transport_close := mret ();
  transport_claim _ := mret true;
  transport_release _ := mret true;
  transport_control _ _ _ _ data := mret (true, data, Z.of_nat (length data));
  transport_bulk _ data := λ d,
    match sc_bulk d with
    | r :: rest => Ok (r, d {{ sc_bulk := rest }})
    | [] => Ok ((false, data, 0), d)
    end;
}.

(** A configuration with a mass-storage interface and its two endpoints, then
    a vendor interface with one more bulk endpoint. *)
Definition sample_descs : list (list Z) :=
  [[9; 2; 48; 0; 2; 1; 0; 0x80; 50];
   [9; 4; 0; 0; 2; 8; 6; 0x50; 0]; [7; 5; 0x81; 2; 0; 2; 0]; [7; 5; 0x02; 2; 0; 2; 0];
   [9; 4; 1; 0; 1; 0xFF; 0; 0; 0]; [7; 5; 0x83; 2; 0; 2; 0]].

Definition driver_for (config : list Z) (answers : list (bool * list Z * Z))
    : MassStorageDevice scripted :=
  MassStorageDevice_new {| sc_info := empty_info {{ dev_config_descriptor := config }};
                           sc_bulk := answers |}.

Ltac bytes_list := repeat (apply List.Forall_cons; [split; vm_compute; congruence|]); apply List.Forall_nil.

Lemma find_endpoints_total_witness :
  ∃ b s', FindEndpoints (h := LittleEndian) (driver_for [9; 4; 0; 0; 2; 8; 6; 0x50; 0; 200; 5] [])
          = Ok (b, s').
Proof.
  destruct (find_endpoints_total (h := LittleEndian)
    (driver_for [9; 4; 0; 0; 2; 8; 6; 0x50; 0; 200; 5] [])) as (b & s' & H & _).
  - bytes_list.
  - exists b, s'. exact H.
Defined.

Lemma find_endpoints_last_witness :
  ∃ s', FindEndpoints (h := LittleEndian) (driver_for (concat sample_descs) []) = Ok (true, s') ∧
    interface_number_ s' = 0 ∧ address (bulk_in_endpoint_ s') = 0x83 ∧
    address (bulk_out_endpoint_ s') = 0x02.
Proof.
  destruct (find_endpoints_last (h := LittleEndian) (driver_for (concat sample_descs) []) sample_descs
    [[9; 2; 48; 0; 2; 1; 0; 0x80; 50]] [9; 4; 0; 0; 2; 8; 6; 0x50; 0]
    [[7; 5; 0x81; 2; 0; 2; 0]; [7; 5; 0x02; 2; 0; 2; 0];
     [9; 4; 1; 0; 1; 0xFF; 0; 0; 0]; [7; 5; 0x83; 2; 0; 2; 0]] 0) as (H1 & H2 & H3 & H4).
  - repeat (apply List.Forall_cons; [split; [vm_compute; lia|reflexivity]|]). apply List.Forall_nil.
  - repeat (apply List.Forall_cons; [bytes_list|]). apply List.Forall_nil.
  - reflexivity.
  - reflexivity.
  - reflexivity.
  - apply List.Forall_cons; [reflexivity|apply List.Forall_nil].
  - reflexivity.
  - eexists. split; [exact H1|]. rewrite H2, H3, H4. vm_compute. repeat split; reflexivity.
Defined.

Lemma loaded_config_has_no_endpoints_witness :
  ∃ info, LoadDeviceInfo (h := LittleEndian) (Some (sample_usb_device 3)) empty_info = Ok info ∧
    FindEndpoints (h := LittleEndian) (MassStorageDevice_new {| sc_info := info; sc_bulk := [] |})
    = Ok (false, MassStorageDevice_new {| sc_info := info; sc_bulk := [] |}).
Proof.
  eexists. split; [vm_compute; reflexivity|].
  pose proof (loaded_config_has_no_endpoints (h := LittleEndian) (D := scripted)) as H.
  match goal with |- FindEndpoints ?s = _ =>
    specialize (H s (sample_usb_device 3) empty_info sample_config_object 32 eq_refl)
  end.
  assert (0 <= 32) as H0 by lia. specialize (H H0). vm_compute in H0.
  destruct (LoadDeviceInfo (h := LittleEndian) (Some (sample_usb_device 3)) empty_info) as [info|e] eqn:E.
  - destruct H as [_ H]. apply H; try reflexivity; vm_compute; try lia.
    vm_compute in E. injection E as <-. reflexivity.
  - vm_compute in E. discriminate E.
Defined.

Definition sample_driver (answers : list (bool * list Z * Z)) : MassStorageDevice scripted :=
  (driver_for [] answers) {{ bulk_in_endpoint_ := {| address := 0x81; max_packet_size := 512; is_in := true |};
                           bulk_out_endpoint_ := {| address := 2; max_packet_size := 512; is_in := false |} }}.

(** The answer to READ CAPACITY (16): 1024 blocks of 512 bytes. *)
Definition sample_capacity : list Z := [0; 0; 0; 0; 0; 0; 3; 255; 0; 0; 2; 0] ++ replicate 20 0.

Lemma get_capacity_spec_witness :
  ∃ s', GetCapacity (h := LittleEndian) (replicate 13 0) 0 512
    (sample_driver [(true, struct_bytes (h := LittleEndian) (read_capacity_16 1), 31);
                    (true, sample_capacity, 32); (true, csw_bytes (h := LittleEndian) 1 0 0, 13)])
    = Ok ((true, 1024, 512), s').
Proof.
  destruct (get_capacity_spec (h := LittleEndian)
    (sample_driver [(true, struct_bytes (h := LittleEndian) (read_capacity_16 1), 31);
                    (true, sample_capacity, 32); (true, csw_bytes (h := LittleEndian) 1 0 0, 13)])
    0 512 (replicate 13 0)) as [H _].
  - reflexivity.
  - split; vm_compute; congruence.
  - eexists. erewrite (H sample_capacity _ 0 0);
      [vm_compute; reflexivity|..].
    + bytes_list.
    + reflexivity.
    + split; vm_compute; congruence.
    + split; vm_compute; congruence.
    + unfold bulk_moves. vm_compute. reflexivity.
    + unfold bulk_moves. vm_compute. reflexivity.
    + unfold bulk_moves. vm_compute. reflexivity.
Defined.

(** A device that libusb does not transfer for. *)
Record busy := { busy_info : UsbDevice }.
#[export] Instance busy_transport : Transport busy := {
  transport_info := busy_info;
  transport_open := mret true;
  transport_close := mret ();
  transport_claim _ := mret true;
  transport_release _ := mret true;
  transport_control _ _ _ _ data := mret (false, data, -6);
  transport_bulk _ data := mret (false, data, 0);
}.
Lemma busy_driver_has_no_blocks_witness :
  ∃ d, Initialize (h := LittleEndian) (replicate 13 0) 99
    (MassStorageDevice_new {| busy_info := empty_info {{ dev_config_descriptor := concat sample_descs }} |})
    = Ok (true, d) ∧ total_blocks_ d = 0 ∧ block_size_ d = 512.
Proof.
  eexists. assert (∀ P Q R : Prop, P → (P → Q ∧ R) → P ∧ R) as Hand by (intros P Q R HP H; split; [exact HP|apply H, HP]).
  eapply Hand; [vm_compute; reflexivity|].
  apply (busy_driver_has_no_blocks (h := LittleEndian)).
  intros ep data d r d' E. injection E as <- <-. reflexivity.
Defined.
