(* ===== verification/UrbCapture.v ===== *)
(** * UrbCapture: the queue between the devices and the network

    [sender/capture/urb_capture.cpp], class [UrbCapture]: producers append
    URBs to a queue under a mutex, one processing thread takes them out,
    counts them and passes them to the callback; the two meet at a condition
    variable.  [step] interleaves the producers, the owner and the thread at
    the level of their accesses to the shared state.  The class
    [UrbProcessor] of the same file is in [UrbProcessor.v]. *)

From S2P Require Import Prelude Memory UsbTypes UsbDeviceManager MassStorage.
From stdpp Require Import gmap.
Open Scope Z_scope.

(** ** State *)

Record Statistics := {
  total_urbs : Z;
  control_urbs : Z;
  bulk_urbs : Z;
  interrupt_urbs : Z;
  iso_urbs : Z;
  bytes_transferred : Z;
  errors : Z;
}.

Definition Statistics_zero : Statistics := {|
  total_urbs := 0; control_urbs := 0; bulk_urbs := 0; interrupt_urbs := 0; iso_urbs := 0;
  bytes_transferred := 0; errors := 0 |}.

(** Where the processing thread is: at the test of the outer loop; holding
    the mutex, about to evaluate the predicate of the wait; holding it, with
    the predicate found false, about to block; blocked; holding it, at the
    test of the inner loop; without it, about to count or to deliver the URB
    it took; over. *)
Inductive thread_state :=
  | OuterTest
  | WaitTest
  | WaitBlock
  | Blocked
  | InnerTest
  | Counting (urb : UsbUrb)
  | Delivering (urb : UsbUrb)
  | ThreadDone.

(** The owner inside [StopCapture]: before the notification, in the join. *)
Inductive owner_state := OwnerIdle | Notifying | Joining.

(** [accepted] are the URBs pushed so far and [delivered] those passed to the
    callback, both in order; [checked] are producers between their test of
    [capturing_] and their push, [notifying] the number of them between the
    push and the notification. *)
Record UrbCapture := {
  devices_ : list nat;
  urb_callback_ : bool;
  capturing_ : bool;
  should_stop_ : bool;
  processing_thread_ : option thread_state;
  urb_queue_ : list UsbUrb;
  statistics_ : Statistics;
  owner : owner_state;
  checked : list UsbUrb;
  notifying : nat;
  accepted : list UsbUrb;
  delivered : list UsbUrb;
}.

Definition UrbCapture_init : UrbCapture := {|
  devices_ := []; urb_callback_ := false; capturing_ := false; should_stop_ := false;
  processing_thread_ := None; urb_queue_ := []; statistics_ := Statistics_zero;
  owner := OwnerIdle; checked := []; notifying := 0; accepted := []; delivered := [];
|}.

Definition SetUrbCallback (c : UrbCapture) : UrbCapture := c {{ urb_callback_ := true }}.

(** ** Statistics *)

Definition UpdateStatistics (urb : UsbUrb) (st : Statistics) : Statistics :=
  let st := st {{ total_urbs := u64 (total_urbs st + 1);
                  bytes_transferred := u64 (bytes_transferred st + urb_actual_length urb) }} in
  let st := if negb (urb_status urb =? 0) then st {{ errors := u64 (errors st + 1) }} else st in
  match urb_type urb with
  | CONTROL => st {{ control_urbs := u64 (control_urbs st + 1) }}
  | BULK => st {{ bulk_urbs := u64 (bulk_urbs st + 1) }}
  | INTERRUPT => st {{ interrupt_urbs := u64 (interrupt_urbs st + 1) }}
  | ISOCHRONOUS => st {{ iso_urbs := u64 (iso_urbs st + 1) }}
  end.

Definition GetStatistics (c : UrbCapture) : Statistics := statistics_ c.
Definition ResetStatistics (c : UrbCapture) : UrbCapture := c {{ statistics_ := Statistics_zero }}.

(** ** Devices *)

(** The devices are shared objects; the capture keeps their identities. *)
Section Devices.
Context {D : Type} `{Transport D}.
Definition heap : Type := gmap nat (MassStorageDevice D).

Definition AddDevice (id : option nat) (w : UrbCapture * heap) : bool * (UrbCapture * heap) :=
  let '(c, hp) := w in
  match id with
  | None => (false, w)
  | Some id =>
    if decide (id ∈ devices_ c) then (true, w)
    else (true, (c {{ devices_ := devices_ c ++ [id] }},
                 alter (λ d, d {{ data_callback_ := true }}) id hp))
  end.

Lemma AddDevice_new id c (hp : gmap nat (MassStorageDevice D)) d :
  id ∉ devices_ c → hp !! id = Some d →
  ∃ hp' : gmap nat (MassStorageDevice D), AddDevice (Some id) (c, hp) = (true, (c {{ devices_ := devices_ c ++ [id] }}, hp')) ∧
    hp' !! id = Some (d {{ data_callback_ := true }}) ∧ ∀ j, j ≠ id → hp' !! j = hp !! j.
Proof.
  intros Hn Hd. unfold AddDevice. rewrite decide_False by done. eexists. split; [reflexivity|].
  unfold heap in *. split.
  - by rewrite lookup_alter_eq, Hd.
  - intros j Hj. by apply lookup_alter_ne.
Qed.

Fixpoint erase_first (id : nat) (l : list nat) : list nat :=
  match l with [] => [] | x :: l' => if decide (x = id) then l' else x :: erase_first id l' end.

Definition RemoveDevice (id : option nat) (c : UrbCapture) : UrbCapture :=
  match id with
  | None => c
  | Some id => c {{ devices_ := erase_first id (devices_ c) }}
  end.

Definition RemoveAllDevices (c : UrbCapture) : UrbCapture := c {{ devices_ := [] }}.

(** [StartCapture] and [StopCapture] of every device in the list. *)
Fixpoint start_devices (ids : list nat) (hp : heap) : res heap :=
  match ids with
  | [] => Ok hp
  | id :: ids' =>
    match hp !! id with
    | Some d =>
      match StartCapture d with
      | Ok (_, d') => start_devices ids' (<[id := d']> hp)
      | Fault e => Fault e
      end
    | None => Fault OutOfBounds
    end
  end.

Fixpoint stop_devices (ids : list nat) (hp : heap) : res heap :=
  match ids with
  | [] => Ok hp
  | id :: ids' =>
    match hp !! id with
    | Some d =>
      match StopCapture d with
      | Ok (_, d') => stop_devices ids' (<[id := d']> hp)
      | Fault e => Fault e
      end
    | None => Fault OutOfBounds
    end
  end.
End Devices.

(** ** Operations of the owner *)

(** [StartCapture], but for the devices (see [start_devices]): assigning to a
    joinable thread terminates. *)
Definition StartCapture_thread : M UrbCapture bool :=
  c ← get;
  if capturing_ c then mret true
  else
    modify (λ c, c {{ should_stop_ := false; capturing_ := true }});;
    (if processing_thread_ c is Some _ then fail StdTerminate
     else modify (λ c, c {{ processing_thread_ := Some OuterTest }}));;
    mret true.

(** [StopCapture] up to the notification (but for the devices), the
    notification, and the join. *)
Definition StopCapture_begin : M UrbCapture () :=
  modify (λ c, if capturing_ c
               then c {{ should_stop_ := true; capturing_ := false; owner := Notifying }}
               else c).

(** A notification wakes the thread if it is blocked; otherwise it is lost. *)
Definition notify (c : UrbCapture) : UrbCapture :=
  match processing_thread_ c with
  | Some Blocked => c {{ processing_thread_ := Some WaitTest }}
  | _ => c
  end.

Definition StopCapture_notify : M UrbCapture () :=
  modify (λ c, (notify c) {{ owner := Joining }}).
Definition StopCapture_join : M UrbCapture () :=
  modify (λ c, c {{ processing_thread_ := None; owner := OwnerIdle }}).

(** ** Producers: [InjectUrb] and [OnDeviceData] *)

Definition produce_check (urb : UsbUrb) : M UrbCapture () :=
  modify (λ c, if capturing_ c then c {{ checked := checked c ++ [urb] }} else c).

(** The push, under the mutex, of producer [i] among the checked ones. *)
Definition produce_push (i : nat) : M UrbCapture () :=
  c ← get;
  match checked c !! i with
  | Some urb =>
    modify (λ c, c {{ checked := delete i (checked c); urb_queue_ := urb_queue_ c ++ [urb];
                      accepted := accepted c ++ [urb]; notifying := S (notifying c) }})
  | None => fail OutOfBounds
  end.

Definition produce_notify : M UrbCapture () :=
  modify (λ c, (notify c) {{ notifying := pred (notifying c) }}).

(** ** The processing thread *)

Definition set_thread (t : thread_state) : M UrbCapture () :=
  modify (λ c, c {{ processing_thread_ := Some t }}).

(** One step of [ProcessingThread] from the given place. *)
Definition thread_step (t : thread_state) : M UrbCapture () :=
  c ← get;
  match t with
  | OuterTest => set_thread (if should_stop_ c then ThreadDone else WaitTest)
  | WaitTest =>
    if negb (bool_decide (urb_queue_ c = [])) || should_stop_ c then
      set_thread (if should_stop_ c then ThreadDone else InnerTest)
    else set_thread WaitBlock
  | WaitBlock => set_thread Blocked
  | Blocked => set_thread WaitTest                         (* a spurious wake-up *)
  | InnerTest =>
    match urb_queue_ c with
    | [] => set_thread OuterTest
    | urb :: queue =>
      modify (λ c, c {{ urb_queue_ := queue; processing_thread_ := Some (Counting urb) }})
    end
  | Counting urb =>
    modify (λ c, c {{ statistics_ := UpdateStatistics urb (statistics_ c);
                      processing_thread_ := Some (Delivering urb) }})
  | Delivering urb =>
    modify (λ c, c {{ delivered := if urb_callback_ c then delivered c ++ [urb] else delivered c;
                      processing_thread_ := Some InnerTest }})
  | ThreadDone => mret ()
  end.

(** ** Interleavings *)

Inductive action :=
  | DoStart
  | DoStop
  | DoStopNotify
  | DoJoin
  | DoReset
  | Check (urb : UsbUrb)
  | Push (i : nat)
  | Notify
  | Thread
  | Spurious.

(** The thread holds [queue_mutex_]. *)
Definition holds_mutex (t : option thread_state) : bool :=
  match t with Some (WaitTest | WaitBlock | InnerTest) => true | _ => false end.

Definition owner_is (c : UrbCapture) (o : owner_state) : bool :=
  match owner c, o with
  | OwnerIdle, OwnerIdle | Notifying, Notifying | Joining, Joining => true
  | _, _ => false
  end.

Definition enabled (c : UrbCapture) (a : action) : bool :=
  match a with
  | DoStart | DoStop | DoReset => owner_is c OwnerIdle
  | DoStopNotify => owner_is c Notifying
  | DoJoin =>
    owner_is c Joining &&
    match processing_thread_ c with None | Some ThreadDone => true | _ => false end
  | Check _ => true
  | Push i => bool_decide (i < length (checked c))%nat && negb (holds_mutex (processing_thread_ c))
  | Notify => bool_decide (0 < notifying c)%nat
  | Thread =>
    match processing_thread_ c with None | Some (Blocked | ThreadDone) => false | _ => true end
  | Spurious => match processing_thread_ c with Some Blocked => true | _ => false end
  end.

Definition perform (a : action) : M UrbCapture () :=
  match a with
  | DoStart => StartCapture_thread;; mret ()
  | DoStop => StopCapture_begin
  | DoStopNotify => StopCapture_notify
  | DoJoin => StopCapture_join
  | DoReset => modify ResetStatistics
  | Check urb => produce_check urb
  | Push i => produce_push i
  | Notify => produce_notify
  | Thread | Spurious =>
    c ← get;
    match processing_thread_ c with Some t => thread_step t | None => mret () end
  end.

Inductive step : UrbCapture → action → UrbCapture → Prop :=
  | step_intro c a c' : enabled c a = true → perform a c = Ok ((), c') → step c a c'.

Inductive reachable : UrbCapture → Prop :=
  | reachable_init : reachable (SetUrbCallback UrbCapture_init)
  | reachable_step c a c' : reachable c → step c a c' → reachable c'.

(** ** The invariant *)

Definition in_flight (c : UrbCapture) : list UsbUrb :=
  match processing_thread_ c with Some (Counting urb | Delivering urb) => [urb] | _ => [] end.

(** How the flags, the owner and the thread go together. *)
Definition control_ok (c : UrbCapture) : Prop :=
  match owner c with
  | OwnerIdle =>
    if capturing_ c then should_stop_ c = false ∧ ∃ t, processing_thread_ c = Some t ∧ t ≠ ThreadDone
    else processing_thread_ c = None
  | _ => capturing_ c = false ∧ should_stop_ c = true ∧ ∃ t, processing_thread_ c = Some t
  end.

Record capture_ok (c : UrbCapture) : Prop := {
  ok_callback : urb_callback_ c = true;
  ok_order : accepted c = delivered c ++ in_flight c ++ urb_queue_ c;
  ok_control : control_ok c;
  ok_block : processing_thread_ c = Some WaitBlock → urb_queue_ c = [];
  ok_blocked : processing_thread_ c = Some Blocked → urb_queue_ c ≠ [] → (0 < notifying c)%nat;
}.

Lemma UpdateStatistics_sum urb st :
  (total_urbs st - control_urbs st - bulk_urbs st - interrupt_urbs st - iso_urbs st) mod 2 ^ 64 = 0 →
  let st' := UpdateStatistics urb st in
  (total_urbs st' - control_urbs st' - bulk_urbs st' - interrupt_urbs st' - iso_urbs st') mod 2 ^ 64 = 0.
Proof.
  intros H. unfold UpdateStatistics. destruct st as [t c b i o n e]. cbn in H.
  change (2 ^ 64) with 18446744073709551616 in *.
  destruct (negb _), (urb_type urb); cbn; unfold u64; Z.div_mod_to_equations; lia.
Qed.

Lemma capture_step_inv c a c' : step c a c' → enabled c a = true ∧ perform a c = Ok ((), c').
Proof. by destruct 1. Qed.

(** Case analysis on a world and the run of an action in it. *)
Ltac split_capture c :=
  destruct c as [devs cb cap stop th q st ow chk nt acc del]; cbn in *.

Lemma thread_step_ok t c c' :
  processing_thread_ c = Some t → t ≠ ThreadDone → (t = Blocked → True) →
  capture_ok c → thread_step t c = Ok ((), c') → capture_ok c'.
Proof.
  intros Ht Hd _ [Hcb Ho Hc Hb Hbl] Hrun. split_capture c. subst cb th.
  assert (∀ t', control_ok (Build_UrbCapture devs true cap stop (Some t) q st ow chk nt acc del) →
    (t' = ThreadDone → stop = true) → ∀ q' st' del',
    control_ok (Build_UrbCapture devs true cap stop (Some t') q' st' ow chk nt acc del')) as Hctl.
  { intros t' H Hdone q' st' del'. unfold control_ok in *. cbn in *.
    destruct ow; [destruct cap|..]; [|done|..].
    - destruct H as [-> _]. split; [done|]. exists t'. split; [done|]. intros ->. by specialize (Hdone eq_refl).
    - destruct H as (? & ? & _). eauto.
    - destruct H as (? & ? & _). eauto. }
  unfold thread_step, set_thread, modify, get, mbind, M_bind in Hrun.
  destruct t; cbn in Hrun; try done.
  - destruct stop; injection Hrun as <-; (split; cbn; [done|done| |done..]); by apply Hctl.
  - destruct (negb (bool_decide (q = [])) || stop) eqn:E; cbn in Hrun.
    + destruct stop; injection Hrun as <-; (split; cbn; [done|done| |done..]); by apply Hctl.
    + injection Hrun as <-.
      apply orb_false_iff in E as [E%negb_false_iff%bool_decide_eq_true _]. subst q.
      split; cbn; [done|done| |done..]. by apply Hctl.
  - injection Hrun as <-. split; cbn; [done|done| |done|]; [by apply Hctl|].
    by rewrite Hb.
  - injection Hrun as <-. split; cbn; [done|done| |done..]. by apply Hctl.
  - destruct q as [|urb q]; injection Hrun as <-; (split; cbn; [done|done| |done..]); by apply Hctl.
  - injection Hrun as <-. split; cbn; [done|done| |done..]. by apply Hctl.
  - injection Hrun as <-. split; cbn; [done| | |done..]; [|by apply Hctl].
    rewrite Ho. cbn. by rewrite <- app_assoc.
Qed.

Lemma notify_ok c n o :
  capture_ok c → control_ok (c {{ owner := o }}) → (pred (notifying c) ≤ n)%nat →
  capture_ok ((notify c) {{ notifying := n; owner := o }}).
Proof.
  intros [Hcb Ho Hc Hb Hbl] Hctl Hn. split_capture c. subst cb.
  assert (th = Some Blocked ∨ th ≠ Some Blocked) as [->|Hth]
    by (destruct th as [[]|]; (by left) || by right).
  - split; cbn; try done. unfold control_ok in *. cbn in *. destruct o; [destruct cap|..].
    + destruct Hctl as [-> _]. eauto.
    + done.
    + destruct Hctl as (? & ? & _). eauto.
    + destruct Hctl as (? & ? & _). eauto.
  - assert (notify (Build_UrbCapture devs true cap stop th q st ow chk nt acc del)
      = Build_UrbCapture devs true cap stop th q st ow chk nt acc del) as ->
      by (unfold notify; cbn; by destruct th as [[]|]).
    split; [done..|]. by intros ?.
Qed.

Lemma step_ok c a c' : capture_ok c → step c a c' → capture_ok c'.
Proof.
  intros Hok [Hen Hrun]%capture_step_inv. pose proof Hok as [Hcb Ho Hc Hb Hbl].
  destruct a; cbn in Hen.
  - cbn in Hrun. unfold StartCapture_thread, modify, get, mbind, M_bind in Hrun.
    split_capture c. subst cb. destruct ow; try done. unfold control_ok in Hc. cbn in Hc.
    destruct cap; cbn in Hrun; [by injection Hrun as <-|]. subst th. cbn in Hrun.
    injection Hrun as <-. split; cbn; try done. unfold control_ok. cbn. eauto.
  - cbn in Hrun. injection Hrun as <-. split_capture c. subst cb. destruct ow; try done.
    unfold control_ok in Hc. cbn in Hc.
    destruct cap; [|by split]. split; cbn; try done. unfold control_ok. cbn.
    destruct Hc as (_ & t & ? & _). eauto.
  - cbn in Hrun. injection Hrun as <-.
    pose proof (notify_ok c (notifying c) Joining Hok) as H.
    destruct c as [devs cb cap stop th q st ow chk nt acc del]. cbn in *.
    destruct ow; try done. specialize (H Hc (Nat.le_pred_l _)).
    unfold notify in *. cbn in *. by destruct th as [[]|].
  - cbn in Hrun. injection Hrun as <-. split_capture c. subst cb. destruct ow; try done.
    unfold control_ok in Hc. cbn in Hc. destruct Hc as (-> & -> & t & ->).
    destruct t; try done.
  - cbn in Hrun. injection Hrun as <-. by split.
  - cbn in Hrun. injection Hrun as <-. destruct (capturing_ c); [|done]. by split.
  - cbn in Hrun. unfold produce_push, modify, get, mbind, M_bind in Hrun.
    destruct (checked c !! i) as [urb|]; [|done]. injection Hrun as <-.
    split_capture c. subst cb. apply andb_true_iff in Hen as [_ Hm%negb_true_iff].
    split; cbn; try done.
    + unfold in_flight in *. cbn in *. by rewrite Ho, <- !app_assoc.
    + intros ->. done.
    + intros -> _. lia.
  - cbn in Hrun. injection Hrun as <-.
    pose proof (notify_ok c (pred (notifying c)) (owner c) Hok) as H.
    destruct c as [devs cb cap stop th q st ow chk nt acc del]. cbn in *.
    specialize (H Hc (le_n _)). unfold notify in *. cbn in *. by destruct th as [[]|].
  - cbn in Hrun. unfold get, mbind, M_bind in Hrun.
    destruct (processing_thread_ c) as [t|] eqn:Ht; [|done].
    apply (thread_step_ok t c); try done. by destruct t.
  - cbn in Hrun. unfold get, mbind, M_bind in Hrun.
    destruct (processing_thread_ c) as [t|] eqn:Ht; [|done].
    apply (thread_step_ok t c); try done. by destruct t.
Qed.

Lemma capture_reachable_ok c : reachable c → capture_ok c.
Proof.
  induction 1 as [|c a c' _ IH Hst]; [by split|]. by eapply step_ok.
Qed.

(** ** Stopping *)

(** [n] steps of the processing thread. *)
Fixpoint thread_steps (n : nat) (c : UrbCapture) : res UrbCapture :=
  match n with
  | O => Ok c
  | S n' => '(_, c') ← perform Thread c; thread_steps n' c'
  end.

Definition draining (c : UrbCapture) : bool :=
  match processing_thread_ c with
  | Some (InnerTest | Counting _ | Delivering _) => true | _ => false end.

(** The thread waits, or is about to, with nobody left to wake it. *)
Definition about_to_block (c : UrbCapture) : bool :=
  match processing_thread_ c with Some (WaitBlock | Blocked) => true | _ => false end.

Lemma drain_queue q devs stop st ow chk nt acc del :
  stop = true →
  ∃ n c', (n ≤ 3 * length q + 2)%nat ∧
    thread_steps n (Build_UrbCapture devs true false stop (Some InnerTest) q st ow chk nt acc del)
      = Ok c' ∧
    processing_thread_ c' = Some ThreadDone ∧ delivered c' = del ++ q ∧ urb_queue_ c' = [].
Proof.
  intros ->. revert st del. induction q as [|urb q IH]; intros st del.
  - exists 2%nat. eexists. split; [simpl; lia|]. split; [reflexivity|]. cbn. by rewrite app_nil_r.
  - destruct (IH (UpdateStatistics urb st) (del ++ [urb])) as (n & c' & Hn & Hr & Ht & Hd & Hq).
    exists (S (S (S n))), c'. split; [simpl; lia|]. split_and!; [|done| |done].
    + rewrite <- Hr. reflexivity.
    + by rewrite Hd, <- app_assoc.
Qed.

(** Running a list of actions. *)
Fixpoint exec (l : list action) (c : UrbCapture) : option UrbCapture :=
  match l with
  | [] => Some c
  | a :: l' =>
    if enabled c a then match perform a c with Ok (_, c1) => exec l' c1 | Fault _ => None end
    else None
  end.

Lemma exec_reachable l c c' : reachable c → exec l c = Some c' → reachable c'.
Proof.
  revert c. induction l as [|a l IH]; intros c Hr; cbn; [by intros [= <-]|].
  destruct (enabled c a) eqn:E; [|done]. destruct (perform a c) as [[[] c1]|] eqn:Hp; [|done].
  apply IH. eapply reachable_step; [done|by constructor].
Qed.

(** The owner stops between the thread's test and its sleep. *)
Definition missed_stop : list action := [DoStart; Thread; Thread; DoStop; DoStopNotify; Thread].

(** ** Properties *)

(** C7: No URB is lost, duplicated or reordered between the queue and the
    callback: in every reachable state the URBs pushed so far are those
    delivered, then the one the thread is working on, then those in the
    queue, in order. And none gets stuck by a missed wake-up: while the thread
    sleeps on a non-empty queue a notification is on its way. *)
Theorem urb_conservation c :
  reachable c →
  accepted c = delivered c ++ in_flight c ++ urb_queue_ c ∧
  (processing_thread_ c = Some Blocked → urb_queue_ c ≠ [] → (0 < notifying c)%nat).
Proof. intros Hr. destruct (capture_reachable_ok c Hr). by split. Qed.

Lemma statistics_sum c :
  reachable c →
  let st := statistics_ c in
  (total_urbs st - control_urbs st - bulk_urbs st - interrupt_urbs st - iso_urbs st) mod 2 ^ 64 = 0.
Proof.
  induction 1 as [|c a c' Hr IH Hst]; [done|].
  assert (statistics_ c' = statistics_ c ∨ statistics_ c' = Statistics_zero ∨
    ∃ urb, statistics_ c' = UpdateStatistics urb (statistics_ c)) as [-> | [-> | [urb ->]]];
    [|done|done|by apply UpdateStatistics_sum].
  apply capture_step_inv in Hst as [Hen Hrun].
  assert (∀ t, thread_step t c = Ok ((), c') →
    statistics_ c' = statistics_ c ∨ ∃ urb, statistics_ c' = UpdateStatistics urb (statistics_ c)) as Hth.
  { intros t Ht. unfold thread_step, set_thread, modify, get, mbind, M_bind, mret, M_ret in Ht.
    destruct t; try (injection Ht as <-; by left).
    - destruct (_ || _); injection Ht as <-; by left.
    - destruct (urb_queue_ c); injection Ht as <-; by left.
    - injection Ht as <-. right. by exists urb. }
  destruct a; cbn in Hrun.
  - unfold StartCapture_thread, modify, get, mbind, M_bind in Hrun.
    destruct (capturing_ c); [injection Hrun as <-; by left|].
    destruct (processing_thread_ c); cbn in Hrun; [done|]. injection Hrun as <-. by left.
  - injection Hrun as <-. left. by destruct (capturing_ c).
  - injection Hrun as <-. left. unfold notify. by destruct (processing_thread_ c) as [[]|].
  - injection Hrun as <-. by left.
  - injection Hrun as <-. right. by left.
  - injection Hrun as <-. left. by destruct (capturing_ c).
  - unfold produce_push, modify, get, mbind, M_bind in Hrun.
    destruct (checked c !! i); [|done]. injection Hrun as <-. by left.
  - injection Hrun as <-. left. unfold notify. by destruct (processing_thread_ c) as [[]|].
  - unfold get, mbind, M_bind in Hrun. destruct (processing_thread_ c) as [t|].
    + destruct (Hth t Hrun); auto.
    + injection Hrun as <-. by left.
  - unfold get, mbind, M_bind in Hrun. destruct (processing_thread_ c) as [t|].
    + destruct (Hth t Hrun); auto.
    + injection Hrun as <-. by left.
Qed.

(** No interleaving of starts, stops, resets, producers and the thread
    goes wrong: every action that can be taken returns, and the counters stay
    consistent: the total is the sum of the four counts by type, modulo
    2^64. *)
Theorem capture_safe c a :
  reachable c → enabled c a = true →
  ∃ c', perform a c = Ok ((), c') ∧
    let st := statistics_ c' in
    total_urbs st mod 2 ^ 64
    = (control_urbs st + bulk_urbs st + interrupt_urbs st + iso_urbs st) mod 2 ^ 64.
Proof.
  intros Hr Hen. assert (∃ c', perform a c = Ok ((), c')) as [c' Hrun].
  { destruct (capture_reachable_ok c Hr) as [_ _ Hc _ _].
    assert (∀ t, ∃ c', thread_step t c = Ok ((), c')) as Hth.
    { intros t. unfold thread_step, set_thread, modify, get, mbind, M_bind, mret, M_ret.
      destruct t; try (by eexists).
      - destruct (_ || _); by eexists.
      - destruct (urb_queue_ c); by eexists. }
    destruct a; cbn in Hen |- *; try (by eexists).
    - unfold StartCapture_thread, modify, get, mbind, M_bind. unfold control_ok in Hc.
      unfold owner_is in Hen. destruct (owner c); try done.
      destruct (capturing_ c); [by eexists|].
      rewrite Hc. by eexists.
    - unfold produce_push, modify, get, mbind, M_bind.
      apply andb_true_iff in Hen as [Hi%bool_decide_eq_true _].
      destruct (lookup_lt_is_Some_2 _ _ Hi) as [urb ->]. by eexists.
    - unfold get, mbind, M_bind. destruct (processing_thread_ c); [apply Hth|by eexists].
    - unfold get, mbind, M_bind. destruct (processing_thread_ c); [apply Hth|by eexists]. }
  exists c'. split; [done|].
  pose proof (statistics_sum c' (reachable_step _ _ _ Hr (step_intro _ _ _ Hen Hrun))) as H.
  cbv zeta in H |- *. change (2 ^ 64) with 18446744073709551616 in *.
  Z.div_mod_to_equations; lia.
Qed.

(** [StopCapture] can hang. [should_stop_] is set and the condition
    notified without the mutex, so both can fall between the thread's test of
    the predicate and its going to sleep; the notification is lost, and in
    the state reached nothing but a spurious wake-up can happen any more: the
    thread sleeps and the owner waits in the join. *)
Theorem stop_can_hang :
  ∃ c, reachable c ∧ owner c = Joining ∧ processing_thread_ c = Some Blocked ∧
    ∀ a c', a ≠ Spurious → step c a c' → c' = c.
Proof.
  eexists. split_and!.
  - apply (exec_reachable missed_stop (SetUrbCallback UrbCapture_init)); [apply reachable_init|].
    reflexivity.
  - reflexivity.
  - reflexivity.
  - intros a c' Ha [Hen Hrun]%capture_step_inv. destruct a; try done.
    cbn in Hrun. by injection Hrun as <-.
Qed.

(** C34: Otherwise [StopCapture] returns. If the stop did not catch the thread
    between its test and its sleep, then, with no more pushes, the thread ends
    within three steps per queued URB and four more; if it was draining the
    queue it delivers all of it first, if not the queue keeps its URBs, for
    the next capture. *)
Theorem stop_completes c :
  reachable c → owner c = Joining → about_to_block c = false →
  ∃ n c', (n ≤ 3 * length (urb_queue_ c) + 4)%nat ∧ thread_steps n c = Ok c' ∧
    processing_thread_ c' = Some ThreadDone ∧
    if draining c then delivered c' = accepted c ∧ urb_queue_ c' = []
    else delivered c' = delivered c ∧ urb_queue_ c' = urb_queue_ c.
Proof.
  intros Hr Ho Hb. destruct (capture_reachable_ok c Hr) as [Hcb Hord Hc _ _]. unfold control_ok in Hc.
  rewrite Ho in Hc. destruct Hc as (Hcap & Hstop & t & Ht).
  destruct c as [devs cb cap stop th q st ow chk nt acc del]. cbn in *. subst cb cap stop th.
  unfold about_to_block in Hb. unfold in_flight in Hord. unfold draining. cbn in *.
  destruct t as [| | | | |urb|urb|]; try done.
  - exists 1%nat. eexists. split; [lia|]. split; [reflexivity|]. done.
  - destruct q; (exists 1%nat; eexists; split; [simpl; lia|]; split; [reflexivity|]; done).
  - destruct (drain_queue q devs true st ow chk nt acc del eq_refl) as (n & c' & Hn & Hrun & H1 & H2 & H3).
    exists n, c'. split; [lia|]. rewrite H2. by split_and!.
  - destruct (drain_queue q devs true (UpdateStatistics urb st) ow chk nt acc (del ++ [urb]) eq_refl)
      as (n & c' & Hn & Hrun & H1 & H2 & H3).
    exists (S (S n)), c'. split; [lia|]. rewrite H2, <- app_assoc. split; [|by split_and!].
    rewrite <- Hrun. reflexivity.
  - destruct (drain_queue q devs true st ow chk nt acc (del ++ [urb]) eq_refl)
      as (n & c' & Hn & Hrun & H1 & H2 & H3).
    exists (S n), c'. split; [lia|]. rewrite H2, <- app_assoc. split; [|by split_and!].
    rewrite <- Hrun. reflexivity.
  - exists 0%nat. eexists. split; [lia|]. by split.
Qed.

(** ** Witnesses *)

Definition capture_urb (id status : Z) (t : UsbTransferType) : UsbUrb := {|
  urb_id := id; urb_type := t; urb_direction := IN; urb_endpoint := 1; urb_flags := 0;
  urb_data := []; urb_setup :=
    {| bmRequestType := 0; bRequest := 0; wValue := 0; wIndex := 0; wLength := 0 |};
  urb_status := status; urb_actual_length := 512; urb_timestamp := 0 |}.

(** Two URBs, the first one taken out of the queue and counted; then a stop. *)
Definition sample_actions : list action :=
  [DoStart; Check (capture_urb 1 0 BULK); Check (capture_urb 2 1 CONTROL); Push 0; Push 0; Notify;
   Thread; Thread; Thread; Thread; DoStop; DoStopNotify].
Definition sample_capture : UrbCapture :=
  default UrbCapture_init (exec sample_actions (SetUrbCallback UrbCapture_init)).

Lemma sample_capture_reachable : reachable sample_capture.
Proof.
  apply (exec_reachable sample_actions (SetUrbCallback UrbCapture_init)); [apply reachable_init|].
  vm_compute. reflexivity.
Qed.

Lemma urb_conservation_witness :
  accepted sample_capture
  = delivered sample_capture ++ in_flight sample_capture ++ urb_queue_ sample_capture ∧
  length (urb_queue_ sample_capture) = 1%nat.
Proof.
  split; [|reflexivity].
  exact (proj1 (urb_conservation sample_capture sample_capture_reachable)).
Defined.

Lemma capture_safe_witness :
  ∃ c', perform Thread sample_capture = Ok ((), c') ∧ total_urbs (statistics_ c') = 1.
Proof.
  destruct (capture_safe sample_capture Thread sample_capture_reachable) as (c' & H & _).
  - reflexivity.
  - exists c'. split; [exact H|]. vm_compute in H. injection H as <-. reflexivity.
Defined.

Lemma stop_completes_witness :
  ∃ n c', thread_steps n sample_capture = Ok c' ∧ processing_thread_ c' = Some ThreadDone ∧
    delivered c' = [capture_urb 1 0 BULK; capture_urb 2 1 CONTROL].
Proof.
  destruct (stop_completes sample_capture sample_capture_reachable eq_refl eq_refl)
    as (n & c' & _ & H1 & H2 & H3 & _).
  exists n, c'. split; [exact H1|]. split; [exact H2|]. rewrite H3. reflexivity.
Defined.
