(* ===== verification/UrbProcessor.v ===== *)
(** * UrbProcessor: captured URBs as USBIP packets

    [sender/capture/urb_capture.cpp], class [UrbProcessor]. *)

From S2P Require Import Prelude Memory UsbTypes UsbipProtocol MessageHandler.

Record UrbProcessor := { next_seqnum_ : Z }.

Definition UrbProcessor_init : UrbProcessor := {| next_seqnum_ := 1 |}.

(** [next_seqnum_++]. *)
Definition take_seqnum : M UrbProcessor Z := λ p,
  Ok (next_seqnum_ p, p {{ next_seqnum_ := u32 (next_seqnum_ p + 1) }}).

Section Processor.
Context {h : Host}.

(** [memcpy(&cmd.setup, &urb.setup, 8)]: the [uint64_t] whose memory is the
    setup packet. *)
Definition setup_value (s : UsbSetupPacket) : Z := mem_load (struct_bytes s).

Definition CreateCmdSubmit (urb : UsbUrb) : M UrbProcessor UsbipCmdSubmit :=
  seq ← take_seqnum;
  mret {|
    cmd_header := {| command := UsbipOpCode_val USBIP_CMD_SUBMIT; seqnum := seq; devid := 0;
                     direction := UsbDirection_val (urb_direction urb);
                     ep := urb_endpoint urb |};
    transfer_flags := urb_flags urb;
    transfer_buffer_length := i32 (Z.of_nat (length (urb_data urb)));
    cmd_start_frame := 0; cmd_number_of_packets := 0; interval := 0;
    setup := match urb_type urb with CONTROL => setup_value (urb_setup urb) | _ => 0 end |}.

Definition CreateRetSubmit (urb : UsbUrb) : M UrbProcessor UsbipRetSubmit :=
  seq ← take_seqnum;
  mret {|
    ret_header := {| command := UsbipOpCode_val USBIP_RET_SUBMIT; seqnum := seq; devid := 0;
                     direction := UsbDirection_val (urb_direction urb);
                     ep := urb_endpoint urb |};
    ret_status := urb_status urb;
    ret_actual_length := i32 (urb_actual_length urb);
    ret_start_frame := 0; ret_number_of_packets := 0; error_count := 0 |}.

Definition ProcessUrb (urb : UsbUrb) : M UrbProcessor (list Z) :=
  match urb_direction urb with
  | OUT =>
    cmd_submit ← CreateCmdSubmit urb;
    lift (SerializeCmdSubmit cmd_submit (Some (urb_data urb)) (length (urb_data urb)))
  | _ =>
    ret_submit ← CreateRetSubmit urb;
    lift (SerializeRetSubmit ret_submit (Some (urb_data urb)) (length (urb_data urb)))
  end.

(** The messages also take the next number of the process-wide sequence. *)
Definition CreateUsbipSubmit (urb : UsbUrb) : M (UrbProcessor * Z) NetworkMessage := λ s,
  '(data, p) ← ProcessUrb urb s.1;
  '(message, seq) ← NetworkMessage_new URB_SUBMIT data s.2;
  Ok (message, (p, seq)).

Definition CreateUsbipResponse (urb : UsbUrb) : M (UrbProcessor * Z) NetworkMessage := λ s,
  '(data, p) ← ProcessUrb urb s.1;
  '(message, seq) ← NetworkMessage_new URB_RESPONSE data s.2;
  Ok (message, (p, seq)).
End Processor.

(** ** The bytes of a processed URB *)

Section ProcessorLemmas.
Context {h : Host}.

(** The command and the reply made from a URB with sequence number [seq]. *)
Definition cmd_of (seq : Z) (urb : UsbUrb) : UsbipCmdSubmit := {|
  cmd_header := {| command := 1; seqnum := seq; devid := 0;
                   direction := UsbDirection_val (urb_direction urb); ep := urb_endpoint urb |};
  transfer_flags := urb_flags urb;
  transfer_buffer_length := i32 (Z.of_nat (length (urb_data urb)));
  cmd_start_frame := 0; cmd_number_of_packets := 0; interval := 0;
  setup := match urb_type urb with CONTROL => setup_value (urb_setup urb) | _ => 0 end |}.

Definition ret_of (seq : Z) (urb : UsbUrb) : UsbipRetSubmit := {|
  ret_header := {| command := 3; seqnum := seq; devid := 0;
                   direction := UsbDirection_val (urb_direction urb); ep := urb_endpoint urb |};
  ret_status := urb_status urb; ret_actual_length := i32 (urb_actual_length urb);
  ret_start_frame := 0; ret_number_of_packets := 0; error_count := 0 |}.

(** The payload of a URB. *)
Definition urb_bytes (seq : Z) (urb : UsbUrb) : list Z :=
  match urb_direction urb with
  | OUT => cmd_wire (cmd_of seq urb) ++ urb_data urb
  | _ => struct_be_bytes (ret_of seq urb) ++ urb_data urb
  end.

Lemma setup_value_range s : wf s → is_u64 (setup_value s).
Proof.
  intros Hs. unfold setup_value, is_u64.
  pose proof (mem_load_range (struct_bytes s) (struct_bytes_ok s)) as H.
  rewrite length_struct_bytes in H by done. exact H.
Qed.

Lemma setup_value_load s :
  wf s → struct_load (mem_store 8 (setup_value s)) = s.
Proof.
  intros Hs. unfold setup_value. pose proof (length_struct_bytes s Hs) as Hl.
  change (sizeof UsbSetupPacket) with 8%nat in Hl. rewrite <- Hl.
  rewrite mem_store_load by apply struct_bytes_ok.
  rewrite <- (app_nil_r (struct_bytes s)). by apply struct_load_bytes.
Qed.
End ProcessorLemmas.

Section ProcessorRuns.
Context {h : Host}.

Lemma wf_cmd_of seq urb : is_u32 seq → urb_wf urb → wf (cmd_of seq urb).
Proof.
  intros Hs (_ & Hdir & Hep & Hfl & _ & Hsetup & _).
  pose proof (UsbDirection_val_range _ Hdir) as Hd.
  assert (is_u64 (setup (cmd_of seq urb))) as Hset.
  { unfold cmd_of. cbn [setup]. destruct (urb_type urb); try (by unfold is_u64; lia).
    by apply setup_value_range. }
  unfold wf. cbn. unfold UsbipCmdSubmit_wf. cbn.
  split_and!; try done; try (by apply i32_range); try (by unfold is_i32; lia).
  unfold is_byte, is_u32 in *.
  repeat (apply List.Forall2_cons; [unfold field_ok; cbn; lia|]). apply List.Forall2_nil.
Qed.

Lemma wf_ret_of seq urb : is_u32 seq → urb_wf urb → wf (ret_of seq urb).
Proof.
  intros Hs (_ & Hdir & Hep & Hfl & _ & _ & Hst & _).
  pose proof (UsbDirection_val_range _ Hdir) as Hd.
  unfold wf. cbn. unfold UsbipRetSubmit_wf. cbn.
  split_and!; try done; try (by apply i32_range); try (by unfold is_i32; lia).
  unfold is_byte, is_u32 in *.
  repeat (apply List.Forall2_cons; [unfold field_ok; cbn; lia|]). apply List.Forall2_nil.
Qed.

Lemma ProcessUrb_bytes seq urb :
  is_u32 seq → urb_wf urb →
  ProcessUrb urb {| next_seqnum_ := seq |}
  = Ok (urb_bytes seq urb, {| next_seqnum_ := u32 (seq + 1) |}).
Proof.
  intros Hs Hw. unfold ProcessUrb, urb_bytes, CreateCmdSubmit, CreateRetSubmit, take_seqnum.
  unfold mbind, M_bind, mret, M_ret, lift. cbn [next_seqnum_].
  pose proof (SerializeCmdSubmit_wire (cmd_of seq urb) (urb_data urb) (wf_cmd_of seq urb Hs Hw)) as Hc.
  pose proof (SerializeRetSubmit_wire (ret_of seq urb) (urb_data urb) (wf_ret_of seq urb Hs Hw)) as Hr.
  unfold cmd_of, ret_of in *. cbn [UsbipOpCode_val].
  destruct (urb_direction urb); cbn [next_seqnum_]; rewrite ?Hc, ?Hr; reflexivity.
Qed.
End ProcessorRuns.
