(* ===== verification/UsbipClient.v ===== *)
(** * UsbipClient: the receiver's end of the protocol

    [receiver/usbip/usbip_client.cpp], class [UsbipClient]: it owns a
    [TcpSocket] and a [MessageHandler], whose callbacks are its handlers.
    What it passes to its own callbacks is the list [notices].  Answers of
    the system to sends and connects are arguments, as in [TcpSocket.v];
    [now] is the clock. *)

From S2P Require Import Prelude Memory UsbTypes UsbipProtocol MessageHandler TcpSocket.

(** ** State *)

Inductive notice :=
  | NoticeDevices (devices : list UsbipDeviceInfo)
  | NoticeUrb (urb : UsbUrb)
  | NoticeError (error : string).

(** [heartbeat_thread_] is true while the thread is joinable; [messages] is
    the process-wide sequence counter of messages. *)
Record UsbipClient := {
  tcp_client_ : TcpSocket;
  message_handler_ : MessageHandler;
  device_list_callback_ : bool;
  urb_callback_ : bool;
  client_error_callback_ : bool;
  connected_ : bool;
  heartbeat_running_ : bool;
  heartbeat_thread_ : bool;
  heartbeat_interval_ : Z;
  server_host_ : string;
  server_port_ : Z;
  messages : Z;
  notices : list notice;
}.

(** The constructor: all callbacks of the socket and the handler are set. *)
Definition UsbipClient_new (seq : Z) : UsbipClient := {|
  tcp_client_ := SetErrorCallback (SetDataCallback (SetConnectCallback TcpSocket_init));
  message_handler_ := SetMessageCallback MessageHandler_init;
  device_list_callback_ := false; urb_callback_ := false; client_error_callback_ := false;
  connected_ := false; heartbeat_running_ := false; heartbeat_thread_ := false;
  heartbeat_interval_ := 30; server_host_ := ""; server_port_ := 3240;
  messages := seq; notices := [];
|}.

Section Client.
Context {h : Host}.

(** ** Effects *)

Definition counted (m : M Z NetworkMessage) : M UsbipClient NetworkMessage := λ c,
  match m (messages c) with
  | Ok (a, seq) => Ok (a, c {{ messages := seq }})
  | Fault e => Fault e
  end.

Definition notify (n : notice) : M UsbipClient () :=
  modify (λ c, c {{ notices := notices c ++ [n] }}).

(** ** Heartbeat *)

Definition StartHeartbeat (interval_seconds : Z) : M UsbipClient () :=
  c ← get;
  if heartbeat_running_ c then mret ()
  else
    modify (λ c, c {{ heartbeat_interval_ := interval_seconds; heartbeat_running_ := true }});;
    (if heartbeat_thread_ c then fail StdTerminate
     else modify (λ c, c {{ heartbeat_thread_ := true }})).

(** The join returns once the thread has seen the flag. *)
Definition StopHeartbeat : M UsbipClient () :=
  c ← get;
  if negb (heartbeat_running_ c) then mret ()
  else modify (λ c, c {{ heartbeat_running_ := false; heartbeat_thread_ := false }}).

(** ** Network events *)

Definition OnNetworkError (error : string) : M UsbipClient () :=
  c ← get;
  (if client_error_callback_ c then notify (NoticeError error) else mret ());;
  modify (λ c, c {{ connected_ := false }}).

Definition OnNetworkConnect (connected : bool) : M UsbipClient () :=
  modify (λ c, c {{ connected_ := connected }});;
  if connected then StartHeartbeat 30 else StopHeartbeat.

(** A callback of the socket.  None of these two touches the socket, so they
    may run after the socket's operation instead of inside it.  Data is
    handled with the receive thread, below; bytes sent and descriptors closed
    are seen by the network only. *)
Definition on_event (e : event) : M UsbipClient () :=
  match e with
  | EvConnect connected => OnNetworkConnect connected
  | EvError error => OnNetworkError error
  | _ => mret ()
  end.

Fixpoint on_events (handler : event → M UsbipClient ()) (evs : list event) : M UsbipClient () :=
  match evs with
  | [] => mret ()
  | e :: evs' => handler e;; on_events handler evs'
  end.

(** An operation of the socket, and then the callbacks it made. *)
Definition on_socket_with {A} (handler : event → M UsbipClient ()) (m : M TcpSocket A)
    : M UsbipClient A := λ c,
  match m (tcp_client_ c) with
  | Ok (a, s) =>
    (on_events handler (drop (length (events (tcp_client_ c))) (events s));; mret a)
      (c {{ tcp_client_ := s }})
  | Fault e => Fault e
  end.
Definition on_socket {A} : M TcpSocket A → M UsbipClient A := on_socket_with on_event.

(** Serialise and send; the result is that of [Send], for answers that let it
    return. *)
Definition send_message (m : M Z NetworkMessage) (answers : list send_answer)
    : M UsbipClient bool :=
  message ← counted m;
  data ← lift (SerializeMessage message);
  sent ← on_socket (Send data answers);
  match sent with Some ok => mret ok | None => fail OutOfFuel end.

(** One turn of [HeartbeatThread] after its sleep: false when the loop
    ends. *)
Definition heartbeat_turn (answers : list send_answer) : M UsbipClient bool :=
  c ← get;
  if negb (heartbeat_running_ c) || negb (connected_ c) then mret false
  else send_message CreateHeartbeat answers;; mret true.

(** ** Messages *)

Definition device_to_host (x : UsbipDeviceInfo) : UsbipDeviceInfo := x {{
  busnum := ntohl (busnum x); devnum := ntohl (devnum x); UsbipProtocol.speed := ntohl (UsbipProtocol.speed x);
  idVendor := ntohs (idVendor x); idProduct := ntohs (idProduct x);
  bcdDevice := ntohs (bcdDevice x) }}.

(** The loop over the entries: [count] of them as long as whole ones are
    left at [offset], each logged with its path as a C string.  Each turn
    needs 312 more bytes, so the payload's length bounds the turns. *)
Fixpoint read_devices (fuel : nat) (payload : list Z) (count : Z) (offset : nat)
    : res (list UsbipDeviceInfo) :=
  if (0 <? count) && bool_decide (offset + sizeof UsbipDeviceInfo ≤ length payload)%nat then
    match fuel with
    | O => Fault OutOfFuel
    | S fuel' =>
      bytes ← mem_read payload offset (sizeof UsbipDeviceInfo);
      let device_info := device_to_host (struct_load bytes) in
      _ ← c_str (path device_info);
      rest ← read_devices fuel' payload (count - 1) (offset + sizeof UsbipDeviceInfo);
      Ok (device_info :: rest)
    end
  else Ok [].

Definition parse_device_list (payload : list Z) : res (list UsbipDeviceInfo) :=
  if decide (12 ≤ length payload)%nat then
    bytes ← mem_read payload 8 4;
    read_devices (length payload) payload (ntohl (mem_load bytes)) 12
  else Ok [].

Definition HandleDeviceListResponse (message : NetworkMessage) : M UsbipClient () :=
  devices ← lift (parse_device_list (payload message));
  c ← get;
  if device_list_callback_ c then notify (NoticeDevices devices) else mret ().

(** Only logged: success and the error text. *)
Definition HandleDeviceImportResponse (message : NetworkMessage) : bool * list Z :=
  match payload message with
  | [] => (false, [])
  | b :: text => if negb (b =? 0) then (true, []) else (false, text)
  end.

(** The URB made from the payload of URB_SUBMIT, if it has one; [junk] is the
    indeterminate setup packet of the local [urb]. *)
Definition parse_urb (now : Z) (junk : UsbSetupPacket) (payload : list Z) : res (option UsbUrb) :=
  if decide (length payload < sizeof UsbipCmdSubmit)%nat then Ok None
  else
    parsed ← ParseCmdSubmit payload (length payload);
    match parsed with
    | None => Ok None
    | Some cmd_submit =>
      let endpoint := u8 (ep (cmd_header cmd_submit)) in
      let n := transfer_buffer_length cmd_submit in
      let data_offset := sizeof UsbipCmdSubmit in
      data ← (if (0 <? n) && (Z.of_nat data_offset + n <=? Z.of_nat (length payload))
              then mem_read payload data_offset (Z.to_nat n) else Ok []);
      Ok (Some {|
        urb_id := seqnum (cmd_header cmd_submit);
        urb_type := if endpoint =? 0 then CONTROL else BULK;
        urb_direction := UsbDirection_cast (direction (cmd_header cmd_submit));
        urb_endpoint := endpoint;
        urb_flags := transfer_flags cmd_submit;
        urb_data := data;
        urb_setup := if endpoint =? 0
                     then struct_load (mem_store 8 (setup cmd_submit)) else junk;
        urb_status := 0;
        urb_actual_length := u32 (Z.of_nat (length data));
        urb_timestamp := now |})
    end.

Definition HandleUrbSubmit (now : Z) (junk : UsbSetupPacket) (message : NetworkMessage)
    : M UsbipClient () :=
  parsed ← lift (parse_urb now junk (payload message));
  c ← get;
  match parsed with
  | Some urb => if urb_callback_ c then notify (NoticeUrb urb) else mret ()
  | None => mret ()
  end.

Definition HandleHeartbeat (answers : list send_answer) : M UsbipClient () :=
  send_message CreateHeartbeat answers;; mret ().

Definition OnNetworkMessage (now : Z) (junk : UsbSetupPacket) (answers : list send_answer)
    (message : NetworkMessage) : M UsbipClient () :=
  match MessageType_cast (type (header message)) with
  | Some DEVICE_LIST_RESPONSE => HandleDeviceListResponse message
  | Some DEVICE_IMPORT_RESPONSE => let _ := HandleDeviceImportResponse message in mret ()
  | Some URB_SUBMIT => HandleUrbSubmit now junk message
  | Some HEARTBEAT => HandleHeartbeat answers
  | _ => mret ()
  end.

(** The socket's callbacks, in the order the socket calls them; a chunk of
    data goes through the message handler, and each message it delivers to
    [OnNetworkMessage]. *)
Fixpoint on_messages (now : Z) (junk : UsbSetupPacket) (answers : list send_answer)
    (ms : list NetworkMessage) : M UsbipClient () :=
  match ms with
  | [] => mret ()
  | m :: ms' => OnNetworkMessage now junk answers m;; on_messages now junk answers ms'
  end.

Definition OnNetworkData (now : Z) (junk : UsbSetupPacket) (answers : list send_answer)
    (data : list Z) : M UsbipClient () := λ c,
  match ProcessReceivedData data (message_handler_ c) with
  | Ok (ms, mh) => on_messages now junk answers ms (c {{ message_handler_ := mh }})
  | Fault e => Fault e
  end.

(** The chunks one [recv] after the other delivers. *)
Fixpoint OnNetworkChunks (now : Z) (junk : UsbSetupPacket) (answers : list send_answer)
    (chunks : list (list Z)) : M UsbipClient () :=
  match chunks with
  | [] => mret ()
  | data :: chunks' =>
    OnNetworkData now junk answers data;; OnNetworkChunks now junk answers chunks'
  end.

(** ** The receive thread *)

(** One action of the socket's receive thread, its data included. *)
Definition receive_turn (now : Z) (junk : UsbSetupPacket) (answers : list send_answer) (a : action)
    : M UsbipClient () :=
  on_socket_with
    (λ e, match e with EvData data => OnNetworkData now junk answers data | _ => on_event e end)
    (perform a).

Fixpoint receive_turns (now : Z) (junk : UsbSetupPacket) (answers : list send_answer)
    (l : list action) : M UsbipClient () :=
  match l with
  | [] => mret ()
  | a :: l' => receive_turn now junk answers a;; receive_turns now junk answers l'
  end.

(** [tcp_client_->Close()] while the receive thread takes the actions [l];
    false when it is still joining after them. *)
Definition close_socket (now : Z) (junk : UsbSetupPacket) (answers : list send_answer)
    (l : list action) : M UsbipClient bool :=
  on_socket Close_begin;;
  receive_turns now junk answers l;;
  c ← get;
  if joined (receive_thread_ (tcp_client_ c)) then on_socket Close_end;; mret true
  else mret false.

(** ** Requests *)

(** [polls i] is what the load of [connected_] in iteration [i] of the wait
    sees, while the receive thread is already running; [close] is
    [close_socket]. *)
Definition Connect (host : string) (port : Z) (os : os_answers) (polls : nat → bool)
    (close : M UsbipClient bool) : M UsbipClient bool :=
  c ← get;
  if connected_ c then mret true
  else
    modify (λ c, c {{ server_host_ := host; server_port_ := port }});;
    ok ← on_socket (TcpSocket.Connect host os);
    if negb ok then mret false
    else if existsb polls (seq 0 50) then mret true
    else close;; mret false.

(** False while the close is still joining. *)
Definition Disconnect (close : M UsbipClient bool) : M UsbipClient bool :=
  c ← get;
  if negb (connected_ c) then mret true
  else
    StopHeartbeat;;
    closed ← close;
    if negb closed then mret false
    else modify (λ c, c {{ connected_ := false }});; mret true.

Definition request (m : M Z NetworkMessage) (answers : list send_answer)
    : M UsbipClient bool :=
  c ← get;
  if negb (connected_ c) then mret false else send_message m answers.

Definition RequestDeviceList : list send_answer → M UsbipClient bool :=
  request CreateDeviceListRequest.
Definition ImportDevice (bus_id : list Z) : list send_answer → M UsbipClient bool :=
  request (CreateDeviceImportRequest bus_id).
Definition SendUrbResponse (urb : UsbUrb) : list send_answer → M UsbipClient bool :=
  request (CreateUrbResponse urb).
End Client.

(** A message of [n] bytes on a connected client, sent in one write. *)
Section Sending.
Context {h : Host}.

Lemma send_whole t data n :
  is_connected_ t = true → 0 <= socket_fd_ t → length data = n → (0 < n)%nat →
  Send data [Sent n] t = Ok (Some true, t {{ events := events t ++ [EvSend data] }}).
Proof.
  intros Hc Hfd Hl Hn. unfold Send, mbind, M_bind, get. rewrite Hc.
  destruct (Z.ltb_spec (socket_fd_ t) 0); [lia|]. cbn [negb orb].
  destruct data as [|b data]; [cbn in Hl; lia|]. cbn [send_loop].
  unfold mbind, M_bind, emit, modify. by rewrite take_ge, drop_ge by lia.
Qed.

Lemma request_run ty data c n :
  connected_ c = true → is_u32 (messages c) → bytes_ok data →
  Z.of_nat (length data) <= MAX_MESSAGE_SIZE → n = (20 + length data)%nat →
  let t := tcp_client_ c in is_connected_ t = true → 0 <= socket_fd_ t →
  request (NetworkMessage_new ty data) [Sent n] c
  = Ok (true, c {{ messages := u32 (messages c + 1);
                   tcp_client_ := t {{ events := events t ++
        [EvSend (packet_bytes (with_checksum (new_message ty data (messages c))))] }} }}).
Proof.
  intros Hc Hseq Hb Hlen -> t Ht Hfd. pose proof (new_message_ok ty data _ Hseq Hb Hlen) as Hm.
  unfold request, send_message, counted, on_socket, on_socket_with, mbind, M_bind, get, lift.
  rewrite Hc. cbn [negb]. rewrite NetworkMessage_new_run, SerializeMessage_bytes by apply Hm.
  destruct c. cbn in *. subst t. rewrite send_whole; [|done|done| |lia].
  - unfold mbind, M_bind. cbn. by rewrite drop_app_length.
  - rewrite length_packet_bytes by by apply packet_ok_with_checksum. reflexivity.
Qed.
End Sending.

(** ** What arrives in messages *)

Section Parsing.
Context {h : Host}.

(** The entries a payload really holds: as many as announced and as fit. *)
Definition announced (payload : list Z) : Z := be_value (take 4 (drop 8 payload)).
Definition entry (payload : list Z) (i : nat) : UsbipDeviceInfo :=
  device_to_host (struct_load (take 312 (drop (12 + 312 * i) payload))).
Definition entries (payload : list Z) : nat :=
  Nat.min (Z.to_nat (announced payload)) ((length payload - 12) / 312).

Lemma sizeof_UsbipDeviceInfo : sizeof UsbipDeviceInfo = 312%nat.
Proof. reflexivity. Qed.

(** One turn of the loop. *)
Lemma read_devices_more fuel payload count offset :
  0 < count → (offset + 312 ≤ length payload)%nat →
  read_devices (S fuel) payload count offset
  = (let x := device_to_host (struct_load (take 312 (drop offset payload))) in
     _ ← c_str (path x);
     rest ← read_devices fuel payload (count - 1) (offset + 312);
     Ok (x :: rest)).
Proof.
  intros Hc Ho. cbn [read_devices]. rewrite sizeof_UsbipDeviceInfo.
  rewrite (proj2 (Z.ltb_lt 0 count)), bool_decide_true by done. cbn [andb].
  unfold mem_read. by rewrite decide_True.
Qed.

Lemma read_devices_end fuel payload count offset :
  count <= 0 ∨ (length payload < offset + 312)%nat →
  read_devices fuel payload count offset = Ok [].
Proof.
  intros H. assert ((0 <? count) && bool_decide (offset + 312 ≤ length payload)%nat = false) as E.
  { apply andb_false_iff. destruct H; [left; lia|right; apply bool_decide_false; lia]. }
  destruct fuel; cbn [read_devices]; by rewrite sizeof_UsbipDeviceInfo, E.
Qed.

(** The loop from entry [i] on, [n] entries being left. *)
Lemma read_devices_spec payload n i fuel :
  (n ≤ fuel)%nat → (i + n = entries payload)%nat → (12 ≤ length payload)%nat →
  let count := announced payload - Z.of_nat i in
  let l := map (entry payload) (seq i n) in
  read_devices fuel payload count (12 + 312 * i)
  = if bool_decide (Forall (λ x, 0 ∈ path x) l) then Ok l else Fault OutOfBounds.
Proof.
  revert i fuel. induction n as [|n IH]; intros i fuel Hf Hi Hl; cbv zeta.
  - cbn [seq map]. rewrite bool_decide_true by constructor. apply read_devices_end.
    unfold entries in Hi. pose proof (Nat.div_mod_eq (length payload - 12) 312).
    pose proof (Nat.mod_upper_bound (length payload - 12) 312). lia.
  - destruct fuel as [|fuel]; [lia|]. unfold entries in Hi.
    pose proof (Nat.Div0.mul_div_le (length payload - 12) 312).
    rewrite read_devices_more by lia. cbv zeta. cbn [seq map].
    fold (entry payload i).
    destruct (decide (0 ∈ path (entry payload i))) as [Hp|Hp].
    + destruct (c_str_terminated _ Hp) as [t ->]. cbn [mbind res_bind].
      replace (announced payload - Z.of_nat i - 1) with (announced payload - Z.of_nat (S i)) by lia.
      replace (12 + 312 * i + 312)%nat with (12 + 312 * S i)%nat by lia.
      rewrite IH by (unfold entries; lia). cbv zeta.
      destruct (decide (Forall (λ x, 0 ∈ path x) (map (entry payload) (seq (S i) n)))) as [H'|H'].
      * by rewrite !bool_decide_true by auto.
      * rewrite !bool_decide_false; [done|by rewrite Forall_cons; intros [_ ?]|done].
    + rewrite c_str_unterminated by done. rewrite bool_decide_false; [done|].
      by rewrite Forall_cons; intros [? _].
Qed.

Lemma parse_device_list_spec payload :
  bytes_ok payload → (12 ≤ length payload)%nat →
  parse_device_list payload
  = if bool_decide (Forall (λ x, 0 ∈ path x) (map (entry payload) (seq 0 (entries payload))))
    then Ok (map (entry payload) (seq 0 (entries payload))) else Fault OutOfBounds.
Proof.
  intros Hb Hl. unfold parse_device_list. rewrite decide_True by done.
  unfold mem_read. rewrite decide_True by lia. cbn [mbind res_bind].
  assert (ntohl (mem_load (take 4 (drop 8 payload))) = announced payload) as ->.
  { assert (length (take 4 (drop 8 payload)) = 4%nat) as E
      by (rewrite length_take, length_drop; lia).
    unfold ntohl. rewrite <- E at 1. apply hton_mem_load. auto with usb. }
  pose proof (read_devices_spec payload (entries payload) 0 (length payload)) as H.
  rewrite Z.sub_0_r in H. apply H; [|done..].
  unfold entries. pose proof (Nat.Div0.div_le_upper_bound (length payload - 12) 312 (length payload)).
  lia.
Qed.
End Parsing.

(** ** Device lists between hosts of any byte order *)

Lemma device_roundtrip (h1 h2 : Host) x k :
  wf x → device_to_host (h := h2) (struct_load (h := h2) (struct_be_bytes x ++ k)) = x.
Proof.
  intros Hx. rewrite <- (struct_bytes_device_to_network (h := h2)) by done.
  rewrite struct_load_bytes by by apply wf_device_to_network.
  destruct Hx as (_ & _ & _ & _ & Ht).
  destruct x. unfold device_info_tail_layout, device_info_tail in Ht. cbn in Ht. forall2_inv.
  unfold device_to_host, device_to_network. cbn.
  by rewrite !ntohl_htonl, !ntohs_htons.
Qed.

Lemma drop_concat_blocks {A} k (bs : list (list A)) i b :
  Forall (λ b, length b = k) bs → bs !! i = Some b →
  drop (k * i) (concat bs) = b ++ concat (drop (S i) bs).
Proof.
  intros Hk. revert i. induction Hk as [|b' bs Hb _ IH]; intros i Hi; [done|].
  destruct i as [|i]; cbn in Hi.
  - injection Hi as <-. by rewrite Nat.mul_0_r.
  - cbn [concat]. replace (k * S i)%nat with (length b' + k * i)%nat by lia.
    rewrite <- drop_drop, drop_app_length. by apply IH.
Qed.

Section DeviceList.
Context {h : Host}.

Lemma length_device_list_wire devices :
  Forall wf devices → length (device_list_wire devices) = (12 + 312 * length devices)%nat.
Proof.
  intros Hd. unfold device_list_wire. rewrite !length_app, !length_be_bytes.
  enough (length (concat (map struct_be_bytes devices)) = (312 * length devices)%nat) by lia.
  induction Hd as [|x l Hx _ IH]; [done|]. cbn [map concat]. rewrite length_app, IH.
  rewrite length_struct_be_bytes, sizeof_UsbipDeviceInfo by done. cbn [length]. lia.
Qed.

Lemma device_list_wire_ok devices : bytes_ok (device_list_wire devices).
Proof.
  unfold device_list_wire. rewrite !bytes_ok_app. split_and!; try apply be_bytes_ok.
  induction devices as [|x l IH]; [constructor|]. cbn [map concat].
  apply bytes_ok_app. split; [apply struct_be_bytes_ok|done].
Qed.

Lemma announced_device_list devices :
  Z.of_nat (length devices) < 4294967296 →
  announced (device_list_wire devices) = Z.of_nat (length devices).
Proof.
  intros Hn. unfold announced, device_list_wire. rewrite u32_id by (unfold is_u32; lia).
  rewrite !(app_assoc (be_bytes 4 5)).
  change 8%nat with (length (be_bytes 4 5 ++ be_bytes 4 0)). rewrite drop_app_length.
  set (n := Z.of_nat (length devices)) in *.
  rewrite <- (length_be_bytes 4 n) at 1. rewrite take_app_length. apply be_value_be_bytes.
  change (256 ^ Z.of_nat 4) with 4294967296. lia.
Qed.

Lemma entries_device_list devices :
  Forall wf devices → Z.of_nat (length devices) < 4294967296 →
  map (entry (device_list_wire devices)) (seq 0 (entries (device_list_wire devices))) = devices.
Proof.
  intros Hd Hn. unfold entries. rewrite announced_device_list, length_device_list_wire by done.
  replace (12 + 312 * length devices - 12)%nat with (length devices * 312)%nat by lia.
  rewrite Nat.div_mul by lia. rewrite Nat2Z.id, Nat.min_id.
  apply list_eq. intros i. rewrite list_lookup_fmap.
  destruct (decide (i < length devices)%nat) as [Hi|Hi].
  - rewrite lookup_seq_lt by done. cbn [fmap option_fmap option_map Nat.add].
    destruct (lookup_lt_is_Some_2 devices i Hi) as [x Hx]. rewrite Hx. f_equal.
    assert (wf x) as Hw by (by eapply Forall_lookup_1).
    unfold entry. rewrite <- drop_drop.
    replace (drop 12 (device_list_wire devices)) with (concat (map struct_be_bytes devices))
      by (unfold device_list_wire; rewrite 2 app_assoc, drop_app_ge, !length_app, !length_be_bytes;
          [done|by rewrite !length_app, !length_be_bytes]).
    rewrite (drop_concat_blocks 312 _ _ (struct_be_bytes x)).
    + rewrite <- sizeof_UsbipDeviceInfo, <- (length_struct_be_bytes x Hw), take_app_length.
      rewrite <- (app_nil_r (struct_be_bytes x)). by apply device_roundtrip.
    + apply Forall_map. eapply Forall_impl; [exact Hd|]. intros y Hy.
      by rewrite length_struct_be_bytes.
    + by rewrite list_lookup_fmap, Hx.
  - rewrite lookup_seq_ge by lia. by rewrite lookup_ge_None_2 by lia.
Qed.

Lemma parse_device_list_wire devices :
  Forall wf devices → Z.of_nat (length devices) < 4294967296 →
  parse_device_list (device_list_wire devices)
  = if bool_decide (Forall (λ x, 0 ∈ path x) devices) then Ok devices else Fault OutOfBounds.
Proof.
  intros Hd Hn. rewrite parse_device_list_spec.
  - by rewrite entries_device_list.
  - apply device_list_wire_ok.
  - rewrite length_device_list_wire by done. lia.
Qed.
End DeviceList.

(** ** Messages that only reach a callback *)

Section Notices.
Context {h : Host}.
Variables (now : Z) (junk : UsbSetupPacket) (answers : list send_answer).

Definition add_notices (l : list notice) (c : UsbipClient) : UsbipClient :=
  c {{ notices := notices c ++ l }}.
Definition callbacks_set (c : UsbipClient) : Prop :=
  device_list_callback_ c = true ∧ urb_callback_ c = true.

(** The client passes [n] on for the message [m] and does nothing else. *)
Definition passes_on (m : NetworkMessage) (l : list notice) : Prop :=
  ∀ c, callbacks_set c → OnNetworkMessage now junk answers m c = Ok ((), add_notices l c).

Lemma add_notices_app l k c : add_notices k (add_notices l c) = add_notices (l ++ k) c.
Proof. destruct c. unfold add_notices. cbn. by rewrite <- app_assoc. Qed.
Lemma add_notices_nil c : add_notices [] c = c.
Proof. destruct c. unfold add_notices. cbn. by rewrite app_nil_r. Qed.

Lemma on_messages_passes ms ls c :
  Forall2 passes_on ms ls → callbacks_set c →
  on_messages now junk answers ms c = Ok ((), add_notices (concat ls) c).
Proof.
  intros H. revert c. induction H as [|m l ms ls Hm _ IH]; intros c Hc.
  - cbn [on_messages concat]. by rewrite add_notices_nil.
  - cbn [on_messages concat]. unfold mbind, M_bind. rewrite Hm by done.
    rewrite IH by (destruct c; exact Hc). by rewrite add_notices_app.
Qed.

(** Through the message handler, chunk by chunk. *)
Lemma OnNetworkChunks_passes chunks c ms ls mh :
  ProcessChunks chunks (message_handler_ c) = Ok (ms, mh) →
  Forall2 passes_on ms ls → callbacks_set c →
  OnNetworkChunks now junk answers chunks c
  = Ok ((), add_notices (concat ls) (c {{ message_handler_ := mh }})).
Proof.
  revert c ms ls mh. induction chunks as [|data chunks IH]; intros c ms ls mh.
  - cbn. intros [= <- <-] Hl Hc. inversion Hl; subst. destruct c; cbn.
    unfold add_notices. cbn. by rewrite app_nil_r.
  - cbn [ProcessChunks OnNetworkChunks]. unfold mbind, M_bind at 1. unfold OnNetworkData.
    destruct (ProcessReceivedData data (message_handler_ c)) as [[ms1 mh1]|e] eqn:E1; [|done].
    unfold M_bind at 1.
    destruct (ProcessChunks chunks mh1) as [[ms2 mh2]|e] eqn:E2; [|done].
    intros [= <- <-] (l1 & l2 & H1 & H2 & ->)%Forall2_app_inv_l Hc.
    unfold M_bind. rewrite E1, (on_messages_passes ms1 l1) by (try done; destruct c; exact Hc).
    rewrite (IH _ ms2 l2 mh2); [|by destruct c|done|by destruct c].
    rewrite concat_app. destruct c; unfold add_notices; cbn. by rewrite app_assoc.
Qed.
End Notices.

Lemma passes_on_device_list {h : Host} now junk answers devices seq :
  Forall wf devices → Z.of_nat (length devices) < 4294967296 → Forall (λ x, 0 ∈ path x) devices →
  passes_on now junk answers
    (with_checksum (new_message DEVICE_LIST_RESPONSE (device_list_wire devices) seq))
    [NoticeDevices devices].
Proof.
  intros Hd Hn Hp c [Hl _]. unfold OnNetworkMessage.
  cbn [with_checksum new_message header type payload]. rewrite MessageType_cast_val.
  unfold HandleDeviceListResponse. cbn [with_checksum new_message payload].
  rewrite parse_device_list_wire, bool_decide_true by done.
  unfold mbind, M_bind, lift, get. by rewrite Hl.
Qed.

(** One serialised message, in chunks, to a client whose buffer is empty. *)
Lemma OnNetworkChunks_message {h : Host} now junk answers m l w chunks c :
  packet_ok m → SerializeMessage m = Ok w → concat chunks = w →
  passes_on now junk answers (with_checksum m) l → callbacks_set c →
  message_handler_ c = SetMessageCallback MessageHandler_init →
  OnNetworkChunks now junk answers chunks c = Ok ((), add_notices l c).
Proof.
  intros Hm Hw Hch Hl Hc Hmh.
  rewrite (OnNetworkChunks_passes now junk answers chunks c [with_checksum m] [l]
             (SetMessageCallback MessageHandler_init)); [|rewrite Hmh| |done].
  3: by apply Forall2_cons_2; [|apply Forall2_nil_2].
  - destruct c. cbn in Hmh. subst. unfold add_notices. cbn. by rewrite app_nil_r.
  - apply (stream_delivery [m] [w]); [by apply Forall_singleton|by repeat constructor|].
    cbn. by rewrite Hch, app_nil_r.
Qed.

(** ** Properties *)

(** C33: A device list from an arbitrary peer. The receiver looks at as many
    entries as are announced and as fit in the payload, never at bytes past
    it, and the loop terminates; but each entry's path is then logged as a C
    string, so the handler returns the entries exactly if every one of them
    has a terminator within its 256 bytes, and otherwise reads past the
    array. *)
Theorem device_list_untrusted {h : Host} now junk answers m c :
  bytes_ok (payload m) → (12 ≤ length (payload m))%nat → device_list_callback_ c = true →
  MessageType_cast (type (header m)) = Some DEVICE_LIST_RESPONSE →
  let l := map (entry (payload m)) (seq 0 (entries (payload m))) in
  (Forall (λ x, 0 ∈ path x) l →
   OnNetworkMessage now junk answers m c
   = Ok ((), c {{ notices := notices c ++ [NoticeDevices l] }})) ∧
  (Exists (λ x, 0 ∉ path x) l →
   OnNetworkMessage now junk answers m c = Fault OutOfBounds).
Proof.
  intros Hb Hlen Hc Ht l. unfold OnNetworkMessage. rewrite Ht.
  unfold HandleDeviceListResponse. rewrite parse_device_list_spec by done. fold l.
  unfold mbind, M_bind, lift, get. split; intros H.
  - rewrite bool_decide_true by done. by rewrite Hc.
  - rewrite bool_decide_false; [done|]. intros H'. rewrite Exists_exists in H.
    destruct H as (x & Hx & Hp). rewrite Forall_forall in H'. by destruct Hp; apply H'.
Qed.

(** ** Witnesses *)

Definition sample_device : UsbipDeviceInfo := {|
  path := [47; 100; 101; 118] ++ replicate 252 0; busid := [49; 45; 50] ++ replicate 29 0;
  busnum := 1; devnum := 2; UsbipProtocol.speed := 3; idVendor := 0x1234; idProduct := 0x5678;
  bcdDevice := 0x0200; bDeviceClass := 0; bDeviceSubClass := 0; bDeviceProtocol := 0;
  bConfigurationValue := 1; bNumConfigurations := 1; bNumInterfaces := 1 |}.

Definition sample_client : UsbipClient :=
  (UsbipClient_new 1) {{ device_list_callback_ := true; urb_callback_ := true }}.

Definition no_setup : UsbSetupPacket := {|
  bmRequestType := 0; bRequest := 0; wValue := 0; wIndex := 0; wLength := 0 |}.

Lemma sample_device_wf : wf sample_device.
Proof.
  split; [reflexivity|]. split; [by apply bytes_ok_compute|]. split; [reflexivity|].
  split; [by apply bytes_ok_compute|].
  repeat (apply List.Forall2_cons; [by vm_compute|]). apply List.Forall2_nil.
Qed.

(** One announced device, every byte of the entry a slash. *)
Definition hostile_message : NetworkMessage :=
  new_message DEVICE_LIST_RESPONSE (replicate 11 0 ++ [1] ++ replicate 312 47) 1.

Lemma device_list_untrusted_witness :
  OnNetworkMessage (h := LittleEndian) 0 no_setup [] hostile_message sample_client
  = Fault OutOfBounds.
Proof.
  apply (device_list_untrusted (h := LittleEndian) 0 no_setup [] hostile_message sample_client).
  - by apply bytes_ok_compute.
  - vm_compute. lia.
  - reflexivity.
  - reflexivity.
  - assert (seq 0 (entries (payload hostile_message)) = [0%nat]) as -> by (by vm_compute).
    cbn [map]. apply Exists_cons_hd.
    assert (path (entry (h := LittleEndian) (payload hostile_message) 0) = replicate 256 47) as ->
      by (by vm_compute).
    rewrite elem_of_replicate. intros [? _]. lia.
Defined.
