(* ===== verification/ReverseClient.v ===== *)
(** * ReverseClient: a client with automatic reconnection

    [sender/reverse_client.cpp], class [ReverseClient] (no program of the
    repository uses it).  The loop of [ReconnectThread] is cut into turns;
    the clocks and what the other threads do during its waits are arguments.
    [mutex_] only guards [ConnectToServer] against itself.  The destructor
    destroys the members, the last declared first. *)

From S2P Require Import Prelude Memory UsbTypes UsbipProtocol MessageHandler TcpSocket.

(** [reconnect_thread_] is [None] when not joinable, else whether the thread's
    loop is still running. What the callbacks get is the list [calls]. *)
Inductive call := CallConnect (connected : bool) | CallMessage (message : NetworkMessage).

Record ReverseClient := {
  tcp_client_ : TcpSocket;
  message_handler_ : MessageHandler;
  client_connect_callback_ : bool;
  client_message_callback_ : bool;
  connected_ : bool;
  auto_reconnect_ : bool;
  should_stop_ : bool;
  server_host_ : string;
  server_port_ : Z;
  reconnect_interval_ : Z;
  reconnect_thread_ : option bool;
  calls : list call;
}.

Definition ReverseClient_new : ReverseClient := {|
  tcp_client_ := SetErrorCallback (SetDataCallback (SetConnectCallback TcpSocket_init));
  message_handler_ := SetMessageCallback MessageHandler_init;
  client_connect_callback_ := false; client_message_callback_ := false;
  connected_ := false; auto_reconnect_ := false; should_stop_ := false;
  server_host_ := ""; server_port_ := 3240; reconnect_interval_ := 5;
  reconnect_thread_ := None; calls := [] |}.

Section Client.
Context {h : Host}.

(** ** Callbacks of the socket and the handler *)

Definition OnNetworkConnect (connected : bool) : M ReverseClient () :=
  modify (λ c, c {{ connected_ := connected }});;
  modify (λ c, if client_connect_callback_ c
               then c {{ calls := calls c ++ [CallConnect connected] }} else c).

Definition OnNetworkError (error : string) : M ReverseClient () :=
  modify (λ c, c {{ connected_ := false }}).

Definition OnNetworkMessage (message : NetworkMessage) : M ReverseClient () :=
  modify (λ c, if client_message_callback_ c
               then c {{ calls := calls c ++ [CallMessage message] }} else c).

Fixpoint on_messages (ms : list NetworkMessage) : M ReverseClient () :=
  match ms with
  | [] => mret ()
  | m :: ms' => OnNetworkMessage m;; on_messages ms'
  end.

Definition OnNetworkData (data : list Z) : M ReverseClient () := λ c,
  match ProcessReceivedData data (message_handler_ c) with
  | Ok (ms, mh) => on_messages ms (c {{ message_handler_ := mh }})
  | Fault e => Fault e
  end.

Definition on_event (e : event) : M ReverseClient () :=
  match e with
  | EvConnect connected => OnNetworkConnect connected
  | EvError error => OnNetworkError error
  | EvData data => OnNetworkData data
  | _ => mret ()
  end.

Fixpoint on_events (evs : list event) : M ReverseClient () :=
  match evs with
  | [] => mret ()
  | e :: evs' => on_event e;; on_events evs'
  end.

(** An operation of the socket, then the callbacks it made; none of them
    touches the socket. *)
Definition on_socket {A} (m : M TcpSocket A) : M ReverseClient A := λ c,
  match m (tcp_client_ c) with
  | Ok (a, s) =>
    (on_events (drop (length (events (tcp_client_ c))) (events s));; mret a)
      (c {{ tcp_client_ := s }})
  | Fault e => Fault e
  end.

(** [Close] while the receive thread takes the actions [l]; false when it is
    still joining after them. *)
Fixpoint socket_actions (l : list action) : M ReverseClient () :=
  match l with
  | [] => mret ()
  | a :: l' => on_socket (perform a);; socket_actions l'
  end.
Definition close_socket (l : list action) : M ReverseClient bool :=
  on_socket Close_begin;;
  socket_actions l;;
  c ← get;
  if joined (receive_thread_ (tcp_client_ c)) then on_socket Close_end;; mret true
  else mret false.

(** ** Operations of the owner *)

(** [polls]: what the loads of [connected_] in the wait see. *)
Definition ConnectToServer (host : string) (port : Z) (os : os_answers) (polls : nat → bool)
    (close : M ReverseClient bool) : M ReverseClient bool :=
  c ← get;
  if connected_ c then mret true
  else
    modify (λ c, c {{ server_host_ := host; server_port_ := port }});;
    ok ← on_socket (Connect host os);
    if negb ok then mret false
    else if existsb polls (seq 0 50) then mret true
    else close;; mret false.

(** The join of the reconnect thread returns once its loop has seen the
    flags. False while the close is joining. *)
Definition Disconnect (close : M ReverseClient bool) : M ReverseClient bool :=
  modify (λ c, c {{ should_stop_ := true; auto_reconnect_ := false; reconnect_thread_ := None }});;
  c ← get;
  if connected_ c then
    closed ← close;
    if closed : bool then modify (λ c, c {{ connected_ := false }});; mret true else mret false
  else mret true.

Definition SendMessage (message : NetworkMessage) (answers : list send_answer)
    : M ReverseClient bool :=
  c ← get;
  if negb (connected_ c) then mret false
  else
    data ← lift (SerializeMessage message);
    sent ← on_socket (Send data answers);
    match sent with Some ok => mret ok | None => fail OutOfFuel end.

Definition EnableAutoReconnect (enable : bool) (interval_seconds : Z) : M ReverseClient () :=
  modify (λ c, c {{ auto_reconnect_ := enable; reconnect_interval_ := interval_seconds }});;
  modify (λ c, if enable && bool_decide (reconnect_thread_ c = None)
               then c {{ should_stop_ := false; reconnect_thread_ := Some true }} else c).

(** ** The reconnect thread *)

(** One turn of the loop: its test, and up to its wait the body, in which
    [confirmed] is what the load of [connected_] after the short wait sees. *)
Definition reconnect_turn (os : os_answers) (confirmed : bool) (close : M ReverseClient bool)
    : M ReverseClient () :=
  c ← get;
  if should_stop_ c || negb (auto_reconnect_ c)
  then modify (λ c, c {{ reconnect_thread_ := Some false }})
  else if connected_ c then mret ()
  else
    ok ← on_socket (Connect (server_host_ c) os);
    if negb ok then mret ()
    else if confirmed then mret ()
    else close;; mret ().

(** ** Destruction *)

(** The callbacks of the socket when the members after it are gone: the
    handler, and the callbacks of the client; the flags are atomics, which
    need no destructor. *)
Definition on_last_event (e : event) : M ReverseClient () :=
  match e with
  | EvConnect connected => modify (λ c, c {{ connected_ := connected }});; fail OutOfBounds
  | EvData _ => fail OutOfBounds
  | _ => on_event e
  end.
Fixpoint on_last_events (evs : list event) : M ReverseClient () :=
  match evs with
  | [] => mret ()
  | e :: evs' => on_last_event e;; on_last_events evs'
  end.
Definition on_last_socket {A} (m : M TcpSocket A) : M ReverseClient A := λ c,
  match m (tcp_client_ c) with
  | Ok (a, s) =>
    (on_last_events (drop (length (events (tcp_client_ c))) (events s));; mret a)
      (c {{ tcp_client_ := s }})
  | Fault e => Fault e
  end.

(** [~TcpSocket] of the member [tcp_client_], declared first and destroyed
    last, the threads taking the actions [l]. *)
Fixpoint last_actions (l : list action) : M ReverseClient () :=
  match l with
  | [] => mret ()
  | a :: l' =>
    c ← get;
    (if enabled (tcp_client_ c) a then on_last_socket (perform a) else mret ());;
    last_actions l'
  end.
Definition close_member (l : list action) : M ReverseClient bool :=
  on_last_socket Close_begin;;
  last_actions l;;
  c ← get;
  if enabled (tcp_client_ c) DoCloseEnd then on_last_socket Close_end;; mret true else mret false.

(** [~ReverseClient]: [Disconnect], which joins the reconnect thread, and then
    the members; false while a close is joining. *)
Definition ReverseClient_destructor (close : M ReverseClient bool) (l : list action)
    : M ReverseClient bool :=
  disconnected ← Disconnect close;
  if negb disconnected then mret false else close_member l.

(** The thread takes a turn only while its loop runs. *)
Definition reconnect_enabled (c : ReverseClient) : bool :=
  match reconnect_thread_ c with Some running => running | None => false end.
End Client.

(** ** Runs *)

Section Runs.
Context {h : Host}.

(** A socket operation whose only event is a connect notification. *)
Lemma on_socket_connect {A} (m : M TcpSocket A) a b s c :
  m (tcp_client_ c) = Ok (a, s) → events s = events (tcp_client_ c) ++ [EvConnect b] →
  ∃ c', on_socket m c = Ok (a, c') ∧ tcp_client_ c' = s ∧ connected_ c' = b ∧
    auto_reconnect_ c' = auto_reconnect_ c ∧ should_stop_ c' = should_stop_ c ∧
    server_host_ c' = server_host_ c.
Proof.
  intros Hm He. unfold on_socket. rewrite Hm, He, drop_app_length.
  destruct c as [t mh cc cm con ar st ho po iv th ca].
  unfold on_events, on_event, OnNetworkConnect, modify, mbind, M_bind, mret, M_ret. cbn.
  destruct cc; cbn; by eexists.
Qed.

Lemma on_socket_quiet {A} (m : M TcpSocket A) a s c :
  m (tcp_client_ c) = Ok (a, s) → events s = events (tcp_client_ c) →
  on_socket m c = Ok (a, c {{ tcp_client_ := s }}).
Proof. intros Hm He. unfold on_socket. rewrite Hm, He, drop_ge by done. done. Qed.

Lemma Connect_established host os t t' :
  connect_callback_ t = true → Connect host os t = Ok (true, t') →
  events t' = events t ++ [EvConnect true] ∧ is_connected_ t' = true ∧
  TcpSocket.should_stop_ t' = false ∧ receive_thread_ t' = Some AtTest ∧
  connect_callback_ t' = true.
Proof.
  intros Hcb. unfold Connect, give_up_socket, NotifyError, NotifyConnect, emit, start_thread, modify,
    get, lift, mbind, M_bind, mret, M_ret.
  destruct t as [fd conn lis stop rx ax cfds cth dcb ecb ccb evs]. cbn in *. subst ccb.
  destruct conn; [done|]. cbn. destruct (os_socket os <? 0); [by destruct ecb|].
  destruct (os_pton os <=? 0); [by destruct ecb|]. destruct (os_connect os <? 0); [by destruct ecb|].
  cbn. destruct rx; [done|]. cbn. by intros [= <-].
Qed.

(** The peer closes the connection while the receive thread waits. *)
Lemma peer_closes t :
  is_connected_ t = true → TcpSocket.should_stop_ t = false → connect_callback_ t = true →
  ∃ t1 t2, perform ReceiveTest t = Ok ((), t1) ∧ perform (ReceiveAnswer Closed) t1 = Ok ((), t2) ∧
    events t1 = events t ∧ events t2 = events t ++ [EvConnect false] ∧
    is_connected_ t2 = false ∧ receive_thread_ t2 = Some Done.
Proof.
  destruct t as [fd conn lis stop rx ax cfds cth dcb ecb ccb evs]. cbn. intros -> -> ->.
  by eexists _, _.
Qed.
End Runs.

(** ** Properties *)

(** Automatic reconnection terminates the program. After a connection that
    [ConnectToServer] established is closed by the peer, the reconnect
    thread's next attempt that gets through to a server assigns a new receive
    thread to the old one, which is over but not joined: [std::terminate]. *)
Theorem reconnect_terminates {h : Host} host port os polls close c0 c1 os' confirmed close' :
  connect_callback_ (tcp_client_ c0) = true → connected_ c0 = false →
  ConnectToServer host port os polls close c0 = Ok (true, c1) →
  should_stop_ c1 = false → auto_reconnect_ c1 = true → os_connects os' = true →
  ∃ c2, socket_actions [ReceiveTest; ReceiveAnswer Closed] c1 = Ok ((), c2) ∧
    connected_ c2 = false ∧ reconnect_turn os' confirmed close' c2 = Fault StdTerminate.
Proof.
  intros Hcb Hn Hrun Hstop Hauto Hos.
  assert (∃ t, Connect host os (tcp_client_ c0) = Ok (true, t) ∧ tcp_client_ c1 = t) as (t & Ht & E1).
  { unfold ConnectToServer, mbind, M_bind, get in Hrun. rewrite Hn in Hrun. cbn [modify] in Hrun.
    set (c0' := c0 {{ server_host_ := host; server_port_ := port }}) in *.
    assert (tcp_client_ c0' = tcp_client_ c0) as E by done.
    unfold modify in Hrun. fold c0' in Hrun.
    destruct (Connect host os (tcp_client_ c0)) as [[[] t]|e] eqn:Ec.
    - destruct (Connect_established host os _ t Hcb Ec) as (He & _).
      destruct (on_socket_connect (Connect host os) true true t c0') as (c' & Hr & Htcp & _);
        [by rewrite E|by rewrite E|].
      rewrite Hr in Hrun. cbn [negb] in Hrun. exists t. split; [done|].
      destruct (existsb polls (seq 0 50)); [by injection Hrun as <-|].
      destruct (close c') as [[? ?]|]; done.
    - exfalso. unfold on_socket in Hrun. rewrite E, Ec in Hrun. unfold mbind, M_bind in Hrun.
      destruct (on_events _ _) as [[[] c']|]; done.
    - exfalso. unfold on_socket in Hrun. by rewrite E, Ec in Hrun. }
  destruct (Connect_established _ _ _ _ Hcb Ht) as (_ & Hc & Hs & Hrx & Hcb'). rewrite <- E1 in *.
  destruct (peer_closes _ Hc Hs Hcb') as (t1 & t2 & H1 & H2 & He1 & He2 & Hc2 & Hrx2).
  pose proof (on_socket_quiet _ _ _ _ H1 He1) as R1.
  destruct (on_socket_connect (perform (ReceiveAnswer Closed)) () false t2 (c1 {{ tcp_client_ := t1 }}))
    as (c2 & R2 & Htcp & Hcon & Ha & Hst & _); [done|cbn; by rewrite He1|].
  exists c2. split.
  { cbn [socket_actions]. unfold mbind, M_bind. by rewrite R1, R2. }
  split; [done|]. unfold reconnect_turn, mbind, M_bind, get.
  replace (should_stop_ c2) with false by (rewrite Hst; by destruct c1).
  replace (auto_reconnect_ c2) with true by (rewrite Ha; by destruct c1).
  cbn [negb orb]. rewrite Hcon. unfold on_socket.
  destruct (Connect_cases (server_host_ c2) os' (tcp_client_ c2)) as [(s' & _ & _ & _ & [H|H])|(_ & _ & H)].
  - rewrite Htcp in H. congruence.
  - congruence.
  - rewrite Htcp, Hrx2 in H. by rewrite Htcp, H.
Qed.

(** Once its loop has ended, the reconnect thread is not started again:
    after a turn that saw the flag cleared by [EnableAutoReconnect(false)], no
    later call enabling it has a thread to act on, though the flag is set;
    called before that turn, it just goes on. *)
Theorem auto_reconnect_not_restarted {h : Host} os confirmed close c n n' :
  reconnect_thread_ c = Some true →
  ∃ c1 c2 c3, EnableAutoReconnect false n c = Ok ((), c1) ∧
    reconnect_turn os confirmed close c1 = Ok ((), c2) ∧
    EnableAutoReconnect true n' c2 = Ok ((), c3) ∧
    auto_reconnect_ c3 = true ∧ reconnect_thread_ c3 = Some false ∧ reconnect_enabled c3 = false ∧
    ∃ c2', EnableAutoReconnect true n' c1 = Ok ((), c2') ∧ reconnect_enabled c2' = true.
Proof.
  intros Ht. destruct c as [t mh cc cm con ar st ho po iv th ca]. cbn in Ht. subst th.
  do 3 eexists. split; [reflexivity|]. split.
  { unfold reconnect_turn, mbind, M_bind, get. cbn. rewrite orb_true_r. reflexivity. }
  split; [reflexivity|]. split_and!; try done. eexists. by split.
Qed.

(** The callbacks of a socket stay set. *)
Definition keeps_callback (s s' : TcpSocket) : Prop := connect_callback_ s' = connect_callback_ s.
#[export] Instance keeps_callback_preorder : PreOrder keeps_callback.
Proof. split; [done|]. intros s1 s2 s3 E1 E2. unfold keeps_callback in *. congruence. Qed.

Lemma action_callback a : changes keeps_callback a.
Proof.
  destruct a; try (action; reflexivity). unfold changes. cbn [perform]. respects.
  apply respects_Send; [apply _|]. done.
Qed.

Definition client_callback (c c' : ReverseClient) : Prop := keeps_callback (tcp_client_ c) (tcp_client_ c').
#[export] Instance client_callback_preorder : PreOrder client_callback.
Proof. split; [by intros c|]. intros c1 c2 c3 E1 E2. unfold client_callback in *. by etrans. Qed.

Section Destruction.
Context {h : Host}.

Lemma callback_on_event e : respects client_callback (on_event e).
Proof.
  destruct e as [|con|data| |]; cbn [on_event]; unfold OnNetworkConnect, OnNetworkError; respects;
    intros; try (by case_match); try done.
  intros c a c'. unfold OnNetworkData. destruct (ProcessReceivedData data _) as [[ms mh]|]; [|done].
  assert (respects client_callback (on_messages ms)) as Hms.
  { induction ms as [|m ms IH]; cbn [on_messages]; unfold OnNetworkMessage; respects; [by case_match|done]. }
  intros Hrun. exact (Hms _ _ _ Hrun).
Qed.

Lemma callback_on_socket {A} (m : M TcpSocket A) :
  respects keeps_callback m → respects client_callback (on_socket m).
Proof.
  intros Hm c a c'. unfold on_socket. destruct (m (tcp_client_ c)) as [[b s]|] eqn:E; [|done].
  assert (∀ evs, respects client_callback (on_events evs;; mret b)) as Hevs.
  { intros evs. respects. induction evs as [|e evs IH]; cbn [on_events]; respects; [apply callback_on_event|done]. }
  intros Hrun. pose proof (Hevs _ _ _ _ Hrun) as E2. unfold client_callback in *.
  etrans; [by apply (Hm _ _ _ E)|exact E2].
Qed.

Lemma callback_Disconnect l : respects client_callback (Disconnect (close_socket l)).
Proof.
  unfold Disconnect, close_socket. respects; try done; try apply callback_on_socket.
  - apply (action_callback DoCloseBegin).
  - induction l as [|act l IH]; cbn [socket_actions]; respects; [apply callback_on_socket, action_callback|done].
  - apply (action_callback DoCloseEnd).
Qed.

Lemma callback_on_last_socket {A} (m : M TcpSocket A) :
  respects keeps_callback m → respects client_callback (on_last_socket m).
Proof.
  intros Hm c a c'. unfold on_last_socket. destruct (m (tcp_client_ c)) as [[b s]|] eqn:E; [|done].
  assert (∀ evs, respects client_callback (on_last_events evs;; mret b)) as Hevs.
  { intros evs. respects. induction evs as [|e evs IH]; cbn [on_last_events]; respects; [|done].
    destruct e; cbn [on_last_event]; respects; try apply callback_on_event; done. }
  intros Hrun. pose proof (Hevs _ _ _ _ Hrun) as E2. unfold client_callback in *.
  etrans; [by apply (Hm _ _ _ E)|exact E2].
Qed.

(** The report of the disconnection. *)
Lemma last_close_end c : connect_callback_ (tcp_client_ c) = true → on_last_socket Close_end c = Fault OutOfBounds.
Proof.
  destruct c as [[fd conn lis stop rx ax cfds cth dcb ecb ccb evs] mh cc cm con ar st ho po iv th ca]. cbn.
  intros ->. unfold on_last_socket, Close_end, NotifyConnect, emit, modify, get, mbind, M_bind. cbn.
  by rewrite drop_app_length.
Qed.

(** A [ReverseClient] cannot be destroyed. Its destructor ends with that of the
    socket, whose [Close] reports the disconnection whether there was a
    connection or not, to a client whose callbacks have been destroyed. So the
    destructor never returns; without a connection it uses a destroyed
    callback at once. *)
Theorem reverse_client_destructor l l' c :
  connect_callback_ (tcp_client_ c) = true →
  (∀ c', ReverseClient_destructor (close_socket l) l' c ≠ Ok (true, c')) ∧
  (connected_ c = false → receive_thread_ (tcp_client_ c) = None → accept_thread_ (tcp_client_ c) = None →
   socket_fd_ (tcp_client_ c) < 0 →
   ReverseClient_destructor (close_socket l) [] c = Fault OutOfBounds).
Proof.
  intros Hcb. split.
  - intros c' Hrun. unfold ReverseClient_destructor in Hrun.
    destruct (Disconnect (close_socket l) c) as [[[] c1]|] eqn:E1; unfold mbind, M_bind in Hrun; rewrite E1 in Hrun; try done.
    cbn [negb] in Hrun. unfold close_member, mbind, M_bind, get in Hrun.
    destruct (on_last_socket Close_begin c1) as [[[] c2]|] eqn:E2; [|done].
    destruct (last_actions l' c2) as [[[] c3]|] eqn:E3; [|done].
    destruct (enabled (tcp_client_ c3) DoCloseEnd); [|done].
    assert (connect_callback_ (tcp_client_ c3) = true) as Hcb3.
    { assert (client_callback c c3) as ->; [|done].
      etrans; [exact (callback_Disconnect _ _ _ _ E1)|].
      etrans; [exact (callback_on_last_socket _ (action_callback DoCloseBegin) _ _ _ E2)|].
      assert (respects client_callback (last_actions l')) as Hl; [|exact (Hl _ _ _ E3)].
      clear. induction l' as [|a l' IH]; cbn [last_actions]; respects; [|done].
      apply callback_on_last_socket, action_callback. }
    by rewrite last_close_end in Hrun.
  - intros Hc Hrx Hax Hfd.
    destruct c as [[fd conn lis stop rx ax cfds cth dcb ecb ccb evs] mh cc cm con ar st ho po iv th ca]. cbn in *.
    subst con rx ax ccb. unfold ReverseClient_destructor, Disconnect, close_member, last_actions, on_last_socket,
      Close_begin, modify, get, mbind, M_bind. cbn.
    destruct (Z.geb_spec fd 0); [lia|]. cbn. rewrite drop_app_length.
    assert (∀ fds c, on_last_events (map EvClose fds) c = Ok ((), c)) as Hmap
      by (induction fds as [|x fds IH]; intros c; [done|]; cbn; unfold mbind, M_bind; cbn; apply IH).
    rewrite Hmap. unfold Close_end, NotifyConnect, emit, modify, get, mbind, M_bind. cbn. by rewrite drop_app_length.
Qed.
End Destruction.

(** ** Witnesses *)

Lemma reverse_client_destructor_witness :
  ReverseClient_destructor (h := LittleEndian) (close_socket (h := LittleEndian) []) [] ReverseClient_new
  = Fault OutOfBounds.
Proof.
  destruct (reverse_client_destructor (h := LittleEndian) [] [] ReverseClient_new) as [_ H]; [reflexivity|].
  apply H; reflexivity.
Defined.

Definition os_fine : os_answers := {|
  os_socket := 4; os_setsockopt := 0; os_pton := 1; os_bind := 0; os_listen := 0; os_connect := 0;
  os_errno := "" |}.

Definition enabled_client : ReverseClient :=
  ReverseClient_new {{ auto_reconnect_ := true; reconnect_thread_ := Some true }}.

Lemma reconnect_terminates_witness :
  ∃ c1 c2, ConnectToServer (h := LittleEndian) "10.0.0.1" 3240 os_fine (λ _, true) (mret true)
             enabled_client = Ok (true, c1) ∧
    socket_actions (h := LittleEndian) [ReceiveTest; ReceiveAnswer Closed] c1 = Ok ((), c2) ∧
    reconnect_turn (h := LittleEndian) os_fine true (mret true) c2 = Fault StdTerminate.
Proof.
  eexists. destruct (reconnect_terminates (h := LittleEndian) "10.0.0.1" 3240 os_fine (λ _, true)
    (mret true) enabled_client
    (match ConnectToServer (h := LittleEndian) "10.0.0.1" 3240 os_fine (λ _, true) (mret true)
       enabled_client with Ok (_, c) => c | Fault _ => enabled_client end)
    os_fine true (mret true)) as (c2 & H1 & _ & H2).
  - reflexivity.
  - reflexivity.
  - vm_compute. reflexivity.
  - vm_compute. reflexivity.
  - vm_compute. reflexivity.
  - reflexivity.
  - exists c2. split; [|split; [exact H1|exact H2]]. vm_compute. reflexivity.
Defined.

Lemma auto_reconnect_not_restarted_witness :
  ∃ c1 c2 c3, EnableAutoReconnect false 5 enabled_client = Ok ((), c1) ∧
    reconnect_turn (h := LittleEndian) os_fine true (mret true) c1 = Ok ((), c2) ∧
    EnableAutoReconnect true 5 c2 = Ok ((), c3) ∧ reconnect_enabled c3 = false.
Proof.
  destruct (auto_reconnect_not_restarted (h := LittleEndian) os_fine true (mret true) enabled_client 5 5)
    as (c1 & c2 & c3 & H1 & H2 & H3 & _ & _ & H4 & _); [reflexivity|].
  exists c1, c2, c3. split; [exact H1|split; [exact H2|split; [exact H3|exact H4]]].
Defined.
