(* ===== verification/Sender.v ===== *)
(** * Sender: the program on the side of the devices

    [sender/main.cpp], class [UsbSender]: it owns a device manager, a URB
    capture, a listening [TcpSocket] and a [MessageHandler], answers the
    requests of receivers and sends every captured URB as a message.  The
    drivers are shared with the capture, so they live in a heap.  [main],
    [Run] and the invariant are in [SenderMain.v]. *)

From S2P Require Import Prelude Memory UsbTypes UsbipProtocol MessageHandler TcpSocket UsbDeviceManager MassStorage UrbCapture UrbProcessor.
From stdpp Require Import gmap.
Open Scope Z_scope.

(** ** State *)

(** [messages] is the process-wide counter of message sequence numbers, and
    [next_object] the next free address of the heap of drivers. *)
Record UsbSender (L : Type) := {
  running_ : bool;
  server_port_ : Z;
  device_manager_ : UsbDeviceManager;
  urb_capture_ : UrbCapture;
  message_handler_ : MessageHandler;
  tcp_server_ : TcpSocket;
  mass_storage_devices_ : list nat;
  drivers : gmap nat (MassStorageDevice (SenderUsbDevice L));
  next_object : nat;
  messages : Z;
}.
Arguments running_ {L} _.
Arguments server_port_ {L} _.
Arguments device_manager_ {L} _.
Arguments urb_capture_ {L} _.
Arguments message_handler_ {L} _.
Arguments tcp_server_ {L} _.
Arguments mass_storage_devices_ {L} _.
Arguments drivers {L} _.
Arguments next_object {L} _.
Arguments messages {L} _.

Definition UsbSender_new {L} (seq : Z) : UsbSender L := {|
  running_ := false; server_port_ := 3240; device_manager_ := UsbDeviceManager_init;
  urb_capture_ := UrbCapture_init; message_handler_ := MessageHandler_init;
  tcp_server_ := TcpSocket_init; mass_storage_devices_ := []; drivers := ∅; next_object := 0%nat;
  messages := seq |}.

(** [strncpy(dst, src, n)]: the characters up to the terminator, padded with
    zeros to [n]. *)
Fixpoint strncpy (n : nat) (src : list Z) : list Z :=
  match n with
  | O => []
  | S n' =>
    match src with
    | [] => 0 :: strncpy n' []
    | c :: src' => if c =? 0 then replicate n 0 else c :: strncpy n' src'
    end
  end.

Section Sender.
Context {h : Host} {L : Type} `{Libusb L}.
Implicit Types (s : UsbSender L).

(** ** Effects *)

Definition on_server {A} (m : M TcpSocket A) : M (UsbSender L) A := λ s,
  match m (tcp_server_ s) with
  | Ok (a, t) => Ok (a, s {{ tcp_server_ := t }})
  | Fault e => Fault e
  end.
Definition on_manager {A} (m : M UsbDeviceManager A) : M (UsbSender L) A := λ s,
  match m (device_manager_ s) with
  | Ok (a, d) => Ok (a, s {{ device_manager_ := d }})
  | Fault e => Fault e
  end.
Definition on_capture {A} (m : M UrbCapture A) : M (UsbSender L) A := λ s,
  match m (urb_capture_ s) with
  | Ok (a, c) => Ok (a, s {{ urb_capture_ := c }})
  | Fault e => Fault e
  end.

(** The driver objects. *)
Definition driver_at (id : nat) : M (UsbSender L) (MassStorageDevice (SenderUsbDevice L)) := λ s,
  match drivers s !! id with Some d => Ok (d, s) | None => Fault OutOfBounds end.
Fixpoint drivers_at (ids : list nat)
    : M (UsbSender L) (list (MassStorageDevice (SenderUsbDevice L))) :=
  match ids with
  | [] => mret []
  | id :: ids' => d ← driver_at id; ds ← drivers_at ids'; mret (d :: ds)
  end.

Definition counted (m : M Z NetworkMessage) : M (UsbSender L) NetworkMessage := λ s,
  match m (messages s) with
  | Ok (a, seq) => Ok (a, s {{ messages := seq }})
  | Fault e => Fault e
  end.

(** Serialise and send on the server's socket, with answers that let the call
    return. *)
Definition send (message : NetworkMessage) (answers : list send_answer)
    : M (UsbSender L) bool :=
  data ← lift (SerializeMessage message);
  sent ← on_server (Send data answers);
  match sent with Some ok => mret ok | None => fail OutOfFuel end.

(** ** Requests *)

(** The entry of a device in the list. *)
Definition device_entry (device : MassStorageDevice (SenderUsbDevice L)) : UsbipDeviceInfo :=
  let usb := MassStorage.device device in
  let dev_info := device_info_ usb in
  let descriptor := dev_descriptor dev_info in
  {| path := strncpy (256 - 1) (string_bytes (GetPath (device_ usb))) ++ [0];
     busid := strncpy (32 - 1) (string_bytes (GetBusId (device_ usb))) ++ [0];
     busnum := dev_bus_number dev_info;
     devnum := dev_device_number dev_info;
     UsbipProtocol.speed := UsbSpeed_val (dev_speed dev_info);
     idVendor := dd_idVendor descriptor;
     idProduct := dd_idProduct descriptor;
     bcdDevice := dd_bcdDevice descriptor;
     bDeviceClass := dd_bDeviceClass descriptor;
     bDeviceSubClass := dd_bDeviceSubClass descriptor;
     bDeviceProtocol := dd_bDeviceProtocol descriptor;
     bConfigurationValue := 1;
     bNumConfigurations := dd_bNumConfigurations descriptor;
     bNumInterfaces := 1 |}.

Definition device_list_response : M (UsbSender L) NetworkMessage :=
  s ← get;
  devices ← drivers_at (mass_storage_devices_ s);
  counted (CreateDeviceListResponse (map device_entry devices)).

Definition import_response (message : NetworkMessage) : M (UsbSender L) NetworkMessage :=
  s ← get;
  devices ← drivers_at (mass_storage_devices_ s);
  let bus_id := payload message in
  let found := existsb (λ device : MassStorageDevice (SenderUsbDevice L),
    bool_decide (string_bytes (GetBusId (device_ (MassStorage.device device))) = bus_id)) devices in
  counted (CreateDeviceImportResponse found (if found then "" else "Device not found")).

Definition HandleDeviceListRequest (answers : list send_answer) : M (UsbSender L) () :=
  response ← device_list_response; send response answers;; mret ().
Definition HandleDeviceImportRequest (message : NetworkMessage) (answers : list send_answer)
    : M (UsbSender L) () :=
  response ← import_response message; send response answers;; mret ().
Definition HandleHeartbeat (answers : list send_answer) : M (UsbSender L) () :=
  response ← counted CreateHeartbeat; send response answers;; mret ().

Definition OnNetworkMessage (answers : list send_answer) (message : NetworkMessage)
    : M (UsbSender L) () :=
  match MessageType_cast (type (header message)) with
  | Some DEVICE_LIST_REQUEST => HandleDeviceListRequest answers
  | Some DEVICE_IMPORT_REQUEST => HandleDeviceImportRequest message answers
  | Some HEARTBEAT => HandleHeartbeat answers
  | _ => mret ()
  end.

Fixpoint on_messages (answers : list send_answer) (ms : list NetworkMessage) : M (UsbSender L) () :=
  match ms with
  | [] => mret ()
  | m :: ms' => OnNetworkMessage answers m;; on_messages answers ms'
  end.

(** The socket's data callback; one handler serves the clients of every
    thread. *)
Definition OnNetworkData (answers : list send_answer) (data : list Z) : M (UsbSender L) () := λ s,
  match ProcessReceivedData data (message_handler_ s) with
  | Ok (ms, mh) => on_messages answers ms (s {{ message_handler_ := mh }})
  | Fault e => Fault e
  end.

(** ** Captured URBs *)

(** The message: a processor is made for each URB. *)
Definition captured_message (urb : UsbUrb) : M (UsbSender L) NetworkMessage := λ s,
  match CreateUsbipSubmit urb (UrbProcessor_init, messages s) with
  | Ok (message, (_, seq)) => Ok (message, s {{ messages := seq }})
  | Fault e => Fault e
  end.

Definition OnUrbCaptured (urb : UsbUrb) (answers : list send_answer) : M (UsbSender L) () :=
  message ← captured_message urb; send message answers;; mret ().

(** ** Devices *)

(** [std::make_shared<MassStorageDevice>(usb_device)] and [Initialize]; the
    driver is kept if that succeeds.  [csw_memory] and [capacity_memory] are
    the indeterminate locals of the driver. *)
Definition add_driver (csw_memory : list Z) (capacity_memory : Z) (usb_device : SenderUsbDevice L)
    : M (UsbSender L) () := λ s,
  match MassStorage.Initialize csw_memory capacity_memory (MassStorageDevice_new usb_device) with
  | Fault e => Fault e
  | Ok (false, _) => Ok ((), s)
  | Ok (true, d) =>
    let id := next_object s in
    let '(_, (capture, hp)) := AddDevice (Some id) (urb_capture_ s, <[id := d]> (drivers s)) in
    Ok ((), s {{ mass_storage_devices_ := mass_storage_devices_ s ++ [id];
                 urb_capture_ := capture; drivers := hp; next_object := S id }})
  end.

(** [devices]: the objects of [GetMassStorageDevices]. *)
Fixpoint ScanMassStorageDevices (csw_memory : list Z) (capacity_memory : Z)
    (devices : list (SenderUsbDevice L)) : M (UsbSender L) () :=
  match devices with
  | [] => mret ()
  | usb_device :: devices' =>
    add_driver csw_memory capacity_memory usb_device;;
    ScanMassStorageDevices csw_memory capacity_memory devices'
  end.

Definition OnDeviceHotplug (csw_memory : list Z) (capacity_memory : Z)
    (device : option (SenderUsbDevice L)) (connected : bool) : M (UsbSender L) () :=
  match device with
  | Some usb_device =>
    if connected && (dd_bDeviceClass (dev_descriptor (device_info_ usb_device))
                     =? UsbDeviceClass_val MASS_STORAGE)
    then add_driver csw_memory capacity_memory usb_device
    else mret ()
  | None => mret ()
  end.

(** ** Starting and stopping *)

Definition SetupNetworkCallbacks : M (UsbSender L) () :=
  modify (λ s, s {{
    tcp_server_ := SetErrorCallback (SetDataCallback (SetConnectCallback (tcp_server_ s)));
    message_handler_ := SetMessageCallback (message_handler_ s) }}).

(** [libusb]: the return code of [libusb_init]. *)
Definition Initialize (libusb : Z) : M (UsbSender L) bool :=
  ok ← on_manager (UsbDeviceManager.Initialize libusb);
  if negb ok then mret false
  else
    SetupNetworkCallbacks;;
    modify (λ s, s {{ urb_capture_ := SetUrbCallback (urb_capture_ s) }});;
    mret true.

(** [UrbCapture::StartCapture] with its devices. *)
Definition start_capture : M (UsbSender L) bool :=
  s ← get;
  let was := UrbCapture.capturing_ (urb_capture_ s) in
  ok ← on_capture StartCapture_thread;
  if was then mret ok
  else
    s ← get;
    hp ← lift (start_devices (devices_ (urb_capture_ s)) (drivers s));
    modify (λ s, s {{ drivers := hp }});;
    mret ok.

(** [os] are the answers to [Listen], [supported], [ret] and [handle] those to
    the registration of the hotplug callback. *)
Definition Start (os : os_answers) (csw_memory : list Z) (capacity_memory : Z)
    (devices : list (SenderUsbDevice L)) (supported : bool) (ret handle : Z)
    : M (UsbSender L) bool :=
  s ← get;
  if running_ s then mret true
  else
    listening ← on_server (Listen "0.0.0.0" os);
    if negb listening then mret false
    else
      ScanMassStorageDevices csw_memory capacity_memory devices;;
      ok ← start_capture;
      if negb ok then mret false
      else
        modify (λ s, s {{ device_manager_ := (device_manager_ s) {{ device_callback_ := true }} }});;
        on_manager (StartHotplugMonitoring supported ret handle);;
        modify (λ s, s {{ running_ := true }});;
        mret true.

(** Actions of other threads while the owner waits; those that cannot be
    taken are passed over. *)
Fixpoint capture_actions (l : list UrbCapture.action) : M UrbCapture () :=
  match l with
  | [] => mret ()
  | a :: l' =>
    c ← get; (if UrbCapture.enabled c a then UrbCapture.perform a else mret ());; capture_actions l'
  end.
Fixpoint server_actions (l : list TcpSocket.action) : M TcpSocket () :=
  match l with
  | [] => mret ()
  | a :: l' =>
    t ← get; (if TcpSocket.enabled t a then TcpSocket.perform a else mret ());; server_actions l'
  end.

(** [UrbCapture::StopCapture] with its devices; false while it is joining. *)
Definition stop_capture (l : list UrbCapture.action) : M (UsbSender L) bool :=
  s ← get;
  if negb (UrbCapture.capturing_ (urb_capture_ s)) then mret true
  else
    on_capture StopCapture_begin;;
    s ← get;
    hp ← lift (stop_devices (devices_ (urb_capture_ s)) (drivers s));
    modify (λ s, s {{ drivers := hp }});;
    on_capture (StopCapture_notify;; capture_actions l);;
    s ← get;
    if UrbCapture.enabled (urb_capture_ s) DoJoin
    then on_capture StopCapture_join;; mret true else mret false.

Definition close_server (l : list TcpSocket.action) : M (UsbSender L) bool :=
  on_server (Close_begin;; server_actions l);;
  s ← get;
  if TcpSocket.enabled (tcp_server_ s) DoCloseEnd then on_server Close_end;; mret true
  else mret false.

(** False while one of the joins waits. *)
Definition Stop (capture : list UrbCapture.action) (server : list TcpSocket.action)
    : M (UsbSender L) bool :=
  s ← get;
  if negb (running_ s) then mret true
  else
    modify (λ s, s {{ running_ := false }});;
    stopped ← stop_capture capture;
    if negb stopped then mret false
    else
      on_manager StopHotplugMonitoring;;
      closed ← close_server server;
      if negb closed then mret false
      else modify (λ s, s {{ mass_storage_devices_ := [] }});; mret true.
End Sender.
