(* ===== verification/Pipeline.v ===== *)
(** * Pipeline: what the sender sends and what the receiver makes of it

    End-to-end facts about [UsbSender] ([Sender.v]), [UrbProcessor] and
    [UsbipClient]: discovery and import of devices, and URBs from the
    sender's capture to the receiver's URB callback. *)

From S2P Require Import Prelude Memory UsbTypes UsbipProtocol MessageHandler TcpSocket UsbDeviceManager MassStorage UrbCapture UrbProcessor UsbipClient Sender.
From stdpp Require Import gmap.
Open Scope Z_scope.

(** ** Strings in fixed arrays *)

Lemma strncpy_short n l :
  (length l ≤ n)%nat → 0 ∉ l → strncpy n l = l ++ replicate (n - length l) 0.
Proof.
  revert l. induction n as [|n IH]; intros [|c l]; cbn [length strncpy app]; intros Hl H0; try done.
  - lia.
  - cbn [Nat.sub replicate]. f_equal. rewrite IH; [|cbn; lia|done]. by rewrite Nat.sub_0_r.
  - apply not_elem_of_cons in H0 as [Hc H0]. destruct (Z.eqb_spec c 0); [congruence|].
    rewrite IH by (done || lia). done.
Qed.

Lemma string_bytes_app s t : string_bytes (s +:+ t) = string_bytes s ++ string_bytes t.
Proof.
  unfold string_bytes. induction s as [|c s IH]; [done|].
  change (String c s +:+ t) with (String c (s +:+ t)).
  cbn [String.list_ascii_of_string map app]. by rewrite IH.
Qed.

Lemma string_bytes_ok s : bytes_ok (string_bytes s).
Proof.
  unfold string_bytes. apply Forall_map. apply Forall_true. intros c. unfold is_byte.
  pose proof (Ascii.nat_ascii_bounded c). lia.
Qed.

Lemma string_bytes_inj s t : string_bytes s = string_bytes t → s = t.
Proof.
  revert t. induction s as [|c s IH]; intros [|d t]; try done.
  intros [= Hc Hs]. f_equal; [|by apply IH].
  apply Nat2Z.inj, (f_equal Ascii.ascii_of_nat) in Hc. by rewrite !Ascii.ascii_nat_embedding in Hc.
Qed.

(** Decimal numbers of a byte: at most three characters, none of them NUL. *)
Definition number_ok (s : string) : bool :=
  (String.length s <=? 3)%nat && forallb (λ c, 0 <? c) (string_bytes s).

Lemma numbers_ok :
  Forall (λ n, number_ok (to_string n) = true ∧ number_ok (pad3 n) = true) (seqZ 0 256).
Proof. apply (bool_decide_unpack _). vm_compute. reflexivity. Qed.

Lemma string_bytes_length s : length (string_bytes s) = String.length s.
Proof. unfold string_bytes. rewrite length_map. induction s; cbn; congruence. Qed.

Lemma number_bytes s : number_ok s = true → (length (string_bytes s) ≤ 3)%nat ∧ 0 ∉ string_bytes s.
Proof.
  intros [Hl Hb]%andb_true_iff. apply Nat.leb_le in Hl. rewrite string_bytes_length.
  split; [done|]. intros H. rewrite forallb_forall in Hb.
  apply list_elem_of_In in H. specialize (Hb 0 H). done.
Qed.

Lemma byte_number_bytes n :
  is_byte n →
  ((length (string_bytes (to_string n)) ≤ 3)%nat ∧ 0 ∉ string_bytes (to_string n)) ∧
  ((length (string_bytes (pad3 n)) ≤ 3)%nat ∧ 0 ∉ string_bytes (pad3 n)).
Proof.
  intros Hn. pose proof numbers_ok as H. rewrite Forall_forall in H.
  destruct (H n) as [H1 H2]; [apply elem_of_seqZ; unfold is_byte in Hn; lia|].
  split; by apply number_bytes.
Qed.

Lemma GetBusId_bytes d :
  address_ok d →
  (length (string_bytes (GetBusId (Some d))) ≤ 7)%nat ∧ 0 ∉ string_bytes (GetBusId (Some d)).
Proof.
  intros [Hb Ha]. apply byte_number_bytes in Hb as [[Hb1 Hb2] _].
  apply byte_number_bytes in Ha as [[Ha1 Ha2] _].
  unfold GetBusId. rewrite !string_bytes_app. split.
  - rewrite !length_app. change (length (string_bytes "-")) with 1%nat. lia.
  - rewrite !elem_of_app. intros [?|[H|?]]; [done| |done]. by apply list_elem_of_singleton in H.
Qed.

Lemma GetPath_bytes d :
  address_ok d →
  (length (string_bytes (GetPath (Some d))) ≤ 20)%nat ∧ 0 ∉ string_bytes (GetPath (Some d)).
Proof.
  intros [Hb Ha]. apply byte_number_bytes in Hb as [_ [Hb1 Hb2]].
  apply byte_number_bytes in Ha as [_ [Ha1 Ha2]].
  unfold GetPath. rewrite !string_bytes_app. split.
  - rewrite !length_app. change (length (string_bytes "/dev/bus/usb/")) with 13%nat.
    change (length (string_bytes "/")) with 1%nat. lia.
  - rewrite !elem_of_app. intros [H|[?|[H|?]]]; try done.
    + revert H. apply (bool_decide_unpack _). by vm_compute.
    + by apply list_elem_of_singleton in H.
Qed.

(** A short string in one of the arrays. *)
Lemma array_of_string n l :
  (length l ≤ n)%nat → 0 ∉ l → bytes_ok l →
  let a := strncpy n l ++ [0] in
  length a = S n ∧ bytes_ok a ∧ 0 ∈ a ∧ c_str a = Ok l.
Proof.
  intros Hl H0 Hb. cbv zeta. rewrite strncpy_short by done. split_and!.
  - rewrite !length_app, length_replicate. cbn. lia.
  - rewrite !bytes_ok_app. split; [split; [done|apply bytes_ok_replicate_0]|].
    apply (bytes_ok_replicate_0 1).
  - apply elem_of_app. right. by left.
  - rewrite <- app_assoc. change [0] with (replicate 1 0). rewrite <- replicate_add.
    replace (n - length l + 1)%nat with (S (n - length l)) by lia. by apply c_str_app.
Qed.

(** ** Devices on the list *)

Section Discovery.
Context {L : Type} `{Libusb L}.

(** A driver whose device came from libusb with a well-formed report. *)
Record listed (d : MassStorageDevice (SenderUsbDevice L)) : Prop := {
  listed_address : ∃ dev, device_ (MassStorage.device d) = Some dev ∧ address_ok dev;
  listed_numbers : is_byte (dev_bus_number (device_info_ (MassStorage.device d))) ∧
    is_byte (dev_device_number (device_info_ (MassStorage.device d))) ∧
    is_byte (UsbSpeed_val (dev_speed (device_info_ (MassStorage.device d))));
  listed_descriptor : wf (dev_descriptor (device_info_ (MassStorage.device d)));
}.

(** [LoadDeviceInfo] makes such a device of what libusb promises. *)
Lemma UsbDevice_new_listed {h : Host} dev junk l usb bytes :
  address_ok dev → is_byte (lu_speed dev) → lu_descriptor dev = Some bytes →
  bytes_ok bytes → length bytes = 18%nat →
  UsbDevice_new (Some dev) junk l = Ok usb → listed (MassStorageDevice_new usb).
Proof.
  intros Ha Hs Hd Hb Hl. unfold UsbDevice_new, LoadDeviceInfo. rewrite Hd.
  assert (wf (struct_load bytes : UsbDeviceDescriptor)) as Hw.
  { apply wf_struct_load; [done|]. by rewrite Hl. }
  assert (UsbSpeed_val (UsbSpeed_cast (lu_speed dev)) = lu_speed dev) as Hsp.
  { unfold UsbSpeed_cast. repeat case_match; done. }
  intros Hn.
  assert (∃ c, usb = {| device_ := Some dev; handle_ := false; device_info_ :=
      {| dev_path := GetPath (Some dev); dev_bus_id := GetBusId (Some dev);
         dev_bus_number := lu_bus dev; dev_device_number := lu_address dev;
         dev_speed := UsbSpeed_cast (lu_speed dev); dev_descriptor := struct_load bytes;
         dev_config_descriptor := c; dev_is_connected := true |};
      claimed_interfaces_ := []; usb := l |}) as [c ->].
  { destruct junk. destruct (lu_config dev) as [[object total]|]; cbn in Hn.
    - destruct (mem_read _ _ _); [|done]. injection Hn as <-. by eexists.
    - injection Hn as <-. by eexists. }
  split; cbn.
  - by exists dev.
  - rewrite Hsp. destruct Ha. done.
  - exact Hw.
Qed.

Definition bus_id_of (d : MassStorageDevice (SenderUsbDevice L)) : list Z :=
  string_bytes (GetBusId (device_ (MassStorage.device d))).

Lemma device_entry_ok d :
  listed d →
  wf (device_entry d) ∧ 0 ∈ path (device_entry d) ∧
  c_str (path (device_entry d)) = Ok (string_bytes (GetPath (device_ (MassStorage.device d)))) ∧
  c_str (busid (device_entry d)) = Ok (bus_id_of d) ∧ length (bus_id_of d) ≠ 0%nat.
Proof.
  intros [(dev & Hd & Ha) (Hb & Hn & Hs) Hw]. unfold bus_id_of, device_entry. rewrite !Hd.
  pose proof (GetPath_bytes dev Ha) as [Hp1 Hp2]. pose proof (GetBusId_bytes dev Ha) as [Hi1 Hi2].
  destruct (array_of_string 255 (string_bytes (GetPath (Some dev)))) as (Pl & Pb & P0 & Pc);
    [lia|done|apply string_bytes_ok|].
  destruct (array_of_string 31 (string_bytes (GetBusId (Some dev)))) as (Bl & Bb & B0 & Bc);
    [lia|done|apply string_bytes_ok|].
  set (info := device_info_ (MassStorage.device d)) in *. clearbody info.
  split_and!; cbn [path busid]; try done.
  - unfold wf, UsbipDeviceInfo_ok, UsbipDeviceInfo_wf. cbn [path busid].
    split_and!; try done.
    destruct (dev_descriptor info). cbn in Hw. forall2_inv.
    unfold device_info_tail_layout, device_info_tail. cbn.
    assert (∀ x, is_byte x → field_ok 4 x) as Hfield.
    { intros x Hx. unfold field_ok. change (256 ^ Z.of_nat 4) with 4294967296. unfold is_byte in Hx. lia. }
    repeat first [apply List.Forall2_nil | apply List.Forall2_cons; [first [assumption | by apply Hfield | by vm_compute]|]].
  - unfold GetBusId. rewrite !string_bytes_app, !length_app.
    change (length (string_bytes "-")) with 1%nat. lia.
Qed.
End Discovery.

Section Replies.
Context {h : Host} {L : Type} `{Libusb L}.
Implicit Types (s : UsbSender L).

Lemma device_list_response_run s ds :
  drivers_at (Sender.mass_storage_devices_ s) s = Ok (ds, s) → Forall listed ds →
  device_list_response s
  = Ok (new_message DEVICE_LIST_RESPONSE (device_list_wire (map device_entry ds)) (Sender.messages s),
        s {{ Sender.messages := u32 (Sender.messages s + 1) }}).
Proof.
  intros Hds Hl. unfold device_list_response, mbind, M_bind, get. rewrite Hds.
  unfold counted, CreateDeviceListResponse. rewrite SerializeDeviceList_wire; [done|].
  apply Forall_map. eapply Forall_impl; [exact Hl|]. intros d Hd. by apply device_entry_ok.
Qed.

Lemma existsb_bus_id bus_id ds :
  existsb (λ device : MassStorageDevice (SenderUsbDevice L),
    bool_decide (string_bytes (GetBusId (device_ (MassStorage.device device))) = bus_id)) ds
  = bool_decide (bus_id ∈ map bus_id_of ds).
Proof.
  induction ds as [|d ds IH]; [done|]. cbn [existsb map]. rewrite IH. fold (bus_id_of d).
  destruct (decide (bus_id_of d = bus_id)) as [E|E].
  - rewrite (bool_decide_true _ E). cbn [orb]. symmetry. apply bool_decide_true. subst. by left.
  - rewrite (bool_decide_false _ E). cbn [orb]. apply bool_decide_ext. rewrite elem_of_cons. split; [by right|].
    intros [?|?]; [congruence|done].
Qed.

Lemma import_response_run s ds request :
  drivers_at (Sender.mass_storage_devices_ s) s = Ok (ds, s) →
  let found := bool_decide (payload request ∈ map bus_id_of ds) in
  import_response request s
  = Ok (new_message DEVICE_IMPORT_RESPONSE
          (if found then [1] else 0 :: string_bytes "Device not found") (Sender.messages s),
        s {{ Sender.messages := u32 (Sender.messages s + 1) }}).
Proof.
  intros Hds. unfold import_response, mbind, M_bind, get. rewrite Hds.
  rewrite existsb_bus_id. by destruct (bool_decide _).
Qed.
End Replies.

(** ** Properties *)


(** ** URBs *)

(** What the receiver makes of an OUT URB: the identifier is the sequence
    number, the type is guessed from the endpoint, and the setup packet is
    that of the sender's memory read by the receiver's host. *)
Definition received_urb (hs hr : Host) (now : Z) (junk : UsbSetupPacket) (seq : Z) (urb : UsbUrb)
    : UsbUrb := {|
  urb_id := seq;
  urb_type := if urb_endpoint urb =? 0 then CONTROL else BULK;
  urb_direction := OUT;
  urb_endpoint := urb_endpoint urb;
  urb_flags := urb_flags urb;
  urb_data := urb_data urb;
  urb_setup := if urb_endpoint urb =? 0 then
                 struct_load (h := hr)
                   match urb_type urb with
                   | CONTROL => struct_bytes (h := hs) (urb_setup urb)
                   | _ => replicate 8 0
                   end
               else junk;
  urb_status := 0;
  urb_actual_length := Z.of_nat (length (urb_data urb));
  urb_timestamp := now |}.

Definition with_setup (cmd : UsbipCmdSubmit) (v : Z) : UsbipCmdSubmit := {|
  cmd_header := cmd_header cmd; transfer_flags := transfer_flags cmd;
  transfer_buffer_length := transfer_buffer_length cmd; cmd_start_frame := cmd_start_frame cmd;
  cmd_number_of_packets := cmd_number_of_packets cmd; interval := interval cmd; setup := v |}.

(** A command of one host parsed by another. *)
Lemma ParseCmdSubmit_hosts (hs hr : Host) cmd d :
  wf cmd →
  ParseCmdSubmit (h := hr) (cmd_wire (h := hs) cmd ++ d) (length (cmd_wire (h := hs) cmd ++ d))
  = Ok (Some (with_setup cmd (mem_load (h := hr) (mem_store (h := hs) 8 (setup cmd))))).
Proof.
  intros Hw. set (v := mem_load (h := hr) _).
  assert (wf (with_setup cmd v)) as Hw'.
  { destruct Hw as (? & ? & ? & ? & ? & ? & ?). split_and!; try done.
    pose proof (mem_load_range (h := hr) (mem_store (h := hs) 8 (setup cmd))
      (mem_store_ok (h := hs) 8 (setup cmd))) as Hr.
    rewrite length_mem_store in Hr. exact Hr. }
  assert (cmd_wire (h := hs) cmd = cmd_wire (h := hr) (with_setup cmd v)) as ->.
  { unfold cmd_wire. f_equal. cbn [with_setup setup]. unfold v.
    pose proof (mem_store_load (h := hr) (mem_store (h := hs) 8 (setup cmd))) as E.
    rewrite length_mem_store in E. symmetry. apply E, mem_store_ok. }
  by apply ParseCmdSubmit_wire.
Qed.

(** Reading the data behind the command. *)
Lemma parse_urb_wire (h : Host) now junk cmd d :
  wf cmd →
  let n := transfer_buffer_length cmd in
  let endpoint := u8 (ep (cmd_header cmd)) in
  let data := if (0 <? n) && (n <=? Z.of_nat (length d)) then take (Z.to_nat n) d else [] in
  parse_urb now junk (cmd_wire cmd ++ d) = Ok (Some {|
    urb_id := seqnum (cmd_header cmd);
    urb_type := if endpoint =? 0 then CONTROL else BULK;
    urb_direction := UsbDirection_cast (direction (cmd_header cmd));
    urb_endpoint := endpoint;
    urb_flags := transfer_flags cmd;
    urb_data := data;
    urb_setup := if endpoint =? 0 then struct_load (mem_store 8 (setup cmd)) else junk;
    urb_status := 0;
    urb_actual_length := u32 (Z.of_nat (length data));
    urb_timestamp := now |}).
Proof.
  intros Hw. cbv zeta. pose proof (length_cmd_wire cmd Hw) as Hl. unfold parse_urb.
  change (sizeof UsbipCmdSubmit) with 48%nat.
  rewrite decide_False by (rewrite length_app; lia). rewrite ParseCmdSubmit_wire by done.
  cbn [mbind res_bind]. rewrite length_app, Hl.
  set (n := transfer_buffer_length cmd).
  assert ((0 <? n) && (Z.of_nat 48 + n <=? Z.of_nat (48 + length d))
          = (0 <? n) && (n <=? Z.of_nat (length d))) as -> by (apply (f_equal (andb _)), eq_iff_eq_true; rewrite !Z.leb_le; lia).
  destruct ((0 <? n) && (n <=? Z.of_nat (length d))) eqn:E; [|done].
  apply andb_true_iff in E as [E1%Z.ltb_lt E2%Z.leb_le].
  rewrite mem_read_app by lia. done.
Qed.

Lemma parse_urb_out (hs hr : Host) now junk seq urb :
  is_u32 seq → urb_wf urb → urb_direction urb = OUT →
  Z.of_nat (length (urb_data urb)) < 2147483648 →
  parse_urb (h := hr) now junk (urb_bytes (h := hs) seq urb)
  = Ok (Some (received_urb hs hr now junk seq urb)).
Proof.
  intros Hs Hw Hd Hlen. unfold urb_bytes. rewrite Hd.
  pose proof (wf_cmd_of (h := hs) seq urb Hs Hw) as Hc.
  set (v := mem_load (h := hr) (mem_store (h := hs) 8 (setup (cmd_of (h := hs) seq urb)))).
  pose proof Hw as (_ & _ & Hep & _ & _ & Hset & _).
  assert (length (mem_store (h := hs) 8 (setup (cmd_of (h := hs) seq urb))) = 8%nat) as H8
    by apply length_mem_store.
  pose proof (mem_load_range (h := hr) _ (mem_store_ok (h := hs) 8 (setup (cmd_of (h := hs) seq urb)))) as Hr.
  pose proof (mem_store_load (h := hr) _ (mem_store_ok (h := hs) 8 (setup (cmd_of (h := hs) seq urb)))) as Hv.
  rewrite H8 in Hr, Hv.
  assert (wf (with_setup (cmd_of (h := hs) seq urb) v)) as Hc'.
  { destruct Hc as (? & ? & ? & ? & ? & ? & ?). by split_and!. }
  replace (cmd_wire (h := hs) (cmd_of (h := hs) seq urb))
    with (cmd_wire (h := hr) (with_setup (cmd_of (h := hs) seq urb) v))
    by (unfold cmd_wire; f_equal; exact Hv).
  rewrite parse_urb_wire by done. cbv zeta.
  cbn [with_setup cmd_header transfer_flags transfer_buffer_length setup]. fold v in Hv. rewrite Hv.
  clear Hv Hc Hc' H8 Hr v.
  unfold received_urb, cmd_of.
  cbn [cmd_header transfer_flags transfer_buffer_length setup seqnum direction ep].
  rewrite Hd, (u8_id _ Hep). change (UsbDirection_cast (UsbDirection_val OUT)) with OUT.
  assert (i32 (Z.of_nat (length (urb_data urb))) = Z.of_nat (length (urb_data urb))) as ->.
  { unfold i32. rewrite u32_id by (unfold is_u32; lia).
    by rewrite (proj2 (Z.ltb_lt _ _)). }
  rewrite Z.leb_refl, andb_true_r.
  assert ((if 0 <? Z.of_nat (length (urb_data urb))
           then take (Z.to_nat (Z.of_nat (length (urb_data urb)))) (urb_data urb) else [])
          = urb_data urb) as ->.
  { rewrite Nat2Z.id, take_ge by done. destruct (urb_data urb); done. }
  rewrite u32_id by (unfold is_u32; lia).
  destruct (urb_endpoint urb =? 0); [|done].
  enough (mem_store (h := hs) 8 match urb_type urb with
                     | CONTROL => setup_value (h := hs) (urb_setup urb) | _ => 0 end
          = match urb_type urb with
            | CONTROL => struct_bytes (h := hs) (urb_setup urb) | _ => replicate 8 0 end) as ->
    by done.
  destruct (urb_type urb); try (by destruct hs).
  unfold setup_value. pose proof (length_struct_bytes (h := hs) _ Hset) as Hsz.
  change (sizeof UsbSetupPacket) with 8%nat in Hsz. rewrite <- Hsz at 1.
  apply mem_store_load, struct_bytes_ok.
Qed.

(** A reply read as a command: the ten words are the same words, and the first
    eight bytes of the data become the setup packet. *)
Definition reply_as_command (h : Host) (ret : UsbipRetSubmit) (d : list Z) : UsbipCmdSubmit := {|
  cmd_header := ret_header ret; transfer_flags := u32 (ret_status ret);
  transfer_buffer_length := ret_actual_length ret; cmd_start_frame := ret_start_frame ret;
  cmd_number_of_packets := ret_number_of_packets ret; interval := error_count ret;
  setup := mem_load (take 8 d) |}.

Lemma reply_as_command_wire (h : Host) ret d :
  (8 ≤ length d)%nat → bytes_ok d →
  struct_be_bytes ret ++ d = cmd_wire (reply_as_command h ret d) ++ drop 8 d.
Proof.
  intros Hl Hb. unfold cmd_wire. cbn [reply_as_command setup].
  assert (mem_store 8 (mem_load (take 8 d)) = take 8 d) as ->.
  { pose proof (mem_store_load (take 8 d) (bytes_ok_take 8 d Hb)) as E.
    rewrite length_take, Nat.min_l in E by lia. exact E. }
  rewrite <- app_assoc, take_drop. reflexivity.
Qed.

Lemma wf_reply_as_command (h : Host) ret d :
  wf ret → (8 ≤ length d)%nat → bytes_ok d → wf (reply_as_command h ret d).
Proof.
  intros (Hh & ? & ? & ? & ? & ?) Hl Hb. split_and!; try done; [apply u32_range|].
  pose proof (mem_load_range (take 8 d) (bytes_ok_take 8 d Hb)) as Hr.
  rewrite length_take, Nat.min_l in Hr by lia. exact Hr.
Qed.

(** What the receiver makes of a URB of the other direction. *)
Definition garbled_urb (h : Host) (now : Z) (junk : UsbSetupPacket) (seq : Z) (urb : UsbUrb)
    : UsbUrb :=
  let n := i32 (urb_actual_length urb) in
  let d := drop 8 (urb_data urb) in
  let data := if (0 <? n) && (n <=? Z.of_nat (length d)) then take (Z.to_nat n) d else [] in
  {| urb_id := seq;
     urb_type := if urb_endpoint urb =? 0 then CONTROL else BULK;
     urb_direction := urb_direction urb;
     urb_endpoint := urb_endpoint urb;
     urb_flags := u32 (urb_status urb);
     urb_data := data;
     urb_setup := if urb_endpoint urb =? 0 then struct_load (take 8 (urb_data urb)) else junk;
     urb_status := 0;
     urb_actual_length := u32 (Z.of_nat (length data));
     urb_timestamp := now |}.

Lemma parse_urb_in (hs hr : Host) now junk seq urb :
  is_u32 seq → urb_wf urb → urb_direction urb ≠ OUT →
  parse_urb (h := hr) now junk (urb_bytes (h := hs) seq urb)
  = Ok (if decide (length (urb_data urb) < 8)%nat then None
        else Some (garbled_urb hr now junk seq urb)).
Proof.
  intros Hs Hw Hd. pose proof (wf_ret_of seq urb Hs Hw) as Hr.
  assert (urb_bytes (h := hs) seq urb = struct_be_bytes (ret_of seq urb) ++ urb_data urb) as ->
    by (unfold urb_bytes; by destruct (urb_direction urb)).
  pose proof Hw as (_ & Hdir & Hep & _ & Hb & _).
  destruct (decide _) as [Hl|Hl].
  - unfold parse_urb. rewrite decide_True; [done|].
    rewrite length_app, (length_struct_be_bytes (ret_of seq urb)) by done.
    change (sizeof UsbipRetSubmit) with 40%nat. change (sizeof UsbipCmdSubmit) with 48%nat. lia.
  - rewrite (reply_as_command_wire hr) by (lia || done).
    rewrite parse_urb_wire by (apply wf_reply_as_command; [done|lia|done]). cbv zeta.
    unfold garbled_urb.
    cbn [reply_as_command ret_of cmd_header transfer_flags transfer_buffer_length setup seqnum
      direction ep ret_header ret_status ret_actual_length].
    rewrite (u8_id _ Hep), UsbDirection_cast_val by done.
    pose proof (mem_store_load (h := hr) (take 8 (urb_data urb)) (bytes_ok_take 8 _ Hb)) as E.
    rewrite length_take, Nat.min_l in E by lia. by rewrite E.
Qed.

(** ** Captured URBs *)

Section Captured.
Context {h : Host} {L : Type} `{Libusb L}.
Implicit Types (s : UsbSender L).

(** The messages of the URBs of a capture, one after the other. *)
Fixpoint captured_messages (urbs : list UsbUrb) : M (UsbSender L) (list NetworkMessage) :=
  match urbs with
  | [] => mret []
  | urb :: urbs' => m ← captured_message urb; ms ← captured_messages urbs'; mret (m :: ms)
  end.

Lemma captured_message_run s urb :
  urb_wf urb →
  captured_message urb s
  = Ok (new_message URB_SUBMIT (urb_bytes 1 urb) (Sender.messages s),
        s {{ Sender.messages := u32 (Sender.messages s + 1) }}).
Proof.
  intros Hw. unfold captured_message, CreateUsbipSubmit, UrbProcessor_init. cbn [fst snd].
  rewrite ProcessUrb_bytes by (done || (unfold is_u32; lia)). reflexivity.
Qed.

(** Each message is a packet, and they come in order. *)
Lemma captured_messages_run s urbs :
  is_u32 (Sender.messages s) → Forall urb_wf urbs →
  Forall (λ u, Z.of_nat (length (urb_bytes 1 u)) <= MAX_MESSAGE_SIZE ∧ bytes_ok (urb_bytes 1 u)) urbs →
  ∃ ms s', captured_messages urbs s = Ok (ms, s') ∧ Forall packet_ok ms ∧
    Forall2 (λ m u, ∃ seq, m = new_message URB_SUBMIT (urb_bytes 1 u) seq) ms urbs.
Proof.
  revert s. induction urbs as [|u urbs IH]; intros s Hs Hw Hb.
  { by eexists [], s. }
  apply Forall_cons in Hw as [Hu Hw]. apply Forall_cons in Hb as [[Hn Hub] Hb].
  destruct (IH (s {{ Sender.messages := u32 (Sender.messages s + 1) }})) as (ms & s' & E & Hp & H2);
    [destruct s; apply u32_range|done..|].
  eexists (_ :: ms), s'. cbn [captured_messages]. unfold mbind, M_bind at 1.
  rewrite captured_message_run by done. unfold M_bind. rewrite E.
  split; [done|]. split; [constructor; [by apply new_message_ok|done]|].
  constructor; [by eexists|done].
Qed.

Lemma serialise_all ms :
  Forall packet_ok ms →
  Forall2 (λ m w, SerializeMessage m = Ok w) ms (map (λ m, packet_bytes (with_checksum m)) ms).
Proof.
  intros Hm. induction Hm as [|m ms [Hw _] _ IH]; [constructor|].
  constructor; [by apply SerializeMessage_bytes|done].
Qed.

Lemma urb_bytes_ok seq urb : urb_wf urb → bytes_ok (urb_bytes seq urb).
Proof.
  intros (_ & _ & _ & _ & Hb & _).
  assert (∀ cmd, bytes_ok (cmd_wire cmd)) as Hc.
  { intros cmd. unfold cmd_wire. apply bytes_ok_app. split; [|apply mem_store_ok].
    apply bytes_ok_concat_zip, be_bytes_ok. }
  unfold urb_bytes. destruct (urb_direction urb); apply bytes_ok_app; split; try done;
    apply struct_be_bytes_ok.
Qed.
End Captured.

Lemma passes_on_urb {h : Host} now junk answers data seq r :
  parse_urb now junk data = Ok r →
  passes_on now junk answers (with_checksum (new_message URB_SUBMIT data seq))
    (map NoticeUrb (option_list r)).
Proof.
  intros Hr c [_ Hu]. unfold UsbipClient.OnNetworkMessage.
  cbn [with_checksum new_message header type]. rewrite MessageType_cast_val.
  unfold HandleUrbSubmit. cbn [with_checksum new_message payload]. rewrite Hr.
  unfold mbind, M_bind, lift, get. destruct r as [u|]; [by rewrite Hu|].
  cbn [option_list map]. by rewrite add_notices_nil.
Qed.

(** Captured URBs through serialisation, TCP and the client; [f] is what the
    client makes of each. *)
Lemma captured_urbs_arrive (hs hr : Host) {L} `{Libusb L} now junk answers (s : UsbSender L) c urbs f :
  is_u32 (Sender.messages s) → Forall urb_wf urbs →
  Forall (λ u, Z.of_nat (length (urb_bytes (h := hs) 1 u)) <= MAX_MESSAGE_SIZE) urbs →
  Forall (λ u, parse_urb (h := hr) now junk (urb_bytes (h := hs) 1 u) = Ok (f u)) urbs →
  callbacks_set c → UsbipClient.message_handler_ c = SetMessageCallback MessageHandler_init →
  ∃ ms ws s', captured_messages (h := hs) urbs s = Ok (ms, s') ∧
    Forall2 (λ m w, SerializeMessage (h := hs) m = Ok w) ms ws ∧
    ∀ chunks, concat chunks = concat ws →
      OnNetworkChunks (h := hr) now junk answers chunks c
      = Ok ((), c {{ notices := notices c ++ concat (map (λ u, map NoticeUrb (option_list (f u))) urbs) }}).
Proof.
  intros Hs Hw Hn Hf Hc Hmh.
  destruct (captured_messages_run (h := hs) s urbs Hs Hw) as (ms & s' & E & Hp & H2).
  { rewrite Forall_forall in Hw, Hn |- *. intros u Hu. split; [by apply Hn|].
    by apply urb_bytes_ok, Hw. }
  exists ms, (map (λ m, packet_bytes (with_checksum m)) ms), s'. split; [done|].
  split; [by apply (serialise_all (h := hs))|]. intros chunks Hch.
  rewrite (OnNetworkChunks_passes (h := hr) now junk answers chunks c (map with_checksum ms)
             (map (λ u, map NoticeUrb (option_list (f u))) urbs)
             (SetMessageCallback MessageHandler_init)); [| | |done].
  - destruct c. cbn in Hmh. subst. reflexivity.
  - rewrite Hmh. eapply (stream_delivery (h := hr)); [exact Hp| |exact Hch].
    by apply (serialise_all (h := hr)).
  - clear -H2 Hf. induction H2 as [|m u ms urbs [seq ->] _ IH]; [constructor|].
    apply Forall_cons in Hf as [Hu Hf]. cbn [map].
    apply Forall2_cons_2; [by apply passes_on_urb|by apply IH].
Qed.

Lemma length_urb_bytes {h : Host} seq urb :
  is_u32 seq → urb_wf urb →
  length (urb_bytes seq urb)
  = (match urb_direction urb with OUT => 48 | _ => 40 end + length (urb_data urb))%nat.
Proof.
  intros Hs Hw. unfold urb_bytes.
  assert (length (struct_be_bytes (ret_of seq urb)) = 40%nat) as Hr
    by (by rewrite length_struct_be_bytes by by apply wf_ret_of).
  destruct (urb_direction urb); rewrite length_app, ?Hr; try done.
  by rewrite length_cmd_wire by by apply wf_cmd_of.
Qed.

Lemma concat_singletons (f : UsbUrb → UsbUrb) urbs :
  concat (map (λ u, map NoticeUrb (option_list (Some (f u)))) urbs)
  = map (λ u, NoticeUrb (f u)) urbs.
Proof. induction urbs as [|u urbs IH]; [done|]. cbn. by rewrite <- IH. Qed.



(** ** Witnesses *)

(** A library without devices behind it. *)
#[export] Instance idle_usb : Libusb () := {
  libusb_open l := (0, l);
  libusb_close l := l;
  libusb_claim_interface _ l := (0, l);
  libusb_release_interface _ l := (0, l);
  libusb_control_transfer _ _ _ _ data l := (0, data, l);
  libusb_bulk_transfer _ data l := (0, data, 0, l);
  libusb_interrupt_transfer _ data l := (0, data, 0, l);
  libusb_submit_transfer l := (0, l);
  libusb_get_string_descriptor_ascii _ _ l := (-1, [], l);
}.

Definition sample_listed : MassStorageDevice (SenderUsbDevice ()) :=
  match UsbDevice_new (h := LittleEndian) (Some (sample_usb_device 12)) empty_info () with
  | Ok usb => MassStorageDevice_new usb
  | Fault _ => MassStorageDevice_new
      (Build_SenderUsbDevice None false empty_info [] ())
  end.

Definition sample_sender : UsbSender () :=
  (UsbSender_new 7) {{ Sender.mass_storage_devices_ := [0%nat]; drivers := {[ 0%nat := sample_listed ]} }}.

Lemma sample_listed_ok : listed sample_listed.
Proof.
  apply (UsbDevice_new_listed (h := LittleEndian) (sample_usb_device 12) empty_info ()
           (MassStorage.device sample_listed) sample_descriptor).
  - split; split; vm_compute; congruence.
  - split; vm_compute; congruence.
  - reflexivity.
  - by apply bytes_ok_compute.
  - reflexivity.
  - vm_compute. reflexivity.
Qed.


(** A control URB on endpoint 0 and a bulk URB on endpoint 2. *)
Definition out_urb (ep : Z) (t : UsbTransferType) (data : list Z) : UsbUrb := {|
  urb_id := 5; urb_type := t; urb_direction := OUT; urb_endpoint := ep; urb_flags := 3;
  urb_data := data;
  urb_setup := {| bmRequestType := 0x21; bRequest := 0xFF; wValue := 0x0102; wIndex := 0; wLength := 2 |};
  urb_status := 0; urb_actual_length := 0; urb_timestamp := 0 |}.
Definition sample_urbs : list UsbUrb := [out_urb 0 CONTROL [1; 2]; out_urb 2 BULK [85; 83; 66; 67]].

Definition in_urb (data : list Z) : UsbUrb := {|
  urb_id := 6; urb_type := BULK; urb_direction := IN; urb_endpoint := 0x81; urb_flags := 0;
  urb_data := data; urb_setup := no_setup; urb_status := -1;
  urb_actual_length := Z.of_nat (length data); urb_timestamp := 0 |}.

Ltac urb_compute :=
  unfold urb_wf; split_and!;
  lazymatch goal with
  | |- bytes_ok _ => by apply bytes_ok_compute
  | |- wf _ => repeat (apply List.Forall2_cons; [split; vm_compute; congruence|]); apply List.Forall2_nil
  | |- UsbDirection_wf _ => exact I
  | |- _ => split; vm_compute; congruence
  end.


