(* ===== verification/Receiver.v ===== *)
(** * Receiver: the program on the side of the virtual devices

    [receiver/main.cpp], class [UsbReceiver]: it owns a [UsbipClient] and a
    list of virtual devices, and uses the [UsbipManager] singleton.  Its
    callbacks handle the [notices] of the client.  Logging is left out, except
    that logging a [char] array reads it as a C string.  [main], [Run] and the
    invariant are in [Arguments.v] and [ReceiverMain.v]. *)

From S2P Require Import Prelude Memory UsbTypes UsbipProtocol MessageHandler VirtualUsbDevice UsbipManager TcpSocket UsbipClient.
From stdpp Require Import gmap.
Open Scope Z_scope.

(** ** State *)

(** [usbip]: the manager, the heap of virtual devices and the shell. *)
Record UsbReceiver := {
  running_ : bool;
  server_host_ : string;
  server_port_ : Z;
  usbip_client_ : UsbipClient;
  usbip : world;
  virtual_devices_ : list nat;
}.

Definition UsbReceiver_new (w : world) (seq : Z) : UsbReceiver := {|
  running_ := false; server_host_ := "127.0.0.1"; server_port_ := 3240;
  usbip_client_ := UsbipClient_new seq; usbip := w; virtual_devices_ := [] |}.

Section Receiver.
Context {h : Host}.
Variable std_system : list string → string → Z.

(** ** Effects *)

Definition on_client {A} (m : M UsbipClient A) : M UsbReceiver A := λ r,
  match m (usbip_client_ r) with
  | Ok (a, c) => Ok (a, r {{ usbip_client_ := c }})
  | Fault e => Fault e
  end.
Definition on_usbip {A} (m : M world A) : M UsbReceiver A := λ r,
  match m (usbip r) with
  | Ok (a, w) => Ok (a, r {{ usbip := w }})
  | Fault e => Fault e
  end.

(** ** URBs *)

Definition OnUrbResponse (urb : UsbUrb) (answers : list send_answer) : M UsbReceiver () :=
  on_client (SendUrbResponse urb answers);; mret ().

Fixpoint on_urb_responses (urbs : list UsbUrb) (answers : list send_answer) : M UsbReceiver () :=
  match urbs with
  | [] => mret ()
  | urb :: urbs' => OnUrbResponse urb answers;; on_urb_responses urbs' answers
  end.

(** The loop breaks after the first device. *)
Definition OnUrbReceived (urb : UsbUrb) (answers : list send_answer) : M UsbReceiver () :=
  r ← get;
  match virtual_devices_ r with
  | [] => mret ()
  | id :: _ =>
    responses ← on_usbip (UsbipManager.on_device id (VirtualUsbDevice.ProcessUrb urb));
    on_urb_responses responses answers
  end.

(** ** Importing a device *)

(** The shared pointer [virtual_device] is the device's only owner unless it
    is in the list, so the other returns run the destructor, which is
    [DestroyDevice].  [junk] is the indeterminate information of a new
    device. *)
Definition ImportDeviceInternal (junk device_info : UsbipDeviceInfo) (answers : list send_answer)
    : M UsbReceiver bool :=
  id ← on_usbip (make_device junk);
  on_usbip (d ← get_device id; put_device id (SetUrbResponseCallback d));;
  created ← on_usbip (CreateDevice id device_info);
  if negb created then on_usbip (DestroyDevice std_system id);; mret false
  else
    attached ← on_usbip (AttachDevice std_system id);
    if negb attached then
      on_usbip (DestroyDevice std_system id);;
      on_usbip (DestroyDevice std_system id);; mret false
    else
      modify (λ r, r {{ virtual_devices_ := virtual_devices_ r ++ [id] }});;
      bus_id ← lift (c_str (busid device_info));
      sent ← on_client (UsbipClient.ImportDevice bus_id answers);
      if sent : bool then mret true
      else
        on_usbip (DetachDevice std_system id);;
        on_usbip (DestroyDevice std_system id);;
        modify (λ r, r {{ virtual_devices_ := removelast (virtual_devices_ r) }});;
        on_usbip (DestroyDevice std_system id);; mret false.

Fixpoint OnDeviceListReceived (junk : UsbipDeviceInfo) (answers : list send_answer)
    (devices : list UsbipDeviceInfo) : M UsbReceiver () :=
  match devices with
  | [] => mret ()
  | device :: devices' =>
    lift (c_str (path device));;
    lift (c_str (busid device));;
    (if bDeviceClass device =? UsbDeviceClass_val MASS_STORAGE
     then ImportDeviceInternal junk device answers;; mret ()
     else mret ());;
    OnDeviceListReceived junk answers devices'
  end.

(** [OnUsbipError] only logs. *)
Definition OnUsbipError (error : string) : M UsbReceiver () := mret ().

(** ** The client's callbacks *)

Fixpoint on_notices (junk : UsbipDeviceInfo) (answers : list send_answer) (l : list notice)
    : M UsbReceiver () :=
  match l with
  | [] => mret ()
  | n :: l' =>
    match n with
    | NoticeDevices devices => OnDeviceListReceived junk answers devices
    | NoticeUrb urb => OnUrbReceived urb answers
    | NoticeError error => OnUsbipError error
    end;;
    on_notices junk answers l'
  end.

(** A message: the client's handler ends with its callback, if it has one. *)
Definition OnMessage (now : Z) (junk_setup : UsbSetupPacket) (junk : UsbipDeviceInfo)
    (answers : list send_answer) (message : NetworkMessage) : M UsbReceiver () := λ r,
  match UsbipClient.OnNetworkMessage now junk_setup answers message (usbip_client_ r) with
  | Ok (_, c) =>
    on_notices junk answers (drop (length (notices (usbip_client_ r))) (notices c))
      (r {{ usbip_client_ := c }})
  | Fault e => Fault e
  end.

(** ** Lifecycle *)

Definition SetupUsbipCallbacks : M UsbReceiver () :=
  modify (λ r, r {{ usbip_client_ := (usbip_client_ r) {{
    device_list_callback_ := true; urb_callback_ := true; client_error_callback_ := true }} }}).

Definition Initialize : M UsbReceiver bool :=
  ok ← on_usbip (UsbipManager_Initialize std_system);
  if negb ok then mret false else SetupUsbipCallbacks;; mret true.

(** [connect] and [close] are [UsbipClient.Connect] and the closing of its
    socket, with the answers of the system. *)
Definition Start (host : string) (port : Z) (connect : string → Z → M UsbipClient bool)
    (answers : list send_answer) : M UsbReceiver bool :=
  r ← get;
  if running_ r then mret true
  else
    (if bool_decide (host = "") then mret () else modify (λ r, r {{ server_host_ := host }}));;
    (if port >? 0 then modify (λ r, r {{ server_port_ := port }}) else mret ());;
    r ← get;
    connected ← on_client (connect (server_host_ r) (server_port_ r));
    if negb connected then mret false
    else
      requested ← on_client (RequestDeviceList answers);
      if negb requested then mret false
      else modify (λ r, r {{ running_ := true }});; mret true.

(** The turn of [Run] after its sleep. *)
Definition reconnect (connect : string → Z → M UsbipClient bool) (answers : list send_answer)
    : M UsbReceiver () :=
  r ← get;
  if connected_ (usbip_client_ r) then mret ()
  else
    connected ← on_client (connect (server_host_ r) (server_port_ r));
    if connected : bool then on_client (RequestDeviceList answers);; mret () else mret ().

Fixpoint detach_all (ids : list nat) : M world () :=
  match ids with
  | [] => mret ()
  | id :: ids' => DetachDevice std_system id;; detach_all ids'
  end.

(** Clearing the list destroys the devices, whose only owner it is. False
    while the client's close is joining. *)
Definition Stop (close : M UsbipClient bool) : M UsbReceiver bool :=
  r ← get;
  if negb (running_ r) then mret true
  else
    modify (λ r, r {{ running_ := false }});;
    on_usbip (detach_all (virtual_devices_ r));;
    on_usbip (destroy_all std_system (virtual_devices_ r));;
    modify (λ r, r {{ virtual_devices_ := [] }});;
    closed ← on_client (UsbipClient.Disconnect close);
    if negb closed then mret false
    else on_usbip (UsbipManager_Cleanup std_system);; mret true.

Definition ImportDevice (bus_id : list Z) (answers : list send_answer)
    : M UsbReceiver bool :=
  r ← get;
  if negb (connected_ (usbip_client_ r)) then mret false
  else on_client (UsbipClient.ImportDevice bus_id answers).
Definition ListDevices (answers : list send_answer) : M UsbReceiver () :=
  r ← get;
  if negb (connected_ (usbip_client_ r)) then mret ()
  else on_client (RequestDeviceList answers);; mret ().
End Receiver.

(** ** Runs *)

Abbreviation RV := Build_UsbReceiver.

Section Runs.
Context {h : Host}.
Variable std_system : list string → string → Z.

Lemma wp_on_usbip {A} (m : M world A) E Q run host port c w vds :
  wp m E (λ a w', Q a (RV run host port c w' vds)) w →
  wp (on_usbip m) E Q (RV run host port c w vds).
Proof. unfold wp, on_usbip. cbn. by destruct (m w) as [[a w']|e]. Qed.

Lemma wp_on_client {A} (m : M UsbipClient A) a c' E (Q : A → UsbReceiver → Prop) run host port c w vds :
  m c = Ok (a, c') → Q a (RV run host port c' w vds) →
  wp (on_client m) E Q (RV run host port c w vds).
Proof. unfold wp, on_client. cbn. by intros ->. Qed.

Lemma wp_push id E (Q : () → UsbReceiver → Prop) run host port c w vds :
  Q () (RV run host port c w (vds ++ [id])) →
  wp (modify (λ r, r {{ virtual_devices_ := virtual_devices_ r ++ [id] }})) E Q
     (RV run host port c w vds).
Proof. done. Qed.
Lemma wp_pop E (Q : () → UsbReceiver → Prop) run host port c w vds :
  Q () (RV run host port c w (removelast vds)) →
  wp (modify (λ r, r {{ virtual_devices_ := removelast (virtual_devices_ r) }})) E Q
     (RV run host port c w vds).
Proof. done. Qed.

(** [DestroyDevice] on a device that is not created, and on a detached one
    that holds port [i]. *)
Lemma wp_Destroy_none id d E (Q : () → world → Prop) mg devs nd sh :
  devs !! id = Some d → created_ d = false → attached_ d = false →
  Q () (W mg devs nd [] sh) → wp (DestroyDevice std_system id) E Q (W mg devs nd [] sh).
Proof.
  intros Hd Hc Ha H. apply (wp_DestroyDevice _ _ d); [done|..].
  - intros i. unfold owns. by rewrite Hc.
  - unfold owns, after_detach, detach_log. rewrite Hc, Ha, app_nil_r. by rewrite insert_id.
Qed.

Lemma wp_Destroy_port id d i E (Q : () → world → Prop) mg devs nd sh :
  devs !! id = Some d → created_ d = true → attached_ d = false → port_number_ d = Z.of_nat i →
  (i < length (port_usage_ mg))%nat →
  Q () (W (free_port mg i) (<[id := destroyed_device d]> devs) nd [] sh) →
  wp (DestroyDevice std_system id) E Q (W mg devs nd [] sh).
Proof.
  intros Hd Hc Ha Hp Hl H. apply (wp_DestroyDevice _ _ d); [done|..].
  - intros j. unfold owns. rewrite Hc, Hp, Nat2Z.id. by intros [= <-].
  - unfold owns, after_detach, detach_log. by rewrite Hc, Ha, Hp, Nat2Z.id, app_nil_r.
Qed.

Lemma free_claim mg i :
  port_usage_ mg !! i = Some false → free_port (claim_port mg i) i = mg.
Proof.
  intros Hi. destruct mg. unfold free_port, claim_port. cbn in *.
  by rewrite list_insert_insert_eq, list_insert_id.
Qed.

Lemma wp_make_device info E (Q : nat → world → Prop) mg devs nd sh :
  Q nd (W mg (<[nd := VirtualUsbDevice_init info]> devs) (S nd) [] sh) →
  wp (make_device info) E Q (W mg devs nd [] sh).
Proof. done. Qed.

(** What [ImportDeviceInternal] leaves: everything done, or the old table,
    list and devices with one more device that is not created. *)
Definition new_device (junk info : UsbipDeviceInfo) (i : nat) : VirtualUsbDevice :=
  created_device (SetUrbResponseCallback (VirtualUsbDevice_init junk)) info i.

Definition imported (junk info : UsbipDeviceInfo) (i : nat) (bus : list Z) (c : UsbipClient)
    (r : UsbReceiver) : UsbReceiver := r {{
  usbip_client_ := c;
  usbip := W (claim_port (manager (usbip r)) i)
             (<[next_device (usbip r) := attached_device (new_device junk info i)]> (devices (usbip r)))
             (S (next_device (usbip r))) [] (shell (usbip r) ++ [attach_command (Z.of_nat i) bus]);
  virtual_devices_ := virtual_devices_ r ++ [next_device (usbip r)] }}.

Definition rolled_back (d : VirtualUsbDevice) (log : list string) (c : UsbipClient)
    (r : UsbReceiver) : UsbReceiver := r {{
  usbip_client_ := c;
  usbip := W (manager (usbip r)) (<[next_device (usbip r) := d]> (devices (usbip r)))
             (S (next_device (usbip r))) [] (shell (usbip r) ++ log) }}.

(** The ways to fail: no port, the attach command, the network. *)
Lemma wp_import junk info answers bus E (Q : bool → UsbReceiver → Prop) r :
  world_ok (usbip r) → c_str (busid info) = Ok bus →
  match first_free (port_usage_ (manager (usbip r))) with
  | None =>
    Q false (rolled_back (portless_device (SetUrbResponseCallback (VirtualUsbDevice_init junk)) info)
               [] (usbip_client_ r) r)
  | Some i =>
    let attach := attach_command (Z.of_nat i) bus in
    let gone := destroyed_device (new_device junk info i) in
    if std_system (shell (usbip r)) attach =? 0 then
      match UsbipClient.ImportDevice bus answers (usbip_client_ r) with
      | Ok (true, c') => Q true (imported junk info i bus c' r)
      | Ok (false, c') =>
        Q false (rolled_back gone [attach; detach_command (Z.of_nat i)] c' r)
      | Fault e => E e
      end
    else Q false (rolled_back gone [attach] (usbip_client_ r) r)
  end →
  wp (ImportDeviceInternal std_system junk info answers) E Q r.
Proof.
  intros Hw Hbus HQ. destruct r as [run host port c [mg devs nd hd sh] vds].
  assert (hd = []) as -> by apply Hw. cbn [usbip usbip_client_ manager shell] in *.
  pose proof (ok_fresh _ Hw nd (Nat.le_refl _)) as Hnew. cbn in Hnew. clear Hw.
  set (d0 := SetUrbResponseCallback (VirtualUsbDevice_init junk)) in *.
  unfold ImportDeviceInternal. apply wp_bind, wp_on_usbip, wp_make_device.
  apply wp_bind, wp_on_usbip. wp_run.
  apply wp_on_usbip, (wp_CreateDevice _ _ d0); [apply lookup_insert_eq|].
  change (created_ d0) with false. cbv iota.
  destruct (first_free (port_usage_ mg)) as [i|] eqn:Hi; rewrite insert_insert_eq; cbn [negb].
  2: { apply wp_bind, wp_on_usbip. eapply wp_Destroy_none; [apply lookup_insert_eq|done..|].
       unfold rolled_back in HQ. cbn [usbip shell] in HQ. rewrite app_nil_r in HQ.
       apply wp_ret. exact HQ. }
  apply first_free_Some in Hi as [Hi _]. pose proof (lookup_lt_Some _ _ _ Hi) as Hlt.
  fold (new_device junk info i) in *. set (d1 := new_device junk info i) in *.
  apply wp_bind, wp_on_usbip, (wp_AttachDevice _ _ d1); [apply lookup_insert_eq|done|].
  change (created_ d1) with true. change (attached_ d1) with false.
  change (device_info_ d1) with info. rewrite Hbus. cbn [negb]. cbv zeta in *.
  change (port_number_ d1) with (Z.of_nat i). rewrite ?insert_insert_eq.
  destruct (std_system sh _ =? 0); cbn [negb].
  - apply wp_bind, wp_push, wp_bind. eapply wp_lift_Ok; [reflexivity|].
    destruct (UsbipClient.ImportDevice bus answers c) as [[sent c']|e] eqn:Hsend.
    2: { apply wp_bind. unfold wp, on_client. cbn [usbip_client_]. by rewrite Hsend. }
    apply wp_bind. eapply wp_on_client; [exact Hsend|]. destruct sent; cbv iota.
    + apply wp_ret. exact HQ.
    + apply wp_bind, wp_on_usbip, (wp_DetachDevice _ _ (attached_device d1)); [apply lookup_insert_eq|].
      apply wp_bind, wp_on_usbip.
      apply (wp_Destroy_port _ (after_detach (attached_device d1)) i);
        [apply lookup_insert_eq|done..|cbn; by rewrite length_insert|].
      apply wp_bind, wp_pop, wp_bind, wp_on_usbip.
      eapply wp_Destroy_none; [apply lookup_insert_eq|done..|].
      apply wp_ret. rewrite free_claim, !insert_insert_eq, removelast_last, <- app_assoc by done.
      exact HQ.
  - apply wp_bind, wp_on_usbip.
    apply (wp_Destroy_port _ d1 i); [apply lookup_insert_eq|done..|cbn; by rewrite length_insert|].
    apply wp_bind, wp_on_usbip. eapply wp_Destroy_none; [apply lookup_insert_eq|done..|].
    apply wp_ret. rewrite free_claim, !insert_insert_eq by done. exact HQ.
Qed.
End Runs.

(** ** Properties *)

Section Properties.
Context {h : Host}.
Variable std_system : list string → string → Z.

(** C8: Importing a device is all or nothing. Whatever the port table, the
    shell and the network answer, [ImportDeviceInternal] returns and touches
    no other device. On success the lowest free port is taken, one command
    attached the bus id to it, the new device is last in the list, created
    from the entry, attached and with its callback, and the sender was asked.
    On failure (no port, the command, or the network) the port table and the
    list are as before, and the new device is neither created nor attached. *)
Theorem import_all_or_nothing junk info answers bus sent c' r :
  reachable std_system (usbip r) → c_str (busid info) = Ok bus →
  UsbipClient.ImportDevice bus answers (usbip_client_ r) = Ok (sent, c') →
  let w := usbip r in let id := next_device w in
  ∃ ok r', ImportDeviceInternal std_system junk info answers r = Ok (ok, r') ∧
    ∃ d, devices (usbip r') = <[id := d]> (devices w) ∧ devices w !! id = None ∧
    if ok : bool then
      sent = true ∧ usbip_client_ r' = c' ∧ virtual_devices_ r' = virtual_devices_ r ++ [id] ∧
      attached_ d = true ∧ urb_response_callback_ d = true ∧ device_info_ d = info ∧
      ∃ i, port_usage_ (manager w) !! i = Some false ∧
        (∀ j, (j < i)%nat → port_usage_ (manager w) !! j = Some true) ∧
        port_usage_ (manager (usbip r')) = <[i := true]> (port_usage_ (manager w)) ∧
        port_number_ d = Z.of_nat i ∧
        std_system (shell w) (attach_command (Z.of_nat i) bus) = 0 ∧
        shell (usbip r') = shell w ++ [attach_command (Z.of_nat i) bus]
    else
      manager (usbip r') = manager w ∧ virtual_devices_ r' = virtual_devices_ r ∧
      created_ d = false ∧ attached_ d = false ∧
      (sent = false ∨ (∀ i, port_usage_ (manager w) !! i ≠ Some false) ∨
       ∃ i, port_usage_ (manager w) !! i = Some false ∧
            std_system (shell w) (attach_command (Z.of_nat i) bus) ≠ 0).
Proof.
  intros Hr Hbus Hsend. cbv zeta. pose proof (reachable_ok _ _ Hr) as Hw.
  apply (proj1 (wp_safe _ _ _)).
  pose proof (ok_fresh _ Hw _ (Nat.le_refl _)) as Hnew.
  apply (wp_import std_system junk info answers bus); [done..|]. rewrite Hsend.
  destruct (first_free _) as [i|] eqn:Hi.
  2: { eexists. split; [reflexivity|]. split; [done|]. cbv iota.
       split_and!; [done..|]. right. left. by apply first_free_None. }
  apply first_free_Some in Hi as [Hi Hmin]. cbv zeta.
  destruct (Z.eqb_spec (std_system (shell (usbip r)) (attach_command (Z.of_nat i) bus)) 0) as [E|E].
  - destruct sent; (eexists; split; [reflexivity|]; split; [done|]); cbv iota; split_and!; try done.
    + exists i. by split_and!.
    + by left.
  - eexists. split; [reflexivity|]. split; [done|]. cbv iota. split_and!; try done.
    right. right. by exists i.
Qed.

(** URBs are answered without their answer. For every URB that reaches a
    receiver whose first device is attached and whose client is connected,
    the device computes a response, but what goes to the network is one and
    the same 20-byte URB_RESPONSE message with an empty payload: neither the
    data nor the identifier of the response is in it. *)
Theorem urb_response_empty urb r id ids d :
  virtual_devices_ r = id :: ids → devices (usbip r) !! id = Some d →
  attached_ d = true → urb_response_callback_ d = true →
  connected_ (usbip_client_ r) = true → is_u32 (messages (usbip_client_ r)) →
  let t := tcp_client_ (usbip_client_ r) in
  is_connected_ t = true → 0 <= socket_fd_ t →
  ∃ r', OnUrbReceived urb [Sent 20] r = Ok ((), r') ∧
    events (tcp_client_ (usbip_client_ r'))
    = events t ++ [EvSend (packet_bytes (with_checksum
        (new_message URB_RESPONSE [] (messages (usbip_client_ r)))))].
Proof.
  intros Hv Hd Ha Hcb Hc Hseq t Ht Hfd.
  destruct (ProcessUrb_total urb d Ha) as (data & cfg & Hrun). rewrite Hcb in Hrun.
  destruct r as [run host port c w vds]. cbn in *. subst vds.
  eexists. unfold OnUrbReceived, on_usbip, UsbipManager.on_device, get_device, mbind, M_bind, get.
  cbn. rewrite Hd, Hrun. cbn [put_device mret M_ret]. cbn.
  unfold OnUrbResponse, on_client, mbind, M_bind. cbn [usbip_client_].
  unfold SendUrbResponse, CreateUrbResponse. by rewrite request_run.
Qed.
End Properties.
(** ** Witnesses *)

Definition connected_client : UsbipClient := sample_client {{
  connected_ := true; tcp_client_ := TcpSocket_init {{ is_connected_ := true; socket_fd_ := 5 }} }}.

(** In [sample_world] port 1 is taken by device 1, and device 3 is next. *)
Definition sample_receiver : UsbReceiver :=
  (UsbReceiver_new sample_world 1) {{ usbip_client_ := connected_client;
                                      virtual_devices_ := [1%nat] }}.

Lemma import_all_or_nothing_witness :
  ∃ r' d, ImportDeviceInternal (h := LittleEndian) system_ok sample_info sample_device [Sent 23]
            sample_receiver = Ok (true, r') ∧
    devices (usbip r') !! 3%nat = Some d ∧ attached_ d = true ∧ port_number_ d = 0 ∧
    virtual_devices_ r' = [1%nat; 3%nat].
Proof.
  destruct (import_all_or_nothing (h := LittleEndian) system_ok sample_info sample_device [Sent 23]
    [49; 45; 50] true
    (match UsbipClient.ImportDevice (h := LittleEndian) [49; 45; 50] [Sent 23] connected_client with
     | Ok (_, c) => c | Fault _ => connected_client end)
    sample_receiver sample_world_reachable) as (ok & r' & H & d & Hd & _ & Hok).
  - vm_compute. reflexivity.
  - vm_compute. reflexivity.
  - destruct ok.
    + destruct Hok as (_ & _ & Hv & Ha & _ & _ & i & Hi & Hmin & _ & Hp & _).
      exists r', d. split; [exact H|]. split; [|split; [exact Ha|split]].
      * rewrite Hd. vm_compute (next_device _). apply lookup_insert_eq.
      * destruct i as [|i]; [exact Hp|]. exfalso.
        assert (port_usage_ (manager (usbip sample_receiver)) !! 0%nat = Some false) as H0
          by (vm_compute; reflexivity).
        rewrite (Hmin 0%nat) in H0 by lia. discriminate H0.
      * rewrite Hv. vm_compute. reflexivity.
    + exfalso. destruct Hok as (_ & _ & _ & _ & [E|[E|(i & _ & E)]]).
      * discriminate E.
      * apply (E 0%nat). vm_compute. reflexivity.
      * apply E. reflexivity.
Defined.

Definition any_urb : UsbUrb := {|
  urb_id := 77; urb_type := BULK; urb_direction := OUT; urb_endpoint := 2; urb_flags := 0;
  urb_data := [1; 2; 3]; urb_setup := no_setup; urb_status := 0; urb_actual_length := 3;
  urb_timestamp := 0 |}.

(** Device 1, with its callback set. *)
Definition answering_receiver : UsbReceiver := sample_receiver {{
  usbip := sample_world {{ devices := alter SetUrbResponseCallback 1%nat (devices sample_world) }} }}.

Lemma urb_response_empty_witness :
  ∃ r' data, OnUrbReceived (h := LittleEndian) any_urb [Sent 20] answering_receiver = Ok ((), r') ∧
    events (tcp_client_ (usbip_client_ r')) = [EvSend data] ∧ length data = 20%nat.
Proof.
  destruct (urb_response_empty (h := LittleEndian) any_urb answering_receiver 1 []
    (SetUrbResponseCallback (default (VirtualUsbDevice_init sample_info)
       (devices sample_world !! 1%nat)))) as (r' & H & He).
  - reflexivity.
  - vm_compute. reflexivity.
  - vm_compute. reflexivity.
  - reflexivity.
  - reflexivity.
  - split; vm_compute; congruence.
  - reflexivity.
  - vm_compute. congruence.
  - exists r'. eexists. split; [exact H|]. split; [exact He|]. vm_compute. reflexivity.
Defined.
