(* ===== verification/Channel.v ===== *)
(** * Channel: two sockets, a wire and a message handler

    One direction of a connection, put together from its parts: [Send] of
    [common/network/tcp_socket.cpp] on one side, its receive thread on the
    other, whose data callback feeds [MessageHandler::ProcessReceivedData].
    The writes of a call of [Send], the reads of the receive thread and
    whatever else the two sockets' threads and owners do interleave freely.
    [fifo] is the specification: a queue of messages. *)

From S2P Require Import Prelude Memory UsbTypes UsbipProtocol MessageHandler TcpSocket.

(** ** Specification *)

(** [queue] holds the messages on their way, [lost] the one whose sending
    failed, after which the queue takes no more. *)
Record fifo := {
  queue : list NetworkMessage;
  lost : option NetworkMessage;
  output : list NetworkMessage;
}.

Definition fifo_new : fifo := {| queue := []; lost := None; output := [] |}.

(** What a user of the channel sees: a call of [Send] that starts or is turned
    down at once, one that returns true or false, the messages handed to the
    callback. *)
Inductive observation :=
  | Accept (m : NetworkMessage)
  | Refuse (m : NetworkMessage)
  | SendDone
  | SendFailed
  | Deliver (ms : list NetworkMessage)
  | Internal.

Inductive fifo_step : fifo → observation → fifo → Prop :=
  | fifo_accept q out m :
    fifo_step (Build_fifo q None out) (Accept m) (Build_fifo (q ++ [with_checksum m]) None out)
  | fifo_refuse f m : fifo_step f (Refuse m) f
  | fifo_done f : fifo_step f SendDone f
  | fifo_failed q out m :
    fifo_step (Build_fifo (q ++ [m]) None out) SendFailed (Build_fifo q (Some m) out)
  | fifo_deliver q ms l out :
    fifo_step (Build_fifo (ms ++ q) l out) (Deliver ms) (Build_fifo q l (out ++ ms))
  | fifo_internal f : fifo_step f Internal f.

Inductive fifo_steps : fifo → list observation → fifo → Prop :=
  | fifo_steps_nil f : fifo_steps f [] f
  | fifo_steps_snoc f os f1 o f2 :
    fifo_steps f os f1 → fifo_step f1 o f2 → fifo_steps f (os ++ [o]) f2.

(** The messages a run takes in and puts out. *)
Definition accepted (os : list observation) : list NetworkMessage :=
  flat_map (λ o, if o is Accept m then [with_checksum m] else []) os.
Definition handed_over (os : list observation) : list NetworkMessage :=
  flat_map (λ o, if o is Deliver ms then ms else []) os.

Lemma accepted_app a b : accepted (a ++ b) = accepted a ++ accepted b.
Proof. apply flat_map_app. Qed.
Lemma handed_over_app a b : handed_over (a ++ b) = handed_over a ++ handed_over b.
Proof. apply flat_map_app. Qed.

Lemma fifo_steps_app f os1 f1 os2 f2 :
  fifo_steps f os1 f1 → fifo_steps f1 os2 f2 → fifo_steps f (os1 ++ os2) f2.
Proof.
  intros H1 H2. induction H2 as [|f1 os f2 o f3 _ IH Hst]; [by rewrite app_nil_r|].
  rewrite app_assoc. econstructor; eauto.
Qed.

(** The queue's law: what came in is what went out, what is queued and the one
    message lost, in this order. *)
Lemma fifo_law os f :
  fifo_steps fifo_new os f →
  accepted os = output f ++ queue f ++ option_list (lost f) ∧ handed_over os = output f.
Proof.
  intros Hs. remember fifo_new as f0. induction Hs as [f|f os f1 o f2 _ IH Hst]; subst f; [done|].
  destruct (IH eq_refl) as [IHa IHo]. rewrite accepted_app, handed_over_app, IHa, IHo. clear - Hst.
  destruct Hst; cbn; rewrite ?app_nil_r, <- ?app_assoc; by split.
Qed.

(** ** The implementation *)

(** [sends]: for each call of [Send] in progress, what its loop has not sent
    yet. [up] is the [connected_] flag of the owner of [tx], which a failed
    call resets. *)
Record channel := {
  tx : TcpSocket;
  up : bool;
  sends : list (list Z);
  wire : list Z;
  rx : TcpSocket;
  handler : MessageHandler;
}.

(** The actions: a call of [Send] up to its loop; the loop of call [i], for
    these answers of the system; anything else the sockets do; the receive
    thread's [recv] returning [n] bytes. *)
Inductive channel_action :=
  | Begin (m : NetworkMessage)
  | Write (i : nat) (answers : list send_answer)
  | TxDoes (a : action)
  | RxDoes (a : action)
  | Recv (n : nat).

(** Bytes a socket sent, and data it handed to its callback, between two
    states. *)
Definition events_since (s s' : TcpSocket) : list event := drop (length (events s)) (events s').
Definition data_of (evs : list event) : list (list Z) :=
  flat_map (λ e, if e is EvData d then [d] else []) evs.

(** Actions of a socket that neither use the data path nor replace the
    connection. *)
Definition off_path (a : action) : bool :=
  match a with
  | DoConnect _ _ | DoListen _ _ | DoSend _ _
  | ReceiveAnswer (Received _) | ClientAnswer _ (Received _) => false
  | _ => true
  end.

(** The buffer of [ReceiveThread]. *)
Definition recv_buffer_size : Z := 8192.

(** [serial]: at most one call of [Send] at a time. *)
Definition channel_enabled (serial : bool) (c : channel) (a : channel_action) : bool :=
  match a with
  | Begin _ => up c && (negb serial || bool_decide (sends c = []))
  | Write i _ => bool_decide (i < length (sends c))%nat
  | TxDoes a => off_path a && enabled (tx c) a
  | RxDoes a => off_path a && enabled (rx c) a
  | Recv n => bool_decide (0 < n ≤ length (wire c))%nat && (Z.of_nat n <=? recv_buffer_size)
              && enabled (rx c) (ReceiveAnswer (Received (take n (wire c))))
  end.

Section Channel.
Context {h : Host}.

Definition channel_perform (a : channel_action) (c : channel) : res (observation * channel) :=
  match a with
  | Begin m =>
    data ← SerializeMessage m;
    out ← Send data [] (tx c);
    Ok (match out.1 with None => Accept m | Some _ => Refuse m end,
        c {{ tx := out.2; sends := sends c ++ (if out.1 is None then [data] else []) }})
  | Write i answers =>
    rest ← (if sends c !! i is Some rest then Ok rest else Fault OutOfBounds);
    out ← send_loop rest answers (tx c);
    let sent := sent_bytes (events_since (tx c) out.2) in
    Ok (match out.1 with None => Internal | Some true => SendDone | Some false => SendFailed end,
        c {{ tx := out.2; wire := wire c ++ sent;
             up := (if out.1 is Some false then false else up c);
             sends := (if out.1 is None then <[i := drop (length sent) rest]> (sends c)
                       else delete i (sends c)) }})
  | TxDoes a =>
    out ← perform a (tx c);
    Ok (Internal, c {{ tx := out.2 }})
  | RxDoes a =>
    out ← perform a (rx c);
    Ok (Internal, c {{ rx := out.2 }})
  | Recv n =>
    out ← perform (ReceiveAnswer (Received (take n (wire c)))) (rx c);
    got ← ProcessChunks (data_of (events_since (rx c) out.2)) (handler c);
    Ok (Deliver got.1, c {{ rx := out.2; wire := drop n (wire c); handler := got.2 }})
  end.

(** Messages are well formed, as the program's constructors make them. *)
Definition sends_ok (a : channel_action) : Prop :=
  if a is Begin m then packet_ok m else True.

Inductive channel_step (serial : bool) : channel → channel_action → observation → channel → Prop :=
  | channel_step_intro c a o c' :
    channel_enabled serial c a = true → sends_ok a → channel_perform a c = Ok (o, c') →
    channel_step serial c a o c'.

Inductive channel_steps (serial : bool)
    : channel → list channel_action → list observation → channel → Prop :=
  | channel_steps_nil c : channel_steps serial c [] [] c
  | channel_steps_snoc c l os c1 a o c2 :
    channel_steps serial c l os c1 → channel_step serial c1 a o c2 →
    channel_steps serial c (l ++ [a]) (os ++ [o]) c2.

(** Both ends after [Connect]: nothing sent, callbacks set. *)
Definition fresh (c : channel) : Prop :=
  sends c = [] ∧ wire c = [] ∧ up c = true ∧
  handler c = SetMessageCallback MessageHandler_init ∧ data_callback_ (rx c) = true.

(** ** The wire between packets *)

Lemma pending_empty r q : pending r q [] → r = [] ∧ q = [].
Proof. intros [E ->]. by split. Qed.

Lemma pending_snoc r q ms m :
  packet_ok m → pending r q ms → pending r (q ++ packet_bytes m) (ms ++ [m]).
Proof.
  intros Hm [E Hr]. split.
  { rewrite app_assoc, E, map_app, concat_app. cbn [map concat]. by rewrite app_nil_r. }
  destruct ms as [|m1 ms]; [|exact Hr]. subst r. exists (packet_bytes m). split; [|done].
  intros Hn. apply (f_equal length) in Hn. by rewrite length_packet_bytes in Hn.
Qed.

(** A message as it is on the wire. *)
Definition sealed (m : NetworkMessage) : Prop := packet_ok m ∧ checksum_ok m = true.

Lemma sealed_with_checksum m : packet_ok m → sealed (with_checksum m).
Proof. intros Hm. split; [by apply packet_ok_with_checksum|apply checksum_ok_with_checksum]. Qed.

Lemma deliveries_sealed ms : Forall sealed ms → deliveries true ms = ms.
Proof.
  intros Hms. unfold deliveries. induction Hms as [|m ms [_ Hm] _ IH]; [done|].
  by rewrite filter_cons, Hm, IH.
Qed.

(** An empty buffer that gets whole messages. *)
Lemma whole_messages ms :
  Forall sealed ms →
  ProcessReceivedData (concat (map packet_bytes ms)) (Build_MessageHandler [] true)
  = Ok (ms, Build_MessageHandler [] true).
Proof.
  intros Hms. assert (Forall packet_ok ms) as Hok by (eapply Forall_impl; [exact Hms|by intros ? []]).
  assert (pending [] (concat [concat (map packet_bytes ms)]) ms) as Hp.
  { split; [cbn; apply app_nil_r|]. destruct ms as [|m ms]; [done|]. exists (packet_bytes m).
    split; [|done]. intros E. apply Forall_cons in Hok as [Hm _].
    apply (f_equal length) in E. by rewrite length_packet_bytes in E. }
  pose proof (ProcessChunks_stream true _ [] ms Hok Hp) as Hrun. rewrite deliveries_sealed in Hrun by done.
  revert Hrun. cbn [ProcessChunks]. unfold mbind, M_bind, mret, M_ret.
  destruct (ProcessReceivedData _ _) as [[ms' mh]|]; [|done]. by rewrite app_nil_r.
Qed.

(** The handler on the next bytes of the wire. *)
Lemma pending_read r data q ms :
  Forall sealed ms → pending r (data ++ q) ms →
  ∃ got ms' r', ms = got ++ ms' ∧ pending r' q ms' ∧
    ProcessChunks [data] {| receive_buffer_ := r; message_callback_ := true |}
    = Ok (got, {| receive_buffer_ := r'; message_callback_ := true |}).
Proof.
  intros Hms [E _]. rewrite app_assoc in E.
  destruct (drain_prefix true ms (r ++ data) q) as (got & r' & ms' & -> & Hd & Hp); [|done|].
  { eapply Forall_impl; [exact Hms|]. by intros m [? _]. }
  exists got, ms', r'. split_and!; [done..|].
  apply Forall_app in Hms as [Hgot _]. rewrite deliveries_sealed in Hd by done.
  cbn [ProcessChunks]. unfold mbind, M_bind.
  rewrite (ProcessReceivedData_drain data (Build_MessageHandler r true) _ _ Hd).
  unfold mret, M_ret. by rewrite app_nil_r.
Qed.

(** ** The sockets *)

Lemma events_since_app (s s' : TcpSocket) ev :
  events s' = events s ++ ev → events_since s s' = ev.
Proof. intros E. unfold events_since. rewrite E. by apply drop_app_length. Qed.

(** The data callback stays. *)
Definition keeps_callback (s s' : TcpSocket) : Prop := data_callback_ s' = data_callback_ s.
#[export] Instance keeps_callback_preorder : PreOrder keeps_callback.
Proof. split; [done|]. intros s1 s2 s3 H1 H2. unfold keeps_callback in *. congruence. Qed.

Lemma off_path_callback a : off_path a = true → changes keeps_callback a.
Proof. intros Ha. destruct a; try done; action; reflexivity. Qed.

(** A read of the receive thread hands the data over. *)
Lemma receive_data data s :
  data_callback_ s = true →
  ∃ s', perform (ReceiveAnswer (Received data)) s = Ok ((), s') ∧
    data_of (events_since s s') = [data] ∧ s' = s {{ events := events s ++ [EvData data];
                                                     receive_thread_ := Some AtTest }}.
Proof.
  intros Hcb. eexists. split; [|split; [|reflexivity]].
  - cbn. unfold NotifyData, emit, modify, get, mbind, M_bind. by rewrite Hcb.
  - by rewrite (events_since_app s _ [EvData data]).
Qed.

(** A call of [Send] up to its loop. *)
Lemma Send_begin data s :
  data ≠ [] →
  Send data [] s = Ok (if negb (is_connected_ s) || (socket_fd_ s <? 0) then Some false else None, s).
Proof.
  intros Hd. unfold Send, mbind, M_bind, get. case_match; [done|]. by destruct data.
Qed.

(** ** Refinement *)

(** The packets in the handler's buffer, on the wire and still unsent are the
    queue, followed by the lost message if there is one. *)
Definition simulates (c : channel) (f : fifo) : Prop := ∃ unsent,
  let ms := queue f ++ option_list (lost f) in
  Forall sealed ms ∧
  pending (receive_buffer_ (handler c)) (wire c ++ unsent) ms ∧
  message_callback_ (handler c) = true ∧ data_callback_ (rx c) = true ∧
  match lost f with
  | None => up c = true ∧ (sends c = [] ∧ unsent = [] ∨ sends c = [unsent] ∧ unsent ≠ [])
  | Some _ => up c = false ∧ sends c = [] ∧ unsent ≠ []
  end.

Lemma fresh_simulates c : fresh c → simulates c fifo_new.
Proof.
  intros (Hs & Hw & Hu & Hh & Hcb). exists []. rewrite Hs, Hw, Hu, Hh. cbn.
  split_and!; auto. by split.
Qed.

Lemma channel_step_inv serial c a o c' :
  channel_step serial c a o c' →
  channel_enabled serial c a = true ∧ sends_ok a ∧ channel_perform a c = Ok (o, c').
Proof. by destruct 1. Qed.

Lemma simulates_Begin c f m o c' :
  channel_step true c (Begin m) o c' → simulates c f →
  ∃ f', fifo_step f o f' ∧ simulates c' f'.
Proof.
  intros (Hen & Hm & Hrun)%channel_step_inv (unsent & Hall & Hp & Hmc & Hcb & Hst).
  destruct f as [q l out], c as [t u ss w s mh]. cbn in *.
  apply andb_true_iff in Hen as [-> ->%bool_decide_eq_true].
  destruct l as [m0|]; [by destruct Hst|].
  destruct Hst as (_ & [[_ ->]|[? _]]); [|done].
  assert (packet_ok (with_checksum m)) as Hm' by by apply packet_ok_with_checksum.
  assert (packet_bytes (with_checksum m) ≠ []) as Hne.
  { intros E. apply (f_equal length) in E. by rewrite length_packet_bytes in E. }
  rewrite SerializeMessage_bytes in Hrun by by destruct Hm.
  cbn [mbind res_bind] in Hrun. rewrite Send_begin in Hrun by done.
  cbn [mbind res_bind fst snd] in Hrun.
  destruct (negb (is_connected_ t) || (socket_fd_ t <? 0)); injection Hrun as <- <-.
  - eexists. split; [constructor|]. exists []. cbn. split_and!; auto.
  - eexists. split; [constructor|]. exists (packet_bytes (with_checksum m)). cbn in *.
    rewrite !app_nil_r in *. split_and!; auto.
    + apply Forall_app. split; [done|]. apply Forall_singleton. by apply sealed_with_checksum.
    + by apply pending_snoc.
Qed.

Lemma simulates_Write c f i answers o c' :
  channel_step true c (Write i answers) o c' → simulates c f →
  ∃ f', fifo_step f o f' ∧ simulates c' f'.
Proof.
  intros (Hen & _ & Hrun)%channel_step_inv (unsent & Hall & Hp & Hmc & Hcb & Hst).
  destruct f as [q l out], c as [t u ss w s mh]. cbn in *.
  apply bool_decide_eq_true in Hen.
  destruct l as [m0|]; [destruct Hst as (_ & -> & _); cbn in Hen; lia|].
  destruct Hst as (-> & [[-> _]|[-> Hne]]); [cbn in Hen; lia|].
  destruct i as [|i]; [|cbn in Hen; lia]. cbn in Hrun.
  destruct (send_loop_spec answers unsent t) as (r & ev & rest & E & Hd & Hr).
  rewrite E in Hrun. cbn in Hrun. rewrite (events_since_app t _ ev) in Hrun by done.
  assert (drop (length (sent_bytes ev)) unsent = rest) as Hdrop.
  { rewrite Hd. by apply drop_app_length. }
  rewrite Hdrop in Hrun. cbn [option_list] in *. rewrite app_nil_r in *.
  rewrite Hd, app_assoc in Hp.
  destruct r as [[]|]; injection Hrun as <- <-.
  - subst rest. eexists. split; [constructor|]. exists []. cbn. rewrite !app_nil_r in *.
    split_and!; auto.
  - destruct Hr as [_ Hrest].
    destruct q as [|m q _] using rev_ind.
    { apply pending_empty in Hp as [_ [_ ?]%app_nil]. done. }
    eexists. split; [constructor|]. exists rest. cbn. by split_and!.
  - eexists. split; [constructor|]. exists rest. cbn. rewrite !app_nil_r.
    destruct Hr as (Hrest & _). split_and!; auto.
Qed.

Lemma simulates_Recv c f n o c' :
  channel_step true c (Recv n) o c' → simulates c f →
  ∃ f', fifo_step f o f' ∧ simulates c' f'.
Proof.
  intros (Hen & _ & Hrun)%channel_step_inv (unsent & Hall & Hp & Hmc & Hcb & Hst).
  destruct f as [q l out], c as [t u ss w s mh].
  cbn [channel_perform rx wire handler queue lost output] in *.
  destruct (receive_data (take n w) s Hcb) as (s' & E & Hdata & Hs').
  rewrite E in Hrun. cbn [mbind res_bind snd] in Hrun. rewrite Hdata in Hrun.
  rewrite <- (take_drop n w), <- app_assoc in Hp.
  destruct mh as [r cb]. cbn [receive_buffer_ message_callback_] in *. subst cb.
  destruct (pending_read _ _ _ _ Hall Hp) as (got & ms' & r' & Hms & Hp' & Hread).
  rewrite Hread in Hrun. cbn [mbind res_bind fst snd] in Hrun. injection Hrun as <- <-.
  assert (∃ q', q = got ++ q' ∧ ms' = q' ++ option_list l) as (q' & -> & ->).
  { destruct l as [m|]; cbn [option_list] in *; [|exists ms'; by rewrite app_nil_r in *].
    destruct ms' as [|m' ms' _] using rev_ind.
    { apply pending_empty in Hp' as [_ [_ ?]%app_nil]. by destruct Hst as (_ & _ & ?). }
    rewrite app_assoc in Hms. apply app_inj_tail in Hms as [-> ->]. by exists ms'. }
  eexists. split; [constructor|]. exists unsent. cbn. rewrite <- app_assoc in Hall.
  apply Forall_app in Hall as [_ Hall]. subst s'. split_and!; auto.
Qed.

(** Every step of the channel is a step of the queue. *)
Lemma simulates_step c f a o c' :
  channel_step true c a o c' → simulates c f →
  ∃ f', fifo_step f o f' ∧ simulates c' f'.
Proof.
  destruct a as [m|i answers|a|a|n].
  - apply simulates_Begin.
  - apply simulates_Write.
  - intros (_ & _ & Hrun)%channel_step_inv Hsim. cbn [channel_perform] in Hrun.
    destruct (perform a (tx c)) as [[[] t]|]; [|done]. injection Hrun as <- <-.
    exists f. split; [constructor|]. by destruct c.
  - intros (Hen & _ & Hrun)%channel_step_inv (unsent & Hall & Hp & Hmc & Hcb & Hst).
    cbn [channel_perform] in Hrun.
    destruct (perform a (rx c)) as [[[] s]|] eqn:E; [|done]. injection Hrun as <- <-.
    exists f. split; [constructor|]. exists unsent. destruct c. cbn in *. split_and!; auto.
    apply andb_true_iff in Hen as [Hoff _].
    by rewrite (off_path_callback a Hoff _ _ _ E).
  - apply simulates_Recv.
Qed.

Lemma simulates_steps c0 l os c f0 :
  channel_steps true c0 l os c → simulates c0 f0 →
  ∃ f, fifo_steps f0 os f ∧ simulates c f.
Proof.
  intros Hs Hsim. induction Hs as [c|c l os c1 a o c2 _ IH Hst]; [by exists f0; split; [constructor|]|].
  destruct (IH Hsim) as (f1 & Hf1 & Hsim1).
  destruct (simulates_step _ _ _ _ _ Hst Hsim1) as (f2 & Hst' & Hsim2).
  exists f2. split; [by econstructor|done].
Qed.

(** Nothing on the wire or unsent: nothing queued. *)
Lemma simulates_empty c f :
  simulates c f → wire c = [] → sends c = [] → up c = true → queue f = [] ∧ lost f = None.
Proof.
  intros (unsent & Hall & Hp & Hmc & Hcb & Hst) Hw Hs Hu.
  destruct (lost f); [by destruct Hst; congruence|]. split; [|done].
  destruct Hst as (_ & [[_ ->]|[? ?]]); [|congruence].
  rewrite Hw in Hp. destruct (queue f) as [|m q]; [done|]. exfalso.
  destruct Hp as [E (k & Hk & Ek)]. cbn [app option_list map concat] in *.
  rewrite app_nil_r in *. apply (f_equal length) in E. rewrite <- Ek, !length_app in E.
  destruct k; [done|]. cbn in E. lia.
Qed.

(** ** Progress *)

(** The receive thread about to go round its loop again. *)
Definition receiving (s : TcpSocket) : Prop :=
  receive_thread_ s = Some AtTest ∧ should_stop_ s = false ∧ is_connected_ s = true.

(** Reads of these sizes, each after a test of the loop. *)
Definition reads (ns : list nat) : list channel_action :=
  flat_map (λ n, [RxDoes ReceiveTest; Recv n]) ns.

Lemma channel_steps_app serial c1 l1 os1 c2 l2 os2 c3 :
  channel_steps serial c1 l1 os1 c2 → channel_steps serial c2 l2 os2 c3 →
  channel_steps serial c1 (l1 ++ l2) (os1 ++ os2) c3.
Proof.
  intros H1 H2. induction H2 as [|c2 l os c3 a o c4 _ IH Hst]; [by rewrite !app_nil_r|].
  rewrite !app_assoc. econstructor; eauto.
Qed.

Lemma channel_step_once serial c a o c' :
  channel_step serial c a o c' → channel_steps serial c [a] [o] c'.
Proof. intros H. apply (channel_steps_snoc serial c [] [] c a o c'); [constructor|done]. Qed.

(** A read succeeds and leaves everything but the wire and the handler ready
    for the next. *)
Lemma read_once c f n :
  simulates c f → receiving (rx c) →
  (0 < n ≤ length (wire c))%nat → Z.of_nat n <= recv_buffer_size →
  ∃ got c', channel_steps true c (reads [n]) [Internal; Deliver got] c' ∧
    receiving (rx c') ∧ wire c' = drop n (wire c) ∧ sends c' = sends c ∧ up c' = up c.
Proof.
  intros Hsim (Hrx & Hstop & Hconn) Hn Hbuf.
  destruct Hsim as (unsent & Hall & Hp & Hmc & Hcb & _).
  destruct c as [t u ss w s [r cb]]. cbn [rx wire handler receive_buffer_ message_callback_] in *. subst cb.
  rewrite <- (take_drop n w), <- app_assoc in Hp.
  destruct (pending_read _ _ _ _ Hall Hp) as (got & ms' & r' & _ & _ & Hread).
  set (s1 := s {{ receive_thread_ := Some InCall }}).
  destruct (receive_data (take n w) s1 Hcb) as (s2 & E & Hdata & Hs2).
  exists got. eexists. split.
  - apply (channel_steps_app true _ [RxDoes ReceiveTest] [Internal]
      (Build_channel t u ss w s1 (Build_MessageHandler r true)) [Recv n] [Deliver got]);
      eapply channel_step_once; split; try done.
    + cbn. by apply bool_decide_eq_true.
    + cbn. unfold receive_test, get, mbind, M_bind, modify. by rewrite Hstop, Hconn.
    + cbn. rewrite andb_true_r. apply andb_true_iff. split; [by apply bool_decide_eq_true|].
      by apply Z.leb_le.
    + cbn [channel_perform rx wire handler]. rewrite E. cbn [mbind res_bind snd].
      rewrite Hdata, Hread. reflexivity.
  - cbn. subst s2. by split_and!.
Qed.

End Channel.

(** ** Properties *)

Section Properties.
Context {h : Host}.


End Properties.

(** ** Witnesses *)

(** Executes actions; the result is the observations and the final state. *)
Fixpoint channel_exec (serial : bool) (l : list channel_action) (c : channel)
    : option (list observation * channel) :=
  match l with
  | [] => Some ([], c)
  | a :: l' =>
    if channel_enabled serial c a then
      match channel_perform (h := LittleEndian) a c with
      | Ok (o, c1) =>
        match channel_exec serial l' c1 with
        | Some (os, c2) => Some (o :: os, c2)
        | None => None
        end
      | Fault _ => None
      end
    else None
  end.

Lemma channel_exec_steps serial l c os c' :
  Forall sends_ok l → channel_exec serial l c = Some (os, c') →
  channel_steps (h := LittleEndian) serial c l os c'.
Proof.
  intros Hl. revert c os. induction Hl as [|a l Ha _ IH]; intros c os; cbn [channel_exec].
  { intros [= <- <-]. constructor. }
  destruct (channel_enabled serial c a) eqn:Hen; [|done].
  destruct (channel_perform a c) as [[o c1]|] eqn:E; [|done].
  destruct (channel_exec serial l c1) as [[os1 c2]|] eqn:El; [|done]. intros [= <- <-].
  apply (channel_steps_app (h := LittleEndian) serial c [a] [o] c1);
    [apply channel_step_once; by split|by apply IH].
Qed.

Definition sample_channel : channel := {|
  tx := connected_socket; up := true; sends := []; wire := []; rx := connected_socket;
  handler := SetMessageCallback MessageHandler_init |}.

Lemma sample_channel_fresh : fresh sample_channel.
Proof. by split_and!. Qed.

(** Two messages sent one after the other, the second waiting once; the bytes
    that have arrived in between are read. *)
Definition sample_actions : list channel_action :=
  [Begin sample_import; Write 0 [Sent 10; SendAgain; Sent 13]; RxDoes ReceiveTest; Recv 5;
   Begin sample_heartbeat; Write 0 [Sent 7]; RxDoes ReceiveTest; Recv 20; Write 0 [Sent 13]].

Ltac sends_ok := repeat (apply Forall_cons_2;
  [first [exact I | exact sample_import_ok | exact sample_heartbeat_ok]|]); apply Forall_nil_2.

Definition sample_result : list observation * channel :=
  default ([], sample_channel) (channel_exec true sample_actions sample_channel).

Lemma sample_run :
  channel_steps (h := LittleEndian) true sample_channel sample_actions
    sample_result.1 sample_result.2.
Proof.
  apply channel_exec_steps; [|vm_compute; reflexivity].
  sends_ok.
Qed.



(** ** Concurrent calls *)

(** A thread sends [sample_import], and before its last byte is written
    another thread sends a heartbeat. *)
Definition overlapping_actions : list channel_action :=
  [Begin sample_import; Write 0 [Sent 22]; Begin sample_heartbeat; Write 1 [Sent 20];
   Write 0 [Sent 1]; RxDoes ReceiveTest; Recv 43].
Definition overlapping_result : list observation * channel :=
  default ([], sample_channel) (channel_exec false overlapping_actions sample_channel).

(** [Send] holds no lock while its loop runs, and the client's threads
    (heartbeat, receive thread, requests) share the socket. When two calls
    overlap, both can return true, every byte sent be received, and neither
    message be delivered. *)
Theorem overlapping_sends_lose_both :
  channel_steps (h := LittleEndian) false sample_channel overlapping_actions
    overlapping_result.1 overlapping_result.2 ∧
  omap (λ o, match o with SendDone => Some true | SendFailed => Some false | _ => None end)
    overlapping_result.1 = [true; true] ∧
  wire overlapping_result.2 = [] ∧ sends overlapping_result.2 = [] ∧
  accepted overlapping_result.1 = [with_checksum sample_import; with_checksum sample_heartbeat] ∧
  handed_over overlapping_result.1 = [].
Proof.
  split.
  - apply channel_exec_steps; [|vm_compute; reflexivity].
    sends_ok.
  - vm_compute. auto 6.
Qed.
