(* ===== verification/ClientInvariant.v ===== *)
(** * ClientInvariant: what holds of the client at all times

    The invariant [client_ok] of [receiver/usbip/usbip_client.cpp]'s
    [UsbipClient] (the definitions are in [UsbipClient.v]): the types of what
    it passes to its callbacks, the bound on its buffer, the discipline of its
    heartbeat thread.  Every operation, whatever the network sends and the
    system answers, keeps it. *)

From S2P Require Import Prelude Memory UsbTypes UsbipProtocol MessageHandler TcpSocket UsbipClient.

(** ** Well-typed data from the network *)

Section Types.
Context {h : Host}.

Lemma wf_device_to_host x : wf x → wf (device_to_host x).
Proof. apply wf_device_to_network. Qed.

Lemma wf_entry payload i :
  bytes_ok payload → (12 + 312 * i + 312 ≤ length payload)%nat → wf (entry payload i).
Proof.
  intros Hb Hl. apply wf_device_to_host, wf_struct_load; [auto with usb|].
  rewrite sizeof_UsbipDeviceInfo, length_take, length_drop. lia.
Qed.

Lemma wf_entries payload :
  bytes_ok payload → Forall wf (map (entry payload) (seq 0 (entries payload))).
Proof.
  intros Hb. apply Forall_map, Forall_seq. intros i Hi. apply wf_entry; [done|].
  unfold entries in Hi. pose proof (Nat.Div0.mul_div_le (length payload - 12) 312). lia.
Qed.

(** Device lists are well typed, or their paths lack a terminator. *)
Lemma parse_device_list_wf payload :
  bytes_ok payload →
  match parse_device_list payload with
  | Ok devices => Forall wf devices
  | Fault e => e = OutOfBounds
  end.
Proof.
  intros Hb. destruct (decide (12 ≤ length payload)%nat) as [Hl|Hl].
  - rewrite parse_device_list_spec by done. case_bool_decide; [|done]. by apply wf_entries.
  - unfold parse_device_list. by rewrite decide_False.
Qed.

(** So are the URBs. *)
Lemma parse_urb_wf now junk payload :
  is_u64 now → wf junk → bytes_ok payload → Z.of_nat (length payload) <= MAX_MESSAGE_SIZE →
  ∃ urb, parse_urb now junk payload = Ok urb ∧ (if urb is Some urb then urb_wf urb else True).
Proof.
  intros Hnow Hjunk Hb Hlen. unfold parse_urb. change (sizeof UsbipCmdSubmit) with 48%nat.
  case_decide as Hl; [by exists None|].
  rewrite ParseCmdSubmit_read by lia. cbn [mbind res_bind].
  set (cmd := NetworkToHost_CmdSubmit _).
  assert (wf cmd) as Hcmd.
  { apply wf_HostToNetwork_CmdSubmit, wf_struct_load; [auto with usb|].
    change (sizeof UsbipCmdSubmit) with 48%nat. rewrite length_take. lia. }
  set (n := transfer_buffer_length cmd).
  assert (∃ data, (if (0 <? n) && (Z.of_nat 48 + n <=? Z.of_nat (length payload))
    then mem_read payload 48 (Z.to_nat n) else Ok []) = Ok data ∧ bytes_ok data) as (data & -> & Hdata).
  { destruct (Z.ltb_spec 0 n), (Z.leb_spec (Z.of_nat 48 + n) (Z.of_nat (length payload)));
      cbn [andb]; try by exists [].
    eexists. unfold mem_read. rewrite decide_True by lia. split; [done|]. auto with usb. }
  cbn [mbind res_bind]. eexists. split; [done|]. unfold urb_wf.
  cbn [urb_id urb_direction urb_endpoint urb_flags urb_data urb_setup urb_status urb_actual_length
       urb_timestamp].
  destruct Hcmd as (Hh & Hf & _). cbn in Hh. forall2_inv.
  split_and!; try done.
  - apply UsbDirection_cast_wf.
  - apply u8_range.
  - case_match; [|done]. apply wf_struct_load; [apply mem_store_ok|by rewrite length_mem_store].
  - apply u32_range.
Qed.
End Types.

(** ** The invariant *)

Definition notice_ok (n : notice) : Prop :=
  match n with
  | NoticeDevices devices => Forall wf devices
  | NoticeUrb urb => urb_wf urb
  | NoticeError _ => True
  end.

Record client_ok (c : UsbipClient) : Prop := {
  (* what the callbacks have got has its C++ type *)
  client_notices : Forall notice_ok (notices c);
  (* the bytes waiting for the rest of a message are bytes, and few *)
  client_buffer : bytes_ok (receive_buffer_ (message_handler_ c));
  client_buffer_bound :
    Z.of_nat (length (receive_buffer_ (message_handler_ c))) < 20 + MAX_MESSAGE_SIZE;
  client_handler : message_callback_ (message_handler_ c) = true;
  (* the heartbeat thread is joinable exactly while its flag is up *)
  client_heartbeat : heartbeat_thread_ c = heartbeat_running_ c;
  client_messages : is_u32 (messages c);
}.

Lemma UsbipClient_new_ok seq : is_u32 seq → client_ok (UsbipClient_new seq).
Proof. intros Hs. by split. Qed.

Create HintDb client discriminated.

(** Updates that leave the invariant alone, and those that do not. *)
Lemma ok_socket c s : client_ok c → client_ok (c {{ tcp_client_ := s }}).
Proof. by destruct 1, c. Qed.
Lemma ok_connected c b : client_ok c → client_ok (c {{ connected_ := b }}).
Proof. by destruct 1, c. Qed.
Lemma ok_messages c x : client_ok c → client_ok (c {{ messages := u32 x }}).
Proof. destruct 1, c; split; cbn in *; auto. apply u32_range. Qed.
Lemma ok_notice c n : notice_ok n → client_ok c → client_ok (c {{ notices := notices c ++ [n] }}).
Proof.
  intros Hn []. destruct c; split; cbn in *; auto. apply Forall_app. split; [done|].
  by apply Forall_singleton.
Qed.
Lemma ok_server c host port :
  client_ok c → client_ok (c {{ server_host_ := host; server_port_ := port }}).
Proof. by destruct 1, c. Qed.

#[export] Hint Resolve ok_socket ok_connected ok_messages ok_notice ok_server : client.

(** Reduces [wp] of an operation to its updates. *)
Ltac client := repeat lazymatch goal with
  | |- wp (_ ≫= _) _ _ _ => apply wp_bind
  | |- wp (mret _) _ _ _ => apply wp_ret
  | |- wp get _ _ _ => apply wp_get
  | |- wp (modify _) _ _ _ => apply wp_modify
  | |- wp (notify _) _ _ _ => apply wp_modify
  | |- wp (if ?b then _ else _) _ _ _ => let E := fresh in destruct b eqn:E
  end; auto with client.

(** From any client with the invariant, the operation returns in one, or goes
    wrong with a given fault. *)
Abbreviation keeps := (preserves client_ok).

Section Operations.
Context {h : Host}.
Variable F : fault → Prop.

(** *** Callbacks of the socket *)

(** The flag is down only when no thread is joinable, so that starting the
    thread replaces none. *)
Lemma keeps_StartHeartbeat n : keeps F (StartHeartbeat n).
Proof.
  intros c Hc. unfold StartHeartbeat. apply wp_bind, wp_get.
  destruct (heartbeat_running_ c) eqn:E; [by apply wp_ret|].
  apply wp_bind, wp_modify. rewrite (client_heartbeat c Hc), E. apply wp_modify. by destruct Hc, c.
Qed.

Lemma keeps_StopHeartbeat : keeps F StopHeartbeat.
Proof.
  intros c Hc. unfold StopHeartbeat. apply wp_bind, wp_get.
  destruct (heartbeat_running_ c) eqn:E; cbn [negb]; [|by apply wp_ret].
  apply wp_modify. by destruct Hc, c.
Qed.

Lemma keeps_event e : keeps F (on_event e).
Proof.
  intros c Hc. destruct e as [error|connected| | |]; try by apply wp_ret.
  - cbn [on_event]. unfold OnNetworkError. client.
    apply ok_connected, ok_notice; [exact I|done].
  - cbn [on_event]. unfold OnNetworkConnect. client.
    + by apply keeps_StartHeartbeat, ok_connected.
    + by apply keeps_StopHeartbeat, ok_connected.
Qed.

(** *** Operations of the socket *)

(** Data a socket hands out are bytes. *)
Definition event_ok (e : event) : Prop := if e is EvData d then bytes_ok d else True.
Definition grows_ok (s s' : TcpSocket) : Prop :=
  ∃ ev, events s' = events s ++ ev ∧ Forall event_ok ev.

Lemma keeps_on_events handler evs :
  (∀ e, event_ok e → keeps F (handler e)) → Forall event_ok evs → keeps F (on_events handler evs).
Proof.
  intros Hh He. induction He as [|e evs He _ IH]; [by intros c Hc; apply wp_ret|].
  cbn [on_events]. apply preserves_bind; auto.
Qed.

Lemma wp_on_socket_with {A} handler (m : M TcpSocket A) c :
  (∀ e, m (tcp_client_ c) = Fault e → F e) → respects grows_ok m →
  (∀ e, event_ok e → keeps F (handler e)) → client_ok c →
  wp (on_socket_with handler m) F (λ _, client_ok) c.
Proof.
  intros HF Hm Hh Hc. unfold wp, on_socket_with.
  destruct (m (tcp_client_ c)) as [[a s]|e] eqn:E; [|by eapply HF].
  destruct (Hm _ _ _ E) as (ev & Hev & Hok). rewrite Hev, drop_app_length.
  apply (preserves_bind _ _ (on_events handler ev) (λ _, mret a)).
  - by apply keeps_on_events.
  - intros _ c1 Hc1. by apply wp_ret.
  - by apply ok_socket.
Qed.

Lemma keeps_on_socket_with {A} handler (m : M TcpSocket A) :
  (∀ s e, m s = Fault e → F e) → respects grows_ok m →
  (∀ e, event_ok e → keeps F (handler e)) → keeps F (on_socket_with handler m).
Proof. intros HF Hm Hh c Hc. apply wp_on_socket_with; auto. intros e. apply HF. Qed.

(** Sending changes nothing but the events; a send whose answers run out is
    still in progress. *)
Hypothesis F_fuel : F OutOfFuel.

Lemma Send_total data answers s e : Send data answers s = Fault e → F e.
Proof.
  unfold Send, mbind, M_bind, get. case_match; [done|].
  destruct (send_loop_spec answers data s) as (r & ev & rest & -> & _). done.
Qed.

#[export] Instance grows_ok_preorder : PreOrder grows_ok.
Proof.
  split; [intros s; exists []; by rewrite app_nil_r|].
  intros s1 s2 s3 (e1 & H1 & ?) (e2 & H2 & ?). exists (e1 ++ e2).
  rewrite H2, H1, app_assoc. split; [done|]. by apply Forall_app.
Qed.
Lemma grows_ok_same s s' : events s' = events s → grows_ok s s'.
Proof. intros E. exists []. by rewrite app_nil_r. Qed.
Lemma grows_ok_one s s' e : event_ok e → events s' = events s ++ [e] → grows_ok s s'.
Proof. intros He E. exists [e]. split; [done|]. by apply Forall_singleton. Qed.
Lemma grows_ok_closes s s' fds : events s' = events s ++ map EvClose fds → grows_ok s s'.
Proof.
  intros E. exists (map EvClose fds). split; [done|]. apply Forall_map, Forall_true. by intros.
Qed.

Ltac grows_ok :=
  first [ apply grows_ok_same; reflexivity
        | eapply grows_ok_one; [|reflexivity]; first [exact I | assumption]
        | eapply grows_ok_closes; reflexivity ].

Lemma Send_grows data answers : respects grows_ok (Send data answers).
Proof.
  assert (∀ answers data, respects grows_ok (send_loop data answers)) as Hloop.
  { clear data answers. induction answers as [|a answers IH]; intros [|b data]; cbn [send_loop];
      [apply respects_ret, _..|].
    destruct a; unfold NotifyError, emit; respects; auto; grows_ok. }
  unfold Send. respects. apply Hloop.
Qed.

Lemma keeps_send_message t data answers :
  keeps F (send_message (NetworkMessage_new t data) answers).
Proof.
  intros c Hc. unfold send_message. apply wp_bind. unfold wp, counted.
  rewrite NetworkMessage_new_run. set (c1 := c {{ messages := _ }}).
  assert (client_ok c1) as Hc1 by by apply ok_messages.
  apply wp_bind. eapply wp_lift_Ok.
  { apply SerializeMessage_bytes, header_wf_fields. cbn.
    destruct Hc as [_ _ _ _ _ Hm]. destruct t; split_and!; try done; apply u32_range. }
  apply (preserves_bind _ _ _ _); [|..|done].
  - apply keeps_on_socket_with; [intros s e; apply Send_total|apply Send_grows|].
    intros e _. apply keeps_event.
  - intros [ok|] c2 Hc2; [by apply wp_ret|by apply wp_fail].
Qed.

Lemma keeps_request t data answers : keeps F (request (NetworkMessage_new t data) answers).
Proof.
  intros c Hc. unfold request. apply wp_bind, wp_get.
  destruct (negb (connected_ c)); [by apply wp_ret|by apply keeps_send_message].
Qed.

Lemma keeps_heartbeat_turn answers : keeps F (heartbeat_turn answers).
Proof.
  intros c Hc. unfold heartbeat_turn. apply wp_bind, wp_get.
  case_match; [by apply wp_ret|]. apply (preserves_bind _ _ _ _); [|..|done].
  - apply keeps_send_message.
  - intros _ c1 Hc1. by apply wp_ret.
Qed.

(** *** Messages *)

Variables (now : Z) (junk : UsbSetupPacket) (answers : list send_answer).
Hypothesis now_ok : is_u64 now.
Hypothesis junk_ok : wf junk.
Hypothesis F_oob : F OutOfBounds.

Lemma keeps_OnNetworkMessage m : packet_ok m → keeps F (OnNetworkMessage now junk answers m).
Proof.
  intros (_ & _ & _ & Hlen & Hb) c Hc. unfold OnNetworkMessage.
  destruct (MessageType_cast (type (header m))) as [[]|]; try by apply wp_ret.
  - unfold HandleDeviceListResponse. apply wp_bind. unfold wp at 1, lift.
    pose proof (parse_device_list_wf (payload m) Hb) as Hwf.
    destruct (parse_device_list (payload m)) as [devices|e]; [|by subst e].
    client.
  - unfold HandleUrbSubmit. apply wp_bind.
    destruct (parse_urb_wf now junk (payload m)) as (urb & E & Hurb); [done..|].
    eapply wp_lift_Ok; [exact E|]. apply wp_bind, wp_get.
    destruct urb as [urb|]; client.
  - unfold HandleHeartbeat. apply (preserves_bind _ _ _ _); [|..|done].
    + apply keeps_send_message.
    + intros _ c1 Hc1. by apply wp_ret.
Qed.

Lemma keeps_on_messages ms :
  Forall packet_ok ms → keeps F (on_messages now junk answers ms).
Proof.
  intros Hms. induction Hms as [|m ms Hm _ IH]; [by intros c Hc; apply wp_ret|].
  cbn [on_messages]. apply preserves_bind; [by apply keeps_OnNetworkMessage|done].
Qed.

Lemma keeps_OnNetworkData data : bytes_ok data → keeps F (OnNetworkData now junk answers data).
Proof.
  intros Hd c Hc. unfold wp, OnNetworkData, ProcessReceivedData.
  set (buffer := receive_buffer_ (message_handler_ c) ++ data).
  assert (bytes_ok buffer) as Hb.
  { apply bytes_ok_app. split; [|done]. by apply client_buffer. }
  destruct (process_loop_total (S (length buffer)) (message_callback_ (message_handler_ c)) buffer)
    as (ms & rest & Hl & Hbrk & _); [lia|]. rewrite Hl. cbn [mbind res_bind fst snd].
  destruct (process_loop_sound _ _ _ _ _ Hb Hl) as [Hms [a Ha]].
  assert (bytes_ok rest) as Hr by (rewrite Ha in Hb; by apply bytes_ok_app in Hb as [_ ?]).
  destruct (process_iteration_break _ _ Hr Hbrk) as [Hbound _].
  apply keeps_on_messages.
  - eapply Forall_impl; [exact Hms|]. by intros m (? & _).
  - destruct Hc, c. split; cbn in *; auto.
Qed.

(** *** The receive thread *)

(** Actions of the receive thread, with bytes for data. *)
Definition receives (a : action) : Prop :=
  match a with
  | ReceiveTest => True
  | ReceiveAnswer (Received data) => bytes_ok data
  | ReceiveAnswer _ => True
  | _ => False
  end.

Lemma receives_total a s e : receives a → perform a s = Fault e → False.
Proof.
  destruct a as [| | | | | |[]| | | |]; cbn [receives perform]; try done; intros _;
    unfold receive_test, receive_answer, receive_end, NotifyError, NotifyConnect, NotifyData, emit,
      modify, get, mbind, M_bind, mret, M_ret; repeat case_match; simplify_eq; done.
Qed.

Lemma receives_grows a : receives a → respects grows_ok (perform a).
Proof.
  destruct a as [| | | | | |[]| | | |]; cbn [receives]; try done; intros Hd;
    fold (changes grows_ok (ReceiveAnswer RecvAgain)); action; grows_ok.
Qed.

Lemma keeps_receive_turn a : receives a → keeps F (receive_turn now junk answers a).
Proof.
  intros Ha. apply keeps_on_socket_with.
  - intros s e E. by destruct (receives_total a s e Ha).
  - by apply receives_grows.
  - intros [] He; try apply keeps_event. by apply keeps_OnNetworkData.
Qed.

Lemma keeps_receive_turns l :
  Forall receives l → keeps F (receive_turns now junk answers l).
Proof.
  intros Hl. induction Hl as [|a l Ha _ IH]; [by intros c Hc; apply wp_ret|].
  cbn [receive_turns]. apply preserves_bind; [by apply keeps_receive_turn|done].
Qed.

(** *** Connecting and closing *)

Lemma Connect_grows host os : respects grows_ok (TcpSocket.Connect host os).
Proof.
  unfold TcpSocket.Connect, give_up_socket, NotifyError, NotifyConnect, emit. respects; grows_ok.
Qed.

Lemma keeps_Close_begin : keeps F (on_socket Close_begin).
Proof.
  apply keeps_on_socket_with; [|fold (changes grows_ok DoCloseBegin); action; grows_ok|].
  - intros s e. unfold Close_begin, emit, modify, get, mbind, M_bind, mret, M_ret.
    repeat case_match; simplify_eq; done.
  - intros e _. apply keeps_event.
Qed.

Lemma keeps_Close_end : keeps F (on_socket Close_end).
Proof.
  apply keeps_on_socket_with; [|fold (changes grows_ok DoCloseEnd); action; grows_ok|].
  - intros s e. unfold Close_end, NotifyConnect, emit, modify, get, mbind, M_bind, mret, M_ret.
    repeat case_match; simplify_eq; done.
  - intros e _. apply keeps_event.
Qed.

Lemma keeps_close_socket l : Forall receives l → keeps F (close_socket now junk answers l).
Proof.
  intros Hl. unfold close_socket. apply preserves_bind; [apply keeps_Close_begin|intros _].
  apply preserves_bind; [by apply keeps_receive_turns|intros _].
  intros c Hc. apply wp_bind, wp_get. case_match; [|by apply wp_ret].
  apply (preserves_bind _ _ _ _); [apply keeps_Close_end| |done]. intros _ c1 Hc1. by apply wp_ret.
Qed.

Lemma keeps_Disconnect l :
  Forall receives l → keeps F (Disconnect (close_socket now junk answers l)).
Proof.
  intros Hl c Hc. unfold Disconnect. apply wp_bind, wp_get.
  case_match; [by apply wp_ret|]. apply (preserves_bind _ _ _ _); [apply keeps_StopHeartbeat|intros _|done].
  apply preserves_bind; [by apply keeps_close_socket|]. intros closed c1 Hc1.
  case_match; [by apply wp_ret|]. apply wp_bind, wp_modify, wp_ret. by apply ok_connected.
Qed.

(** The only thing a connection can go wrong with that closing cannot: the
    old receive thread. *)
Lemma wp_Connect host port os polls l c :
  (receive_thread_ (tcp_client_ c) ≠ None → F StdTerminate) →
  Forall receives l → client_ok c →
  wp (Connect host port os polls (close_socket now junk answers l)) F (λ _, client_ok) c.
Proof.
  intros HF Hl Hc. unfold Connect. apply wp_bind, wp_get.
  case_match; [by apply wp_ret|]. apply wp_bind, wp_modify, wp_bind.
  eapply wp_mono; [apply wp_on_socket_with|done|].
  - intros e. destruct (Connect_cases host os (tcp_client_ c)) as [(s & E & _)|(_ & _ & E)].
    { destruct c. cbn in *. by rewrite E. }
    destruct (receive_thread_ (tcp_client_ c)) eqn:Hrx.
    + destruct c. cbn in *. rewrite E. intros [= <-]. by apply HF.
    + destruct E as (s & E & _). destruct c. cbn in *. by rewrite E.
  - apply Connect_grows.
  - intros e _. apply keeps_event.
  - by apply ok_server.
  - intros ok c1 Hc1. case_match; [by apply wp_ret|]. case_match; [by apply wp_ret|].
    apply (preserves_bind _ _ _ _); [by apply keeps_close_socket| |done].
    intros _ c2 Hc2. by apply wp_ret.
Qed.
End Operations.

(** ** All operations *)

Section Actions.
Context {h : Host}.

(** What the program's threads do with a client: the owner's requests, the
    heartbeat thread's turns, the receive thread's. *)
Inductive client_action :=
  | Connects (host : string) (port : Z) (os : os_answers) (polls : nat → bool) (l : list action)
  | Disconnects (l : list action)
  | RequestsDeviceList
  | Imports (bus_id : list Z)
  | Responds (urb : UsbUrb)
  | Beats
  | Receives (a : action).

Definition client_perform (now : Z) (junk : UsbSetupPacket) (answers : list send_answer)
    (a : client_action) : M UsbipClient () :=
  match a with
  | Connects host port os polls l =>
    Connect host port os polls (close_socket now junk answers l);; mret ()
  | Disconnects l => Disconnect (close_socket now junk answers l);; mret ()
  | RequestsDeviceList => RequestDeviceList answers;; mret ()
  | Imports bus_id => ImportDevice bus_id answers;; mret ()
  | Responds urb => SendUrbResponse urb answers;; mret ()
  | Beats => heartbeat_turn answers;; mret ()
  | Receives a => receive_turn now junk answers a
  end.

(** The receive thread reads bytes. *)
Definition client_action_ok (a : client_action) : Prop :=
  match a with
  | Connects _ _ _ _ l | Disconnects l => Forall receives l
  | Receives a => receives a
  | _ => True
  end.

(** What can go wrong: sends without end; a hostile device list, where one
    can arrive; a second connection while the first one's thread has not been
    joined. *)
Definition may_fault (a : client_action) (c : UsbipClient) (e : fault) : Prop :=
  match e, a with
  | OutOfFuel, _ => True
  | OutOfBounds, (Connects _ _ _ _ _ | Disconnects _ | Receives _) => True
  | StdTerminate, Connects _ _ _ _ _ => receive_thread_ (tcp_client_ c) ≠ None
  | _, _ => False
  end.

(** C25: The client is well typed: from a new client on, whatever the operations
    and whatever arrives, the devices and URBs passed to the callbacks have
    values of their C++ types, the receive buffer holds bytes, less than a
    header and the maximum payload, and the heartbeat thread is joinable
    exactly while its flag is up, so that starting it never replaces a
    joinable thread. *)
Theorem client_types :
  (∀ seq, is_u32 seq → client_ok (UsbipClient_new seq)) ∧
  (∀ now junk answers a c,
     is_u64 now → wf junk → client_action_ok a → client_ok c →
     wp (client_perform now junk answers a) (may_fault a c) (λ _, client_ok) c).
Proof.
  split; [apply UsbipClient_new_ok|]. intros now junk answers a c Hnow Hjunk Ha Hc.
  assert (∀ {A} (m : M UsbipClient A),
    wp m (may_fault a c) (λ _, client_ok) c → wp (m;; mret ()) (may_fault a c) (λ _, client_ok) c)
    as Hret by (intros A m Hm; apply wp_bind; by eapply wp_mono).
  destruct a; cbn [client_perform client_action_ok] in *; try apply Hret.
  - by apply wp_Connect.
  - by apply keeps_Disconnect.
  - by apply keeps_request.
  - by apply keeps_request.
  - by apply keeps_request.
  - by apply keeps_heartbeat_turn.
  - by apply keeps_receive_turn.
Qed.
End Actions.

(** ** Witness *)

Lemma client_types_witness :
  wp (client_perform (h := LittleEndian) 0 no_setup [Sent 20]
        (Receives (ReceiveAnswer (Received (packet_bytes sample_heartbeat)))))
    (may_fault (Receives (ReceiveAnswer (Received (packet_bytes sample_heartbeat)))) sample_client)
    (λ _, client_ok) sample_client.
Proof.
  destruct (client_types (h := LittleEndian)) as [Hnew Hstep]. apply Hstep.
  - vm_compute. split; [discriminate|reflexivity].
  - repeat constructor; vm_compute; discriminate.
  - apply bytes_ok_compute. vm_compute. reflexivity.
  - pose proof (Hnew 1) as H1. destruct H1 as []; [vm_compute; split; [discriminate|reflexivity]|].
    by split.
Defined.
