(* ===== verification/Arguments.v ===== *)
(** * Arguments: the receiver's command line

    [receiver/main.cpp], the first half of [main]: the loop over [argv], which
    comes before the [try] block, so that an exception of [std::stoi] is not
    caught.  Output to the terminal is left out. *)

From S2P Require Import Prelude.
From Stdlib Require Import Ascii.

(** ** [std::stoi] *)

(** [isspace] in the C locale. *)
Definition isspace (c : ascii) : bool :=
  let n := N_of_ascii c in (n =? 32)%N || ((9 <=? n) && (n <=? 13))%N.
Definition digit (c : ascii) : option Z :=
  let n := Z.of_N (N_of_ascii c) in
  if (48 <=? n) && (n <=? 57) then Some (n - 48) else None.

Fixpoint skip_spaces (s : string) : string :=
  match s with
  | String c s' => if isspace c then skip_spaces s' else s
  | EmptyString => s
  end.

(** The number the leading digits spell, after those that spelled [acc]. *)
Fixpoint read_digits (acc : option Z) (s : string) : option Z :=
  match s with
  | String c s' =>
    match digit c with
    | Some d => read_digits (Some (10 * default 0 acc + d)) s'
    | None => acc
    end
  | EmptyString => acc
  end.

(** Leading spaces, a sign and at least one digit; what follows the digits is
    ignored.  The exceptions, for no number and for one that is no [int], end
    the program. *)
Definition split_sign (s : string) : Z * string :=
  match s with
  | String c s' => if (c =? "-")%char then (-1, s') else if (c =? "+")%char then (1, s') else (1, s)
  | EmptyString => (1, s)
  end.

Definition stoi (s : string) : res Z :=
  let '(sign, s) := split_sign (skip_spaces s) in
  match read_digits None s with
  | Some n => if (-2147483648 <=? sign * n) && (sign * n <? 2147483648) then Ok (sign * n)
              else Fault StdTerminate
  | None => Fault StdTerminate
  end.

(** ** The loop *)

Record options := {
  opt_host : string;
  opt_port : Z;
  list_only : bool;
  import_device : string;
}.

Definition no_options : options :=
  {| opt_host := ""; opt_port := 0; list_only := false; import_device := "" |}.

(** The exit code, or the options the program goes on with. *)
Inductive parsed := Exits (code : Z) | Proceeds (o : options).

Definition is_arg (arg short long : string) : bool :=
  bool_decide (arg = short) || bool_decide (arg = long).

Fixpoint parse_args (args : list string) (o : options) : res parsed :=
  match args with
  | [] => Ok (Proceeds o)
  | arg :: args' =>
    if bool_decide (arg = "--help") then Ok (Exits 0)
    else if is_arg arg "-h" "--host" then
      match args' with
      | value :: args'' => parse_args args'' (o {{ opt_host := value }})
      | [] => Ok (Exits 1)
      end
    else if is_arg arg "-p" "--port" then
      match args' with
      | value :: args'' => port ← stoi value; parse_args args'' (o {{ opt_port := u16 port }})
      | [] => Ok (Exits 1)
      end
    else if is_arg arg "-l" "--list" then parse_args args' (o {{ list_only := true }})
    else if is_arg arg "-i" "--import" then
      match args' with
      | value :: args'' => parse_args args'' (o {{ import_device := value }})
      | [] => Ok (Exits 1)
      end
    else Ok (Exits 1)
  end.

(** ** Reference: options and how to write them *)

(** [long]: spelled out. *)
Inductive option_token :=
  | HostOption (long : bool) (value : string)
  | PortOption (long : bool) (value : Z)
  | ListOption (long : bool)
  | ImportOption (long : bool) (value : string).

Definition spell (t : option_token) : list string :=
  match t with
  | HostOption long value => [if long then "--host" else "-h"; value]
  | PortOption long value => [if long then "--port" else "-p"; to_string value]
  | ListOption long => [if long then "--list" else "-l"]
  | ImportOption long value => [if long then "--import" else "-i"; value]
  end.

Definition apply_token (o : options) (t : option_token) : options :=
  match t with
  | HostOption _ value => o {{ opt_host := value }}
  | PortOption _ value => o {{ opt_port := u16 value }}
  | ListOption _ => o {{ list_only := true }}
  | ImportOption _ value => o {{ import_device := value }}
  end.

Definition token_ok (t : option_token) : Prop :=
  if t is PortOption _ value then is_i32 value else True.

(** ** Decimal numbers *)

Lemma digit_pretty x : (x < 10)%N → digit (pretty_N_char x) = Some (Z.of_N x).
Proof.
  intros Hx. assert (x = 0 ∨ x = 1 ∨ x = 2 ∨ x = 3 ∨ x = 4 ∨ x = 5 ∨ x = 6 ∨ x = 7 ∨ x = 8 ∨ x = 9)%N
    as H by lia.
  by repeat destruct H as [->|H]; [..|subst].
Qed.

(** The digits of [x], then [s]. *)
Lemma read_pretty_go x s acc :
  (0 < x)%N →
  ∃ k, 0 < k ∧ read_digits acc (pretty_N_go x s)
  = read_digits (Some (k * default 0 acc + Z.of_N x)) s.
Proof.
  revert s acc. induction (N.lt_wf_0 x) as [x _ IH]; intros s acc Hx.
  rewrite pretty_N_go_step by done.
  assert (digit (pretty_N_char (x `mod` 10)) = Some (Z.of_N (x `mod` 10))) as Hd
    by (by apply digit_pretty, N.mod_lt).
  destruct (decide (x < 10)%N) as [Hs|Hs].
  - rewrite (N.div_small x 10), pretty_N_go_0, N.mod_small in * by done.
    exists 10. cbn [read_digits]. by rewrite Hd.
  - assert (0 < x `div` 10)%N as Hq by (apply N.div_str_pos; lia).
    destruct (IH (x `div` 10)%N ltac:(by apply N.div_lt) (String (pretty_N_char (x `mod` 10)) s) acc Hq)
      as (k & Hk & ->).
    exists (10 * k). split; [lia|]. cbn [read_digits]. rewrite Hd. cbn [default].
    do 2 f_equal. cbn [from_option]. unfold id. pose proof (N.div_mod x 10 ltac:(done)) as E. lia.
Qed.

(** It begins with a digit. *)
Lemma pretty_go_head x s :
  (0 < x)%N → ∃ y t, (y < 10)%N ∧ pretty_N_go x s = String (pretty_N_char y) t.
Proof.
  revert s. induction (N.lt_wf_0 x) as [x _ IH]; intros s Hx.
  rewrite pretty_N_go_step by done.
  destruct (decide (x < 10)%N) as [Hs|Hs].
  - rewrite (N.div_small x 10), pretty_N_go_0, N.mod_small by done. by exists x, s.
  - apply IH; [by apply N.div_lt|apply N.div_str_pos; lia].
Qed.

Lemma read_pretty x : ∃ y t, (y < 10)%N ∧ pretty x = String (pretty_N_char y) t ∧
  read_digits None (pretty x) = Some (Z.of_N x).
Proof.
  unfold pretty, pretty_N. case_decide as Hx; [subst; by exists 0%N, ""|].
  destruct (pretty_go_head x "") as (y & t & Hy & E); [lia|]. exists y, t. split_and!; [done..|].
  destruct (read_pretty_go x "" None) as (k & _ & ->); [lia|]. cbn. do 2 f_equal. lia.
Qed.

(** Digits are neither spaces nor signs. *)
Lemma split_sign_digits y t :
  (y < 10)%N →
  split_sign (skip_spaces (String (pretty_N_char y) t)) = (1, String (pretty_N_char y) t).
Proof.
  intros Hy. assert (y = 0 ∨ y = 1 ∨ y = 2 ∨ y = 3 ∨ y = 4 ∨ y = 5 ∨ y = 6 ∨ y = 7 ∨ y = 8 ∨ y = 9)%N
    as H by lia.
  by repeat destruct H as [->|H]; [..|subst].
Qed.

(** [std::stoi] inverts [std::to_string] on [int]. *)
Lemma stoi_to_string n : is_i32 n → stoi (to_string n) = Ok n.
Proof.
  intros Hn. unfold is_i32 in Hn. destruct n as [|p|p]; [done|..].
  - destruct (read_pretty (Npos p)) as (y & t & Hy & E & Hd). unfold stoi.
    change (to_string (Zpos p)) with (pretty (Npos p)). rewrite E in *.
    rewrite split_sign_digits, Hd by done. cbn [Z.of_N].
    by rewrite Z.mul_1_l, (proj2 (Z.leb_le _ _)), (proj2 (Z.ltb_lt _ _)) by lia.
  - destruct (read_pretty (Npos p)) as (y & t & Hy & E & Hd). unfold stoi.
    change (to_string (Zneg p)) with ("-" +:+ pretty (Npos p)).
    change (split_sign (skip_spaces ("-" +:+ pretty (Npos p)))) with (-1, pretty (Npos p)).
    cbv beta iota. rewrite Hd. cbn [Z.of_N]. change (-1 * Zpos p) with (Zneg p).
    by rewrite (proj2 (Z.leb_le _ _)), (proj2 (Z.ltb_lt _ _)) by lia.
Qed.

(** ** Properties *)

(** C37: The command line means what it spells. Options, in any order and
    number, in short or long form, set exactly the fields they name, the last
    one winning; a value may be any string, even one that looks like an option;
    the port is the number modulo 2^16. What follows is read as if it came
    first, with these options set. *)
Theorem parse_spelled tokens args o :
  Forall token_ok tokens →
  parse_args (flat_map spell tokens ++ args) o = parse_args args (foldl apply_token o tokens).
Proof.
  intros Ht. revert o. induction Ht as [|t tokens Ht _ IH]; intros o; [done|].
  destruct t as [[] value|[] value|[]|[] value]; cbn [flat_map spell app foldl apply_token];
    rewrite <- IH; cbn [parse_args]; try reflexivity;
    (rewrite stoi_to_string by exact Ht); reflexivity.
Qed.

(** For any arguments: the loop ends, with an exit code 0 or 1, options whose
    port is a [uint16_t], or the exception of a number that is none. *)
Lemma parse_args_total args o :
  is_u16 (opt_port o) →
  match parse_args args o with
  | Ok (Exits code) => code = 0 ∨ code = 1
  | Ok (Proceeds o') => is_u16 (opt_port o')
  | Fault e => e = StdTerminate
  end.
Proof.
  remember (length args) as n eqn:Hn. revert args o Hn.
  induction (lt_wf n) as [n _ IH]; intros args o -> Ho.
  destruct args as [|arg args]; [done|]. cbn [parse_args].
  destruct (bool_decide _); [by left|].
  destruct (is_arg arg "-h" "--host").
  { destruct args as [|value args]; [by right|]. eapply IH; [|done|by destruct o]. cbn. lia. }
  destruct (is_arg arg "-p" "--port").
  { destruct args as [|value args]; [by right|].
    destruct (stoi value) as [port|e] eqn:E; cbn [mbind res_bind].
    - eapply IH; [|done|destruct o; cbn; apply u16_range]. cbn. lia.
    - unfold stoi in E. destruct (split_sign _) as [sign s]. by repeat case_match; simplify_eq. }
  destruct (is_arg arg "-l" "--list").
  { eapply IH; [|done|by destruct o]. cbn. lia. }
  destruct (is_arg arg "-i" "--import"); [|by right].
  destruct args as [|value args]; [by right|]. eapply IH; [|done|by destruct o]. cbn. lia.
Qed.

(** ** Witness *)

Definition sample_tokens : list option_token :=
  [PortOption false 80; HostOption true "-l"; PortOption true 65616; ListOption false].

Lemma parse_spelled_witness :
  parse_args ["-p"; "80"; "--host"; "-l"; "--port"; "65616"; "-l"] no_options
  = Ok (Proceeds {| opt_host := "-l"; opt_port := 80; list_only := true; import_device := "" |}).
Proof.
  apply (parse_spelled sample_tokens [] no_options).
  repeat constructor; vm_compute; discriminate.
Defined.
