(* ===== verification/ReceiverMain.v ===== *)
(** * ReceiverMain: the receiver's lifecycle

    The rest of [receiver/main.cpp]: [UsbReceiver::Run], [main] after its
    arguments ([Arguments.v]), and what the program keeps true from its start
    to its end.  The operations are those of [Receiver.v]. *)

From S2P Require Import Prelude Memory UsbTypes UsbipProtocol MessageHandler VirtualUsbDevice UsbipManager TcpSocket UsbipClient Receiver Arguments.
From stdpp Require Import gmap.
Open Scope Z_scope.

(** ** [Run] and [main] *)

Section Main.
Context {h : Host}.
Variable std_system : list string → string → Z.

(** One turn of the loop of [Run]: what the other threads and the signal
    handler do [during] the sleep, and the answers to the reconnection. *)
Record turn := {
  during : M UsbReceiver ();
  turn_connect : string → Z → M UsbipClient bool;
  turn_answers : list send_answer;
}.

(** The loop; it is still running when the turns given are over. *)
Fixpoint run_loop (turns : list turn) : M UsbReceiver () :=
  r ← get;
  if negb (running_ r) then mret ()
  else
    match turns with
    | [] => fail OutOfFuel
    | t :: turns' =>
      during t;; reconnect (turn_connect t) (turn_answers t);; run_loop turns'
    end.

Definition Run (turns : list turn) : M UsbReceiver () :=
  r ← get; if negb (running_ r) then mret () else run_loop turns.

(** The answers of the system to a whole run: to the connection and the first
    request; to the second request of [--list] and [--import]; what happens in
    the two seconds [--list] waits; the turns of [Run]. *)
Record environment := {
  env_connect : string → Z → M UsbipClient bool;
  env_start : list send_answer;
  env_request : list send_answer;
  env_wait : M UsbReceiver ();
  env_turns : list turn;
}.

(** The [try] block: the program's exit code. *)
Definition main_body (o : options) (env : environment) : M UsbReceiver Z :=
  initialized ← Initialize std_system;
  if negb initialized then mret 1
  else
    started ← Start (opt_host o) (opt_port o) (env_connect env) (env_start env);
    if negb started then mret 1
    else if list_only o then
      ListDevices (env_request env);; env_wait env;; mret 0
    else if negb (bool_decide (import_device o = "")) then
      ok ← ImportDevice (string_bytes (import_device o)) (env_request env);
      mret (if ok : bool then 0 else 1)
    else Run (env_turns env);; mret 0.

(** [~UsbReceiver] of [g_receiver], when [main] has returned.  The manager is
    a local static first used in [main], so it is destroyed before
    [g_receiver]; [Stop] on a running receiver ends with the manager's
    [Cleanup], and the destructor of a device in the list gives its port back
    to the manager: accesses to an object that no longer exists. *)
Definition exit_destructors : M UsbReceiver () :=
  r ← get;
  if running_ r || negb (bool_decide (virtual_devices_ r = [])) then fail OutOfBounds
  else mret ().

Definition main (args : list string) (env : environment) : M UsbReceiver Z :=
  parsed ← lift (parse_args args no_options);
  match parsed with
  | Exits code => mret code
  | Proceeds o => code ← main_body o env; exit_destructors;; mret code
  end.
End Main.

(** ** The invariant *)

Section Invariant.
Context {h : Host}.
Variable std_system : list string → string → Z.

(** The list holds, once each, exactly the devices that hold a port, and those
    are attached. *)
Record listed (w : world) (ids : list nat) : Prop := {
  listed_once : NoDup ids;
  listed_created id : id ∈ ids ↔ ∃ d, devices w !! id = Some d ∧ created_ d = true;
  listed_attached id d : devices w !! id = Some d → attached_ d = created_ d;
}.

Definition receiver_ok (r : UsbReceiver) : Prop :=
  reachable std_system (usbip r) ∧ listed (usbip r) (virtual_devices_ r).

#[local] Abbreviation keeps_ok := (preserves receiver_ok (λ _, True)).

Lemma keeps_ok_modify f :
  (∀ r, usbip (f r) = usbip r ∧ virtual_devices_ (f r) = virtual_devices_ r) → keeps_ok (modify f).
Proof.
  intros Hf. apply preserves_modify. intros r [Hw Hl]. destruct (Hf r) as [E1 E2].
  unfold receiver_ok. by rewrite E1, E2.
Qed.
Lemma keeps_ok_client {A} (m : M UsbipClient A) : keeps_ok (on_client m).
Proof.
  intros [] Hr. unfold wp, on_client. cbn. destruct (m _) as [[a c]|]; [exact Hr|done].
Qed.

(** *** Reachability of the USBIP side *)

(** What is done through the operations of the manager and the devices. *)
Definition via_operations {A} (m : M world A) : Prop :=
  respects (λ w w', reachable std_system w → reachable std_system w') m.

#[local] Instance reaches_preorder :
  PreOrder (λ w w', reachable std_system w → reachable std_system w').
Proof. split; [by intros w|]. intros w1 w2 w3 H1 H2 H. auto. Qed.

Lemma via_run {A} o (m : M world A) :
  (∀ w a w', m w = Ok (a, w') → run std_system o w = Ok ((), w')) → via_operations m.
Proof. intros H w a w' Hm Hw. eapply reachable_step; [exact Hw|by eapply H]. Qed.

Lemma via_ignore {A} o (m : M world A) :
  run std_system o = (m;; mret ()) → via_operations m.
Proof. intros H. apply (via_run o). intros w a w' Hm. rewrite H. by rewrite (M_bind_Ok _ _ _ _ _ Hm). Qed.

Lemma via_make_device info : via_operations (make_device info).
Proof. by apply (via_ignore (OpNew info)). Qed.
Lemma via_CreateDevice id info : via_operations (CreateDevice id info).
Proof. by apply (via_ignore (OpCreate id info)). Qed.
Lemma via_AttachDevice id : via_operations (AttachDevice std_system id).
Proof. by apply (via_ignore (OpAttach id)). Qed.
Lemma via_DetachDevice id : via_operations (DetachDevice std_system id).
Proof. by apply (via_ignore (OpDetach id)). Qed.
Lemma via_DestroyDevice id : via_operations (DestroyDevice std_system id).
Proof. apply (via_run (OpDestroy id)). by intros w [] w' Hm. Qed.
Lemma via_Initialize : via_operations (UsbipManager_Initialize std_system).
Proof. by apply (via_ignore OpInitialize). Qed.
Lemma via_Cleanup : via_operations (UsbipManager_Cleanup std_system).
Proof. apply (via_run OpCleanup). by intros w [] w' Hm. Qed.
Lemma via_urb id urb : via_operations (on_device id (VirtualUsbDevice.ProcessUrb urb)).
Proof. by apply (via_ignore (OpUrb id urb)). Qed.

(** The same for the operations of the receiver. *)
Definition stays_reachable (r r' : UsbReceiver) : Prop :=
  reachable std_system (usbip r) → reachable std_system (usbip r').
#[local] Instance stays_reachable_preorder : PreOrder stays_reachable.
Proof. split; [by intros r Hr|]. intros r1 r2 r3 H1 H2 H. exact (H2 (H1 H)). Qed.

Lemma reachable_on_usbip {A} (m : M world A) :
  via_operations m → respects stays_reachable (on_usbip m).
Proof.
  intros Hm r a r'. unfold on_usbip. destruct (m (usbip r)) as [[b w]|] eqn:E; [|done].
  intros [= <- <-] Hr. cbn. by eapply Hm.
Qed.

Lemma reachable_on_client {A} (m : M UsbipClient A) : respects stays_reachable (on_client m).
Proof.
  intros r a r'. unfold on_client. destruct (m (usbip_client_ r)) as [[b c]|]; [|done].
  intros [= <- <-] Hr. exact Hr.
Qed.

Ltac reaches := repeat first
  [ apply respects_bind; [apply _| |intro]
  | apply respects_ret; apply _
  | apply respects_get; apply _
  | apply respects_lift; apply _
  | apply reachable_on_client
  | apply reachable_on_usbip;
    first [ apply via_make_device | apply via_CreateDevice | apply via_AttachDevice
          | apply via_DetachDevice | apply via_DestroyDevice | apply via_Initialize
          | apply via_Cleanup | apply via_urb ]
  | case_match ].

Lemma reachable_import junk info answers :
  respects stays_reachable (ImportDeviceInternal std_system junk info answers).
Proof.
  unfold ImportDeviceInternal. apply respects_bind; [apply _|reaches|intro id].
  apply respects_bind; [apply _| |intro].
  { apply reachable_on_usbip, (via_run (OpSetCallback id)). by intros w [] w' Hm. }
  reaches; apply respects_modify; intros r Hr; exact Hr.
Qed.

(** *** The list of devices *)

(** A new device, with a port or without; a device that keeps its state. *)
Lemma listed_new w w' ids ids' id d :
  listed w ids → devices w !! id = None → devices w' = <[id := d]> (devices w) →
  attached_ d = created_ d → ids' = (if created_ d then ids ++ [id] else ids) → listed w' ids'.
Proof.
  intros [Hn Hc Ha] Hid Hw' Hd ->.
  assert (id ∉ ids) as Hnew by (rewrite Hc; intros (e & He & _); congruence).
  split.
  - destruct (created_ d); [|done]. apply NoDup_app. split_and!; [done| |apply NoDup_singleton].
    intros j Hj ->%list_elem_of_singleton. done.
  - intros j. rewrite Hw'. destruct (decide (j = id)) as [->|Hne].
    + rewrite lookup_insert_eq. destruct (created_ d) eqn:E.
      * split; [|intros _; apply elem_of_app; right; by left]. intros _. by exists d.
      * split; [done|]. intros (e & [= <-] & ?). congruence.
    + rewrite lookup_insert_ne by done. rewrite <- Hc. destruct (created_ d); [|done].
      rewrite elem_of_app, list_elem_of_singleton. naive_solver.
  - intros j e. rewrite Hw'. intros [[<- <-]|[_ ?]]%lookup_insert_Some; eauto.
Qed.

Lemma listed_update w w' ids id d d' :
  listed w ids → devices w !! id = Some d → devices w' = <[id := d']> (devices w) →
  created_ d' = created_ d → attached_ d' = attached_ d → listed w' ids.
Proof.
  intros [Hn Hc Ha] Hid Hw' Ec Ea. split; [done|..].
  - intros j. rewrite Hw', Hc. destruct (decide (j = id)) as [->|Hne].
    + rewrite lookup_insert_eq, Hid. split; intros (e & [= <-] & ?); eexists; split; eauto; congruence.
    + by rewrite lookup_insert_ne.
  - intros j e. rewrite Hw'. intros [[<- <-]|[_ ?]]%lookup_insert_Some; [rewrite Ec, Ea|]; eauto.
Qed.

Lemma keeps_import junk info answers bus :
  c_str (busid info) = Ok bus → keeps_ok (ImportDeviceInternal std_system junk info answers).
Proof.
  intros Hbus r [Hw Hl].
  assert (wp (ImportDeviceInternal std_system junk info answers) (λ _, True)
    (λ _ r', listed (usbip r') (virtual_devices_ r')) r) as H.
  { pose proof (reachable_ok _ _ Hw) as Hok.
    pose proof (ok_fresh _ Hok _ (Nat.le_refl _)) as Hnew.
    apply (wp_import std_system junk info answers bus); [done..|].
    destruct (first_free _) as [i|].
    2: { by eapply listed_new; [exact Hl|exact Hnew|reflexivity..]. }
    cbv zeta. destruct (std_system _ _ =? 0).
    2: { by eapply listed_new; [exact Hl|exact Hnew|reflexivity..]. }
    destruct (UsbipClient.ImportDevice _ _ _) as [[[] c]|e]; [..|done];
      by eapply listed_new; [exact Hl|exact Hnew|reflexivity..]. }
  pose proof (reachable_import junk info answers r) as Hreach.
  unfold wp in *. destruct (ImportDeviceInternal std_system junk info answers r) as [[b r']|e]; [|done].
  split; [|exact H]. by eapply Hreach.
Qed.

Lemma keeps_device_list junk answers devices :
  keeps_ok (OnDeviceListReceived std_system junk answers devices).
Proof.
  induction devices as [|info devices IH]; [apply preserves_ret|]. cbn [OnDeviceListReceived].
  apply preserves_bind; [by apply preserves_lift|intros _].
  intros r Hr. apply wp_bind. unfold wp at 1, lift.
  destruct (c_str (busid info)) as [bus|e] eqn:Hbus; [|done].
  apply (preserves_bind _ _ _ _); [|intros _; exact IH|done].
  case_match; [|apply preserves_ret].
  apply preserves_bind; [by eapply keeps_import|intros _; apply preserves_ret].
Qed.

(** *** Stopping *)

(** [devs'] is [devs] with [f] applied to the devices [ids]. *)
Definition maps_at (f : VirtualUsbDevice → VirtualUsbDevice) (ids : list nat)
    (devs devs' : gmap nat VirtualUsbDevice) : Prop :=
  ∀ id, devs' !! id = if decide (id ∈ ids) then f <$> devs !! id else devs !! id.

Lemma maps_at_nil f devs : maps_at f [] devs devs.
Proof. intros id. by rewrite decide_False by set_solver. Qed.

Lemma maps_at_cons f id d ids devs devs' :
  id ∉ ids → devs !! id = Some d → maps_at f ids (<[id := f d]> devs) devs' →
  maps_at f (id :: ids) devs devs'.
Proof.
  intros Hn Hd H j. rewrite (H j). destruct (decide (j = id)) as [->|Hne].
  - rewrite decide_False, decide_True by set_solver. by rewrite lookup_insert_eq, Hd.
  - rewrite lookup_insert_ne by done.
    destruct (decide (j ∈ ids)); [rewrite decide_True by set_solver|rewrite decide_False by set_solver];
      done.
Qed.

(** The commands that detach the devices [ids]. *)
Definition detach_logs (devs : gmap nat VirtualUsbDevice) (ids : list nat) : list string :=
  flat_map (λ id, from_option detach_log [] (devs !! id)) ids.

Lemma detach_logs_insert devs id d ids :
  id ∉ ids → detach_logs (<[id := d]> devs) ids = detach_logs devs ids.
Proof.
  intros Hn. unfold detach_logs. induction ids as [|j ids IH]; [done|]. cbn [flat_map].
  rewrite lookup_insert_ne by set_solver. f_equal. apply IH. set_solver.
Qed.

Lemma wp_detach_all ids mg devs nd sh E Q :
  NoDup ids → (∀ id, id ∈ ids → is_Some (devs !! id)) →
  (∀ devs', maps_at after_detach ids devs devs' →
     Q () (W mg devs' nd [] (sh ++ detach_logs devs ids))) →
  wp (detach_all std_system ids) E Q (W mg devs nd [] sh).
Proof.
  intros Hn. revert devs sh. induction Hn as [|id ids Hid Hn IH]; intros devs sh Hex HQ.
  { apply wp_ret. specialize (HQ devs (maps_at_nil _ _)). by rewrite app_nil_r in HQ. }
  destruct (Hex id) as [d Hd]; [by left|]. cbn [detach_all].
  apply wp_bind, (wp_DetachDevice std_system id d); [done|]. apply IH.
  - intros j Hj. rewrite lookup_insert_ne by set_solver. apply Hex. by right.
  - intros devs' Hm. rewrite detach_logs_insert, <- app_assoc by done.
    specialize (HQ devs' (maps_at_cons _ _ _ _ _ _ Hid Hd Hm)). unfold detach_logs in *.
    cbn [flat_map] in HQ. by rewrite Hd in HQ.
Qed.

Definition gone (d : VirtualUsbDevice) : VirtualUsbDevice :=
  if created_ d then destroyed_device d else d.

(** Destroying devices that are detached releases their ports. *)
Lemma wp_destroy_all ids mg devs nd sh E Q :
  NoDup ids → world_ok (W mg devs nd [] sh) →
  (∀ id, id ∈ ids → ∃ d, devs !! id = Some d ∧ attached_ d = false) →
  (∀ mg' devs', maps_at gone ids devs devs' → world_ok (W mg' devs' nd [] sh) →
     initialized_ mg' = initialized_ mg → Q () (W mg' devs' nd [] sh)) →
  wp (destroy_all std_system ids) E Q (W mg devs nd [] sh).
Proof.
  intros Hn. revert mg devs. induction Hn as [|id ids Hid Hn IH]; intros mg devs Hw Hex HQ.
  { apply wp_ret. apply HQ; [apply maps_at_nil|done..]. }
  destruct (Hex id) as (d & Hd & Hat); [by left|]. cbn [destroy_all]. apply wp_bind.
  pose proof (preserve_destroy std_system id d _ _ _ _ Hw Hd) as Hpres.
  assert (∀ mg', world_ok (W mg' (<[id := gone d]> devs) nd [] sh) →
    initialized_ mg' = initialized_ mg →
    wp (destroy_all std_system ids) E Q (W mg' (<[id := gone d]> devs) nd [] sh)) as Hrest.
  { intros mg' Hw' Hi. apply IH; [done|..].
    - intros j Hj. rewrite lookup_insert_ne by set_solver. apply Hex. by right.
    - intros mg2 devs' Hm Hok Hi2. apply HQ; [by eapply maps_at_cons|done|congruence]. }
  assert (after_detach d = d ∧ detach_log d = []) as [Ed El]
    by (unfold after_detach, detach_log; by rewrite Hat).
  assert (∀ i, owns d = Some i → port_number_ d = Z.of_nat i ∧ (i < length (port_usage_ mg))%nat) as Hown.
  { intros i Hi. pose proof (ok_device _ _ _ _ _ _ Hw Hd) as Hdok. split; [by apply owns_ok|].
    destruct Hw as [_ _ _ _ Ht]. cbn in Ht. eapply lookup_lt_Some, Ht. eauto. }
  assert (wp (DestroyDevice std_system id) safe (λ _ w', ∃ mg',
    w' = W mg' (<[id := gone d]> devs) nd [] sh ∧ initialized_ mg' = initialized_ mg)
    (W mg devs nd [] sh)) as Hrun.
  { apply (wp_DestroyDevice std_system id d); [done|done|].
    rewrite Ed, El, app_nil_r. unfold owns, gone. destruct (created_ d); eexists; (split; [reflexivity|done]). }
  apply wp_safe in Hrun as ([] & w' & Hrun & mg' & -> & Hi).
  unfold wp in Hpres |- *. rewrite Hrun in *. by apply Hrest.
Qed.

Lemma via_detach_all ids : via_operations (detach_all std_system ids).
Proof.
  induction ids as [|id ids IH]; cbn [detach_all]; [apply respects_ret, _|].
  apply respects_bind; [apply _|apply via_DetachDevice|done].
Qed.
Lemma via_destroy_all ids : via_operations (destroy_all std_system ids).
Proof.
  induction ids as [|id ids IH]; cbn [destroy_all]; [apply respects_ret, _|].
  apply respects_bind; [apply _|apply via_DestroyDevice|done].
Qed.

(** The devices of a stopped receiver: none holds a port. *)
Definition all_free (w : world) : Prop :=
  (∀ i, port_usage_ (manager w) !! i ≠ Some true) ∧
  (∀ id d, devices w !! id = Some d → created_ d = false ∧ attached_ d = false).

Lemma listed_nil_free w : world_ok w → listed w [] → all_free w.
Proof.
  intros Hw [_ Hc Ha].
  assert (∀ id d, devices w !! id = Some d → created_ d = false) as Hnone.
  { intros id d Hd. destruct (created_ d) eqn:E; [|done].
    assert (id ∈ @nil nat) as Hin by (apply Hc; eauto). by apply elem_of_nil in Hin. }
  split.
  - intros i Hi. apply (ok_table _ Hw) in Hi as (id & d & Hd & Ho). unfold owns in Ho.
    by rewrite (Hnone id d Hd) in Ho.
  - intros id d Hd. rewrite (Ha id d Hd). split; by eapply Hnone.
Qed.

(** [Stop] up to the client: every device of the list is detached, with its
    command, and destroyed. *)
Definition clear_devices : M UsbReceiver () :=
  r ← get;
  on_usbip (detach_all std_system (virtual_devices_ r));;
  on_usbip (destroy_all std_system (virtual_devices_ r));;
  modify (λ r, r {{ virtual_devices_ := [] }}).

Lemma clear_devices_run r :
  receiver_ok r →
  ∃ w, clear_devices r = Ok ((), r {{ usbip := w; virtual_devices_ := [] }}) ∧
    reachable std_system w ∧ listed w [] ∧
    shell w = shell (usbip r) ++ detach_logs (devices (usbip r)) (virtual_devices_ r) ∧
    initialized_ (manager w) = initialized_ (manager (usbip r)).
Proof.
  intros [Hr Hl]. pose proof (reachable_ok _ _ Hr) as Hw.
  destruct r as [run host port c [mg devs nd hd sh] vds].
  assert (hd = []) as -> by apply Hw. cbn [usbip virtual_devices_ devices shell manager] in *.
  destruct Hl as [Hn Hc Ha]. cbn [devices] in *.
  assert (wp (detach_all std_system vds) safe (λ _ w1, ∃ devs1, maps_at after_detach vds devs devs1 ∧
    w1 = W mg devs1 nd [] (sh ++ detach_logs devs vds)) (W mg devs nd [] sh)) as H1.
  { apply wp_detach_all; [done| |by eauto]. intros id Hid. apply Hc in Hid as (d & Hd & _). by exists d. }
  apply wp_safe in H1 as ([] & w1 & Hrun1 & devs1 & Hm1 & ->).
  assert (reachable std_system (W mg devs1 nd [] (sh ++ detach_logs devs vds))) as Hr1
    by (by eapply via_detach_all).
  pose proof (reachable_ok _ _ Hr1) as Hw1.
  assert (wp (destroy_all std_system vds) safe (λ _ w2, ∃ mg2 devs2, maps_at gone vds devs1 devs2 ∧
    w2 = W mg2 devs2 nd [] (sh ++ detach_logs devs vds) ∧ initialized_ mg2 = initialized_ mg)
    (W mg devs1 nd [] (sh ++ detach_logs devs vds))) as H2.
  { apply wp_destroy_all; [done|done| |by eauto 6]. intros id Hid.
    pose proof (Hm1 id) as E. rewrite decide_True in E by done.
    apply Hc in Hid as (d & Hd & _). rewrite Hd in E. eexists. split; [exact E|].
    apply after_detach_ok. by apply (ok_device _ _ _ _ _ _ Hw Hd). }
  apply wp_safe in H2 as ([] & w2 & Hrun2 & mg2 & devs2 & Hm2 & -> & Hi).
  exists (W mg2 devs2 nd [] (sh ++ detach_logs devs vds)). split_and!; [| | |done..].
  - unfold clear_devices, on_usbip, mbind, M_bind, get, modify. cbn. rewrite Hrun1. cbn.
    by rewrite Hrun2.
  - by eapply via_destroy_all.
  - split; [constructor|..].
    + intros id. split; [by intros ?%elem_of_nil|]. cbn [devices]. intros (d & Hd & Hcr).
      rewrite (Hm2 id), (Hm1 id) in Hd. exfalso. destruct (decide (id ∈ vds)) as [Hin|Hin].
      * destruct (devs !! id) as [d0|]; [|done]. cbn in Hd. injection Hd as <-.
        unfold gone in Hcr.
        destruct (created_ (after_detach d0)) eqn:E; [discriminate|congruence].
      * apply Hin, Hc. eauto.
    + intros id d. cbn [devices]. rewrite (Hm2 id), (Hm1 id).
      destruct (decide (id ∈ vds)) as [Hin|Hin]; [|apply Ha].
      destruct (devs !! id) as [d0|] eqn:Hd; [|done]. cbn. intros [= <-].
      pose proof (after_detach_ok d0 (ok_device _ _ _ _ _ _ Hw Hd)) as [_ Hat].
      unfold gone. destruct (created_ (after_detach d0)) eqn:E; [|congruence].
      exact Hat.
Qed.

(** *** The other operations *)

(** The manager's own operations change no device. *)
Lemma keeps_manager {A} (m : M world A) :
  via_operations m →
  (∀ mg devs nd sh, UsbipManager.virtual_devices_ mg = [] →
     wp m safe (λ _ w', devices w' = devs) (W mg devs nd [] sh)) →
  keeps_ok (on_usbip m).
Proof.
  intros Hvia Hm r [Hr Hl]. pose proof (reachable_ok _ _ Hr) as Hw.
  destruct r as [run host port c [mg devs nd hd sh] vds].
  assert (hd = []) as -> by apply Hw.
  specialize (Hm mg devs nd sh (ok_list _ Hw)). apply wp_safe in Hm as (a & w' & Hrun & E).
  unfold wp, on_usbip. cbn [usbip]. rewrite Hrun. split; cbn.
  - by eapply Hvia.
  - cbn in Hl. destruct Hl as [Hn Hc Ha]. split; [done|..].
    + intros id. rewrite E. apply Hc.
    + intros id d. rewrite E. apply Ha.
Qed.

Lemma keeps_manager_Initialize : keeps_ok (on_usbip (UsbipManager_Initialize std_system)).
Proof.
  apply keeps_manager; [apply via_Initialize|]. intros mg devs nd sh Hv.
  unfold UsbipManager_Initialize. wp_run. destruct (initialized_ mg); wp_run; [done|].
  unfold LoadKernelModule. wp_run. case_match; cbn [negb]; wp_run; done.
Qed.

Lemma wp_Cleanup mg devs nd sh E Q :
  UsbipManager.virtual_devices_ mg = [] →
  Q () (W (mg {{ initialized_ := false }}) devs nd []
          (sh ++ if initialized_ mg then ["modprobe -r vhci-hcd"] else [])) →
  wp (UsbipManager_Cleanup std_system) E Q (W mg devs nd [] sh).
Proof.
  intros Hv HQ. unfold UsbipManager_Cleanup. wp_run. destruct mg as [vs ports ini]. cbn in *. subst vs.
  destruct ini; cbn [negb]; wp_run; [|by rewrite app_nil_r in HQ].
  cbn [destroy_all]. wp_run. unfold UnloadKernelModule. wp_run. exact HQ.
Qed.

Lemma keeps_Cleanup : keeps_ok (on_usbip (UsbipManager_Cleanup std_system)).
Proof.
  apply keeps_manager; [apply via_Cleanup|]. intros mg devs nd sh Hv. by apply wp_Cleanup.
Qed.

Lemma keeps_OnUrbReceived urb answers : keeps_ok (OnUrbReceived urb answers).
Proof.
  unfold OnUrbReceived. apply preserves_bind; [apply preserves_get|intros r0].
  destruct (virtual_devices_ r0) as [|id ids]; [apply preserves_ret|].
  apply preserves_bind.
  - intros r [Hr Hl]. pose proof (via_urb id urb (usbip r)) as Hvia.
    unfold wp, on_usbip. destruct (on_device id (VirtualUsbDevice.ProcessUrb urb) (usbip r))
      as [[a w']|e] eqn:E; [|done].
    split; [by eapply Hvia|]. cbn.
    unfold on_device, get_device, mbind, M_bind in E.
    destruct (devices (usbip r) !! id) as [d|] eqn:Hd; [|done].
    destruct (VirtualUsbDevice.ProcessUrb urb d) as [[a' d']|] eqn:Hu; [|done].
    cbn in E. injection E as <- <-.
    assert (created_ d' = created_ d ∧ attached_ d' = attached_ d) as [Ec Ea].
    { destruct (attached_ d) eqn:Hat.
      - destruct (ProcessUrb_total urb d Hat) as (data & cfg & Hrun). rewrite Hrun in Hu.
        injection Hu as _ <-. by destruct d.
      - unfold ProcessUrb, mbind, M_bind, get in Hu. rewrite Hat in Hu. by injection Hu as _ <-. }
    by eapply listed_update; [exact Hl|exact Hd|reflexivity|..].
  - intros urbs. induction urbs as [|u urbs IH]; cbn [on_urb_responses]; [apply preserves_ret|].
    apply preserves_bind; [|done]. apply preserves_bind; [apply keeps_ok_client|intros; apply preserves_ret].
Qed.

Lemma keeps_on_notices junk answers l : keeps_ok (on_notices std_system junk answers l).
Proof.
  induction l as [|n l IH]; cbn [on_notices]; [apply preserves_ret|].
  apply preserves_bind; [|done]. destruct n as [devices|urb|error].
  - apply keeps_device_list.
  - apply keeps_OnUrbReceived.
  - apply preserves_ret.
Qed.

Lemma keeps_OnMessage now junk_setup junk answers message :
  keeps_ok (OnMessage std_system now junk_setup junk answers message).
Proof.
  intros r Hr. unfold wp, OnMessage.
  destruct (UsbipClient.OnNetworkMessage now junk_setup answers message (usbip_client_ r))
    as [[u c]|e]; [|done].
  apply keeps_on_notices. by destruct r.
Qed.

Ltac keeps := repeat
  lazymatch goal with
  | |- preserves _ _ (on_client _) => apply keeps_ok_client
  | |- preserves _ _ (modify _) => apply keeps_ok_modify; by intros []
  | _ => preserves_step
  end.

Lemma keeps_receiver_Start host port connect answers : keeps_ok (Start host port connect answers).
Proof. unfold Start. keeps. Qed.
Lemma keeps_reconnect connect answers : keeps_ok (reconnect connect answers).
Proof. unfold reconnect. keeps. Qed.
Lemma keeps_ImportDevice bus_id answers : keeps_ok (ImportDevice bus_id answers).
Proof. unfold ImportDevice. keeps. Qed.
Lemma keeps_ListDevices answers : keeps_ok (ListDevices answers).
Proof. unfold ListDevices. keeps. Qed.
Lemma keeps_Receiver_Initialize : keeps_ok (Initialize std_system).
Proof.
  unfold Initialize, SetupUsbipCallbacks. apply preserves_bind; [apply keeps_manager_Initialize|intro ok]. keeps.
Qed.

(** [Stop] is its three parts. *)
Lemma Stop_parts close r :
  Stop std_system close r
  = (r ← get;
     if negb (running_ r) then mret true
     else
       modify (λ r, r {{ running_ := false }});;
       clear_devices;;
       closed ← on_client (UsbipClient.Disconnect close);
       if negb closed then mret false
       else on_usbip (UsbipManager_Cleanup std_system);; mret true) r.
Proof.
  unfold Stop, clear_devices, mbind, M_bind, get, modify. destruct (negb (running_ r)); [done|].
  destruct r as [run host port c w vds]. cbn. unfold on_usbip. cbn.
  destruct (detach_all std_system vds w) as [[[] w1]|]; [|done]. cbn.
  by destruct (destroy_all std_system vds w1) as [[[] w2]|].
Qed.

Lemma keeps_clear_devices : keeps_ok clear_devices.
Proof.
  intros r Hr. destruct (clear_devices_run r Hr) as (w & E & Hw & Hl & _).
  unfold wp. rewrite E. by split.
Qed.

Lemma keeps_receiver_Stop close : keeps_ok (Stop std_system close).
Proof.
  assert (∀ m, keeps_ok m → (∀ r, Stop std_system close r = m r) → keeps_ok (Stop std_system close))
    as Heq by (intros m Hm E r Hr; unfold wp; rewrite E; by apply Hm).
  eapply Heq; [|apply Stop_parts].
  apply preserves_bind; [apply preserves_get|intro r]. case_match; [apply preserves_ret|].
  apply preserves_bind; [apply keeps_ok_modify; by intros []|intros _].
  apply preserves_bind; [apply keeps_clear_devices|intros _].
  apply preserves_bind; [apply keeps_ok_client|intro closed]. case_match; [apply preserves_ret|].
  apply preserves_bind; [apply keeps_Cleanup|intros _; apply preserves_ret].
Qed.
End Invariant.

(** ** What happens to a receiver *)

Section Events.
Context {h : Host}.
Variable std_system : list string → string → Z.

(** The events a program is made of: [main]'s calls, the signal handler's
    [Stop], the turns of [Run], and messages handled by the receive thread. *)
Inductive receiver_event :=
  | Initializes
  | Starts (host : string) (port : Z) (connect : string → Z → M UsbipClient bool)
      (answers : list send_answer)
  | Stops (close : M UsbipClient bool)
  | Reconnects (connect : string → Z → M UsbipClient bool) (answers : list send_answer)
  | ImportsDevice (bus_id : list Z) (answers : list send_answer)
  | ListsDevices (answers : list send_answer)
  | Arrives (now : Z) (junk_setup : UsbSetupPacket) (junk : UsbipDeviceInfo)
      (answers : list send_answer) (message : NetworkMessage).

Definition receiver_perform (e : receiver_event) : M UsbReceiver () :=
  match e with
  | Initializes => Initialize std_system;; mret ()
  | Starts host port connect answers => Start host port connect answers;; mret ()
  | Stops close => Stop std_system close;; mret ()
  | Reconnects connect answers => reconnect connect answers
  | ImportsDevice bus_id answers => ImportDevice bus_id answers;; mret ()
  | ListsDevices answers => ListDevices answers
  | Arrives now junk_setup junk answers message =>
    OnMessage std_system now junk_setup junk answers message
  end.

Fixpoint receiver_events (l : list receiver_event) : M UsbReceiver () :=
  match l with
  | [] => mret ()
  | e :: l' => receiver_perform e;; receiver_events l'
  end.

Lemma keeps_receiver_event e : preserves (receiver_ok std_system) (λ _, True) (receiver_perform e).
Proof.
  destruct e; cbn [receiver_perform];
    try (apply preserves_bind; [|intros _; apply preserves_ret]).
  - apply keeps_Receiver_Initialize.
  - apply keeps_receiver_Start.
  - apply keeps_receiver_Stop.
  - apply keeps_reconnect.
  - apply keeps_ImportDevice.
  - apply keeps_ListDevices.
  - apply keeps_OnMessage.
Qed.

Lemma keeps_receiver_events l : preserves (receiver_ok std_system) (λ _, True) (receiver_events l).
Proof.
  induction l as [|e l IH]; cbn [receiver_events]; [apply preserves_ret|].
  apply preserves_bind; [apply keeps_receiver_event|done].
Qed.

Lemma UsbReceiver_new_ok seq : receiver_ok std_system (UsbReceiver_new world_init seq).
Proof.
  split; [constructor|]. split; [constructor|..]; cbn.
  - intros id. split; [by intros ?%elem_of_nil|]. intros (d & Hd & _). by rewrite lookup_empty in Hd.
  - intros id d Hd. by rewrite lookup_empty in Hd.
Qed.

Lemma receiver_events_ok l seq r :
  receiver_events l (UsbReceiver_new world_init seq) = Ok ((), r) → receiver_ok std_system r.
Proof.
  apply (wp_Ok (receiver_events l) (λ _, True) (λ _, receiver_ok std_system)).
  apply keeps_receiver_events, UsbReceiver_new_ok.
Qed.
End Events.

(** ** Properties *)

Section Properties.
Context {h : Host}.
Variable std_system : list string → string → Z.

(** C5: The receiver's list and the port table agree. Whatever happens to a
    receiver, in whatever order (starting, messages of any content, failing
    shell commands, lost connections, stopping), its list of devices has no
    duplicates and is exactly the devices that hold a port; each of them is
    attached, holds a port of its own, and no other port is taken. *)
Theorem receiver_list_is_ports l seq r :
  receiver_events std_system l (UsbReceiver_new world_init seq) = Ok ((), r) →
  NoDup (virtual_devices_ r) ∧
  (∀ id, id ∈ virtual_devices_ r ↔
     ∃ d, devices (usbip r) !! id = Some d ∧ created_ d = true ∧ attached_ d = true) ∧
  (∀ i, port_usage_ (manager (usbip r)) !! i = Some true ↔
     ∃ id d, id ∈ virtual_devices_ r ∧ devices (usbip r) !! id = Some d ∧
       port_number_ d = Z.of_nat i ∧
       ∀ id' d', id' ∈ virtual_devices_ r → devices (usbip r) !! id' = Some d' →
         port_number_ d' = Z.of_nat i → id' = id).
Proof.
  intros Hrun. assert (receiver_ok std_system r) as [Hr [Hn Hc Ha]]
    by (by eapply receiver_events_ok).
  pose proof (reachable_ok _ _ Hr) as Hw. pose proof (ok_table _ Hw) as Ht.
  assert (∀ id d, devices (usbip r) !! id = Some d → ∀ i, id ∈ virtual_devices_ r →
    port_number_ d = Z.of_nat i → owns d = Some i) as Howns.
  { intros id d Hd i Hin Hp. apply Hc in Hin as (d0 & Hd0 & Hcr).
    apply owns_iff; [by eapply table_devices|]. split; [congruence|done]. }
  split; [done|]. split.
  - intros id. rewrite Hc. split; intros (d & Hd & Hcr).
    + exists d. split_and!; [done..|]. by rewrite (Ha id d Hd).
    + destruct Hcr. eauto.
  - intros i. rewrite (table_used _ _ Ht). split.
    + intros (id & d & Hd & Ho). pose proof (table_devices _ _ Ht id d Hd) as Hdok.
      apply owns_iff in Ho as [Hcr Hp]; [|done]. exists id, d. split_and!; [|done..|].
      { apply Hc. eauto. }
      intros id' d' Hin' Hd' Hp'. eapply (table_inj _ _ Ht i); [done|done|by eapply Howns|].
      by apply owns_iff.
    + intros (id & d & Hin & Hd & Hp & _). exists id, d. split; [done|by eapply Howns].
Qed.

(** C9: [Stop] gives everything back. On any running receiver the program can
    get to, once the client's [Disconnect] returns, [Stop] has run one detach
    command per device of the list, in order, and unloaded the module if it
    was loaded; the list is empty, no device is created or attached, and every
    port is free. *)
Theorem stop_releases_ports l seq r close c' :
  receiver_events std_system l (UsbReceiver_new world_init seq) = Ok ((), r) →
  running_ r = true → UsbipClient.Disconnect close (usbip_client_ r) = Ok (true, c') →
  ∃ r', Stop std_system close r = Ok (true, r') ∧
    running_ r' = false ∧ virtual_devices_ r' = [] ∧ usbip_client_ r' = c' ∧
    (∀ i, port_usage_ (manager (usbip r')) !! i ≠ Some true) ∧
    (∀ id d, devices (usbip r') !! id = Some d → created_ d = false ∧ attached_ d = false) ∧
    shell (usbip r') = shell (usbip r)
      ++ omap (λ id, (λ d, detach_command (port_number_ d)) <$> devices (usbip r) !! id)
           (virtual_devices_ r)
      ++ (if initialized_ (manager (usbip r)) then ["modprobe -r vhci-hcd"] else []).
Proof.
  intros Hrun Hrunning Hdis. assert (receiver_ok std_system r) as Hok by (by eapply receiver_events_ok).
  assert (omap (λ id, (λ d, detach_command (port_number_ d)) <$> devices (usbip r) !! id)
    (virtual_devices_ r) = detach_logs (devices (usbip r)) (virtual_devices_ r)) as ->.
  { destruct Hok as [_ [_ Hc Ha]]. clear Hrunning Hdis Hrun.
    assert (∀ id, id ∈ virtual_devices_ r → ∃ d, devices (usbip r) !! id = Some d ∧ attached_ d = true)
      as Hat by (intros id (d & Hd & Hcr)%Hc; exists d; by rewrite (Ha id d Hd)).
    clear Hc Ha. revert Hat. generalize (virtual_devices_ r). intros ids Hat.
    induction ids as [|id ids IH]; [done|]. unfold detach_logs in *. cbn.
    destruct (Hat id) as (d & Hd & Hatt); [by left|]. rewrite Hd. cbn. unfold detach_log. rewrite Hatt.
    cbn. f_equal. apply IH. intros j Hj. apply Hat. by right. }
  set (r1 := r {{ running_ := false }}).
  assert (receiver_ok std_system r1) as Hok1 by by destruct r.
  destruct (clear_devices_run std_system r1 Hok1) as (w & Hclear & Hr & Hl & Hsh & Hi).
  pose proof (reachable_ok _ _ Hr) as Hw.
  destruct (listed_nil_free w Hw Hl) as [Hports Hdevs].
  destruct w as [mg devs nd hd sh]. assert (hd = []) as -> by apply Hw.
  cbn [shell manager devices] in *.
  assert (wp (UsbipManager_Cleanup std_system) safe (λ _ w', w' = W (mg {{ initialized_ := false }}) devs nd []
    (sh ++ if initialized_ mg then ["modprobe -r vhci-hcd"] else [])) (W mg devs nd [] sh)) as Hcl.
  { apply wp_Cleanup; [apply (ok_list _ Hw)|done]. }
  apply wp_safe in Hcl as ([] & w' & Hcl & ->).
  destruct r as [run host port c w0 vds]. cbn in Hrunning, Hdis. subst run. eexists. split.
  - rewrite Stop_parts. unfold mbind, M_bind, get, modify. cbn [running_ negb].
    fold r1. rewrite Hclear. unfold on_client. cbn. rewrite Hdis. cbn. unfold on_usbip. cbn.
    rewrite Hcl. reflexivity.
  - cbn in *. split_and!; try done. rewrite Hsh, <- app_assoc, Hi. done.
Qed.

Lemma Start_running host port connect answers r r' :
  Start host port connect answers r = Ok (true, r') → running_ r' = true.
Proof.
  unfold Start, mbind, M_bind, get. destruct (running_ r) eqn:Hr; [by intros [= <-]|].
  intros H.
  repeat match type of H with
  | context [match ?x with _ => _ end] => destruct x; try discriminate H; cbn in H
  end.
  all: by injection H as <-.
Qed.


(** [Run] reconnects after [Stop]. When a signal stops the receiver during
    the sleep of [Run], the loop still tests the connection before [running_]:
    the disconnected client connects again and asks for the devices, and [Run]
    returns with [running_] false and the new connection up. *)
Theorem run_reconnects_after_stop l seq r t turns close c1 c2 b c3 :
  receiver_events std_system l (UsbReceiver_new world_init seq) = Ok ((), r) →
  running_ r = true → during t = (Stop std_system close;; mret ()) →
  UsbipClient.Disconnect close (usbip_client_ r) = Ok (true, c1) → connected_ c1 = false →
  turn_connect t (server_host_ r) (server_port_ r) c1 = Ok (true, c2) →
  RequestDeviceList (turn_answers t) c2 = Ok (b, c3) →
  ∃ r', run_loop (t :: turns) r = Ok ((), r') ∧ running_ r' = false ∧ usbip_client_ r' = c3.
Proof.
  intros Hrun Hrunning Hdur Hdis Hoff Hcon Hreq.
  assert (∃ r1, Stop std_system close r = Ok (true, r1) ∧ running_ r1 = false ∧
    usbip_client_ r1 = c1 ∧ server_host_ r1 = server_host_ r ∧ server_port_ r1 = server_port_ r)
    as (r1 & Hstop & Hr1 & Hc1 & Hh & Hp).
  { assert (receiver_ok std_system (r {{ running_ := false }})) as Hok1
      by (pose proof (receiver_events_ok _ _ _ _ Hrun); by destruct r).
    destruct (clear_devices_run std_system _ Hok1) as (w & Hclear & Hr & _).
    pose proof (reachable_ok _ _ Hr) as Hw. destruct w as [mg devs nd hd sh].
    assert (hd = []) as -> by apply Hw.
    assert (wp (UsbipManager_Cleanup std_system) safe (λ _ w', True) (W mg devs nd [] sh)) as Hcl
      by (apply wp_Cleanup; [apply (ok_list _ Hw)|done]).
    apply wp_safe in Hcl as ([] & w' & Hcl & _).
    destruct r as [run host port c w0 vds]. cbn in Hrunning, Hdis. subst run. eexists. split.
    - rewrite Stop_parts. unfold mbind, M_bind, get, modify. cbn [running_ negb].
      rewrite Hclear. unfold on_client. cbn. rewrite Hdis. cbn. unfold on_usbip. cbn.
      rewrite Hcl. reflexivity.
    - by split_and!. }
  cbn [run_loop]. unfold mbind at 1, M_bind at 1, get. rewrite Hrunning. cbn [negb].
  unfold mbind, M_bind. rewrite Hdur. unfold mbind, M_bind. rewrite Hstop. cbn [mret M_ret].
  unfold reconnect, on_client, mbind, M_bind, get. rewrite Hc1, Hoff, Hh, Hp.
  destruct r1 as [run host port c w vds]. cbn in Hr1, Hc1. subst run c. cbn [usbip_client_]. rewrite Hcon. cbn.
  rewrite Hreq. cbn. eexists. split; [by destruct turns|]. done.
Qed.

(** The peer closes the connection: the client is disconnected and its old
    receive thread is over, but not joined. *)
Lemma client_peer_closes now junk answers c :
  connect_callback_ (tcp_client_ c) = true →
  ∃ c1, receive_turn now junk answers (ReceiveAnswer Closed) c = Ok ((), c1) ∧
    connected_ c1 = false ∧ is_connected_ (tcp_client_ c1) = false ∧
    receive_thread_ (tcp_client_ c1) = Some Done.
Proof.
  intros Hcb. unfold receive_turn, on_socket_with. cbn [perform receive_answer].
  unfold receive_end, NotifyConnect, emit, modify, get, mbind, M_bind.
  destruct c as [[fd conn lis stop rx ax cfds cth dcb ecb ccb evs] mh dl ub eb up run th iv host port
    seq nts]. cbn in Hcb |- *. subst ccb. cbn.
  rewrite drop_app_length. cbn [on_events]. unfold on_event, OnNetworkConnect, StopHeartbeat, modify, get,
    mbind, M_bind. cbn.
  destruct run; cbn; eexists; (split; [reflexivity|]); by split_and!.
Qed.

(** Losing the connection ends the program. When the peer closes the
    connection of a running receiver and the server can be reached again, the
    reconnection in the next turn of [Run] assigns a new receive thread to the
    old one, which is not joined: [std::terminate]. *)
Theorem run_reconnection_terminates r t turns now junk answers os polls close :
  running_ r = true → connect_callback_ (tcp_client_ (usbip_client_ r)) = true →
  during t = on_client (receive_turn now junk answers (ReceiveAnswer Closed)) →
  turn_connect t = (λ host port, UsbipClient.Connect host port os polls close) →
  os_connects os = true →
  run_loop (t :: turns) r = Fault StdTerminate.
Proof.
  intros Hrunning Hcb Hdur Hcon Hos.
  destruct (client_peer_closes now junk answers (usbip_client_ r) Hcb) as (c1 & Hrun & Hoff & Hoffs & Hrx).
  cbn [run_loop]. unfold mbind at 1, M_bind at 1, get. rewrite Hrunning. cbn [negb].
  unfold mbind, M_bind. rewrite Hdur. unfold on_client at 1. rewrite Hrun.
  unfold reconnect, mbind, M_bind, get, on_client. cbn [usbip_client_].
  destruct r as [run host port c w vds]. cbn. rewrite Hoff, Hcon. cbn.
  unfold UsbipClient.Connect, mbind, M_bind, get, modify. rewrite Hoff.
  unfold on_socket, on_socket_with.
  destruct c1 as [t1 mh dl ub eb up hrun th iv shost sport seq' nts]. cbn in *.
  destruct (Connect_cases host os t1) as [(s' & _ & _ & _ & [H|H])|(_ & _ & H)]; [congruence..|].
  rewrite Hrx in H. by rewrite H.
Qed.

(** [--import] imports nothing. [ImportDevice] only sends the request, and
    whatever response arrives, the receiver only logs it: no virtual device is
    created, no port taken, no command run. *)
Theorem import_option_creates_nothing bus_id answers r ok r1 now junk_setup junk answers' message :
  ImportDevice bus_id answers r = Ok (ok, r1) →
  MessageType_cast (type (header message)) = Some DEVICE_IMPORT_RESPONSE →
  usbip r1 = usbip r ∧ virtual_devices_ r1 = virtual_devices_ r ∧
  OnMessage std_system now junk_setup junk answers' message r1 = Ok ((), r1).
Proof.
  intros Hrun Hty.
  assert (usbip r1 = usbip r ∧ virtual_devices_ r1 = virtual_devices_ r) as [Eu Ev].
  { unfold ImportDevice, mbind, M_bind, get in Hrun. destruct (negb _); [by injection Hrun as <- <-|].
    unfold on_client in Hrun. destruct (UsbipClient.ImportDevice _ _ _) as [[b c]|]; [|done].
    by injection Hrun as <- <-. }
  split_and!; [done..|]. unfold OnMessage, OnNetworkMessage. rewrite Hty. cbn.
  rewrite drop_ge by done. destruct r1. reflexivity.
Qed.
End Properties.

(** ** Witnesses *)

Definition connects (host : string) (port : Z) : M UsbipClient bool :=
  UsbipClient.Connect host port os_ok (λ _, true) (mret true).

Definition mass_storage_device : UsbipDeviceInfo := sample_device {{ bDeviceClass := 8 }}.
Definition list_message : NetworkMessage :=
  with_checksum (new_message DEVICE_LIST_RESPONSE (device_list_wire [mass_storage_device]) 7).

(** The program starts and a device list with a mass-storage device arrives. *)
Definition sample_events : list receiver_event :=
  [Initializes; Starts "" 0 connects [Sent 20];
   Arrives 0 no_setup sample_info [Sent 23] list_message].

Definition started_receiver : UsbReceiver :=
  match receiver_events (h := LittleEndian) system_ok sample_events (UsbReceiver_new world_init 1) with
  | Ok (_, r) => r
  | Fault _ => UsbReceiver_new world_init 1
  end.

Lemma started_receiver_run :
  receiver_events (h := LittleEndian) system_ok sample_events (UsbReceiver_new world_init 1)
  = Ok ((), started_receiver).
Proof. vm_compute. reflexivity. Qed.

Lemma receiver_list_is_ports_witness :
  virtual_devices_ started_receiver = [0%nat] ∧
  port_usage_ (manager (usbip started_receiver)) !! 0%nat = Some true.
Proof.
  destruct (receiver_list_is_ports (h := LittleEndian) system_ok sample_events 1 started_receiver
    started_receiver_run) as (_ & _ & Hports).
  assert (virtual_devices_ started_receiver = [0%nat]) as E by (vm_compute; reflexivity).
  split; [exact E|]. apply Hports. exists 0%nat.
  eexists. split; [rewrite E; left|]. split; [vm_compute; reflexivity|]. split; [reflexivity|].
  intros id d Hin _ _. rewrite E in Hin. by apply list_elem_of_singleton in Hin.
Defined.

(** The client's close: the receive thread sees the flag. *)
Definition sample_close : M UsbipClient bool :=
  close_socket (h := LittleEndian) 0 no_setup [] [ReceiveTest].
Definition disconnected_client : UsbipClient :=
  match UsbipClient.Disconnect sample_close (usbip_client_ started_receiver) with
  | Ok (_, c) => c | Fault _ => usbip_client_ started_receiver end.

Lemma disconnected_client_run :
  UsbipClient.Disconnect sample_close (usbip_client_ started_receiver) = Ok (true, disconnected_client).
Proof. vm_compute. reflexivity. Qed.

Lemma stop_releases_ports_witness :
  ∃ r', Stop system_ok sample_close started_receiver = Ok (true, r') ∧
    port_usage_ (manager (usbip r')) !! 0%nat ≠ Some true ∧
    shell (usbip r') = ["modprobe vhci-hcd"; attach_command 0 [49; 45; 50]; detach_command 0;
                        "modprobe -r vhci-hcd"].
Proof.
  destruct (stop_releases_ports (h := LittleEndian) system_ok sample_events 1 started_receiver
    sample_close disconnected_client) as (r' & Hstop & _ & _ & _ & Hports & _ & Hshell).
  - exact started_receiver_run.
  - vm_compute. reflexivity.
  - exact disconnected_client_run.
  - exists r'. split; [exact Hstop|]. split; [apply Hports|]. rewrite Hshell. vm_compute. reflexivity.
Defined.

(** The next turn after a [Stop] during the sleep. *)
Definition stopping_turn : turn := {|
  during := (Stop system_ok sample_close;; mret ());
  turn_connect := connects; turn_answers := [Sent 20] |}.

Lemma run_reconnects_after_stop_witness :
  ∃ r', run_loop (h := LittleEndian) [stopping_turn] started_receiver = Ok ((), r') ∧ running_ r' = false ∧
    connected_ (usbip_client_ r') = true.
Proof.
  destruct (run_reconnects_after_stop (h := LittleEndian) system_ok sample_events 1 started_receiver
    stopping_turn [] sample_close disconnected_client
    (match connects "127.0.0.1" 3240 disconnected_client with
     | Ok (_, c) => c | Fault _ => disconnected_client end) true
    (match connects "127.0.0.1" 3240 disconnected_client with
     | Ok (_, c) =>
       match RequestDeviceList (h := LittleEndian) [Sent 20] c with
       | Ok (_, c) => c | Fault _ => disconnected_client end
     | Fault _ => disconnected_client end)) as (r' & Hrun & Hr & Hc).
  - exact started_receiver_run.
  - vm_compute. reflexivity.
  - reflexivity.
  - exact disconnected_client_run.
  - vm_compute. reflexivity.
  - vm_compute. reflexivity.
  - vm_compute. reflexivity.
  - exists r'. split; [exact Hrun|]. split; [exact Hr|]. rewrite Hc. vm_compute. reflexivity.
Defined.

(** The peer closes during the sleep. *)
Definition closing_turn : turn := {|
  during := on_client (receive_turn (h := LittleEndian) 0 no_setup [] (ReceiveAnswer Closed));
  turn_connect := connects; turn_answers := [Sent 20] |}.

Lemma run_reconnection_terminates_witness :
  run_loop (h := LittleEndian) [closing_turn] started_receiver = Fault StdTerminate.
Proof.
  apply (run_reconnection_terminates (h := LittleEndian) started_receiver closing_turn [] 0 no_setup []
    os_ok (λ _, true) (mret true)).
  - vm_compute. reflexivity.
  - vm_compute. reflexivity.
  - reflexivity.
  - reflexivity.
  - reflexivity.
Defined.

Definition sample_environment : environment := {|
  env_connect := connects; env_start := [Sent 20]; env_request := [Sent 20];
  env_wait := mret (); env_turns := [] |}.


Lemma import_option_creates_nothing_witness :
  ∃ r1, ImportDevice (h := LittleEndian) [49; 45; 50] [Sent 23] started_receiver = Ok (true, r1) ∧
    virtual_devices_ r1 = virtual_devices_ started_receiver.
Proof.
  set (r1 := match ImportDevice (h := LittleEndian) [49; 45; 50] [Sent 23] started_receiver with
             | Ok (_, r1) => r1 | Fault _ => started_receiver end).
  assert (ImportDevice (h := LittleEndian) [49; 45; 50] [Sent 23] started_receiver = Ok (true, r1))
    as E by (vm_compute; reflexivity).
  exists r1. split; [exact E|].
  apply (import_option_creates_nothing (h := LittleEndian) system_ok [49; 45; 50] [Sent 23]
    started_receiver true r1 0 no_setup sample_info []
    (with_checksum (new_message DEVICE_IMPORT_RESPONSE [1] 9))); [exact E|reflexivity].
Defined.
