(* ===== verification/SenderMain.v ===== *)
(** * SenderMain: the sender's lifecycle

    The rest of [sender/main.cpp]: [UsbSender::Run] and [main], and what the
    program keeps true of its drivers from its start to its end.  The
    operations are those of [Sender.v]. *)

From S2P Require Import Prelude Memory UsbTypes UsbipProtocol MessageHandler TcpSocket UsbDeviceManager MassStorage UrbCapture UrbProcessor Sender Pipeline.
From stdpp Require Import gmap.
Open Scope Z_scope.

(** ** [Run] and [main] *)

Section Main.
Context {h : Host} {L : Type} `{Libusb L}.

(** The loop of [Run]: what the other threads and the signal handler do during
    each sleep; it is still running when the turns given are over.  The result
    are the statistics it logs. *)
Fixpoint run_loop (turns : list (M (UsbSender L) ())) : M (UsbSender L) (list Statistics) :=
  s ← get;
  if negb (Sender.running_ s) then mret []
  else
    match turns with
    | [] => fail OutOfFuel
    | during :: turns' =>
      during;;
      s ← get;
      let stats := GetStatistics (urb_capture_ s) in
      rest ← run_loop turns';
      mret ((if total_urbs stats >? 0 then [stats] else []) ++ rest)
    end.

Definition Run (turns : list (M (UsbSender L) ())) : M (UsbSender L) (list Statistics) :=
  s ← get; if negb (Sender.running_ s) then mret [] else run_loop turns.

(** The answers of the system to a whole run. *)
Record environment := {
  env_libusb : Z;
  env_os : os_answers;
  env_csw : list Z;
  env_capacity : Z;
  env_devices : list (SenderUsbDevice L);
  env_supported : bool;
  env_ret : Z;
  env_handle : Z;
  env_turns : list (M (UsbSender L) ());
}.

(** The arguments are ignored.  The result is the exit code; the destructor of
    the global sender then calls [Stop], with these actions of the threads. *)
Definition main (env : environment) (capture : list UrbCapture.action)
    (server : list TcpSocket.action) : M (UsbSender L) Z :=
  initialized ← Initialize (env_libusb env);
  code ← (if negb initialized then mret 1
          else
            started ← Start (env_os env) (env_csw env) (env_capacity env) (env_devices env)
                        (env_supported env) (env_ret env) (env_handle env);
            if negb started then mret 1 else Run (env_turns env);; mret 0);
  stopped ← Stop capture server;
  if stopped : bool then mret code else fail OutOfFuel.
End Main.
#[global] Arguments environment L : clear implicits.

(** ** The invariant *)

Section Invariant.
Context {h : Host} {L : Type} `{Libusb L}.
Implicit Types (s : UsbSender L).

(** A driver the program has kept: initialised, and with the capture's
    callback. *)
Definition live (s : UsbSender L) (id : nat) : Prop :=
  ∃ d, drivers s !! id = Some d ∧ MassStorage.initialized_ d = true ∧ data_callback_ d = true.

Record sender_ok (s : UsbSender L) : Prop := {
  sender_once : NoDup (mass_storage_devices_ s);
  sender_captured id : id ∈ mass_storage_devices_ s → id ∈ UrbCapture.devices_ (urb_capture_ s);
  sender_capture_once : NoDup (UrbCapture.devices_ (urb_capture_ s));
  sender_live id : id ∈ UrbCapture.devices_ (urb_capture_ s) → live s id;
  sender_fresh id : (next_object s ≤ id)%nat → drivers s !! id = None;
}.

Lemma UsbSender_new_ok seq : sender_ok (UsbSender_new (L := L) seq).
Proof.
  split; cbn; try constructor; try (intros id Hid; by apply elem_of_nil in Hid).
Qed.

(** States that agree on the drivers. *)
Definition same_drivers s s' : Prop :=
  mass_storage_devices_ s' = mass_storage_devices_ s ∧ drivers s' = drivers s ∧
  next_object s' = next_object s ∧
  UrbCapture.devices_ (urb_capture_ s') = UrbCapture.devices_ (urb_capture_ s).

Lemma sender_ok_same s s' : same_drivers s s' → sender_ok s → sender_ok s'.
Proof.
  intros (E1 & E2 & E3 & E4) [Hn Hc Hcn Hl Hf]. split.
  - by rewrite E1.
  - intros id. rewrite E1, E4. apply Hc.
  - by rewrite E4.
  - intros id. unfold live. rewrite E4, E2. apply Hl.
  - intros id. rewrite E2, E3. apply Hf.
Qed.

#[export] Instance same_drivers_preorder : PreOrder same_drivers.
Proof.
  split; [by intros s|]. intros s1 s2 s3 (?&?&?&?) (?&?&?&?). unfold same_drivers.
  split_and!; congruence.
Qed.

Lemma same_on_server {A} (m : M TcpSocket A) : respects same_drivers (on_server m).
Proof.
  intros s a s'. unfold on_server. destruct (m _) as [[b t]|]; [|done]. by intros [= <- <-].
Qed.
Lemma same_on_manager {A} (m : M UsbDeviceManager A) : respects same_drivers (on_manager m).
Proof.
  intros s a s'. unfold on_manager. destruct (m _) as [[b t]|]; [|done]. by intros [= <- <-].
Qed.
Lemma same_counted (m : M Z NetworkMessage) : respects same_drivers (counted m).
Proof.
  intros s a s'. unfold counted. destruct (m _) as [[b t]|]; [|done]. by intros [= <- <-].
Qed.

(** The capture's own operations do not touch its list of devices. *)
Definition same_devices (c c' : UrbCapture) : Prop := UrbCapture.devices_ c' = UrbCapture.devices_ c.
#[export] Instance same_devices_preorder : PreOrder same_devices.
Proof. split; [done|]. intros c1 c2 c3 E1 E2. unfold same_devices in *. congruence. Qed.

Lemma same_on_capture {A} (m : M UrbCapture A) :
  respects same_devices m → respects same_drivers (on_capture m).
Proof.
  intros Hm s a s'. unfold on_capture. destruct (m _) as [[b c]|] eqn:E; [|done].
  intros [= <- <-]. split_and!; [done..|]. cbn. by eapply Hm.
Qed.

(** *** Drivers *)

(** [Initialize] succeeds with the driver initialised. *)
Lemma Initialize_initialized csw_memory capacity_memory (d d' : MassStorageDevice (SenderUsbDevice L)) :
  MassStorage.Initialize csw_memory capacity_memory d = Ok (true, d') →
  MassStorage.initialized_ d' = true.
Proof.
  assert (wp (MassStorage.Initialize csw_memory capacity_memory) (λ _, True)
    (λ ok d', ok = true → MassStorage.initialized_ d' = true) d) as Hwp.
  { unfold MassStorage.Initialize. apply wp_bind, wp_get.
    destruct (MassStorage.initialized_ d) eqn:E; [by apply wp_ret|].
    apply wp_bind. eapply wp_mono; [apply wp_any|done|]. intros opened d1 _.
    destruct (negb opened); [by apply wp_ret|].
    apply wp_bind. eapply wp_mono; [apply wp_any|done|]. intros found d2 _.
    destruct (negb found); [by apply wp_ret|]. apply wp_bind, wp_get.
    apply wp_bind. eapply wp_mono; [apply wp_any|done|]. intros claimed d3 _.
    destruct (negb claimed); [by apply wp_ret|].
    apply wp_bind. eapply wp_mono; [apply wp_any|done|]. intros _ d4 _. apply wp_bind, wp_get.
    apply wp_bind. eapply wp_mono; [apply wp_any|done|]. intros r d5 _.
    apply wp_bind, wp_modify. apply wp_bind. eapply wp_mono; [apply wp_any|done|]. intros _ d6 _.
    apply wp_bind, wp_modify, wp_ret. by destruct d6. }
  intros Hrun. by apply (wp_Ok _ _ _ _ _ _ Hwp Hrun).
Qed.

Lemma sender_ok_add_driver csw_memory capacity_memory usb_device :
  ∀ s, sender_ok s →
  wp (add_driver csw_memory capacity_memory usb_device) (λ _, True) (λ _, sender_ok) s.
Proof.
  intros s [Hn Hc Hcn Hl Hf]. unfold wp, add_driver.
  destruct (MassStorage.Initialize _ _ _) as [[[] d]|e] eqn:E; [|by split|done].
  pose proof (Initialize_initialized _ _ _ _ E) as Hinit.
  assert (next_object s ∉ UrbCapture.devices_ (urb_capture_ s)) as Hnew.
  { intros (d0 & Hd0 & _)%Hl. rewrite Hf in Hd0; [done|lia]. }
  destruct (AddDevice_new (next_object s) (urb_capture_ s) (<[next_object s := d]> (drivers s)) d)
    as (hp & -> & Hself & Hother'); [done|apply lookup_insert_eq|].
  assert (∀ id, id ≠ next_object s → hp !! id = drivers s !! id) as Hother
    by (intros id Hid; rewrite Hother' by done; by rewrite lookup_insert_ne).
  clear Hother'.
  destruct s as [run port dm cap mh srv list heap next seq]. cbn in *. split; cbn.
  - apply NoDup_app. split_and!; [done| |apply NoDup_singleton].
    intros id Hid ->%list_elem_of_singleton. by apply Hnew, Hc.
  - intros id. rewrite !elem_of_app. intros [Hid|Hid]; [left; by apply Hc|by right].
  - apply NoDup_app. split_and!; [done| |apply NoDup_singleton].
    by intros id Hid ->%list_elem_of_singleton.
  - intros id. unfold live. cbn. rewrite elem_of_app, list_elem_of_singleton. intros [Hid| ->].
    + destruct (Hl id Hid) as (d0 & Hd0 & Hi). exists d0. cbn in Hd0.
      rewrite Hother by (intros ->; done). by split.
    + eexists. rewrite Hself. split; [reflexivity|]. by destruct d.
  - intros id Hid. rewrite Hother by lia. apply Hf. lia.
Qed.

(** Heaps that agree on which drivers are live. *)
Definition same_live (hp hp' : gmap nat (MassStorageDevice (SenderUsbDevice L))) : Prop :=
  ∀ id, (λ d, (MassStorage.initialized_ d, data_callback_ d)) <$> hp' !! id
        = (λ d, (MassStorage.initialized_ d, data_callback_ d)) <$> hp !! id.

Lemma same_live_insert hp id d d' :
  hp !! id = Some d → MassStorage.initialized_ d' = MassStorage.initialized_ d →
  data_callback_ d' = data_callback_ d → same_live hp (<[id := d']> hp).
Proof.
  intros Hd Hi Hcb j. destruct (decide (j = id)) as [->|Hne].
  - rewrite lookup_insert_eq, Hd. cbn. by rewrite Hi, Hcb.
  - by rewrite lookup_insert_ne.
Qed.

Lemma start_devices_live ids hp hp' : start_devices ids hp = Ok hp' → same_live hp hp'.
Proof.
  revert hp. induction ids as [|id ids IH]; intros hp; cbn [start_devices]; [by intros [= <-]|].
  destruct (hp !! id) as [d|] eqn:Hd; [|done].
  unfold MassStorage.StartCapture, mbind, M_bind, get, modify, mret, M_ret.
  destruct (_ || _); intros Hrun%IH j; (etrans; [apply Hrun|]); apply (same_live_insert hp id d); by destruct d.
Qed.

Lemma stop_devices_live ids hp hp' : stop_devices ids hp = Ok hp' → same_live hp hp'.
Proof.
  revert hp. induction ids as [|id ids IH]; intros hp; cbn [stop_devices]; [by intros [= <-]|].
  destruct (hp !! id) as [d|] eqn:Hd; [|done].
  unfold MassStorage.StopCapture, modify.
  intros Hrun%IH j; (etrans; [apply Hrun|]); apply (same_live_insert hp id d); by destruct d.
Qed.

Lemma sender_ok_heap s hp :
  same_live (drivers s) hp → sender_ok s → sender_ok (s {{ drivers := hp }}).
Proof.
  intros Hsame [Hn Hc Hcn Hl Hf]. destruct s as [run port dm cap mh srv list hp0 next seq].
  cbn in *. split; cbn in *; try done.
  - intros id Hid. destruct (Hl id Hid) as (d & Hd & Hi & Hcb). specialize (Hsame id).
    cbn in Hd. rewrite Hd in Hsame. unfold live. cbn.
    destruct (hp !! id) as [d'|]; cbn in Hsame; [|done]. exists d'. split; [done|].
    injection Hsame as -> ->. done.
  - intros id Hid. specialize (Hsame id). rewrite (Hf id Hid) in Hsame.
    by destruct (hp !! id).
Qed.

(** [Stop] forgets the list only. *)
Lemma sender_ok_forget s : sender_ok s → sender_ok (s {{ mass_storage_devices_ := [] }}).
Proof.
  intros [Hn Hc Hcn Hl Hf]. destruct s. split; cbn in *; try done; [constructor|].
  intros id Hid. by apply elem_of_nil in Hid.
Qed.

(** *** What the other operations leave alone *)

Lemma same_driver_at id : respects same_drivers (driver_at id).
Proof.
  intros s a s'. unfold driver_at. destruct (drivers s !! id); [|done]. by intros [= <- <-].
Qed.
Lemma same_drivers_at ids : respects same_drivers (drivers_at ids).
Proof.
  induction ids as [|id ids IH]; cbn [drivers_at]; respects; [apply same_driver_at|done].
Qed.

Lemma same_send message answers : respects same_drivers (send message answers).
Proof.
  unfold send. respects. apply same_on_server.
Qed.

Lemma same_OnNetworkMessage answers message : respects same_drivers (OnNetworkMessage answers message).
Proof.
  unfold OnNetworkMessage, HandleDeviceListRequest, HandleDeviceImportRequest, HandleHeartbeat,
    device_list_response, import_response.
  destruct (MessageType_cast (type (header message))) as [[]|]; respects;
    first [apply same_drivers_at | apply same_counted | apply same_send].
Qed.

Lemma same_on_messages answers ms : respects same_drivers (on_messages answers ms).
Proof.
  induction ms as [|m ms IH]; cbn [on_messages]; respects; [apply same_OnNetworkMessage|done].
Qed.

Lemma same_OnNetworkData answers data : respects same_drivers (OnNetworkData answers data).
Proof.
  intros s a s'. unfold OnNetworkData. destruct (ProcessReceivedData _ _) as [[ms mh]|]; [|done].
  intros Hrun. apply (same_on_messages answers ms _ _ _ Hrun).
Qed.

Lemma same_OnUrbCaptured urb answers : respects same_drivers (OnUrbCaptured urb answers).
Proof.
  unfold OnUrbCaptured. respects; [|apply same_send].
  intros s a s'. unfold captured_message. destruct (CreateUsbipSubmit _ _) as [[m [p seq]]|]; [|done].
  by intros [= <- <-].
Qed.

(** The capture's actions and its start and stop. *)
Lemma same_devices_perform a : respects same_devices (UrbCapture.perform a).
Proof.
  destruct a; cbn [UrbCapture.perform]; unfold StartCapture_thread, StopCapture_begin, StopCapture_notify,
    StopCapture_join, produce_check, produce_push, produce_notify, thread_step, set_thread, notify; respects;
    unfold same_devices; repeat case_match; reflexivity.
Qed.

Lemma same_devices_actions l : respects same_devices (capture_actions l).
Proof.
  induction l as [|a l IH]; cbn [capture_actions]; respects; [apply same_devices_perform|done].
Qed.

(** ** Invariants of the operations

    What any invariant needs to be kept by every operation: it depends on the
    drivers only, starting and stopping their capture and forgetting the list
    keep it, and so does adding the driver of an allowed device. *)

Class Invariant (I : UsbSender L → Prop) (allowed : SenderUsbDevice L → Prop) : Prop := {
  invariant_same s s' : same_drivers s s' → I s → I s';
  invariant_heap s hp : same_live (drivers s) hp → I s → I (s {{ drivers := hp }});
  invariant_forget s : I s → I (s {{ mass_storage_devices_ := [] }});
  invariant_add csw_memory capacity_memory usb s : allowed usb → I s →
    wp (add_driver csw_memory capacity_memory usb) (λ _, True) (λ _, I) s;
}.

#[export] Instance sender_ok_invariant : Invariant sender_ok (λ _, True).
Proof.
  split.
  - apply sender_ok_same.
  - apply sender_ok_heap.
  - apply sender_ok_forget.
  - intros csw_memory capacity_memory usb s _. apply sender_ok_add_driver.
Qed.
End Invariant.

Section Keeps.
Context {h : Host} {L : Type} `{Libusb L}.
Context (I : UsbSender L → Prop) (allowed : SenderUsbDevice L → Prop) `{!Invariant I allowed}.

#[local] Abbreviation keeps_ok := (preserves I (λ _, True)).

Lemma keeps_same {A} (m : M (UsbSender L) A) :
  respects same_drivers m → keeps_ok m.
Proof.
  intros Hm. apply (respects_preserves _ _ _ Hm). apply invariant_same.
Qed.

Lemma keeps_scan csw_memory capacity_memory devices :
  Forall allowed devices → keeps_ok (ScanMassStorageDevices csw_memory capacity_memory devices).
Proof.
  intros Hd. induction Hd as [|usb devices Hu _ IH]; [apply preserves_ret|].
  apply preserves_bind; [|done]. intros s. by apply invariant_add.
Qed.

Lemma keeps_hotplug csw_memory capacity_memory device connected :
  (∀ usb, device = Some usb → allowed usb) →
  keeps_ok (OnDeviceHotplug csw_memory capacity_memory device connected).
Proof.
  intros Hd. unfold OnDeviceHotplug. destruct device as [usb|]; [|apply preserves_ret].
  case_match; [|apply preserves_ret]. intros s. apply invariant_add. by apply Hd.
Qed.

Lemma keeps_Initialize libusb : keeps_ok (Initialize libusb).
Proof.
  apply keeps_same. unfold Initialize, SetupNetworkCallbacks. respects; [apply same_on_manager|..];
    by split_and!.
Qed.

Lemma keeps_start_capture : keeps_ok start_capture.
Proof.
  unfold start_capture. apply preserves_bind; [apply preserves_get|intros s0].
  apply preserves_bind.
  { apply keeps_same, same_on_capture. unfold StartCapture_thread. respects; by unfold same_devices. }
  intros ok. case_match; [apply preserves_ret|]. intros s Hs. apply wp_bind, wp_get, wp_bind.
  unfold wp at 1, lift. destruct (start_devices _ _) as [hp|e] eqn:E; [|done].
  apply wp_bind, wp_modify, wp_ret. apply invariant_heap; [|done]. by eapply start_devices_live.
Qed.

Lemma keeps_stop_capture l : keeps_ok (stop_capture l).
Proof.
  unfold stop_capture. apply preserves_bind; [apply preserves_get|intros s0].
  case_match; [apply preserves_ret|].
  apply preserves_bind.
  { apply keeps_same, same_on_capture. unfold StopCapture_begin. respects.
    unfold same_devices. by case_match. }
  intros _. intros s Hs. apply wp_bind, wp_get, wp_bind.
  unfold wp at 1, lift. destruct (stop_devices _ _) as [hp|e] eqn:E; [|done].
  apply wp_bind, wp_modify. apply (preserves_bind _ _ _ _).
  3: { apply invariant_heap; [|done]. by eapply stop_devices_live. }
  - apply keeps_same, same_on_capture. unfold StopCapture_notify. respects; [|apply same_devices_actions].
    unfold same_devices, notify. by repeat case_match.
  - intros _. apply preserves_bind; [apply preserves_get|intros s1].
    case_match; [|apply preserves_ret]. apply preserves_bind; [|intros; apply preserves_ret].
    apply keeps_same, same_on_capture. unfold StopCapture_join. respects. by unfold same_devices.
Qed.

Lemma keeps_Start os csw_memory capacity_memory devices supported ret handle :
  Forall allowed devices →
  keeps_ok (Start os csw_memory capacity_memory devices supported ret handle).
Proof.
  intros Hd. unfold Start. apply preserves_bind; [apply preserves_get|intros s0]. case_match; [apply preserves_ret|].
  apply preserves_bind; [apply keeps_same, same_on_server|intros listening].
  case_match; [apply preserves_ret|].
  apply preserves_bind; [by apply keeps_scan|intros _].
  apply preserves_bind; [apply keeps_start_capture|intros ok]. case_match; [apply preserves_ret|].
  apply keeps_same. respects; [by split_and!|apply same_on_manager|by split_and!].
Qed.

Lemma keeps_Stop capture server : keeps_ok (Stop capture server).
Proof.
  unfold Stop. apply preserves_bind; [apply preserves_get|intros s0]. case_match; [apply preserves_ret|].
  apply preserves_bind; [apply keeps_same; respects; by split_and!|intros _].
  apply preserves_bind; [apply keeps_stop_capture|intros stopped]. case_match; [apply preserves_ret|].
  apply preserves_bind; [apply keeps_same, same_on_manager|intros _].
  apply preserves_bind.
  { apply keeps_same. unfold close_server. respects; apply same_on_server. }
  intros closed. case_match; [apply preserves_ret|].
  apply preserves_bind; [|intros; apply preserves_ret]. intros s Hs. by apply wp_modify, invariant_forget.
Qed.
End Keeps.

(** ** What happens to a sender *)

Section Events.
Context {h : Host} {L : Type} `{Libusb L}.
Implicit Types (s : UsbSender L).

(** [main]'s calls, the signal handler's [Stop], data from clients, captured
    URBs, hotplugged devices, and the threads of the capture and the socket. *)
Inductive sender_event :=
  | Initializes (libusb : Z)
  | Starts (os : os_answers) (csw_memory : list Z) (capacity_memory : Z)
      (devices : list (SenderUsbDevice L)) (supported : bool) (ret handle : Z)
  | Stops (capture : list UrbCapture.action) (server : list TcpSocket.action)
  | Receives (answers : list send_answer) (data : list Z)
  | Captures (urb : UsbUrb) (answers : list send_answer)
  | Hotplugs (csw_memory : list Z) (capacity_memory : Z) (device : option (SenderUsbDevice L))
      (connected : bool)
  | CaptureActs (l : list UrbCapture.action)
  | ServerActs (l : list TcpSocket.action).

Definition sender_perform (e : sender_event) : M (UsbSender L) () :=
  match e with
  | Initializes libusb => Initialize libusb;; mret ()
  | Starts os csw_memory capacity_memory devices supported ret handle =>
    Start os csw_memory capacity_memory devices supported ret handle;; mret ()
  | Stops capture server => Stop capture server;; mret ()
  | Receives answers data => OnNetworkData answers data
  | Captures urb answers => OnUrbCaptured urb answers
  | Hotplugs csw_memory capacity_memory device connected =>
    OnDeviceHotplug csw_memory capacity_memory device connected
  | CaptureActs l => on_capture (capture_actions l)
  | ServerActs l => on_server (server_actions l)
  end.

Fixpoint sender_events (l : list sender_event) : M (UsbSender L) () :=
  match l with
  | [] => mret ()
  | e :: l' => sender_perform e;; sender_events l'
  end.

(** The devices an event brings. *)
Definition event_allowed (allowed : SenderUsbDevice L → Prop) (e : sender_event) : Prop :=
  match e with
  | Starts _ _ _ devices _ _ _ => Forall allowed devices
  | Hotplugs _ _ device _ => ∀ usb, device = Some usb → allowed usb
  | _ => True
  end.

Lemma keeps_sender_events I allowed `{!Invariant I allowed} l :
  Forall (event_allowed allowed) l → preserves I (λ _, True) (sender_events l).
Proof.
  intros Hl. induction Hl as [|e l He _ IH]; cbn [sender_events]; [apply preserves_ret|].
  apply preserves_bind; [|done]. destruct e; cbn [sender_perform];
    try (apply preserves_bind; [|intros _; apply preserves_ret]).
  - apply (keeps_Initialize I allowed).
  - by apply (keeps_Start I allowed).
  - apply (keeps_Stop I allowed).
  - apply (keeps_same I allowed), same_OnNetworkData.
  - apply (keeps_same I allowed), same_OnUrbCaptured.
  - by apply (keeps_hotplug I allowed).
  - apply (keeps_same I allowed), same_on_capture, same_devices_actions.
  - apply (keeps_same I allowed), same_on_server.
Qed.

Lemma sender_events_ok l seq s : sender_events l (UsbSender_new seq) = Ok ((), s) → sender_ok s.
Proof.
  apply (wp_Ok (sender_events l) (λ _, True) (λ _, sender_ok)).
  apply (keeps_sender_events sender_ok (λ _, True)); [|apply UsbSender_new_ok].
  apply Forall_true. intros []; try exact I; [by apply Forall_true|done].
Qed.

(** What [Stop] leaves as it is. *)
Definition same_capture s s' : Prop :=
  UrbCapture.devices_ (urb_capture_ s') = UrbCapture.devices_ (urb_capture_ s) ∧
  Sender.running_ s' = Sender.running_ s.
#[export] Instance same_capture_preorder : PreOrder same_capture.
Proof.
  split; [by intros s|]. intros s1 s2 s3 [??] [??]. split; congruence.
Qed.

Lemma same_capture_server {A} (m : M TcpSocket A) : respects same_capture (on_server m).
Proof.
  intros s a s'. unfold on_server. destruct (m _) as [[b t]|]; [|done]. by intros [= <- <-].
Qed.
Lemma same_capture_manager {A} (m : M UsbDeviceManager A) : respects same_capture (on_manager m).
Proof.
  intros s a s'. unfold on_manager. destruct (m _) as [[b t]|]; [|done]. by intros [= <- <-].
Qed.
Lemma same_capture_capture {A} (m : M UrbCapture A) :
  respects same_devices m → respects same_capture (on_capture m).
Proof.
  intros Hm s a s'. unfold on_capture. destruct (m _) as [[b c]|] eqn:E; [|done].
  intros [= <- <-]. split; [|done]. cbn. by eapply Hm.
Qed.

Lemma stop_capture_same l : respects same_capture (stop_capture l).
Proof.
  unfold stop_capture. respects; try by split.
  - apply same_capture_capture. unfold StopCapture_begin. respects. unfold same_devices. by case_match.
  - apply same_capture_capture. unfold StopCapture_notify. respects; [|apply same_devices_actions].
    unfold same_devices, notify. by repeat case_match.
  - apply same_capture_capture. unfold StopCapture_join. respects. by unfold same_devices.
Qed.
End Events.

(** ** Real devices *)

Section RealDevices.
Context {h : Host} {L : Type} `{Libusb L}.
Implicit Types (s : UsbSender L).

(** The struct libusb returns for the active configuration, as memory: the
    first two bytes of the descriptor, and a padding byte, zero, after its
    nine. *)
Definition libusb_config_ok (dev : libusb_device) : Prop :=
  match lu_config dev with
  | Some (object, total) =>
    0 <= total ∧ nth 0 object 0 = 9 ∧ nth 1 object 0 = 2 ∧ nth 9 object 0 = 0 ∧
    (10 ≤ length object)%nat
  | None => True
  end.

(** A [UsbDevice] made from such a device; [junk] is the new object before
    [LoadDeviceInfo], its vector empty. *)
Definition real_device (usb : SenderUsbDevice L) : Prop :=
  ∃ dev junk l, UsbDevice_new (Some dev) junk l = Ok usb ∧ libusb_config_ok dev ∧
    dev_config_descriptor junk = [].

Lemma Open_info (usb : SenderUsbDevice L) :
  ∃ b usb', Open usb = Ok (b, usb') ∧ device_info_ usb' = device_info_ usb.
Proof.
  destruct usb as [dev hdl info cl l]. unfold Open, call, get, modify, mbind, M_bind, mret, M_ret. cbn.
  destruct hdl; [by eexists _, _|]. cbn. destruct (libusb_open _) as [ret l'].
  cbn. destruct (ret =? 0); by eexists _, _.
Qed.

(** No driver finds endpoints in the configuration of a real device. *)
Lemma real_device_no_endpoints usb (d : MassStorageDevice (SenderUsbDevice L)) :
  real_device usb → device_info_ (MassStorage.device d) = device_info_ usb → interface_number_ d < 0 →
  FindEndpoints d = Ok (false, d).
Proof.
  intros (dev & junk & l & Hnew & Hcfg & Hjunk) Hinfo Hi. unfold UsbDevice_new in Hnew.
  destruct (LoadDeviceInfo (Some dev) junk) as [info|] eqn:E; [|done]. injection Hnew as <-.
  cbn in Hinfo. unfold libusb_config_ok in Hcfg.
  destruct (lu_config dev) as [[object total]|] eqn:Hc.
  - destruct Hcfg as (Ht & H0 & H1 & H9 & Hl).
    pose proof (loaded_config_has_no_endpoints d dev junk object total Hc Ht) as Hload.
    rewrite E in Hload. by apply Hload.
  - assert (dev_config_descriptor info = []) as Hnil.
    { unfold LoadDeviceInfo in E. rewrite Hc in E. injection E as <-. by destruct (lu_descriptor dev). }
    unfold FindEndpoints, mbind, M_bind, get. cbn [transport_info usb_device_transport].
    rewrite Hinfo, Hnil. done.
Qed.

Lemma real_device_not_initialised usb csw_memory capacity_memory :
  real_device usb →
  ∃ d, MassStorage.Initialize csw_memory capacity_memory (MassStorageDevice_new usb) = Ok (false, d).
Proof.
  intros Hr. destruct (Open_info usb) as (b & usb' & Hopen & Hinfo).
  unfold MassStorage.Initialize, on_device, mbind, M_bind, get.
  cbn [MassStorage.initialized_ MassStorageDevice_new MassStorage.device transport_open usb_device_transport].
  rewrite Hopen. destruct b; cbn [negb]; [|by eexists].
  rewrite (real_device_no_endpoints usb); [|done..]. cbn [negb]. by eexists.
Qed.

(** Nothing to offer. *)
Definition empty_handed (s : UsbSender L) : Prop :=
  mass_storage_devices_ s = [] ∧ UrbCapture.devices_ (urb_capture_ s) = [].

#[export] Instance empty_handed_invariant : Invariant empty_handed real_device.
Proof.
  split.
  - intros s s' (E1 & _ & _ & E4) [H1 H2]. split; congruence.
  - intros s hp _ Hs. by destruct s.
  - intros s [_ Hs]. by destruct s.
  - intros csw_memory capacity_memory usb s Hr Hs. unfold wp, add_driver.
    destruct (real_device_not_initialised usb csw_memory capacity_memory Hr) as [d ->]. done.
Qed.
End RealDevices.

(** ** Properties *)

Section Properties.
Context {h : Host} {L : Type} `{Libusb L}.
Implicit Types (s : UsbSender L).

(** C15: The sender's drivers. Whatever happens to a sender, in whatever order
    (starting, data of any content from clients, captured URBs, devices plugged
    in, threads, stopping), the list of devices has no duplicates and every
    driver in it exists, is initialised and is registered once with the
    capture, so that a request finds all of them; and so is every driver the
    capture holds. *)
Theorem sender_drivers_live l seq s :
  sender_events l (UsbSender_new seq) = Ok ((), s) →
  NoDup (mass_storage_devices_ s) ∧ NoDup (UrbCapture.devices_ (urb_capture_ s)) ∧
  (∀ id, id ∈ mass_storage_devices_ s → id ∈ UrbCapture.devices_ (urb_capture_ s)) ∧
  (∀ ids, (∀ id, id ∈ ids → id ∈ UrbCapture.devices_ (urb_capture_ s)) →
     ∃ ds, drivers_at ids s = Ok (ds, s) ∧
       Forall2 (λ id d, drivers s !! id = Some d ∧ MassStorage.initialized_ d = true ∧
                        data_callback_ d = true) ids ds).
Proof.
  intros [Hn Hc Hcn Hl Hf]%sender_events_ok. split_and!; [done..|].
  intros ids. induction ids as [|id ids IH]; intros Hin; [by exists []|].
  destruct (Hl id) as (d & Hd & Hi); [apply Hin; by left|].
  destruct IH as (ds & Hrun & Hds); [intros j Hj; apply Hin; by right|].
  exists (d :: ds). split; [|by constructor]. cbn [drivers_at]. unfold mbind, M_bind, driver_at.
  rewrite Hd. by rewrite Hrun.
Qed.

(** [Stop] leaves the devices open. On any running sender the program can
    get to, a [Stop] that returns has emptied the list of devices, but the
    drivers stay registered with the capture, which shares their ownership:
    none is destroyed, and every one is still initialised, its [Cleanup], which
    would release the interface and close the device, not having run. *)
Theorem stop_keeps_drivers l seq s capture server s' :
  sender_events l (UsbSender_new seq) = Ok ((), s) → Sender.running_ s = true →
  Stop capture server s = Ok (true, s') →
  Sender.running_ s' = false ∧ mass_storage_devices_ s' = [] ∧
  UrbCapture.devices_ (urb_capture_ s') = UrbCapture.devices_ (urb_capture_ s) ∧
  ∀ id, id ∈ mass_storage_devices_ s → id ∈ UrbCapture.devices_ (urb_capture_ s') ∧
    ∃ d, drivers s' !! id = Some d ∧ MassStorage.initialized_ d = true.
Proof.
  intros Hok%sender_events_ok Hr Hstop.
  assert (sender_ok s') as Hok' by (by eapply (wp_Ok _ _ _ _ _ _ (keeps_Stop sender_ok (λ _, True) capture server s Hok))).
  assert (wp (Stop capture server) (λ _, True) (λ ok s', ok = true →
    Sender.running_ s' = false ∧ mass_storage_devices_ s' = [] ∧
    UrbCapture.devices_ (urb_capture_ s') = UrbCapture.devices_ (urb_capture_ s)) s) as Hwp.
  { set (s0 := s {{ Sender.running_ := false }}).
    assert (∀ {A} (m : M (UsbSender L) A), respects same_capture m → ∀ s1, same_capture s0 s1 →
      wp m (λ _, True) (λ _, same_capture s0) s1) as Hstep.
    { intros A m Hm s1 Hs1. unfold wp. destruct (m s1) as [[a s2]|] eqn:E; [|done].
      etrans; [exact Hs1|by eapply Hm]. }
    unfold Stop. apply wp_bind, wp_get. rewrite Hr. cbn [negb]. apply wp_bind, wp_modify. fold s0.
    apply wp_bind. eapply wp_mono; [apply Hstep; [apply stop_capture_same|done]|done|].
    intros stopped s1 Hs1. destruct (negb stopped); [by apply wp_ret|].
    apply wp_bind. eapply wp_mono; [apply Hstep; [apply same_capture_manager|done]|done|].
    intros [] s2 Hs2. apply wp_bind.
    eapply wp_mono; [apply Hstep; [|exact Hs2]|done|].
    { unfold close_server. respects; apply same_capture_server. }
    intros closed s3 [Hd Hrun]. destruct (negb closed); [by apply wp_ret|].
    apply wp_bind, wp_modify, wp_ret. intros _. unfold s0 in *. destruct s, s3. cbn in *. by split_and!. }
  destruct (wp_Ok _ _ _ _ _ _ Hwp Hstop eq_refl) as (H1 & H2 & H3). split_and!; [done..|].
  intros id Hid. rewrite H3. pose proof (sender_captured _ Hok id Hid) as Hin. split; [done|].
  destruct (sender_live _ Hok' id) as (d & Hd & Hi & _); [by rewrite H3|]. by exists d.
Qed.

End Properties.

(** ** Witnesses *)

(** A mass-storage device whose configuration descriptor is the one it has. *)
Definition storage_info : UsbDevice :=
  empty_info {{ dev_descriptor := struct_load (h := LittleEndian) sample_descriptor;
                dev_config_descriptor := concat sample_descs }}.
Definition sample_storage : SenderUsbDevice () :=
  Build_SenderUsbDevice (Some (sample_usb_device 12)) false storage_info [] ().

(** The program starts with such a device, and another one is plugged in. *)
Definition storage_events : list (sender_event (L := ())) :=
  [Initializes 0; Starts os_ok (replicate 13 0) 0 [sample_storage] true 0 1;
   Hotplugs (replicate 13 0) 0 (Some sample_storage) true].

Definition storage_sender : UsbSender () :=
  match sender_events (h := LittleEndian) storage_events (UsbSender_new 1) with
  | Ok (_, s) => s
  | Fault _ => UsbSender_new 1
  end.

Lemma storage_sender_run :
  sender_events (h := LittleEndian) storage_events (UsbSender_new 1) = Ok ((), storage_sender).
Proof. vm_compute. reflexivity. Qed.

Lemma storage_sender_lists : mass_storage_devices_ storage_sender = [0%nat; 1%nat].
Proof. vm_compute. reflexivity. Qed.

Lemma sender_drivers_live_witness :
  mass_storage_devices_ storage_sender = [0%nat; 1%nat] ∧
  ∃ ds, drivers_at [0%nat; 1%nat] storage_sender = Ok (ds, storage_sender) ∧ length ds = 2%nat.
Proof.
  destruct (sender_drivers_live (h := LittleEndian) storage_events 1 storage_sender storage_sender_run)
    as (_ & _ & Hc & Hds).
  rewrite storage_sender_lists in Hc. split; [exact storage_sender_lists|].
  destruct (Hds [0%nat; 1%nat] Hc) as (ds & Hrun & Hlen%Forall2_length). by exists ds.
Defined.

(** The capture's thread ends, and so does the accept thread. *)
Definition capture_ends : list UrbCapture.action :=
  [UrbCapture.Thread; UrbCapture.Thread; UrbCapture.Thread; UrbCapture.Thread].
Definition sample_stop : M (UsbSender ()) bool := Stop capture_ends [AcceptTest].

Definition stopped_sender : UsbSender () :=
  match sample_stop storage_sender with Ok (_, s) => s | Fault _ => storage_sender end.

Lemma stopped_sender_run : sample_stop storage_sender = Ok (true, stopped_sender).
Proof. vm_compute. reflexivity. Qed.

Lemma stop_keeps_drivers_witness :
  mass_storage_devices_ stopped_sender = [] ∧
  UrbCapture.devices_ (urb_capture_ stopped_sender) = [0%nat; 1%nat] ∧
  ∃ d, drivers stopped_sender !! 1%nat = Some d ∧ MassStorage.initialized_ d = true.
Proof.
  destruct (stop_keeps_drivers (h := LittleEndian) storage_events 1 storage_sender capture_ends [AcceptTest] stopped_sender
    storage_sender_run) as (_ & H1 & H2 & H3).
  - vm_compute. reflexivity.
  - exact stopped_sender_run.
  - split; [exact H1|]. split; [rewrite H2; vm_compute; reflexivity|].
    apply (H3 1%nat). rewrite storage_sender_lists. right. left.
Defined.

(** The same device as [LoadDeviceInfo] makes it. *)
Definition loaded_storage : SenderUsbDevice () :=
  match UsbDevice_new (h := LittleEndian) (Some (sample_usb_device 12)) empty_info () with
  | Ok usb => usb
  | Fault _ => sample_storage
  end.

Definition loaded_events : list (sender_event (L := ())) :=
  [Initializes 0; Starts os_ok (replicate 13 0) 0 [loaded_storage] true 0 1].

Definition loaded_sender : UsbSender () :=
  match sender_events (h := LittleEndian) loaded_events (UsbSender_new 1) with
  | Ok (_, s) => s
  | Fault _ => UsbSender_new 1
  end.

Lemma loaded_sender_run :
  sender_events (h := LittleEndian) loaded_events (UsbSender_new 1) = Ok ((), loaded_sender).
Proof. vm_compute. reflexivity. Qed.

Lemma loaded_storage_real : real_device (h := LittleEndian) loaded_storage.
Proof.
  exists (sample_usb_device 12), empty_info, (). split_and!; [vm_compute; reflexivity| |reflexivity].
  cbn. split_and!; [lia|reflexivity..|]. vm_compute. lia.
Qed.

