(* ===== verification/Logger.v ===== *)
(** * Logger: the log file and the console

    [common/utils/logger.h] and [logger.cpp]: the level filter, the lines and
    where they go.  The clock is an argument and [put_time] of [localtime] a
    parameter; output streams that are open accept what is written to them.
    [mutex_] is held by [SetLogFile] and by each writing of a line, so the
    calls of several threads are sequences of whole operations. *)

From S2P Require Import Prelude UsbDeviceManager.
From stdpp Require Import gmap.
From Stdlib Require Import Ascii.
Open Scope Z_scope.

(** ** State *)

Inductive LogLevel := DEBUG | INFO | WARNING | ERROR | FATAL.
Definition LogLevel_val (l : LogLevel) : Z :=
  match l with DEBUG => 0 | INFO => 1 | WARNING => 2 | ERROR => 3 | FATAL => 4 end.

(** [log_file_]: the name and [is_open]; [console] and [files] are what the
    terminal and the disk hold. *)
Record Logger := {
  log_level_ : LogLevel;
  console_output_ : bool;
  log_file_ : option (string * bool);
  console : string;
  files : gmap string string;
}.

Definition Logger_init (disk : gmap string string) : Logger :=
  {| log_level_ := INFO; console_output_ := true; log_file_ := None; console := ""; files := disk |}.

(** ** Operations *)

Section Logger.
Variable put_time : Z → string.

(** [now]: milliseconds since the epoch. *)
Definition GetTimestamp (now : Z) : string :=
  put_time (Z.quot now 1000) +:+ "." +:+ pad3 (Z.rem now 1000).

Definition GetLogLevelString (level : LogLevel) : string :=
  match level with
  | DEBUG => "DEBUG" | INFO => "INFO" | WARNING => "WARN" | ERROR => "ERROR" | FATAL => "FATAL"
  end.

Definition SetLogLevel (level : LogLevel) : M Logger () :=
  modify (λ g, g {{ log_level_ := level }}).
Definition SetConsoleOutput (enable : bool) : M Logger () :=
  modify (λ g, g {{ console_output_ := enable }}).

(** [opens]: whether the file can be opened for appending. *)
Definition SetLogFile (filename : string) (opens : bool) : M Logger () :=
  modify (λ g, g {{
    log_file_ := Some (filename, opens);
    files := if opens then <[filename := default "" (files g !! filename)]> (files g)
             else files g }}).

Definition newline : string := String "010" "".

Definition log_line (level : LogLevel) (now : Z) (message : string) : string :=
  "[" +:+ GetTimestamp now +:+ "] [" +:+ GetLogLevelString level +:+ "] " +:+ message.

Definition to_console (line : string) (g : Logger) : Logger :=
  if console_output_ g then g {{ console := console g +:+ line +:+ newline }} else g.
Definition to_file (line : string) (g : Logger) : Logger :=
  match log_file_ g with
  | Some (name, true) =>
    g {{ files := <[name := default "" (files g !! name) +:+ line +:+ newline]> (files g) }}
  | _ => g
  end.

Definition Log (level : LogLevel) (message : string) (now : Z) : M Logger () :=
  g ← get;
  if LogLevel_val level <? LogLevel_val (log_level_ g) then mret ()
  else
    let line := log_line level now message in
    modify (to_console line);; modify (to_file line).

(** [file.substr(file.find_last_of("/\\") + 1)]; no separator is [npos], and
    [npos + 1] is 0. *)
Definition separator (c : ascii) : bool := (c =? "/")%char || (c =? "\")%char.
Fixpoint find_last_of (s : string) : option nat :=
  match s with
  | EmptyString => None
  | String c s' =>
    match find_last_of s' with
    | Some i => Some (S i)
    | None => if separator c then Some 0%nat else None
    end
  end.
Fixpoint substr (pos : nat) (s : string) : string :=
  match pos, s with
  | S pos', String _ s' => substr pos' s'
  | _, _ => s
  end.
Definition filename (file : string) : string :=
  substr (match find_last_of file with Some i => S i | None => 0%nat end) file.

Definition full_message (file : string) (line : Z) (message : string) : string :=
  message +:+ " (" +:+ filename file +:+ ":" +:+ to_string line +:+ ")".

(** The overload of the macros; it tests the level and calls the other. *)
Definition Log_at (level : LogLevel) (file : string) (line : Z) (message : string) (now : Z)
    : M Logger () :=
  g ← get;
  if LogLevel_val level <? LogLevel_val (log_level_ g) then mret ()
  else Log level (full_message file line message) now.

(** What a program asks of its logger. *)
Inductive call :=
  | Level (level : LogLevel)
  | Console (enable : bool)
  | File (name : string) (opens : bool)
  | Message (level : LogLevel) (message : string) (now : Z)
  | Located (level : LogLevel) (file : string) (line : Z) (message : string) (now : Z).

Definition perform (c : call) : M Logger () :=
  match c with
  | Level level => SetLogLevel level
  | Console enable => SetConsoleOutput enable
  | File name opens => SetLogFile name opens
  | Message level message now => Log level message now
  | Located level file line message now => Log_at level file line message now
  end.

Fixpoint calls (l : list call) : M Logger () :=
  match l with
  | [] => mret ()
  | c :: l' => perform c;; calls l'
  end.

(** ** Reference: a log is a list of lines *)

(** The complete lines of a text, and what follows the last newline. *)
Fixpoint lines (s : string) : list string * string :=
  match s with
  | EmptyString => ([], "")
  | String c s' =>
    let '(ls, rest) := lines s' in
    if (c =? "010")%char then ("" :: ls, rest)
    else match ls with
         | [] => ([], String c rest)
         | l :: ls' => (String c l :: ls', rest)
         end
  end.

Fixpoint one_line (s : string) : Prop :=
  match s with
  | EmptyString => True
  | String c s' => c ≠ "010"%char ∧ one_line s'
  end.

(** What the calls so far have set, and the line a call writes. *)
Record setting := {
  threshold : LogLevel;
  shown : bool;
  open_file : option string;
}.

Definition set (c : call) (st : setting) : setting :=
  match c with
  | Level level => st {{ threshold := level }}
  | Console enable => st {{ shown := enable }}
  | File name opens => st {{ open_file := if opens then Some name else None }}
  | _ => st
  end.

Definition line_of (threshold : LogLevel) (c : call) : option string :=
  match c with
  | Message level message now =>
    if LogLevel_val threshold <=? LogLevel_val level then Some (log_line level now message) else None
  | Located level file line message now =>
    if LogLevel_val threshold <=? LogLevel_val level
    then Some (log_line level now (full_message file line message)) else None
  | _ => None
  end.

(** The lines the calls add to a sink, open where [sink] holds. *)
Fixpoint written (sink : setting → bool) (st : setting) (l : list call) : list string :=
  match l with
  | [] => []
  | c :: l' =>
    (if sink st then option_list (line_of (threshold st) c) else []) ++ written sink (set c st) l'
  end.

Definition initially : setting := {| threshold := INFO; shown := true; open_file := None |}.
Definition opened (name : string) (st : setting) : bool := bool_decide (open_file st = Some name).

(** The texts of a call hold no newline. *)
Definition call_ok (c : call) : Prop :=
  match c with
  | Message _ message _ => one_line message
  | Located _ file _ message _ => one_line message ∧ one_line file
  | _ => True
  end.

(** ** Lines *)

Lemma one_line_app s t : one_line s → one_line t → one_line (s +:+ t).
Proof. induction s as [|c s IH]; [done|]. intros [Hc Hs] Ht. split; [done|by apply IH]. Qed.

Lemma lines_cons c s :
  lines (String c s)
  = let '(ls, rest) := lines s in
    if (c =? "010")%char then ("" :: ls, rest)
    else match ls with
         | [] => ([], String c rest)
         | l :: ls' => (String c l :: ls', rest)
         end.
Proof. done. Qed.

Lemma lines_line s : one_line s → lines (s +:+ newline) = ([s], "").
Proof.
  induction s as [|c s IH]; [done|]. intros [Hc Hs].
  change (String c s +:+ newline) with (String c (s +:+ newline)).
  rewrite lines_cons, IH by done. by rewrite (proj2 (Ascii.eqb_neq _ _) Hc).
Qed.

Lemma lines_app s t ls : lines s = (ls, "") → lines (s +:+ t) = (ls ++ (lines t).1, (lines t).2).
Proof.
  revert ls. induction s as [|c s IH]; intros ls.
  - intros [= <-]. change ("" +:+ t) with t. by destruct (lines t).
  - change (String c s +:+ t) with (String c (s +:+ t)). rewrite !lines_cons.
    destruct (lines s) as [ls1 rest]. destruct (c =? "010")%char.
    + intros [= <- ->]. by rewrite (IH ls1).
    + destruct ls1 as [|l ls1]; [done|]. intros [= <- ->]. by rewrite (IH (l :: ls1)).
Qed.

Lemma lines_append s l ls :
  lines s = (ls, "") → one_line l → lines (s +:+ l +:+ newline) = (ls ++ [l], "").
Proof. intros Hs Hl. rewrite (lines_app _ _ _ Hs). by rewrite lines_line. Qed.

(** Numbers are written on one line. *)
Lemma one_line_pretty_go x s : one_line s → one_line (pretty_N_go x s).
Proof.
  revert s. induction (N.lt_wf_0 x) as [x _ IH]; intros s Hs.
  destruct (decide (0 < x)%N) as [Hx|Hx].
  - rewrite pretty_N_go_step by done. apply IH; [by apply N.div_lt|]. split; [|done].
    unfold pretty_N_char. by repeat case_match.
  - assert (x = 0)%N as -> by lia. by rewrite pretty_N_go_0.
Qed.

Lemma one_line_to_string n : one_line (to_string n).
Proof.
  unfold to_string, pretty, pretty_Z, pretty, pretty_positive, pretty, pretty_N.
  destruct n; cbn -[pretty_N_go]; [done| |split; [done|]];
    case_match; try done; by apply one_line_pretty_go.
Qed.

Lemma one_line_pad3 n : one_line (pad3 n).
Proof.
  unfold pad3. set (k := (3 - _)%nat). clearbody k. pose proof (one_line_to_string n) as Hn.
  induction k as [|k IH]; [done|]. cbn. by split.
Qed.

(** ** The file's name *)

Lemma one_line_substr n s : one_line s → one_line (substr n s).
Proof.
  revert s. induction n as [|n IH]; intros [|c s]; cbn; [done..|]. intros [_ Hs]. by apply IH.
Qed.

Fixpoint no_separator (s : string) : bool :=
  match s with EmptyString => true | String c s' => negb (separator c) && no_separator s' end.

(** [filename] is the path without its directory: what follows the last
    separator, or all of it. *)
Lemma filename_spec file :
  no_separator (filename file) = true ∧
  ∃ dir, file = dir +:+ filename file ∧
    (dir = "" ∨ ∃ d c, dir = d +:+ String c "" ∧ separator c = true).
Proof.
  assert (match find_last_of file with
          | Some i => no_separator (substr (S i) file) = true ∧
              ∃ d c, file = (d +:+ String c "") +:+ substr (S i) file ∧ separator c = true
          | None => no_separator file = true
          end) as H.
  { induction file as [|c s IH]; [done|]. cbn [find_last_of no_separator].
    destruct (find_last_of s) as [i|].
    - destruct IH as (Hn & d & c' & Hd & Hc). split; [exact Hn|].
      exists (String c d), c'. split; [|done].
      change (String c s = String c ((d +:+ String c' "") +:+ substr (S i) s)). by f_equal.
    - destruct (separator c) eqn:E.
      + split; [by destruct s|]. exists "", c. split; [|done]. by destruct s.
      + by rewrite IH. }
  unfold filename. destruct (find_last_of file) as [i|].
  - destruct H as (Hn & d & c & Hd & Hc). split; [done|]. eexists. split; [exact Hd|]. right. eauto.
  - split; [by destruct file|]. exists "". split; [by destruct file|by left].
Qed.

(** ** The log is its lines *)

(** The format of the timestamp holds no newline. *)
Hypothesis put_time_line : ∀ t, one_line (put_time t).

Lemma one_line_log_line level now message : one_line message → one_line (log_line level now message).
Proof.
  intros Hm. unfold log_line, GetTimestamp.
  repeat apply one_line_app; first [done | apply put_time_line | apply one_line_pad3 | by destruct level].
Qed.

Lemma one_line_full_message file line message :
  one_line message → one_line file → one_line (full_message file line message).
Proof.
  intros Hm Hf. unfold full_message, filename.
  repeat apply one_line_app; first [done | by apply one_line_substr | apply one_line_to_string].
Qed.

(** The logger has the settings [st], and the file [name] and the console the
    lines [fs] and [cs]. *)
Record logged (name : string) (g : Logger) (st : setting) (fs cs : list string) : Prop := {
  logged_level : log_level_ g = threshold st;
  logged_shown : console_output_ g = shown st;
  logged_open : match log_file_ g with Some (n, true) => Some n | _ => None end = open_file st;
  logged_file : lines (default "" (files g !! name)) = (fs, "");
  logged_console : lines (console g) = (cs, "");
}.

Lemma logged_to_console name g st fs cs l :
  logged name g st fs cs → one_line l →
  logged name (to_console l g) st fs (cs ++ if shown st then [l] else []).
Proof.
  intros [H1 H2 H3 H4 H5] Hl. unfold to_console. rewrite H2.
  destruct g. cbn in *. destruct (shown st) eqn:E; [|rewrite app_nil_r; split; cbn; congruence].
  split; cbn; try congruence. by apply lines_append.
Qed.

Lemma logged_to_file name g st fs cs l :
  logged name g st fs cs → one_line l →
  logged name (to_file l g) st (fs ++ if opened name st then [l] else []) cs.
Proof.
  intros [H1 H2 H3 H4 H5] Hl. unfold to_file, opened. rewrite <- H3.
  destruct g as [lvl con file cn fls]. cbn in *.
  destruct file as [[n []]|]; cbn;
    [|rewrite bool_decide_false by done; rewrite app_nil_r; by split..].
  destruct (decide (n = name)) as [->|Hn].
  - rewrite bool_decide_true by done. split; cbn; try done. rewrite lookup_insert_eq. cbn.
    by apply lines_append.
  - rewrite bool_decide_false by congruence. rewrite app_nil_r. split; cbn; try done.
    by rewrite lookup_insert_ne.
Qed.

Lemma logged_Log name g st fs cs level message now :
  logged name g st fs cs → one_line message →
  ∃ g', Log level message now g = Ok ((), g') ∧
    let line := option_list (line_of (threshold st) (Message level message now)) in
    logged name g' st (fs ++ if opened name st then line else []) (cs ++ if shown st then line else []).
Proof.
  intros Hg Hm. unfold Log, mbind, M_bind, get, modify, mret, M_ret, line_of.
  rewrite (logged_level _ _ _ _ _ Hg), Z.leb_antisym. destruct (_ <? _); cbn.
  - exists g. split; [done|]. repeat case_match; by rewrite !app_nil_r.
  - eexists. split; [done|]. pose proof (one_line_log_line level now message Hm).
    by apply logged_to_file; [apply logged_to_console|].
Qed.

Lemma logged_perform name g st fs cs c :
  logged name g st fs cs → call_ok c →
  ∃ g', perform c g = Ok ((), g') ∧
    let line := option_list (line_of (threshold st) c) in
    logged name g' (set c st) (fs ++ if opened name st then line else [])
      (cs ++ if shown st then line else []).
Proof.
  intros Hg Hc.
  assert (∀ b : bool, (if b then [] else []) = @nil string) as Hnil by (by intros []).
  destruct c as [level|enable|n opens|level message now|level file line message now]; cbn [perform].
  1-3: eexists; (split; [reflexivity|]); cbn; rewrite !Hnil, !app_nil_r;
    destruct Hg as [H1 H2 H3 H4 H5]; destruct g, st; cbn in *; split; cbn; try done.
  - destruct opens; [|done]. destruct (decide (n = name)) as [->|Hn];
      [by rewrite lookup_insert_eq|by rewrite lookup_insert_ne].
  - by apply logged_Log.
  - destruct Hc as [Hm Hf]. unfold Log_at, mbind, M_bind, get, mret, M_ret.
    destruct (logged_Log name g st fs cs level (full_message file line message) now Hg
      (one_line_full_message _ _ _ Hm Hf)) as (g' & Hrun & Hg').
    destruct (_ <? _) eqn:E; [|by eexists].
    unfold Log, mbind, M_bind, get, mret, M_ret in Hrun. rewrite E in Hrun. injection Hrun as <-. by eexists.
Qed.

Lemma logged_calls name l g st fs cs :
  logged name g st fs cs → Forall call_ok l →
  ∃ g' st', calls l g = Ok ((), g') ∧
    logged name g' st' (fs ++ written (opened name) st l) (cs ++ written shown st l).
Proof.
  intros Hg Hl. revert g st fs cs Hg. induction Hl as [|c l Hc _ IH]; intros g st fs cs Hg; cbn.
  - exists g, st. rewrite !app_nil_r. by split.
  - destruct (logged_perform _ _ _ _ _ _ Hg Hc) as (g1 & Hrun & Hg1).
    destruct (IH _ _ _ _ Hg1) as (g' & st' & Hrun' & Hg'). exists g', st'.
    rewrite (M_bind_Ok _ _ _ _ _ Hrun). rewrite !app_assoc. by split.
Qed.

(** ** Properties *)

(** The log. Whatever is asked of the logger, in whatever order, with
    texts of one line, it never fails, and every file that started with whole
    lines, and the console, hold afterwards exactly their old lines and then
    one line per message not below the level of its time, written while the
    file was open, or the console on; in order, none lost, split or repeated,
    each with its timestamp, level, text and, from the macros, the source file
    without its directory and the line. *)
Theorem log_is_its_messages name disk l ls :
  Forall call_ok l → lines (default "" (disk !! name)) = (ls, "") →
  ∃ g, calls l (Logger_init disk) = Ok ((), g) ∧
    lines (default "" (files g !! name)) = (ls ++ written (opened name) initially l, "") ∧
    lines (console g) = (written shown initially l, "").
Proof.
  intros Hl Hd.
  destruct (logged_calls name l (Logger_init disk) initially ls []) as (g & st & Hrun & Hg); [by split|done|].
  exists g. split; [done|]. by destruct Hg.
Qed.
End Logger.

(** ** Witnesses *)

Definition sample_time (t : Z) : string := "12:00".

Definition sample_calls : list call :=
  [Located DEBUG "/src/a.cpp" 1 "hidden" 0; File "log" true; Level DEBUG;
   Located ERROR "/src/a.cpp" 7 "broken" 5; Console false; Message INFO "quiet" 1234].

Lemma log_is_its_messages_witness :
  ∃ g, calls sample_time sample_calls (Logger_init {["log" := "old" +:+ newline]}) = Ok ((), g) ∧
    lines (default "" (files g !! "log"))
    = (["old"; "[12:00.005] [ERROR] broken (a.cpp:7)"; "[12:00.234] [INFO] quiet"], "") ∧
    lines (console g) = (["[12:00.005] [ERROR] broken (a.cpp:7)"], "").
Proof.
  destruct (log_is_its_messages sample_time) with (name := "log") (disk := {["log" := "old" +:+ newline]} : gmap string string)
    (l := sample_calls) (ls := ["old"]) as (g & Hrun & Hf & Hc).
  - intros t. cbn. repeat split; done.
  - repeat (apply List.Forall_cons; [cbn; repeat split; congruence|]). apply List.Forall_nil.
  - vm_compute. reflexivity.
  - exists g. split; [exact Hrun|]. rewrite Hf, Hc. vm_compute. split; reflexivity.
Defined.
