(* ===== verification/Signals.v ===== *)
(** * Signals: the programs' signal handlers

    [SignalHandler] of [sender/main.cpp] and of [receiver/main.cpp] logs a line
    and stops the program, on whichever thread the signal interrupts.  The
    logger's [mutex_] is not recursive: [Log] is cut here where a signal can
    come in while its thread holds it.  The lines that [Stop] logs itself are
    left out, as they are in [Sender.v] and [Receiver.v]. *)

From S2P Require Import Prelude Memory UsbTypes UsbDeviceManager MassStorage UrbCapture TcpSocket Logger UsbipManager Receiver Sender.
From stdpp Require Import gmap.
Open Scope Z_scope.

(** ** The handlers *)

Section Signals.
Variable put_time : Z → string.

(** [Log] on a thread that holds [mutex_] or does not. *)
Definition Log_holding (holds : bool) (level : LogLevel) (message : string) (now : Z) : M Logger () :=
  g ← get;
  if LogLevel_val level <? LogLevel_val (log_level_ g) then mret ()
  else if holds then fail SelfDeadlock
  else Log put_time level message now.

(** The macro [LOG_INFO]. *)
Definition LOG_INFO (holds : bool) (file : string) (line : Z) (message : string) (now : Z) : M Logger () :=
  g ← get;
  if LogLevel_val INFO <? LogLevel_val (log_level_ g) then mret ()
  else Log_holding holds INFO (full_message file line message) now.

(** The logger and the program, which is null outside its lifetime. *)
Record process (P : Type) := { logger : Logger; global : option P }.
#[global] Arguments logger {P} _.
#[global] Arguments global {P} _.

Definition on_logger {P A} (m : M Logger A) : M (process P) A := λ p,
  match m (logger p) with
  | Ok (a, g) => Ok (a, p {{ logger := g }})
  | Fault e => Fault e
  end.

(** The handler of a program; false while its [Stop] is joining a thread. *)
Definition SignalHandler {P} (file : string) (line : Z) (stop : M P bool)
    (holds : bool) (signal now : Z) : M (process P) bool :=
  on_logger (LOG_INFO holds file line
    ("Received signal " +:+ to_string signal +:+ ", shutting down...") now);;
  p ← get;
  match global p with
  | None => mret true
  | Some g =>
    r ← lift (stop g);
    modify (λ p, p {{ global := Some r.2 }});; mret r.1
  end.

(** [Log] on a thread that a signal interrupts after [when] of the statements
    between the lock and its release, or after the call when there are not as
    many. *)
Definition Log_interrupted {P} (handler : bool → M (process P) bool) (when : nat)
    (level : LogLevel) (message : string) (now : Z) : M (process P) bool :=
  p ← get;
  if LogLevel_val level <? LogLevel_val (log_level_ (logger p)) then handler false
  else
    let line := log_line put_time level now message in
    match when with
    | O => handler true
    | 1%nat => on_logger (modify (to_console line));; handler true
    | 2%nat => on_logger (modify (to_console line));; on_logger (modify (to_file line));; handler true
    | _ => on_logger (Log put_time level message now);; handler false
    end.
End Signals.

(** The sender's handler; the arguments are those of [Stop]. *)
Definition sender_SignalHandler {L} `{Libusb L} (put_time : Z → string)
    (capture : list UrbCapture.action) (server : list TcpSocket.action)
    : bool → Z → Z → M (process (UsbSender L)) bool :=
  SignalHandler put_time "main.cpp" 311 (Sender.Stop capture server).

Definition receiver_SignalHandler {h : Host} (put_time : Z → string) (std_system : list string → string → Z)
    (close : M UsbipClient.UsbipClient bool) : bool → Z → Z → M (process UsbReceiver) bool :=
  SignalHandler put_time "main.cpp" 271 (Receiver.Stop std_system close).

(** ** Properties *)

Section Properties.
Variable put_time : Z → string.

Lemma LOG_INFO_holding file line message now g :
  LogLevel_val (log_level_ g) <= LogLevel_val INFO →
  LOG_INFO put_time true file line message now g = Fault SelfDeadlock.
Proof.
  intros Hl%Z.ltb_ge. unfold LOG_INFO, Log_holding, get, mbind, M_bind. by rewrite !Hl.
Qed.

Lemma log_level_written line g : log_level_ (to_console line g) = log_level_ g ∧ log_level_ (to_file line g) = log_level_ g.
Proof. unfold to_console, to_file. split; repeat case_match; done. Qed.

(** A handler that finds its own thread inside the logger never gets to its
    [Stop]: the lines are logged at a level that the handler logs at too. *)
Theorem signal_inside_log {P} file line (stop : M P bool) signal now when level message now' p :
  LogLevel_val (log_level_ (logger p)) <= LogLevel_val INFO →
  LogLevel_val (log_level_ (logger p)) <= LogLevel_val level → (when ≤ 2)%nat →
  Log_interrupted put_time (λ holds, SignalHandler put_time file line stop holds signal now)
    when level message now' p = Fault SelfDeadlock.
Proof.
  intros Hinfo Hlevel%Z.ltb_ge Hwhen. unfold Log_interrupted, get at 1, mbind at 1, M_bind at 1. rewrite Hlevel.
  assert (∀ g, LogLevel_val (log_level_ g) <= LogLevel_val INFO →
    SignalHandler put_time file line stop true signal now (p {{ logger := g }}) = Fault SelfDeadlock) as Hh.
  { intros g Hg. unfold SignalHandler, on_logger, mbind, M_bind. cbn [logger]. by rewrite LOG_INFO_holding. }
  destruct p as [g global]. cbn [logger] in *. set (l := log_line _ _ _ _).
  destruct (log_level_written l g) as [E1 _]. destruct (log_level_written l (to_console l g)) as [_ E2].
  destruct when as [|[|[|?]]]; [| | |lia]; unfold on_logger, modify, mbind, M_bind; cbn -[SignalHandler LogLevel_val].
  - by apply Hh.
  - apply (Hh (to_console l g)). by rewrite E1.
  - apply (Hh (to_file l (to_console l g))). by rewrite E2, E1.
Qed.

(** Outside the logger the handler logs one line and stops the program that
    runs; one that does not, as on a second signal during [Stop], is left as
    it is. *)
Theorem signal_outside_log {h : Host} std_system close signal now g r b p' :
  receiver_SignalHandler put_time std_system close false signal now
    {| logger := g; global := Some r |} = Ok (b, p') →
  Log_at put_time INFO "main.cpp" 271 ("Received signal " +:+ to_string signal +:+ ", shutting down...") now g
    = Ok ((), logger p') ∧
  ∃ r', global p' = Some r' ∧ Receiver.Stop std_system close r = Ok (b, r') ∧
    (Receiver.running_ r = false → b = true ∧ r' = r).
Proof.
  unfold receiver_SignalHandler, SignalHandler, on_logger, LOG_INFO, Log_holding, Log_at, Log.
  set (full := full_message _ _ _). unfold get, modify, lift, mbind, M_bind, mret, M_ret. cbn.
  assert (Receiver.running_ r = false → Receiver.Stop std_system close r = Ok (true, r)) as Hstop.
  { intros E. unfold Receiver.Stop, get, mbind, M_bind. by rewrite E. }
  destruct (1 <? LogLevel_val (log_level_ g)) eqn:E; cbn; rewrite ?E; cbn;
    (destruct (Receiver.Stop std_system close r) as [[b' r']|] eqn:Es; [|done]); intros [= <- <-];
    (split; [done|]); exists r'; (split_and!; [done..|]); intros Hr;
    injection (Hstop Hr) as -> ->; done.
Qed.
End Properties.

(** ** Witnesses *)

Lemma signal_inside_log_witness :
  Log_interrupted (λ _, "t") (λ holds, SignalHandler (λ _, "t") "main.cpp" 311 (mret true : M nat bool) holds 2 0)
    1 INFO "Client connected" 0 {| logger := Logger_init ∅; global := Some 0%nat |} = Fault SelfDeadlock.
Proof. apply signal_inside_log; vm_compute; [congruence..|lia]. Defined.

Lemma signal_outside_log_witness :
  ∃ b p', receiver_SignalHandler (h := LittleEndian) (λ _, "t") (λ _ _, 0) (mret true) false 2 0
      {| logger := Logger_init ∅; global := Some (sample_receiver {{ Receiver.running_ := true }}) |} = Ok (b, p') ∧
    Log_at (λ _, "t") INFO "main.cpp" 271 "Received signal 2, shutting down..." 0 (Logger_init ∅) = Ok ((), logger p').
Proof.
  assert (∀ P Q : Prop, P → (P → Q) → P ∧ Q) as Hand by (intros P Q HP H; exact (conj HP (H HP))).
  do 2 eexists. eapply Hand; [vm_compute; reflexivity|]. intros Hrun.
  exact (proj1 (signal_outside_log _ _ _ _ _ _ _ _ _ Hrun)).
Defined.
