(* ===== verification/SenderNetwork.v ===== *)
(** * SenderNetwork: what the sender puts on the network

    The sender's socket ([common/network/tcp_socket.cpp]) under everything
    that can happen to the sender ([sender/main.cpp], the events of
    [SenderMain.v]): whether its answers and the URBs it captures leave the
    machine, and what becomes of the bytes of several clients. *)

From S2P Require Import Prelude Memory UsbTypes UsbipProtocol MessageHandler TcpSocket Channel UsbDeviceManager MassStorage UrbCapture UrbProcessor Sender Pipeline SenderMain.
From stdpp Require Import gmap.
Open Scope Z_scope.

(** ** The socket *)

(** An unconnected socket stays so, and nothing is sent on it. *)
Definition mute (s s' : TcpSocket) : Prop :=
  is_connected_ s = false →
  is_connected_ s' = false ∧ sent_bytes (TcpSocket.events s') = sent_bytes (TcpSocket.events s).
#[export] Instance mute_preorder : PreOrder mute.
Proof.
  split; [by intros s H|]. intros s1 s2 s3 H1 H2 H. destruct (H1 H) as [Hc1 <-]. auto.
Qed.

Lemma mute_Send data answers : respects mute (Send data answers).
Proof.
  intros s a s' Hrun Hc. unfold Send, mbind at 1, M_bind, get in Hrun. rewrite Hc in Hrun.
  by injection Hrun as <- <-.
Qed.

Lemma sent_bytes_closes fds : sent_bytes (map EvClose fds) = [].
Proof. by induction fds. Qed.

Lemma action_mute a : (∀ host os, a ≠ DoConnect host os) → changes mute a.
Proof.
  intros Ha. destruct a;
    try (action; intros Hc; cbn in *; rewrite ?Hc, ?sent_bytes_app; cbn; rewrite ?app_nil_r; by split).
  - by destruct (Ha host os).
  - unfold changes. cbn [TcpSocket.perform]. respects. apply mute_Send.
  - action; intros Hc; cbn in *; rewrite ?sent_bytes_app, ?sent_bytes_closes; cbn;
      rewrite ?app_nil_r; by split.
Qed.

(** The actions of the socket's threads: none connects. *)
Definition server_threads (l : list TcpSocket.action) : Prop := Forall thread_action l.

Section Sender.
Context {h : Host} {L : Type} `{Libusb L}.
Implicit Types (s : UsbSender L).

Lemma mute_server_actions l : server_threads l → respects mute (server_actions l).
Proof.
  induction 1 as [|a l Ha _ IH]; cbn [server_actions]; respects; [|done].
  apply action_mute. intros host os ->. done.
Qed.

(** ** The sender *)

Definition mute_sender s s' : Prop := mute (tcp_server_ s) (tcp_server_ s').
#[export] Instance mute_sender_preorder : PreOrder mute_sender.
Proof. split; [by intros s|]. intros s1 s2 s3 H1 H2. unfold mute_sender in *. by etrans. Qed.

Lemma mute_same s s' : tcp_server_ s' = tcp_server_ s → mute_sender s s'.
Proof. unfold mute_sender. by intros ->. Qed.

Lemma mute_on_server {A} (m : M TcpSocket A) : respects mute m → respects mute_sender (on_server m).
Proof.
  intros Hm s a s'. unfold on_server. destruct (m _) as [[b t]|] eqn:E; [|done].
  intros [= <- <-]. by eapply Hm.
Qed.
Lemma mute_on_manager {A} (m : M UsbDeviceManager A) : respects mute_sender (on_manager m).
Proof.
  intros s a s'. unfold on_manager. destruct (m _) as [[b t]|]; [|done]. intros [= <- <-].
  by apply mute_same.
Qed.
Lemma mute_on_capture {A} (m : M UrbCapture A) : respects mute_sender (on_capture m).
Proof.
  intros s a s'. unfold on_capture. destruct (m _) as [[b t]|]; [|done]. intros [= <- <-].
  by apply mute_same.
Qed.

Lemma mute_send message answers : respects mute_sender (send message answers).
Proof. unfold send. respects. apply mute_on_server, mute_Send. Qed.

(** What leaves the drivers as they are and never touches the socket. *)
Lemma mute_counted (m : M Z NetworkMessage) : respects mute_sender (counted m).
Proof.
  intros s a s'. unfold counted. destruct (m _) as [[b t]|]; [|done]. intros [= <- <-].
  by apply mute_same.
Qed.
Lemma mute_drivers_at ids : respects mute_sender (drivers_at ids).
Proof.
  induction ids as [|id ids IH]; cbn [drivers_at]; respects; [|done].
  intros s a s'. unfold driver_at. destruct (drivers s !! id); [|done]. by intros [= <- <-].
Qed.
Lemma mute_add_driver csw_memory capacity_memory usb :
  respects mute_sender (add_driver csw_memory capacity_memory usb).
Proof.
  intros s a s'. unfold add_driver. destruct (MassStorage.Initialize _ _ _) as [[[] d]|]; [| |done].
  - destruct (AddDevice _ _) as [u [c hp]]. intros [= <- <-]. by apply mute_same.
  - by intros [= <- <-].
Qed.

Lemma mute_OnNetworkMessage answers message : respects mute_sender (OnNetworkMessage answers message).
Proof.
  unfold OnNetworkMessage, HandleDeviceListRequest, HandleDeviceImportRequest, HandleHeartbeat,
    device_list_response, import_response.
  destruct (MessageType_cast (type (header message))) as [[]|]; respects;
    first [apply mute_drivers_at | apply mute_counted | apply mute_send].
Qed.

Lemma mute_OnNetworkData answers data : respects mute_sender (OnNetworkData answers data).
Proof.
  intros s a s'. unfold OnNetworkData. destruct (ProcessReceivedData _ _) as [[ms mh]|]; [|done].
  assert (respects mute_sender (on_messages answers ms)) as Hms.
  { induction ms as [|m ms IH]; cbn [on_messages]; respects; [apply mute_OnNetworkMessage|done]. }
  intros Hrun. exact (Hms _ _ _ Hrun).
Qed.

Lemma mute_OnUrbCaptured urb answers : respects mute_sender (OnUrbCaptured urb answers).
Proof.
  unfold OnUrbCaptured. respects; [|apply mute_send].
  intros s a s'. unfold captured_message. destruct (CreateUsbipSubmit _ _) as [[m [p seq]]|]; [|done].
  intros [= <- <-]. by apply mute_same.
Qed.

Ltac mute := respects;
  first [ apply mute_on_manager | apply mute_on_capture | apply mute_add_driver
        | apply mute_on_server | by apply mute_same | idtac ].

Lemma mute_Listen addr os : respects mute (Listen addr os).
Proof.
  intros t b t' Hrun. apply (action_mute (DoListen addr os)) with (a := ()); [done|].
  cbn [TcpSocket.perform]. by rewrite (M_bind_Ok _ _ _ _ _ Hrun).
Qed.

Lemma mute_Start os csw_memory capacity_memory devices supported ret handle :
  respects mute_sender (Start os csw_memory capacity_memory devices supported ret handle).
Proof.
  unfold Start. mute.
  - apply mute_Listen.
  - induction devices as [|usb devices IH]; cbn [ScanMassStorageDevices]; mute. exact IH.
  - unfold start_capture. mute.
Qed.

Lemma mute_Stop capture server :
  server_threads server → respects mute_sender (Stop capture server).
Proof.
  intros Hs. unfold Stop, stop_capture, close_server. mute.
  - respects; [by apply (action_mute DoCloseBegin)|by apply mute_server_actions].
  - by apply (action_mute DoCloseEnd).
Qed.

(** The events in which the socket's threads only are what they are. *)
Definition threads_only (e : sender_event (L := L)) : Prop :=
  match e with Stops _ server | ServerActs server => server_threads server | _ => True end.

Lemma mute_events l : Forall threads_only l → respects mute_sender (sender_events l).
Proof.
  induction 1 as [|e l He _ IH]; cbn [sender_events]; respects; [|done].
  destruct e; cbn [sender_perform].
  - unfold Initialize, SetupNetworkCallbacks. mute. by intros Hc.
  - mute. apply mute_Start.
  - mute. by apply mute_Stop.
  - apply mute_OnNetworkData.
  - apply mute_OnUrbCaptured.
  - unfold OnDeviceHotplug. mute.
  - mute.
  - mute. by apply mute_server_actions.
Qed.

(** ** Clients *)

(** A client's thread gets data and hands it to the message handler, whose
    mutex makes this one step. *)
Definition client_data (answers : list send_answer) (client : nat) (data : list Z) : M (UsbSender L) () :=
  on_server (TcpSocket.perform (ClientAnswer client (Received data)));;
  OnNetworkData answers data.

Lemma mute_client_data answers client data : respects mute_sender (client_data answers client data).
Proof.
  unfold client_data. respects; [|apply mute_OnNetworkData]. by apply mute_on_server, action_mute.
Qed.

(** A client's thread waits in [recv]. *)
Definition waits (s : UsbSender L) (client : nat) : Prop :=
  ∃ fd, client_threads (tcp_server_ s) !! client = Some (fd, InCall).

Lemma client_data_run answers client data s :
  waits s client → ∃ t,
    (∀ j, j ≠ client → waits s j → waits (s {{ tcp_server_ := t }}) j) ∧
    client_data answers client data s = OnNetworkData answers data (s {{ tcp_server_ := t }}).
Proof.
  intros [fd Hw]. destruct s as [run port mg cap mh t list hp next seq]. cbn in Hw.
  unfold client_data, on_server, mbind, M_bind. cbn.
  unfold client_answer, NotifyData, set_client, client_at, emit, modify, get, mbind, M_bind, mret, M_ret.
  destruct t as [sfd conn lis stop rx ax cfds cth dcb ecb ccb evs]. cbn in Hw.
  destruct dcb; cbn; rewrite Hw; cbn; (eexists; split; [|reflexivity]);
    intros j Hj [fdj Hwj]; exists fdj; cbn in *; by rewrite list_lookup_insert_ne.
Qed.

(** ** Properties *)

(** C14: The sender never answers. Whatever happens to a sender, whoever
    connects and whatever they send, it hands no byte to the network: not an
    answer to a request, not a captured URB. Every send on its socket is
    refused and changes nothing, because the socket that listens is never a
    connected one. *)
Theorem sender_never_answers l seq s :
  sender_events l (UsbSender_new seq) = Ok ((), s) → Forall threads_only l →
  sent_bytes (TcpSocket.events (tcp_server_ s)) = [] ∧
  ∀ message answers w, SerializeMessage message = Ok w →
    send message answers s = Ok (false, s).
Proof.
  intros Hrun Hl. destruct (mute_events l Hl _ _ _ Hrun) as [Hc Hsent]; [done|].
  split; [exact Hsent|]. intros message answers w Hw.
  unfold send, mbind, M_bind, lift. rewrite Hw. unfold on_server, Send, mbind, M_bind, get.
  rewrite Hc. by destruct s.
Qed.

(** C17: Clients share one buffer. When one client's message [m] arrives in two
    pieces, cut after its header, and another client's message comes in
    between, shorter than what is missing of [m], neither is handled as it
    was sent: the second is swallowed; when the rest arrives, the bytes of the
    two are taken together, [m] is handled only if the wrong payload has the
    right checksum, and what is then left over is read as a message's start.
    Pieces that are whole messages are all handled, in the order they arrive,
    whoever they are from. *)
Theorem clients_share_buffer answers s i j m other p q :
  waits s i → waits s j → i ≠ j → message_handler_ s = Build_MessageHandler [] true →
  packet_ok m → p ++ q = packet_bytes m → (20 ≤ length p)%nat →
  sealed other → (length (packet_bytes other) < length q)%nat →
  (∃ s1, (client_data answers i p;; client_data answers j (packet_bytes other)) s = Ok ((), s1) ∧
     message_handler_ s1 = Build_MessageHandler (p ++ packet_bytes other) true ∧
     ∀ ms mh, ProcessReceivedData (drop (length q) (packet_bytes other ++ q)) (Build_MessageHandler [] true) = Ok (ms, mh) →
       let wrong := completed m p (take (length q) (packet_bytes other ++ q)) in
       OnNetworkData answers q s1
       = on_messages answers ((if checksum_ok wrong then [wrong] else []) ++ ms) (s1 {{ message_handler_ := mh }})) ∧
  ∀ ms, Forall sealed ms →
    OnNetworkData answers (concat (map packet_bytes ms)) s = on_messages answers ms s.
Proof.
  intros Hi Hj Hne Hs Hm Hpq Hp [Ho Hsum] Hl.
  assert (bytes_ok (packet_bytes other ++ q)) as Hb.
  { apply bytes_ok_app. split; [by apply packet_bytes_ok|]. apply packet_bytes_ok in Hm.
    rewrite <- Hpq in Hm. by apply bytes_ok_app in Hm as [_ ?]. }
  split.
  - destruct (client_data_run answers i p s Hi) as (t1 & Hwait & E1).
    assert (q ≠ []) as Hq by (intros ->; cbn in Hl; lia).
    unfold mbind, M_bind. rewrite E1. unfold OnNetworkData at 1.
    change (message_handler_ (s {{ tcp_server_ := t1 }})) with (message_handler_ s). rewrite Hs.
    assert (ProcessReceivedData p (Build_MessageHandler [] true) = Ok ([], Build_MessageHandler p true)) as ->.
    { apply (ProcessReceivedData_drain p (Build_MessageHandler [] true)), drain_break.
      exact (process_iteration_partial true m p q Hm Hpq Hq). }
    cbn [on_messages]. unfold mret at 1, M_ret at 1.
    destruct (client_data_run answers j (packet_bytes other)
      (s {{ tcp_server_ := t1; message_handler_ := Build_MessageHandler p true }})) as (t2 & _ & E2);
      [by apply Hwait|]. rewrite E2. unfold OnNetworkData at 1. cbn [message_handler_].
    rewrite (stale_partial m p q true (packet_bytes other)) by eauto using packet_bytes_ok.
    eexists. split; [reflexivity|]. split; [done|]. intros ms mh Hrest. unfold OnNetworkData.
    match goal with |- context [ProcessReceivedData q ?x] =>
      change x with (Build_MessageHandler (p ++ packet_bytes other) true) end.
    rewrite ProcessReceivedData_buffer, <- (take_drop (length q) (packet_bytes other ++ q)).
    rewrite (stale_complete m p q true _ _ ms mh) ;
      [|done..|rewrite length_take, length_app; lia|by apply Forall_take|done].
    rewrite take_drop. unfold deliveries. rewrite filter_cons, filter_nil.
    destruct (checksum_ok (completed _ _ _)); reflexivity.
  - intros ms Hms. unfold OnNetworkData. rewrite Hs, whole_messages by done. by destruct s; cbn in Hs; subst.
Qed.
End Sender.

(** ** Witness *)

(** The program starts, a client connects and asks for the devices. *)
Definition list_request : NetworkMessage := new_message DEVICE_LIST_REQUEST [] 1.
Definition request_bytes : list Z :=
  match SerializeMessage (h := LittleEndian) list_request with Ok w => w | Fault _ => [] end.
Definition client_events : list (sender_event (L := ())) :=
  [Initializes 0; Starts os_ok (replicate 13 0) 0 [] true 0 1;
   ServerActs [AcceptTest; AcceptAnswer (Accepted 6); ClientTest 0;
               ClientAnswer 0 (Received request_bytes)];
   Receives [Sent 20] request_bytes].
Definition asked_sender : UsbSender () :=
  match sender_events (h := LittleEndian) client_events (UsbSender_new 1) with
  | Ok (_, s) => s | Fault _ => UsbSender_new 1 end.

Lemma asked_sender_run :
  sender_events (h := LittleEndian) client_events (UsbSender_new 1) = Ok ((), asked_sender).
Proof. vm_compute. reflexivity. Qed.

Lemma sender_never_answers_witness :
  TcpSocket.events (tcp_server_ asked_sender) = [EvData request_bytes] ∧
  sent_bytes (TcpSocket.events (tcp_server_ asked_sender)) = [] ∧ messages asked_sender = 2.
Proof.
  destruct (sender_never_answers (h := LittleEndian) client_events 1 asked_sender asked_sender_run)
    as [H _].
  - repeat (apply List.Forall_cons; [try exact I|]); [|apply List.Forall_nil].
    repeat (apply List.Forall_cons; [exact I|]). apply List.Forall_nil.
  - split; [vm_compute; reflexivity|]. split; [exact H|vm_compute; reflexivity].
Defined.

(** Two clients are connected. The first sends the header of an import request
    and a byte of its 40, the second a heartbeat. *)
Definition two_clients : UsbSender () :=
  match sender_events (h := LittleEndian)
    [Initializes 0; Starts os_ok (replicate 13 0) 0 [] true 0 1;
     ServerActs [AcceptTest; AcceptAnswer (Accepted 6); ClientTest 0; AcceptTest; AcceptAnswer (Accepted 7);
                 ClientTest 1]] (UsbSender_new (L := ()) 1) with
  | Ok (_, s) => s | Fault _ => UsbSender_new 1 end.
Definition cut_message : NetworkMessage :=
  with_checksum (new_message DEVICE_IMPORT_REQUEST (replicate 40 49) 1).

Lemma clients_share_buffer_witness :
  ∃ s1, (client_data (h := LittleEndian) [] 0 (take 21 (packet_bytes cut_message));;
         client_data (h := LittleEndian) [] 1 (packet_bytes sample_heartbeat)) two_clients = Ok ((), s1) ∧
    message_handler_ s1
      = Build_MessageHandler (take 21 (packet_bytes cut_message) ++ packet_bytes sample_heartbeat) true.
Proof.
  destruct (clients_share_buffer (h := LittleEndian) [] two_clients 0 1 cut_message sample_heartbeat
    (take 21 (packet_bytes cut_message)) (drop 21 (packet_bytes cut_message))) as [(s1 & Hrun & Hs1 & _) _].
  - exists 6. vm_compute. reflexivity.
  - exists 7. vm_compute. reflexivity.
  - done.
  - vm_compute. reflexivity.
  - apply packet_ok_with_checksum, new_message_ok; [by vm_compute|by apply bytes_ok_compute|by vm_compute].
  - apply take_drop.
  - vm_compute. lia.
  - split; [exact sample_heartbeat_ok|reflexivity].
  - vm_compute. lia.
  - by exists s1.
Defined.
