(* ===== verification/Lifetimes.v ===== *)
(** * Lifetimes: how objects and connections end

    The destructors of [common/network/tcp_socket.cpp],
    [receiver/usbip/usbip_client.cpp], [sender/capture/urb_capture.cpp],
    [sender/usb/] and [sender/main.cpp].  A destructor runs its body and then
    destroys the members, the last declared first; destroying a joinable
    [std::thread] is [std::terminate], and a thread that touches a destroyed
    object is [OutOfBounds].  And what the end of a connection leaves in the
    client, and what that of a client's thread does to the server, for the next
    one. *)

From S2P Require Import Prelude Memory UsbTypes UsbipProtocol MessageHandler TcpSocket UsbDeviceManager MassStorage UrbCapture UsbipClient Sender Pipeline ClientInvariant SenderMain.
From stdpp Require Import gmap.
Open Scope Z_scope.

(** ** Sockets *)

(** [~TcpSocket]: [Close], with the actions the threads take while it joins;
    false while it is joining. *)
Definition TcpSocket_destructor (l : list TcpSocket.action) : M TcpSocket bool :=
  Close_begin;;
  server_actions l;;
  s ← get;
  if TcpSocket.enabled s DoCloseEnd then Close_end;; mret true else mret false.

(** A socket, or what was one; the client threads run on. *)
Inductive socket_object :=
  | Living (s : TcpSocket)
  | Dead (s : TcpSocket).

(** A thread's action.  Every step of [HandleClient] uses the socket: its
    flag before a call of [recv], a callback or the mutex after it. *)
Definition on_object (a : TcpSocket.action) (o : socket_object) : res socket_object :=
  match o with
  | Living s =>
    match TcpSocket.perform a s with Ok (_, s') => Ok (Living s') | Fault e => Fault e end
  | Dead s => Fault OutOfBounds
  end.

(** [None] while the destructor is joining. *)
Definition destroy (l : list TcpSocket.action) (s : TcpSocket) : res (option socket_object) :=
  match TcpSocket_destructor l s with
  | Ok (ended, s') => Ok (if ended : bool then Some (Dead s') else None)
  | Fault e => Fault e
  end.

(** The threads left, with their next actions. *)
Definition running (s : TcpSocket) (i : nat) : Prop :=
  ∃ t, client_threads s !! i = Some t ∧ t.2 ≠ Done.

(** ** The receiver's client *)

Section Client.
Context {h : Host}.

(** The callbacks of a socket whose client is being destroyed: the message
    handler is gone, the flags are atomics, which need no destructor. *)
Definition on_last_event (e : event) : M UsbipClient () :=
  match e with EvData _ => fail OutOfBounds | _ => on_event e end.

(** [~TcpSocket] of the member [tcp_client_]. *)
Fixpoint last_actions (l : list TcpSocket.action) : M UsbipClient () :=
  match l with
  | [] => mret ()
  | a :: l' =>
    c ← get;
    (if TcpSocket.enabled (tcp_client_ c) a
     then on_socket_with on_last_event (TcpSocket.perform a) else mret ());;
    last_actions l'
  end.
Definition close_member (l : list TcpSocket.action) : M UsbipClient bool :=
  on_socket_with on_last_event Close_begin;;
  last_actions l;;
  c ← get;
  if TcpSocket.enabled (tcp_client_ c) DoCloseEnd
  then on_socket_with on_last_event Close_end;; mret true else mret false.

(** [~UsbipClient]: [Disconnect], then the members: the heartbeat thread, the
    callbacks, the handler, the socket. *)
Definition UsbipClient_destructor (close : M UsbipClient bool) (l : list TcpSocket.action)
    : M UsbipClient bool :=
  disconnected ← UsbipClient.Disconnect close;
  if negb disconnected then mret false
  else
    c ← get;
    if heartbeat_thread_ c then fail StdTerminate else close_member l.
End Client.

(** ** The sender's devices *)

Section Sender.
Context {h : Host} {L : Type} `{Libusb L}.
Implicit Types (s : UsbSender L).

(** [~MassStorageDevice], with [~UsbDevice] of its device, whose last owner it
    is: [Close], whether [Initialize] has succeeded or not. *)
Definition UsbDevice_destructor : M (SenderUsbDevice L) () := UsbDeviceManager.Close.
Definition MassStorageDevice_destructor : M (MassStorageDevice (SenderUsbDevice L)) () :=
  MassStorage.Cleanup;; on_device UsbDevice_destructor.

Fixpoint destroy_drivers (ids : list nat) (hp : gmap nat (MassStorageDevice (SenderUsbDevice L)))
    : res (gmap nat (MassStorageDevice (SenderUsbDevice L))) :=
  match ids with
  | [] => Ok hp
  | id :: ids' =>
    match hp !! id with
    | Some d =>
      match MassStorageDevice_destructor d with
      | Ok (_, d') => destroy_drivers ids' (<[id := d']> hp)
      | Fault e => Fault e
      end
    | None => Fault OutOfBounds
    end
  end.

(** [~UsbSender]: [Stop]; then the members: the list of drivers, which shares
    its drivers with the capture; the socket; the capture, whose destructor
    stops it, with the drivers it holds; the manager.  False while a join
    waits. *)
Definition UsbSender_destructor (capture : list UrbCapture.action)
    (server member : list TcpSocket.action) : M (UsbSender L) bool :=
  stopped ← Sender.Stop capture server;
  if negb stopped then mret false
  else
    closed ← on_server (TcpSocket_destructor member);
    if negb closed then mret false
    else
      captured ← stop_capture capture;
      if negb captured then mret false
      else
        s ← get;
        (if processing_thread_ (urb_capture_ s) is Some _ then fail StdTerminate else mret ());;
        hp ← lift (destroy_drivers (UrbCapture.devices_ (urb_capture_ s)) (drivers s));
        modify (λ s, s {{ drivers := hp }});;
        on_manager UsbDeviceManager.Cleanup;;
        mret true.
End Sender.

(** ** What the actions of a closing socket leave alone *)

Lemma respects_server_actions (R : TcpSocket → TcpSocket → Prop) `{!PreOrder R} l :
  (∀ a, a ∈ l → changes R a) → respects R (server_actions l).
Proof.
  induction l as [|a l IH]; intros Hl; cbn [server_actions]; respects.
  - apply Hl. by left.
  - apply IH. intros b Hb. apply Hl. by right.
Qed.

Lemma destructor_keeps_client i l :
  (∀ a, a ∈ l → of_client a ≠ Some i) → respects (keeps_client i) (TcpSocket_destructor l).
Proof.
  intros Hl. unfold TcpSocket_destructor. respects.
  - by apply (action_keeps_client i DoCloseBegin).
  - apply respects_server_actions; [apply _|]. by intros; apply action_keeps_client, Hl.
  - by apply (action_keeps_client i DoCloseEnd).
Qed.

(** The owner's threads are joined. *)
Lemma Close_end_joins s u s' :
  Close_end s = Ok (u, s') → receive_thread_ s' = None ∧ accept_thread_ s' = None.
Proof.
  unfold Close_end, NotifyConnect, emit, modify, get, mbind, M_bind, mret, M_ret.
  destruct s as [fd conn lis stop rx ax cfds cth dcb ecb ccb evs]. cbn.
  by destruct ccb; intros [= _ <-].
Qed.

Lemma destructor_joins l s s' :
  TcpSocket_destructor l s = Ok (true, s') → receive_thread_ s' = None ∧ accept_thread_ s' = None.
Proof.
  unfold TcpSocket_destructor, mbind, M_bind, get. destruct (Close_begin s) as [[[] s1]|]; [|done].
  destruct (server_actions l s1) as [[[] s2]|]; [|done].
  destruct (TcpSocket.enabled s2 DoCloseEnd); [|done].
  destruct (Close_end s2) as [[u s3]|] eqn:E; [|done]. intros [= <-]. by eapply Close_end_joins.
Qed.

(** ** Properties of sockets *)

(** A socket does not wait for its clients. Once the destructor has
    returned, the only threads left are those of clients, exactly the ones not
    over; each that took no action of its own meanwhile is where it was; and
    the next action of any of them is a use of the destroyed socket. So the
    destructor is safe exactly if every client thread has ended before. *)
Theorem socket_destructor l s s' :
  destroy l s = Ok (Some (Dead s')) →
  (∀ i t, client_threads s !! i = Some t → (∀ a, a ∈ l → of_client a ≠ Some i) →
     client_threads s' !! i = Some t) ∧
  (∀ a, thread_action a → TcpSocket.enabled s' a = true →
     (∃ i, of_client a = Some i ∧ running s' i) ∧ on_object a (Dead s') = Fault OutOfBounds) ∧
  ((∃ a, thread_action a ∧ TcpSocket.enabled s' a = true) ↔ ∃ i, running s' i).
Proof.
  intros Hd. unfold destroy in Hd.
  destruct (TcpSocket_destructor l s) as [[[] s1]|] eqn:E; [|done..]. injection Hd as ->.
  destruct (destructor_joins l s s' E) as [Hrx Hax].
  assert (∀ a, thread_action a → TcpSocket.enabled s' a = true →
    ∃ i, of_client a = Some i ∧ running s' i) as Hen.
  { intros a Ha. destruct a as [| | | | | | | | |i|i]; try done; cbn;
      rewrite ?Hrx, ?Hax, bool_decide_eq_true; try done;
      destruct (client_threads s' !! i) as [[fd t]|] eqn:Et; try done; intros [= ->];
      exists i; (split; [done|]); eexists; by split. }
  split_and!.
  - intros i t Ht Hl. by apply (destructor_keeps_client i l Hl s true s' E).
  - intros a Ha Hena. split; [by apply Hen|done].
  - split.
    + intros (a & Ha & Hena). destruct (Hen a Ha Hena) as (i & _ & Hi). by exists i.
    + intros (i & [fd t] & Ht & Hne).
      exists (if decide (t = AtTest) then ClientTest i else ClientAnswer i RecvAgain).
      destruct t; [| |done]; cbn; split; try done; apply bool_decide_eq_true; by rewrite Ht.
Qed.

(** The system lets the server listen. *)
Definition os_listens (os : os_answers) : bool :=
  (0 <=? os_socket os) && (0 <=? os_setsockopt os) && (0 <=? os_bind os) && (0 <=? os_listen os).

Lemma Listen_run addr os s :
  TcpSocket.is_listening_ s = false → accept_thread_ s = None → os_listens os = true →
  (addr = "" ∨ addr = "0.0.0.0") →
  Listen addr os s = Ok (true, s {{ socket_fd_ := os_socket os; is_listening_ := true;
    TcpSocket.should_stop_ := false; accept_thread_ := Some AtTest }}).
Proof.
  intros Hl Hax Hos Haddr. unfold os_listens in Hos. rewrite !andb_true_iff, !Z.leb_le in Hos.
  destruct Hos as [[[H1 H2] H3] H4]. unfold Listen, give_up_socket, modify, get, lift, mbind, M_bind.
  rewrite Hl. rewrite !(proj2 (Z.ltb_ge _ _)) by done. cbn [negb].
  assert (bool_decide (addr = "") || bool_decide (addr = "0.0.0.0") = true) as ->.
  { destruct Haddr as [->| ->]; reflexivity. }
  destruct s. cbn in *. subst. reflexivity.
Qed.

Lemma exec_app l1 l2 s :
  TcpSocket.exec (l1 ++ l2) s = match TcpSocket.exec l1 s with Some s1 => TcpSocket.exec l2 s1 | None => None end.
Proof.
  revert s. induction l1 as [|a l1 IH]; intros s; [done|]. cbn.
  destruct (TcpSocket.enabled s a); [|done]. by destruct (TcpSocket.perform a s) as [[u s1]|].
Qed.

(** The server closes while a client is connected, and listens again; a client
    is accepted with the descriptor [fd]. *)
Lemma restarts addr os s fd e :
  accept_thread_ s = Some InCall → receive_thread_ s = None → os_listens os = true →
  (addr = "" ∨ addr = "0.0.0.0") →
  TcpSocket.steps s [DoCloseBegin; AcceptAnswer (AcceptError e); AcceptTest; DoCloseEnd; DoListen addr os;
           AcceptTest; AcceptAnswer (Accepted fd); ClientTest (length (client_threads s))]
    (s {{ socket_fd_ := os_socket os; is_connected_ := false; is_listening_ := true;
          TcpSocket.should_stop_ := false; accept_thread_ := Some AtTest; client_fds_ := [fd];
          client_threads := client_threads s ++ [(fd, InCall)];
          TcpSocket.events := TcpSocket.events s
            ++ (if socket_fd_ s >=? 0 then [EvClose (socket_fd_ s)] else [])
            ++ map EvClose (client_fds_ s)
            ++ (if connect_callback_ s then [EvConnect false] else []) }}).
Proof.
  intros Hax Hrx Hos Haddr. apply TcpSocket.exec_steps.
  destruct s as [sfd conn lis stop rx ax cfds cth dcb ecb ccb evs]. cbn in Hax, Hrx. subst rx ax.
  set (evs1 := evs ++ (if sfd >=? 0 then [EvClose sfd] else []) ++ map EvClose cfds).
  set (s1 := Build_TcpSocket (if sfd >=? 0 then -1 else sfd) false false true None (Some InCall) [] cth
               dcb ecb ccb evs1).
  set (s2 := Build_TcpSocket (if sfd >=? 0 then -1 else sfd) false false true None None [] cth
               dcb ecb ccb (evs1 ++ (if ccb then [EvConnect false] else []))).
  assert (TcpSocket.exec [DoCloseBegin] (Build_TcpSocket sfd conn lis stop None (Some InCall) cfds cth dcb ecb ccb evs)
    = Some s1) as E1.
  { subst s1 evs1. cbn. unfold Close_begin, emit, modify, get, mbind, M_bind. cbn.
    destruct (sfd >=? 0); cbn; by rewrite <- ?app_assoc. }
  assert (TcpSocket.exec [AcceptAnswer (AcceptError e); AcceptTest; DoCloseEnd] s1 = Some s2) as E2.
  { subst s1 s2. cbn. destruct ccb; [done|]. cbn. by rewrite app_nil_r. }
  assert (TcpSocket.exec [DoListen addr os; AcceptTest; AcceptAnswer (Accepted fd)] s2 = Some
    (Build_TcpSocket (os_socket os) false true false None (Some AtTest) [fd] (cth ++ [(fd, AtTest)])
       dcb ecb ccb (evs1 ++ (if ccb then [EvConnect false] else [])))) as E3.
  { cbn [TcpSocket.exec TcpSocket.enabled TcpSocket.perform]. unfold mbind, M_bind. rewrite Listen_run by done.
    reflexivity. }
  change (TcpSocket.exec ([DoCloseBegin] ++ [AcceptAnswer (AcceptError e); AcceptTest; DoCloseEnd] ++
    [DoListen addr os; AcceptTest; AcceptAnswer (Accepted fd)] ++ [ClientTest (length cth)])
    (Build_TcpSocket sfd conn lis stop None (Some InCall) cfds cth dcb ecb ccb evs) = Some
    (Build_TcpSocket (os_socket os) false true false None (Some AtTest) [fd] (cth ++ [(fd, InCall)])
       dcb ecb ccb (evs ++ (if sfd >=? 0 then [EvClose sfd] else []) ++ map EvClose cfds ++
                    (if ccb then [EvConnect false] else [])))).
  rewrite exec_app, E1, exec_app, E2, exec_app, E3. cbn.
  rewrite (lookup_app_r cth), Nat.sub_diag by lia. cbn.
  unfold client_test, set_client, client_at, modify, get, lift, mbind, M_bind. cbn.
  rewrite (lookup_app_r cth), Nat.sub_diag by lia. cbn. rewrite insert_app_r_alt, Nat.sub_diag by lia. cbn.
  subst evs1. by rewrite <- !app_assoc.
Qed.

Lemma client_closed_run s i fd st :
  client_threads s !! i = Some (fd, st) →
  client_answer i Closed s = Ok ((), s {{ client_threads := <[i := (fd, Done)]> (client_threads s);
    client_fds_ := filter (λ x, x ≠ fd) (client_fds_ s);
    TcpSocket.events := TcpSocket.events s ++ [EvClose fd] }}).
Proof.
  intros Hi. unfold client_answer, client_end, client_at, set_client, emit, modify, get, lift, mbind, M_bind.
  rewrite Hi. destruct s. cbn in *. unfold client_at, get, lift, mbind, M_bind. cbn. rewrite Hi. reflexivity.
Qed.

(** C32: A server that listens again can lose its new clients. [Close] closes the
    clients' descriptors but not their threads: one may still be in its [recv]
    when the server has closed, listened again, and accepted a client to whom
    the system has given the same descriptor number. When the old connection
    ends, its thread closes the number again and strikes it off the list: the
    new client is disconnected, and its own thread goes on to read a descriptor
    that is closed, or some other file's by then. *)
Theorem descriptor_reuse addr os s i fd e :
  accept_thread_ s = Some InCall → receive_thread_ s = None →
  client_threads s !! i = Some (fd, InCall) → os_listens os = true → (addr = "" ∨ addr = "0.0.0.0") →
  let j := length (client_threads s) in
  ∃ s1 s2,
    TcpSocket.steps s [DoCloseBegin; AcceptAnswer (AcceptError e); AcceptTest; DoCloseEnd; DoListen addr os;
             AcceptTest; AcceptAnswer (Accepted fd); ClientTest j] s1 ∧
    TcpSocket.is_listening_ s1 = true ∧ client_fds_ s1 = [fd] ∧
    client_threads s1 !! i = Some (fd, InCall) ∧ client_threads s1 !! j = Some (fd, InCall) ∧
    TcpSocket.step s1 (ClientAnswer i Closed) s2 ∧
    TcpSocket.events s2 = TcpSocket.events s1 ++ [EvClose fd] ∧ client_fds_ s2 = [] ∧
    client_threads s2 !! j = Some (fd, InCall) ∧ TcpSocket.enabled s2 (ClientAnswer j RecvAgain) = true.
Proof.
  intros Hax Hrx Hi Hos Haddr j.
  assert (i ≠ j) as Hij by (apply lookup_lt_Some in Hi; lia).
  set (s1 := s {{ socket_fd_ := os_socket os; is_connected_ := false; is_listening_ := true;
                  TcpSocket.should_stop_ := false; accept_thread_ := Some AtTest; client_fds_ := [fd];
                  client_threads := client_threads s ++ [(fd, InCall)];
                  TcpSocket.events := TcpSocket.events s
                    ++ (if socket_fd_ s >=? 0 then [EvClose (socket_fd_ s)] else [])
                    ++ map EvClose (client_fds_ s)
                    ++ (if connect_callback_ s then [EvConnect false] else []) }}).
  assert (TcpSocket.steps s [DoCloseBegin; AcceptAnswer (AcceptError e); AcceptTest; DoCloseEnd; DoListen addr os;
             AcceptTest; AcceptAnswer (Accepted fd); ClientTest j] s1) as Hsteps by (by apply restarts).
  exists s1, (s1 {{ client_threads := <[i := (fd, Done)]> (client_threads s1); client_fds_ := [];
                    TcpSocket.events := TcpSocket.events s1 ++ [EvClose fd] }}).
  assert (client_threads s1 !! i = Some (fd, InCall)) as Hi1.
  { subst s1. destruct s. cbn in *. by apply lookup_app_l_Some. }
  assert (client_threads s1 !! j = Some (fd, InCall)) as Hj1.
  { subst s1 j. destruct s. cbn in *. by rewrite lookup_app_r, Nat.sub_diag by lia. }
  assert (<[i := (fd, Done)]> (client_threads s1) !! j = Some (fd, InCall)) as Hj2
    by (by rewrite list_lookup_insert_ne).
  split; [done|]. split_and!; try done.
  - constructor; cbn [TcpSocket.enabled TcpSocket.perform]; [by rewrite Hi1|].
    rewrite (client_closed_run s1 i fd InCall Hi1).
    assert (client_fds_ s1 = [fd]) as E by done. rewrite E. cbn [filter list_filter].
    by rewrite decide_False by auto.
  - apply bool_decide_eq_true. change (snd <$> <[i := (fd, Done)]> (client_threads s1) !! j = Some InCall).
    by rewrite Hj2.
Qed.

(** ** What an action reports *)

(** What an action adds to the events. *)
Definition grows (P : event → Prop) (s s' : TcpSocket) : Prop :=
  ∃ ev, TcpSocket.events s' = TcpSocket.events s ++ ev ∧ Forall P ev.
#[export] Instance grows_preorder P : PreOrder (grows P).
Proof.
  split; [intros s; exists []; by rewrite app_nil_r|].
  intros s1 s2 s3 (e1 & H1 & ?) (e2 & H2 & ?). exists (e1 ++ e2).
  rewrite H2, H1, app_assoc. split; [done|]. by apply Forall_app.
Qed.

Lemma adds_nothing P s s' : TcpSocket.events s' = TcpSocket.events s → grows P s s'.
Proof. intros E. exists []. by rewrite app_nil_r. Qed.
Lemma adds_one (P : event → Prop) s s' e :
  P e → TcpSocket.events s' = TcpSocket.events s ++ [e] → grows P s s'.
Proof. intros He E. exists [e]. split; [done|]. by apply Forall_singleton. Qed.
Lemma adds_closes (P : event → Prop) s s' fds :
  (∀ fd, P (EvClose fd)) → TcpSocket.events s' = TcpSocket.events s ++ map EvClose fds → grows P s s'.
Proof.
  intros HP E. exists (map EvClose fds). split; [done|]. by apply Forall_map, Forall_true.
Qed.
Ltac grows :=
  first [ apply adds_nothing; reflexivity | eapply adds_one; [|reflexivity]; done
        | eapply adds_closes; [|reflexivity]; done ].

Lemma grows_Send {h : Host} (P : event → Prop) data answers :
  (∀ d, P (EvSend d)) → (∀ e, P (EvError e)) → respects (grows P) (Send data answers).
Proof.
  intros Hs He. assert (∀ answers data, respects (grows P) (send_loop data answers)) as Hloop.
  { clear data answers. induction answers as [|a answers IH]; intros [|b data]; cbn [send_loop];
      [apply respects_ret, _..|].
    destruct a; unfold NotifyError, emit; respects; auto; first [apply adds_nothing; reflexivity|
      eapply adds_one; [|reflexivity]; auto]. }
  unfold Send. respects. apply Hloop.
Qed.

(** ** The client's threads *)

Section ClientThreads.
Context {h : Host}.
Variables (now : Z) (junk : UsbSetupPacket) (answers : list send_answer).

(** Everything but a new connection. *)
Definition calm (e : event) : Prop := e ≠ EvConnect true.

Lemma calm_receive a : receives a → changes (grows calm) a.
Proof.
  destruct a as [| | | | | |[]| | | |]; cbn [receives]; try done; intros _; action; grows.
Qed.
Lemma calm_close_begin : changes (grows calm) DoCloseBegin.
Proof. action; grows. Qed.
Lemma calm_close_end : changes (grows calm) DoCloseEnd.
Proof. action; grows. Qed.

(** A heartbeat thread that is over stays so. *)
Definition resting (c c' : UsbipClient) : Prop :=
  heartbeat_running_ c = false ∧ heartbeat_thread_ c = false →
  heartbeat_running_ c' = false ∧ heartbeat_thread_ c' = false.
#[export] Instance resting_preorder : PreOrder resting.
Proof. split; [by intros c H|]. intros c1 c2 c3 H1 H2 H. exact (H2 (H1 H)). Qed.

Lemma on_socket_grows (R : UsbipClient → UsbipClient → Prop) `{!PreOrder R} P {A} handler (m : M TcpSocket A) :
  (∀ c s, R c (c {{ tcp_client_ := s }})) →
  respects (grows P) m → (∀ e, P e → respects R (handler e)) → respects R (on_socket_with handler m).
Proof.
  intros HR Hm Hh c a c'. unfold on_socket_with. destruct (m (tcp_client_ c)) as [[b s]|] eqn:E; [|done].
  destruct (Hm _ _ _ E) as (ev & -> & Hev). rewrite drop_app_length.
  assert (respects R (on_events handler ev;; mret b)) as Hrun.
  { clear E. respects. induction Hev as [|e ev He _ IH]; cbn [on_events]; respects; auto. }
  intros H. etrans; [apply (HR c s)|exact (Hrun _ _ _ H)].
Qed.

Lemma resting_on_socket {A} handler (m : M TcpSocket A) :
  respects (grows calm) m → (∀ e, calm e → respects resting (handler e)) →
  respects resting (on_socket_with handler m).
Proof. apply on_socket_grows; [apply _|by intros c s H]. Qed.

Lemma resting_event e : calm e → respects resting (on_event e).
Proof.
  intros He. destruct e as [error|[]| | |]; [|by destruct He|..]; cbn [on_event];
    unfold OnNetworkConnect, OnNetworkError, StopHeartbeat, notify; respects;
    by intros [??].
Qed.

Lemma resting_send_message m answers' : respects resting (send_message m answers').
Proof.
  unfold send_message. respects; [|apply resting_on_socket; [by apply grows_Send|apply resting_event]].
  intros c a c'. unfold UsbipClient.counted. destruct (m (UsbipClient.messages c)) as [[b s]|]; [|done].
  intros [= <- <-]. by intros [??].
Qed.

Lemma resting_OnNetworkMessage message :
  respects resting (UsbipClient.OnNetworkMessage now junk answers message).
Proof.
  unfold UsbipClient.OnNetworkMessage, HandleDeviceListResponse, HandleUrbSubmit,
    UsbipClient.HandleHeartbeat, notify.
  destruct (MessageType_cast _) as [[]|]; respects; try apply resting_send_message; by intros [??].
Qed.

Lemma resting_OnNetworkData data : respects resting (UsbipClient.OnNetworkData now junk answers data).
Proof.
  intros c a c'. unfold UsbipClient.OnNetworkData. destruct (ProcessReceivedData _ _) as [[ms mh]|]; [|done].
  assert (respects resting (UsbipClient.on_messages now junk answers ms)) as Hms.
  { induction ms as [|m ms IH]; cbn [UsbipClient.on_messages]; respects;
      [apply resting_OnNetworkMessage|done]. }
  intros Hrun. exact (Hms _ _ _ Hrun).
Qed.

Lemma resting_close_socket l :
  Forall receives l → respects resting (close_socket now junk answers l).
Proof.
  intros Hl. unfold close_socket. respects.
  - apply resting_on_socket; [apply calm_close_begin|apply resting_event].
  - induction Hl as [|act l Ha _ IH]; cbn [receive_turns]; respects; [|done].
    apply resting_on_socket; [by apply calm_receive|].
    intros e He. destruct e; try by apply resting_event. apply resting_OnNetworkData.
  - apply resting_on_socket; [apply calm_close_end|apply resting_event].
Qed.
End ClientThreads.

(** ** The end of a client *)

Section ClientEnd.
Context {h : Host}.

(** The callbacks of the client leave its socket alone. *)
Definition same_socket (c c' : UsbipClient) : Prop := tcp_client_ c' = tcp_client_ c.
#[export] Instance same_socket_preorder : PreOrder same_socket.
Proof. split; [done|]. intros c1 c2 c3 H1 H2. unfold same_socket in *. congruence. Qed.

Lemma same_socket_event e : respects same_socket (on_event e).
Proof.
  destruct e as [error|[]| | |]; cbn [on_event];
    unfold OnNetworkConnect, OnNetworkError, StartHeartbeat, StopHeartbeat, notify; respects; done.
Qed.

Lemma same_socket_events evs : respects same_socket (on_events on_event evs).
Proof.
  induction evs as [|e evs IH]; cbn [on_events]; respects; [apply same_socket_event|done].
Qed.

Lemma on_socket_same {A} (m : M TcpSocket A) c a c' :
  on_socket m c = Ok (a, c') → m (tcp_client_ c) = Ok (a, tcp_client_ c').
Proof.
  unfold on_socket, on_socket_with. destruct (m (tcp_client_ c)) as [[b s]|]; [|done].
  generalize (drop (length (TcpSocket.events (tcp_client_ c))) (TcpSocket.events s)). intros evs.
  unfold mbind, M_bind. destruct (on_events on_event evs _) as [[[] c1]|] eqn:E; [|done].
  intros [= -> ->]. f_equal. f_equal.
  symmetry. apply (same_socket_events evs _ _ _ E).
Qed.

(** [Close] joins the socket's threads. *)
Lemma close_socket_joins now junk answers l c c' :
  close_socket now junk answers l c = Ok (true, c') →
  receive_thread_ (tcp_client_ c') = None ∧ accept_thread_ (tcp_client_ c') = None.
Proof.
  unfold close_socket, mbind, M_bind, get. destruct (on_socket Close_begin c) as [[[] c1]|]; [|done].
  destruct (receive_turns now junk answers l c1) as [[[] c2]|]; [|done].
  destruct (joined _); [|done].
  destruct (on_socket Close_end c2) as [[[] c3]|] eqn:E; [|done]. intros [= <-].
  by eapply Close_end_joins, on_socket_same.
Qed.

(** The two halves of [Close] only report. *)
Lemma Close_begin_run s :
  ∃ s' fds, Close_begin s = Ok ((), s') ∧
    TcpSocket.events s' = TcpSocket.events s ++ map EvClose fds ∧
    receive_thread_ s' = receive_thread_ s ∧ accept_thread_ s' = accept_thread_ s.
Proof.
  destruct s as [fd conn lis stop rx ax cfds cth dcb ecb ccb evs].
  unfold Close_begin, emit, modify, get, mbind, M_bind, mret, M_ret. cbn.
  destruct (fd >=? 0); cbn; eexists; [exists (fd :: cfds)|exists cfds]; (split; [done|]); cbn;
    by rewrite <- ?app_assoc.
Qed.
Lemma Close_end_run s :
  ∃ s', Close_end s = Ok ((), s') ∧
    TcpSocket.events s' = TcpSocket.events s ++ (if connect_callback_ s then [EvConnect false] else []).
Proof.
  destruct s as [fd conn lis stop rx ax cfds cth dcb ecb ccb evs].
  unfold Close_end, NotifyConnect, emit, modify, get, mbind, M_bind, mret, M_ret. cbn.
  destruct ccb; eexists; (split; [done|]); cbn; by rewrite ?app_nil_r.
Qed.

(** The destructor of the member socket when nothing is left to join. *)
Lemma close_member_clean c :
  joined (receive_thread_ (tcp_client_ c)) = true → joined (accept_thread_ (tcp_client_ c)) = true →
  heartbeat_running_ c = false → ∃ c', close_member [] c = Ok (true, c').
Proof.
  intros Hrx Hax Hh.
  assert (∀ fds c, on_events on_last_event (map EvClose fds) c = Ok ((), c)) as Hcloses.
  { induction fds as [|fd fds IH]; intros c0; [done|]. cbn. unfold mbind, M_bind. cbn. apply IH. }
  destruct (Close_begin_run (tcp_client_ c)) as (s1 & fds & E1 & Hev1 & Hrx1 & Hax1).
  destruct (Close_end_run s1) as (s2 & E2 & Hev2).
  unfold close_member, mbind, M_bind, on_socket_with, get. rewrite E1, Hev1, drop_app_length.
  unfold mbind, M_bind. rewrite Hcloses. unfold mret at 1, M_ret at 1. cbn [last_actions].
  unfold mret at 1, M_ret at 1. destruct c as [t mh dl ub eb up run th iv host port seq nts].
  cbn [tcp_client_] in *. cbn -[TcpSocket.enabled]. unfold TcpSocket.enabled. rewrite Hrx1, Hax1, Hrx, Hax. cbn.
  rewrite E2, Hev2, drop_app_length. cbn in Hh. subst run.
  destruct (connect_callback_ s1); by eexists.
Qed.
End ClientEnd.

Section ClientProperties.
Context {h : Host}.

(** A failed send reports its error, after what it has sent. *)
Lemma send_loop_fails answers data s s' :
  error_callback_ s = true → send_loop data answers s = Ok (Some false, s') →
  ∃ sent error, s' = s {{ TcpSocket.events :=
    TcpSocket.events s ++ map EvSend sent ++ [EvError error] }}.
Proof.
  revert data s s'. induction answers as [|a answers IH]; intros [|b data] s s' Hcb; cbn [send_loop]; try done.
  destruct a as [n| |e]; [|by apply IH|].
  - unfold emit, modify, mbind, M_bind.
    intros (sent & error & ->)%IH; [|by destruct s]. exists (take n (b :: data) :: sent), error.
    destruct s. cbn. by rewrite <- app_assoc.
  - unfold NotifyError, emit, modify, get, mbind, M_bind. rewrite Hcb. intros [= <-].
    by exists [], ("Send failed: " +:+ e).
Qed.

Lemma on_events_sent sent (c : UsbipClient) : on_events on_event (map EvSend sent) c = Ok ((), c).
Proof. induction sent as [|d sent IH]; [done|]. cbn. unfold mbind, M_bind. cbn. exact IH. Qed.

Lemma on_events_app evs1 evs2 (c c1 : UsbipClient) :
  on_events on_event evs1 c = Ok ((), c1) →
  on_events on_event (evs1 ++ evs2) c = on_events on_event evs2 c1.
Proof.
  revert c. induction evs1 as [|e evs1 IH]; intros c; cbn; [by intros [= <-]|].
  unfold mbind, M_bind. destruct (on_event e c) as [[[] c2]|]; [apply IH|done].
Qed.

(** C39: A failed send wedges the client. On a connected client with its
    heartbeat running, when a request fails while the socket is still
    connected, the client counts as disconnected but its socket does not: no
    later [Connect] succeeds, whatever the network does, until the receive
    thread notices; and destroying the client meanwhile is [std::terminate]. *)
Theorem failed_send_wedges_client ty data answers c c1 :
  client_ok c → connected_ c = true → heartbeat_running_ c = true →
  is_connected_ (tcp_client_ c) = true → 0 <= socket_fd_ (tcp_client_ c) →
  error_callback_ (tcp_client_ c) = true →
  request (NetworkMessage_new ty data) answers c = Ok (false, c1) →
  connected_ c1 = false ∧
  (∀ host port os polls close, ∃ c2,
     UsbipClient.Connect host port os polls close c1 = Ok (false, c2) ∧ connected_ c2 = false) ∧
  (∀ close l, UsbipClient_destructor close l c1 = Fault StdTerminate).
Proof.
  intros Hok Hc Hh Ht Hfd Hcb. unfold request, send_message, mbind, M_bind, get. rewrite Hc. cbn [negb].
  unfold UsbipClient.counted. rewrite NetworkMessage_new_run. unfold lift.
  destruct (SerializeMessage _) as [w|]; [|done]. unfold on_socket, on_socket_with.
  unfold Send, mbind at 1, M_bind at 1, get.
  destruct c as [t mh dl ub eb up run th iv host0 port0 seq nts]. cbn [tcp_client_] in *. cbn in *.
  rewrite Ht, (proj2 (Z.ltb_ge _ _) Hfd). cbn [negb orb].
  destruct (send_loop w answers t) as [[[[]|] s]|] eqn:E; [| | |done].
  1, 3: unfold mbind, M_bind; match goal with |- context [on_events ?f ?l ?e] => by destruct (on_events f l e) as [[[] ?]|] end.
  destruct (send_loop_fails answers w t s Hcb E) as (sent & error & ->). cbn.
  rewrite drop_app_length. unfold mbind, M_bind.
  rewrite (on_events_app (map EvSend sent) _ _ _ (on_events_sent sent _)). cbn.
  unfold OnNetworkError, notify, modify, get, mbind, M_bind. cbn.
  pose proof (client_heartbeat _ Hok) as Hth. cbn in Hth. subst up run th.
  destruct eb; intros [= <-]; cbn; (split; [done|]); split.
  1, 3: intros host port os polls close; unfold UsbipClient.Connect, on_socket, on_socket_with, TcpSocket.Connect,
    modify, get, mbind, M_bind; destruct t; cbn in *; subst; cbn; rewrite drop_all; cbn; eexists; split; [reflexivity|reflexivity].
  all: intros close l; done.
Qed.

(** The client's destructor. A client whose network failed during a send is
    down with its heartbeat flag still up: destroying it destroys a joinable
    thread, which is [std::terminate]. Any other end is clean: connected, once
    [Disconnect] has joined the threads; or not connected, with the heartbeat
    stopped and the socket's threads over; then the destructor returns,
    without anything left to wait for. *)
Theorem client_destructor now junk answers l c :
  client_ok c → Forall receives l →
  (connected_ c = false → heartbeat_running_ c = true →
     ∀ close l', UsbipClient_destructor close l' c = Fault StdTerminate) ∧
  (connected_ c = false → heartbeat_running_ c = false →
     joined (receive_thread_ (tcp_client_ c)) = true → joined (accept_thread_ (tcp_client_ c)) = true →
     ∀ close, ∃ c', UsbipClient_destructor close [] c = Ok (true, c')) ∧
  (∀ c1, connected_ c = true → UsbipClient.Disconnect (close_socket now junk answers l) c = Ok (true, c1) →
     ∃ c', UsbipClient_destructor (close_socket now junk answers l) [] c = Ok (true, c')).
Proof.
  intros Hok Hl. split_and!.
  - intros Hc Hh close l'. unfold UsbipClient_destructor, UsbipClient.Disconnect, mbind, M_bind, get.
    rewrite Hc. cbn. by rewrite (client_heartbeat _ Hok), Hh.
  - intros Hc Hh Hrx Hax close. unfold UsbipClient_destructor, UsbipClient.Disconnect, mbind, M_bind, get.
    rewrite Hc. cbn. rewrite (client_heartbeat _ Hok), Hh. by apply close_member_clean.
  - intros c1 Hc Hdis. unfold UsbipClient_destructor, mbind at 1, M_bind at 1. rewrite Hdis. cbn [negb].
    revert Hdis. unfold UsbipClient.Disconnect, mbind, M_bind, get. rewrite Hc. cbn [negb].
    assert (∃ c0, StopHeartbeat c = Ok ((), c0) ∧ heartbeat_running_ c0 = false ∧ heartbeat_thread_ c0 = false)
      as (c0 & -> & Hr0 & Ht0).
    { unfold StopHeartbeat, mbind, M_bind, get, modify. destruct (heartbeat_running_ c) eqn:Hr; cbn;
        eexists; (split; [done|]); [by destruct c|]. split; [done|].
      by rewrite (client_heartbeat _ Hok). }
    destruct (close_socket now junk answers l c0) as [[[] c2]|] eqn:E; [|done..].
    destruct (close_socket_joins _ _ _ _ _ _ E) as [Hrx Hax].
    destruct (resting_close_socket now junk answers l Hl _ _ _ E) as [Hr2 Ht2]; [done|].
    destruct c2. cbn in *. intros [= <-]. subst. cbn.
    by apply close_member_clean; cbn; rewrite ?Hrx, ?Hax.
Qed.
End ClientProperties.

(** ** The end of a connection *)

Section Reconnection.
Context {h : Host}.
Variables (now : Z) (junk : UsbSetupPacket) (answers : list send_answer).

(** The receive thread, getting nothing more. *)
Definition quiet (a : TcpSocket.action) : Prop :=
  match a with
  | ReceiveTest => True
  | ReceiveAnswer (Received _) => False
  | ReceiveAnswer _ => True
  | _ => False
  end.
Definition no_data (e : event) : Prop := ∀ data, e ≠ EvData data.

Lemma quiet_no_data a : quiet a → changes (grows no_data) a.
Proof.
  destruct a as [| | | | | |[]| | | |]; cbn [quiet]; try done; intros _; action; grows.
Qed.
Lemma connect_no_data host os : respects (grows no_data) (TcpSocket.Connect host os).
Proof.
  unfold TcpSocket.Connect, give_up_socket, NotifyError, NotifyConnect, emit. respects; grows.
Qed.

(** The bytes waiting for the rest of a message are the same. *)
Definition same_handler (c c' : UsbipClient) : Prop :=
  UsbipClient.message_handler_ c' = UsbipClient.message_handler_ c.
#[export] Instance same_handler_preorder : PreOrder same_handler.
Proof. split; [done|]. intros c1 c2 c3 H1 H2. unfold same_handler in *. congruence. Qed.

Lemma same_handler_event e : respects same_handler (on_event e).
Proof.
  destruct e as [error|[]| | |]; cbn [on_event];
    unfold OnNetworkConnect, OnNetworkError, StartHeartbeat, StopHeartbeat, notify; respects; done.
Qed.

Lemma same_handler_close l :
  Forall quiet l → respects same_handler (close_socket now junk answers l).
Proof.
  intros Hl. unfold close_socket. respects.
  - apply (on_socket_grows same_handler no_data); [done| |by intros; apply same_handler_event].
    assert (changes (grows no_data) DoCloseBegin) as Hb by (action; grows). exact Hb.
  - induction Hl as [|act l Ha _ IH]; cbn [receive_turns]; respects; [|done].
    apply (on_socket_grows same_handler no_data); [done|by apply quiet_no_data|].
    intros e He. destruct e; try apply same_handler_event. by destruct (He data).
  - apply (on_socket_grows same_handler no_data); [done| |by intros; apply same_handler_event].
    assert (changes (grows no_data) DoCloseEnd) as Hb by (action; grows). exact Hb.
Qed.

Lemma same_handler_Disconnect close :
  respects same_handler close → respects same_handler (UsbipClient.Disconnect close).
Proof. intros Hc. unfold UsbipClient.Disconnect, StopHeartbeat. respects; done. Qed.
Lemma same_handler_Connect host port os polls close :
  respects same_handler close → respects same_handler (UsbipClient.Connect host port os polls close).
Proof.
  intros Hc. unfold UsbipClient.Connect. respects; try done.
  apply (on_socket_grows same_handler no_data); [done|apply connect_no_data|].
  intros; apply same_handler_event.
Qed.

(** C16: A reconnection starts inside the old message. If a connection ends in the
    middle of a message [m], after its header, the bytes that had arrived are
    still the first ones the next connection sees: [Disconnect] and [Connect]
    do not clear the buffer. So the new server's bytes are taken for the rest
    of [m], whatever they are: fewer than were missing are swallowed, and no
    callback hears of them; and once as many have arrived they are delivered
    as the end of [m] if the checksum matches, and dropped otherwise, and
    only what follows is read as messages. *)
Theorem reconnection_inside_message host port os polls l m p q c c1 c2 :
  packet_ok m → p ++ q = packet_bytes m → (20 ≤ length p)%nat →
  UsbipClient.message_handler_ c = Build_MessageHandler p true → Forall quiet l →
  UsbipClient.Disconnect (close_socket now junk answers l) c = Ok (true, c1) →
  UsbipClient.Connect host port os polls (close_socket now junk answers l) c1 = Ok (true, c2) →
  (∀ data, bytes_ok data → (length data < length q)%nat →
     UsbipClient.OnNetworkData now junk answers data c2
     = Ok ((), c2 {{ UsbipClient.message_handler_ := Build_MessageHandler (p ++ data) true }})) ∧
  (∀ data rest ms mh, bytes_ok data → length data = length q →
     ProcessReceivedData rest (Build_MessageHandler [] true) = Ok (ms, mh) →
     UsbipClient.OnNetworkData now junk answers (data ++ rest) c2
     = UsbipClient.on_messages now junk answers
         ((if checksum_ok (completed m p data) then [completed m p data] else []) ++ ms)
         (c2 {{ UsbipClient.message_handler_ := mh }})).
Proof.
  intros Hm Hpq Hp Hc Hl Hdis Hcon.
  assert (UsbipClient.message_handler_ c2 = Build_MessageHandler p true) as Hc2.
  { pose proof (same_handler_close l Hl) as Hclose. rewrite <- Hc.
    rewrite (same_handler_Connect _ _ _ _ _ Hclose _ _ _ Hcon).
    exact (same_handler_Disconnect _ Hclose _ _ _ Hdis). }
  split.
  - intros data Hb Hlen. unfold UsbipClient.OnNetworkData. rewrite Hc2, (stale_partial m p q) by done. done.
  - intros data rest ms mh Hb Hlen Hrest. unfold UsbipClient.OnNetworkData.
    rewrite Hc2, (stale_complete m p q true data rest ms mh) by done. f_equal. f_equal.
    unfold deliveries. rewrite filter_cons, filter_nil. by destruct (checksum_ok _).
Qed.
End Reconnection.

(** ** The end of a sender *)

Section SenderProperties.
Context {h : Host} {L : Type} `{Libusb L}.
Implicit Types (s : UsbSender L).

(** A driver that holds nothing of its device. *)
Definition closed (d : MassStorageDevice (SenderUsbDevice L)) : Prop :=
  MassStorage.initialized_ d = false ∧ handle_ (device d) = false ∧ claimed_interfaces_ (device d) = [].

Lemma Close_closes (u : SenderUsbDevice L) :
  wp UsbDeviceManager.Close (λ _, True) (λ _ u, handle_ u = false ∧ claimed_interfaces_ u = []) u.
Proof.
  unfold UsbDeviceManager.Close. apply wp_bind, wp_get, wp_bind. eapply wp_mono; [apply wp_any|done|].
  intros [] u1 _. apply wp_bind, wp_modify, wp_bind, wp_get. case_match; [by apply wp_modify|by apply wp_ret].
Qed.

Lemma destructor_closes d d' : MassStorageDevice_destructor d = Ok ((), d') → closed d'.
Proof.
  unfold MassStorageDevice_destructor, mbind, M_bind. destruct (MassStorage.Cleanup d) as [[[] d1]|] eqn:E; [|done].
  assert (MassStorage.initialized_ d1 = false) as Hi.
  { revert E. unfold MassStorage.Cleanup, mbind at 1, M_bind at 1. destruct (MassStorage.StopCapture d) as [[[] d2]|]; [|done].
    unfold mbind, M_bind, get. destruct (_ d2) as [[[] d3]|]; [|done]. by intros [= <-]. }
  unfold on_device, UsbDevice_destructor. pose proof (Close_closes (device d1)) as Hc. revert Hc. unfold wp.
  destruct (UsbDeviceManager.Close (device d1)) as [[[] u]|]; [|done]. intros [Hh Hcl] [= <-]. by split_and!.
Qed.

Lemma destroy_drivers_closes ids hp hp' :
  destroy_drivers ids hp = Ok hp' →
  (∀ id d, hp !! id = Some d → closed d → ∃ d', hp' !! id = Some d' ∧ closed d') ∧
  (∀ id, id ∈ ids → ∃ d', hp' !! id = Some d' ∧ closed d').
Proof.
  revert hp. induction ids as [|i ids IH]; intros hp; cbn [destroy_drivers].
  { intros [= ->]. split; [by eauto|]. by intros id Hid%elem_of_nil. }
  destruct (hp !! i) as [d|]; [|done]. destruct (MassStorageDevice_destructor d) as [[[] d']|] eqn:E; [|done].
  apply destructor_closes in E. intros [Hk Hids]%IH. split.
  - intros id d0 Hd0 Hc. destruct (decide (id = i)) as [->|Hne].
    + apply (Hk i d'); [by rewrite lookup_insert_eq|done].
    + apply (Hk id d0); [by rewrite lookup_insert_ne|done].
  - intros id [->|Hid]%elem_of_cons; [|by apply Hids]. apply (Hk i d'); [by rewrite lookup_insert_eq|done].
Qed.

(** The drivers the capture holds are the same ones. *)
Definition same_list s s' : Prop :=
  UrbCapture.devices_ (urb_capture_ s') = UrbCapture.devices_ (urb_capture_ s).
#[export] Instance same_list_preorder : PreOrder same_list.
Proof. split; [done|]. intros s1 s2 s3 H1 H2. unfold same_list in *. congruence. Qed.

Lemma same_list_capture {A} (m : M (UsbSender L) A) : respects same_capture m → respects same_list m.
Proof. intros Hm s a s' E. exact (proj1 (Hm _ _ _ E)). Qed.

Lemma Stop_same_list capture server : respects same_list (Stop capture server).
Proof.
  unfold Stop, close_server. respects; try done; apply same_list_capture;
    first [apply stop_capture_same|apply same_capture_manager|apply same_capture_server].
Qed.

(** C40: The destructor closes the devices. Whatever a sender has been through,
    once its destructor returns, every driver its capture held, so also every
    driver in its list, is cleaned up: it is not initialised, its interfaces
    are released and its device handle is closed. ([Stop] alone does none of
    that.) *)
Theorem sender_destructor_closes l seq s capture server member s' :
  sender_events l (UsbSender_new seq) = Ok ((), s) →
  UsbSender_destructor capture server member s = Ok (true, s') →
  ∀ id, id ∈ mass_storage_devices_ s ∨ id ∈ UrbCapture.devices_ (urb_capture_ s) →
    ∃ d, drivers s' !! id = Some d ∧ closed d.
Proof.
  intros Hok%sender_events_ok. unfold UsbSender_destructor, mbind, M_bind.
  destruct (Stop capture server s) as [[[] s1]|] eqn:E1; [|done..].
  cbn [negb]. destruct (on_server (TcpSocket_destructor member) s1) as [[[] s2]|] eqn:E2; [|done..].
  cbn [negb]. destruct (stop_capture capture s2) as [[[] s3]|] eqn:E3; [|done..].
  cbn [negb]. unfold get.
  destruct (processing_thread_ (urb_capture_ s3)); [done|]. cbn [mret M_ret]. unfold mret at 1, M_ret at 1.
  unfold lift. destruct (destroy_drivers _ _) as [hp|] eqn:E4; [|done]. unfold modify.
  assert (same_list s s3) as Hs.
  { etrans; [by eapply Stop_same_list|]. etrans; [by eapply same_list_capture, E2; apply same_capture_server|].
    eapply same_list_capture, E3. apply stop_capture_same. }
  unfold on_manager. destruct (UsbDeviceManager.Cleanup _) as [[[] m]|]; [|done]. intros [= <-] id Hid. cbn.
  apply (destroy_drivers_closes _ _ _ E4). rewrite Hs. destruct Hid as [Hid|Hid]; [|done].
  by apply sender_captured.
Qed.
End SenderProperties.

(** ** Witnesses *)

(** The listener's destructor, while its client is blocked in [recv]. *)
Definition dead_listener : TcpSocket :=
  match TcpSocket_destructor [AcceptAnswer (AcceptError "Bad file descriptor"); AcceptTest] listening_socket with
  | Ok (_, s) => s | Fault _ => listening_socket end.

Lemma socket_destructor_witness :
  destroy [AcceptAnswer (AcceptError "Bad file descriptor"); AcceptTest] listening_socket
    = Ok (Some (Dead dead_listener)) ∧
  client_threads dead_listener !! 0%nat = Some (6, InCall) ∧
  ∃ a, thread_action a ∧ TcpSocket.enabled dead_listener a = true.
Proof.
  assert (destroy [AcceptAnswer (AcceptError "Bad file descriptor"); AcceptTest] listening_socket
    = Ok (Some (Dead dead_listener))) as Hd by (vm_compute; reflexivity).
  destruct (socket_destructor _ _ _ Hd) as (Hkeep & _ & Hends). split; [exact Hd|].
  assert (client_threads dead_listener !! 0%nat = Some (6, InCall)) as Ht.
  { apply Hkeep; [vm_compute; reflexivity|]. by intros a [->|Ha%list_elem_of_singleton]%elem_of_cons; [|subst a]. }
  split; [exact Ht|]. apply Hends. exists 0%nat, (6, InCall). by split.
Defined.

Lemma descriptor_reuse_witness :
  ∃ s1 s2, TcpSocket.is_listening_ s1 = true ∧ client_threads s1 !! 0%nat = Some (6, InCall) ∧
    TcpSocket.step s1 (ClientAnswer 0 Closed) s2 ∧ client_threads s2 !! 1%nat = Some (6, InCall) ∧
    client_fds_ s1 = [6] ∧ client_fds_ s2 = [].
Proof.
  destruct (descriptor_reuse "0.0.0.0" os_ok listening_socket 0 6 "Bad file descriptor")
    as (s1 & s2 & _ & H1 & H2 & H3 & _ & H4 & _ & H5 & H6 & _).
  - reflexivity.
  - reflexivity.
  - reflexivity.
  - reflexivity.
  - right. reflexivity.
  - exists s1, s2. split; [exact H1|]. split; [exact H3|]. split; [exact H4|]. split; [exact H6|].
    split; [exact H2|exact H5].
Defined.

(** A client connected as [Connect] does it, its heartbeat running. *)
Definition up_client : UsbipClient :=
  match UsbipClient.Connect "10.0.0.1" 3240 os_ok (λ _, true) (mret true)
          (UsbipClient_new 1) with
  | Ok (_, c) => c | Fault _ => UsbipClient_new 1 end.

Lemma up_client_ok : client_ok up_client.
Proof.
  split.
  - replace (notices up_client) with (@nil notice) by (vm_compute; reflexivity). constructor.
  - replace (receive_buffer_ (UsbipClient.message_handler_ up_client)) with (@nil Z) by (vm_compute; reflexivity). constructor.
  - vm_compute. reflexivity.
  - vm_compute. reflexivity.
  - vm_compute. reflexivity.
  - vm_compute. by split.
Qed.

Definition failed_client : UsbipClient :=
  match request (h := LittleEndian) (NetworkMessage_new DEVICE_LIST_REQUEST []) [SendError "Broken pipe"] up_client with
  | Ok (_, c) => c | Fault _ => up_client end.

Lemma failed_send_wedges_client_witness :
  request (h := LittleEndian) (NetworkMessage_new DEVICE_LIST_REQUEST []) [SendError "Broken pipe"] up_client
    = Ok (false, failed_client) ∧
  UsbipClient_destructor (mret true) [] failed_client = Fault StdTerminate.
Proof.
  assert (request (h := LittleEndian) (NetworkMessage_new DEVICE_LIST_REQUEST []) [SendError "Broken pipe"] up_client
    = Ok (false, failed_client)) as Hr by (vm_compute; reflexivity).
  destruct (failed_send_wedges_client (h := LittleEndian) DEVICE_LIST_REQUEST [] [SendError "Broken pipe"] up_client
    failed_client up_client_ok) as (_ & _ & Hd); try (vm_compute; reflexivity).
  - vm_compute. discriminate.
  - split; [exact Hr|]. apply Hd.
Defined.

Lemma client_destructor_witness :
  ∃ c', UsbipClient_destructor
          (close_socket (h := LittleEndian) 0 no_setup [] [ReceiveTest]) [] up_client = Ok (true, c').
Proof.
  destruct (client_destructor (h := LittleEndian) 0 no_setup [] [ReceiveTest] up_client up_client_ok)
    as (_ & _ & Hd).
  { by constructor. }
  apply (Hd (match UsbipClient.Disconnect (close_socket (h := LittleEndian) 0 no_setup [] [ReceiveTest]) up_client with
             | Ok (_, c) => c | Fault _ => up_client end)); vm_compute; reflexivity.
Defined.

Definition destroyed_sender : UsbSender () :=
  match UsbSender_destructor capture_ends [AcceptTest] [] storage_sender with
  | Ok (_, s) => s | Fault _ => storage_sender end.

Lemma sender_destructor_closes_witness :
  UsbSender_destructor capture_ends [AcceptTest] [] storage_sender = Ok (true, destroyed_sender) ∧
  ∃ d, drivers destroyed_sender !! 1%nat = Some d ∧ closed d.
Proof.
  assert (UsbSender_destructor capture_ends [AcceptTest] [] storage_sender = Ok (true, destroyed_sender))
    as Hd by (vm_compute; reflexivity).
  split; [exact Hd|].
  apply (sender_destructor_closes (h := LittleEndian) storage_events 1 storage_sender capture_ends [AcceptTest] []
    destroyed_sender storage_sender_run Hd).
  left. rewrite storage_sender_lists. right. left.
Defined.

(** The server goes away after the header and one byte of an import request's
    answer, and the next one sends a heartbeat: 20 of the 21 bytes that were
    missing. *)
Definition stale_message : NetworkMessage :=
  with_checksum (new_message DEVICE_IMPORT_RESPONSE (replicate 22 1) 7).
Definition stale_client : UsbipClient :=
  up_client {{ UsbipClient.message_handler_ := Build_MessageHandler (take 21 (packet_bytes stale_message)) true }}.
Definition stale_close : M UsbipClient bool := close_socket (h := LittleEndian) 0 no_setup [] [ReceiveTest].
Definition parted_client : UsbipClient :=
  match UsbipClient.Disconnect stale_close stale_client with Ok (_, c) => c | Fault _ => stale_client end.
Definition rejoined_client : UsbipClient :=
  match UsbipClient.Connect "10.0.0.1" 3240 os_ok (λ _, true) stale_close parted_client with
  | Ok (_, c) => c | Fault _ => parted_client end.

Lemma stale_message_ok : packet_ok stale_message.
Proof.
  apply packet_ok_with_checksum, new_message_ok; [by vm_compute|by apply bytes_ok_compute|by vm_compute].
Qed.

Lemma reconnection_inside_message_witness :
  UsbipClient.OnNetworkData (h := LittleEndian) 0 no_setup [] (packet_bytes sample_heartbeat) rejoined_client
  = Ok ((), rejoined_client {{ UsbipClient.message_handler_ :=
      Build_MessageHandler (take 21 (packet_bytes stale_message) ++ packet_bytes sample_heartbeat) true }}).
Proof.
  apply (reconnection_inside_message (h := LittleEndian) 0 no_setup [] "10.0.0.1" 3240 os_ok (λ _, true) [ReceiveTest]
    stale_message (take 21 (packet_bytes stale_message)) (drop 21 (packet_bytes stale_message))
    stale_client parted_client rejoined_client).
  - exact stale_message_ok.
  - apply take_drop.
  - vm_compute. lia.
  - reflexivity.
  - by constructor.
  - vm_compute. reflexivity.
  - vm_compute. reflexivity.
  - apply bytes_ok_compute. vm_compute. reflexivity.
  - vm_compute. lia.
Defined.
