(* ===== verification/Iteration.v ===== *)
(** * Iteration: the sender's list of devices, read while it changes

    [sender/main.cpp] reads [mass_storage_devices_] in two range-for loops, of
    [HandleDeviceListRequest] and [HandleDeviceImportRequest], on the threads
    of its clients, while [OnDeviceHotplug] appends to it on the thread of
    libusb and [Stop] clears it on that of [main]; no mutex protects it.  Here
    the loops are cut into the single reads they make of the vector, which is
    a block of memory that an append replaces when it is full.  An iterator is
    a position in a block. *)

From S2P Require Import Prelude Memory UsbTypes UsbipProtocol MessageHandler UsbDeviceManager MassStorage UrbCapture Sender Pipeline SenderMain.
From stdpp Require Import gmap.
Open Scope Z_scope.

(** ** Vectors and iterators *)

(** The memory of a vector: its block, the number of elements the block has
    room for, and the next block the allocator gives.  Block 0 is none. *)
Record storage := {
  block : nat;
  capacity : nat;
  next_block : nat;
}.
Definition storage_init : storage := {| block := 0; capacity := 0; next_block := 1 |}.

Record storage_ok {A} (m : storage) (l : list A) : Prop := {
  storage_room : (length l ≤ capacity m)%nat;
  storage_fresh : (block m < next_block m)%nat;
}.

(** [push_back] on a vector of elements [l]: a full block is replaced by one
    with room for [grow] of what it had, and freed. *)
Definition push_storage {A} (grow : nat → nat) (l : list A) (m : storage) : storage :=
  if decide (length l = capacity m)
  then {| block := next_block m; capacity := grow (capacity m); next_block := S (next_block m) |}
  else m.

Record iterator := { it_block : nat; it_index : nat }.
#[export] Instance iterator_eq_dec : EqDecision iterator.
Proof. solve_decision. Defined.

Definition begin_of (m : storage) : iterator := {| it_block := block m; it_index := 0 |}.
Definition end_of {A} (m : storage) (l : list A) : iterator :=
  {| it_block := block m; it_index := length l |}.
Definition advance (it : iterator) : iterator :=
  {| it_block := it_block it; it_index := S (it_index it) |}.

(** The object behind the pointer at an iterator; an element is [None] when
    its pointer leads nowhere. *)
Definition deref {C} (it : iterator) (m : storage) (l : list (option C)) : res C :=
  if decide (it_block it = block m)
  then match l !! it_index it with Some (Some c) => Ok c | _ => Fault OutOfBounds end
  else Fault OutOfBounds.

(** ** Range-for loops *)

(** The body of [for (const auto& x : v)]: the number of times it goes through
    [x], and what it does with the objects it finds there; true is [break]. *)
Record for_body (C B : Type) := {
  uses : nat;
  turn : list C → B → B * bool;
}.
Arguments uses {C B} _.
Arguments turn {C B} _.

(** Before [begin], before [end], in a turn, and after the loop. *)
Inductive loop (C B : Type) :=
  | AtBegin (acc : B)
  | AtEnd (it : iterator) (acc : B)
  | InTurn (it last : iterator) (seen : list C) (acc : B)
  | Over (acc : B).
Arguments AtBegin {C B} _.
Arguments AtEnd {C B} _ _.
Arguments InTurn {C B} _ _ _ _.
Arguments Over {C B} _.

Section RangeFor.
Context {C B : Type}.
Variable f : for_body C B.
Implicit Types (p : loop C B) (l : list (option C)) (m : storage).

Definition enter (it last : iterator) (acc : B) : loop C B :=
  if decide (it = last) then Over acc else InTurn it last [] acc.

(** The loop up to its next access to the vector. *)
Definition loop_step m l p : res (loop C B) :=
  match p with
  | AtBegin acc => Ok (AtEnd (begin_of m) acc)
  | AtEnd it acc => Ok (enter it (end_of m l) acc)
  | InTurn it last seen acc =>
    c ← deref it m l;
    let seen' := seen ++ [c] in
    if decide (length seen' < uses f)%nat then Ok (InTurn it last seen' acc)
    else
      let '(acc', break) := turn f seen' acc in
      Ok (if break : bool then Over acc' else enter (advance it) last acc')
  | Over acc => Ok (Over acc)
  end.

(** The loop on a list that does not change. *)
Fixpoint for_each (l : list C) (acc : B) : B :=
  match l with
  | [] => acc
  | c :: l' =>
    let '(acc', break) := turn f (replicate (uses f) c) acc in
    if break : bool then acc' else for_each l' acc'
  end.

(** *** What the loop may see *)

(** What the other threads do: append in the block, or move to a new one. *)
Inductive appends m l : storage → list (option C) → Prop :=
  | appends_in l' : l `prefix_of` l' → appends m l m l'
  | appends_moved m' l' :
      (next_block m ≤ block m')%nat → (block m' < next_block m')%nat → appends m l m' l'.

(** A loop over the elements [xs], begun with [acc0]. *)
Definition over_snapshot (xs : list C) (acc0 : B) m l p : Prop :=
  match p with
  | InTurn it last seen acc =>
    (it_block it < next_block m)%nat ∧ it_block last = it_block it ∧ it_index last = length xs ∧
    (it_block it = block m → (Some <$> xs) `prefix_of` l) ∧
    ∃ c, xs !! it_index it = Some c ∧ seen = replicate (length seen) c ∧
      (length seen < uses f)%nat ∧ for_each xs acc0 = for_each (drop (it_index it) xs) acc
  | Over acc => acc = for_each xs acc0
  | _ => False
  end.

(** A loop whose next read is of a block that is gone. *)
Definition stranded m p : Prop :=
  match p with
  | InTurn it _ _ _ => (it_block it < next_block m)%nat ∧ it_block it ≠ block m
  | _ => False
  end.

Lemma stranded_step m l p : stranded m p → loop_step m l p = Fault OutOfBounds.
Proof.
  destruct p as [| |it last seen acc|]; try done. intros [_ Hne]. unfold loop_step, deref.
  by rewrite decide_False.
Qed.

Lemma stranded_appends m l m' l' p : appends m l m' l' → stranded m p → stranded m' p.
Proof. intros [|]; [done|]. destruct p; try done. cbn. lia. Qed.

Lemma deref_snapshot it m l xs c :
  it_block it = block m → (Some <$> xs) `prefix_of` l → xs !! it_index it = Some c →
  deref it m l = Ok c.
Proof.
  intros Hb [k ->] Hc. unfold deref. rewrite decide_True by done.
  assert ((Some <$> xs) !! it_index it = Some (Some c)) as H by (by rewrite list_lookup_fmap, Hc).
  by rewrite (lookup_app_l_Some _ _ _ _ H).
Qed.

(** A turn that is over: [acc] is what remains to be done from [it]. *)
Lemma enter_snapshot xs acc0 m l it last acc :
  (it_block it < next_block m)%nat → it_block last = it_block it → it_index last = length xs →
  (it_block it = block m → (Some <$> xs) `prefix_of` l) → (it_index it ≤ length xs)%nat →
  (0 < uses f)%nat → for_each xs acc0 = for_each (drop (it_index it) xs) acc →
  over_snapshot xs acc0 m l (enter it last acc).
Proof.
  intros Hb Hlb Hli Hpre Hle Hu Heq. unfold enter. case_decide as Hend.
  - subst last. cbn. by rewrite Heq, Hli, drop_all.
  - destruct (lookup_lt_is_Some_2 xs (it_index it)) as [c Hc].
    { destruct (decide (it_index it = length xs)) as [E|]; [|lia]. exfalso. apply Hend.
      destruct it, last. cbn in *. congruence. }
    cbn. split_and!; try done. by exists c.
Qed.

Lemma snapshot_step xs acc0 m l p p' :
  over_snapshot xs acc0 m l p → loop_step m l p = Ok p' → over_snapshot xs acc0 m l p'.
Proof.
  destruct p as [| |it last seen acc|acc]; [done..| |by intros ? [= <-]].
  intros (Hb & Hlb & Hli & Hpre & c & Hc & Hseen & Hn & Heq) Hrun. cbn in Hrun.
  destruct (decide (it_block it = block m)) as [Hblk|Hblk].
  2: { unfold deref in Hrun. by rewrite decide_False in Hrun. }
  rewrite (deref_snapshot _ _ _ _ _ Hblk (Hpre Hblk) Hc) in Hrun. cbn in Hrun.
  assert (seen ++ [c] = replicate (S (length seen)) c) as Hseen'
    by (rewrite replicate_S_end; by f_equal).
  rewrite Hseen', length_replicate in Hrun. case_decide as Hmore.
  - injection Hrun as <-. cbn. split_and!; try done. exists c. rewrite length_replicate. by split_and!.
  - replace (S (length seen)) with (uses f) in Hrun by lia.
    erewrite drop_S in Heq by exact Hc. cbn in Heq.
    destruct (turn f (replicate (uses f) c) acc) as [acc' []]; injection Hrun as <-; [by cbn|].
    apply enter_snapshot; try done; [|lia]. cbn. by apply lookup_lt_Some in Hc.
Qed.

Lemma snapshot_appends xs acc0 m l m' l' p :
  appends m l m' l' → over_snapshot xs acc0 m l p → over_snapshot xs acc0 m' l' p.
Proof.
  intros Happ. destruct p as [| |it last seen acc|acc]; [done..| |done].
  intros (Hb & Hlb & Hli & Hpre & Hc). destruct Happ as [l' Hl'|m' l' H1 H2].
  - cbn. split_and!; try done. intros E. etrans; [by apply Hpre|done].
  - cbn. split_and!; try done; [lia|]. intros E. lia.
Qed.

(** When [end] is read: the elements are those of that moment, or [begin] was
    read from a block that is gone. *)
Lemma snapshot_end xs acc m it p' :
  (0 < uses f)%nat → it_index it = 0%nat → (it_block it < next_block m)%nat →
  loop_step m (Some <$> xs) (AtEnd it acc) = Ok p' →
  over_snapshot xs acc m (Some <$> xs) p' ∨ stranded m p'.
Proof.
  intros Hu Hi Hb [= <-]. destruct (decide (it_block it = block m)) as [E|E].
  - left. apply enter_snapshot; cbn; rewrite ?length_fmap, ?Hi; try done. lia.
  - right. unfold enter. rewrite decide_False by (intros ->; done). cbn. done.
Qed.

(** *** How long the loop takes *)

Definition steps_left (cap : nat) p : nat :=
  match p with
  | AtBegin _ => 2 + uses f * cap
  | AtEnd _ _ => 1 + uses f * cap
  | InTurn it last seen _ => uses f * (it_index last - it_index it) - length seen
  | Over _ => 0
  end.

Lemma enter_steps_left cap it last acc :
  (steps_left cap (enter it last acc) ≤ uses f * (it_index last - it_index it))%nat.
Proof. unfold enter, steps_left. case_decide; [apply Nat.le_0_l|apply Nat.le_sub_l]. Qed.

Lemma step_steps_left cap m l p p' :
  (length l ≤ cap)%nat →
  (∀ it last seen acc, p = InTurn it last seen acc →
     (it_index it < it_index last)%nat ∧ (length seen < uses f)%nat) →
  loop_step m l p = Ok p' → (steps_left cap p' ≤ steps_left cap p - 1)%nat.
Proof.
  intros Hl Hp. destruct p as [acc|it acc|it last seen acc|acc].
  - intros [= <-]. cbn. lia.
  - intros [= <-]. etrans; [apply enter_steps_left|]. cbn.
    pose proof (Nat.mul_le_mono_l (length l - it_index it) cap (uses f)). lia.
  - destruct (Hp _ _ _ _ eq_refl) as [Hi Hs]. cbn. destruct (deref it m l) as [c|]; [|done]. cbn.
    rewrite length_app. cbn. case_decide.
    + intros [= <-]. cbn. rewrite length_app. cbn. lia.
    + destruct (turn f (seen ++ [c]) acc) as [acc' []]; intros [= <-]; [cbn; lia|].
      etrans; [apply enter_steps_left|]. cbn. nia.
  - intros [= <-]. done.
Qed.
End RangeFor.
Arguments appends {C}.

(** ** The loops of the sender *)

Section Sender.
Context {h : Host} {L : Type} `{Libusb L}.
Implicit Types (s : UsbSender L) (m : storage).
Variable grow : nat → nat.

#[local] Abbreviation driver := (MassStorageDevice (SenderUsbDevice L)).

(** The drivers behind the pointers of the list. *)
Definition listed_drivers s : list (option driver) :=
  map (λ id, drivers s !! id) (mass_storage_devices_ s).

(** The entry for a device whose path, bus id and information are read one
    after the other. *)
Definition list_entry (for_path for_bus_id for_info : driver) : UsbipDeviceInfo :=
  (device_entry for_info) {{ path := path (device_entry for_path);
                             busid := busid (device_entry for_bus_id) }}.

(** The loop of [HandleDeviceListRequest]. *)
Definition list_body : for_body driver (list UsbipDeviceInfo) := {|
  uses := 3;
  turn seen device_list :=
    match seen with
    | [for_path; for_bus_id; for_info] =>
      (device_list ++ [list_entry for_path for_bus_id for_info], false)
    | _ => (device_list, false)
    end |}.

(** The loop of [HandleDeviceImportRequest]. *)
Definition import_body (bus_id : list Z) : for_body driver bool := {|
  uses := 1;
  turn seen found :=
    match seen with
    | [device] =>
      if bool_decide (string_bytes (GetBusId (device_ (MassStorage.device device))) = bus_id)
      then (true, true) else (found, false)
    | _ => (found, false)
    end |}.

(** One of the loops on the thread of a client, with the threads that change
    the list: the sender, the memory of [mass_storage_devices_], the loop. *)
Record iteration (B : Type) := {
  sender : UsbSender L;
  devices_storage : storage;
  client_loop : loop driver B;
}.
#[global] Arguments sender {B} _.
#[global] Arguments devices_storage {B} _.
#[global] Arguments client_loop {B} _.

(** An access of the loop; [OnDeviceHotplug]; the [clear] of [Stop]. *)
Inductive iteration_action :=
  | LoopReads
  | Plugs (csw_memory : list Z) (capacity_memory : Z) (device : option (SenderUsbDevice L))
      (connected : bool)
  | StopClears.

Definition iteration_step {B} (f : for_body driver B) (a : iteration_action) (i : iteration B)
    : res (iteration B) :=
  let s := sender i in
  match a with
  | LoopReads =>
    p ← loop_step f (devices_storage i) (listed_drivers s) (client_loop i);
    Ok (i {{ client_loop := p }})
  | Plugs csw_memory capacity_memory device connected =>
    '((), s') ← OnDeviceHotplug csw_memory capacity_memory device connected s;
    let pushed := bool_decide (length (mass_storage_devices_ s') ≠ length (mass_storage_devices_ s)) in
    Ok (i {{ sender := s';
             devices_storage := if pushed
               then push_storage grow (mass_storage_devices_ s) (devices_storage i)
               else devices_storage i }})
  | StopClears => Ok (i {{ sender := s {{ mass_storage_devices_ := [] }} }})
  end.

Fixpoint iterate {B} (f : for_body driver B) (l : list iteration_action) (i : iteration B)
    : res (iteration B) :=
  match l with
  | [] => Ok i
  | a :: l' => i' ← iteration_step f a i; iterate f l' i'
  end.

Lemma iterate_app {B} (f : for_body driver B) l1 l2 i :
  iterate f (l1 ++ l2) i = (i' ← iterate f l1 i; iterate f l2 i').
Proof.
  revert i. induction l1 as [|a l1 IH]; intros i; [done|]. cbn.
  destruct (iteration_step f a i); [apply IH|done].
Qed.

(** *** What plugging in a device does to the list *)

Lemma add_driver_lists csw_memory capacity_memory usb s s' :
  sender_ok s → add_driver csw_memory capacity_memory usb s = Ok ((), s') →
  s' = s ∨ ∃ d, mass_storage_devices_ s' = mass_storage_devices_ s ++ [next_object s] ∧
    drivers s' !! next_object s = Some d ∧
    ∀ id, id ≠ next_object s → drivers s' !! id = drivers s !! id.
Proof.
  intros [Hn Hc Hcn Hl Hf]. unfold add_driver.
  destruct (MassStorage.Initialize _ _ _) as [[[] d]|e]; [|by intros [= <-]; left|done].
  assert (next_object s ∉ UrbCapture.devices_ (urb_capture_ s)) as Hnew.
  { intros (d0 & Hd0 & _)%Hl. rewrite Hf in Hd0; [done|lia]. }
  destruct (AddDevice_new (next_object s) (urb_capture_ s) (<[next_object s := d]> (drivers s)) d)
    as (hp & -> & Hself & Hother); [done|apply lookup_insert_eq|].
  intros [= <-]. right. eexists. destruct s. cbn in *. split_and!; [done|exact Hself|].
  intros id Hid. by rewrite Hother, lookup_insert_ne.
Qed.

Lemma hotplug_lists csw_memory capacity_memory device connected s s' :
  sender_ok s → OnDeviceHotplug csw_memory capacity_memory device connected s = Ok ((), s') →
  sender_ok s' ∧
  (mass_storage_devices_ s' = mass_storage_devices_ s ∧ listed_drivers s' = listed_drivers s ∨
   ∃ id d, mass_storage_devices_ s' = mass_storage_devices_ s ++ [id] ∧
     listed_drivers s' = listed_drivers s ++ [Some d]).
Proof.
  intros Hok. unfold OnDeviceHotplug.
  destruct device as [usb|]; [case_match|]; try (intros [= <-]; by split; [|left]).
  intros Hrun. split; [by apply (wp_Ok _ _ _ _ _ _ (sender_ok_add_driver csw_memory capacity_memory usb s Hok) Hrun)|].
  destruct (add_driver_lists _ _ _ _ _ Hok Hrun) as [->|(d & E & Hd & Hother)]; [by left|].
  right. exists (next_object s), d. split; [done|]. unfold listed_drivers.
  rewrite E, map_app. cbn. rewrite Hd. f_equal. apply map_ext_in. intros id Hid. apply Hother.
  intros ->. apply list_elem_of_In, (sender_captured _ Hok), (sender_live _ Hok) in Hid as (d0 & Hd0 & _).
  by rewrite (sender_fresh _ Hok) in Hd0.
Qed.

(** *** The states of an iteration *)

(** What every iteration without a [Stop] keeps. *)
Record iteration_ok {B} (i : iteration B) : Prop := {
  iteration_sender : sender_ok (sender i);
  iteration_storage : storage_ok (devices_storage i) (mass_storage_devices_ (sender i));
}.

Hypothesis grows : ∀ n, (n < grow n)%nat.

Lemma push_storage_ok {A} (l : list A) x m : storage_ok m l → storage_ok (push_storage grow l m) (l ++ [x]).
Proof.
  intros [Hr Hb]. pose proof (grows (capacity m)). unfold push_storage.
  case_decide; split; cbn; rewrite ?length_app; cbn; lia.
Qed.

Lemma plugs_appends {B} (f : for_body driver B) csw_memory capacity_memory device connected (i i' : iteration B) :
  iteration_ok i → iteration_step f (Plugs csw_memory capacity_memory device connected) i = Ok i' →
  iteration_ok i' ∧ client_loop i' = client_loop i ∧
  appends (devices_storage i) (listed_drivers (sender i)) (devices_storage i') (listed_drivers (sender i')).
Proof.
  intros [Hok Hst]. cbn.
  destruct (OnDeviceHotplug _ _ _ _ (sender i)) as [[[] s']|e] eqn:Hrun; [|done]. intros [= <-].
  destruct (hotplug_lists _ _ _ _ _ _ Hok Hrun) as [Hok' [[E1 E2]|(id & d & E1 & E2)]]; destruct i as [s m p]; cbn in *.
  - rewrite E1, bool_decide_false by lia. split_and!; [by split; cbn; rewrite ?E1|done|].
    rewrite E2. by apply appends_in.
  - rewrite E1, bool_decide_true by (rewrite length_app; cbn; lia).
    split_and!; [split; cbn; [done|]; rewrite E1; by apply push_storage_ok|done|].
    rewrite E2. unfold push_storage. case_decide; [apply appends_moved; cbn; lia|].
    apply appends_in. by exists [Some d].
Qed.

Lemma reads_ok {B} (f : for_body driver B) (i i' : iteration B) :
  iteration_ok i → iteration_step f LoopReads i = Ok i' →
  iteration_ok i' ∧ sender i' = sender i ∧ devices_storage i' = devices_storage i ∧
  loop_step f (devices_storage i) (listed_drivers (sender i)) (client_loop i) = Ok (client_loop i').
Proof.
  intros [Hok Hst]. cbn. destruct (loop_step _ _ _ _) as [p|] eqn:E; [|done]. intros [= <-].
  destruct i. by split_and!.
Qed.

Lemma listed_live s : sender_ok s → ∃ ds, listed_drivers s = Some <$> ds ∧
  drivers_at (mass_storage_devices_ s) s = Ok (ds, s).
Proof.
  intros Hok. unfold listed_drivers.
  assert (∀ id, id ∈ mass_storage_devices_ s → is_Some (drivers s !! id)) as Hin.
  { intros id Hid. destruct (sender_live _ Hok id (sender_captured _ Hok id Hid)) as (d & Hd & _). eauto. }
  revert Hin. generalize (mass_storage_devices_ s). intros ids Hin.
  induction ids as [|id ids IH]; [by exists []|].
  destruct (Hin id) as [d Hd]; [by left|]. destruct IH as (ds & E1 & E2); [intros; apply Hin; by right|].
  exists (d :: ds). cbn. rewrite Hd, E1. split; [done|].
  unfold mbind, M_bind, driver_at. by rewrite Hd, E2.
Qed.

(** *** A loop that ends has seen the list of one moment *)

Section Body.
Context {B : Type}.
Variable f : for_body driver B.
Hypothesis uses_positive : (0 < uses f)%nat.
Implicit Types (i : iteration B) (acts : list iteration_action).

(** A step without a [Stop], by whether the loop takes it. *)
Lemma step_cases a i i' :
  a ≠ StopClears → iteration_ok i → iteration_step f a i = Ok i' →
  iteration_ok i' ∧
  (sender i' = sender i ∧ devices_storage i' = devices_storage i ∧
     loop_step f (devices_storage i) (listed_drivers (sender i)) (client_loop i) = Ok (client_loop i') ∨
   client_loop i' = client_loop i ∧
     appends (devices_storage i) (listed_drivers (sender i)) (devices_storage i') (listed_drivers (sender i'))).
Proof.
  intros Ha Hok Hstep. destruct a as [|csw capacity device connected|]; [..|done].
  - destruct (reads_ok _ _ _ Hok Hstep) as (Hok' & E1 & E2 & E3). split; [done|]. by left.
  - destruct (plugs_appends _ _ _ _ _ _ _ Hok Hstep) as (Hok' & E & Happ). split; [done|]. by right.
Qed.

Lemma iterate_cons a acts i i2 :
  StopClears ∉ (a :: acts) → iteration_ok i → iterate f (a :: acts) i = Ok i2 →
  ∃ i1, iteration_step f a i = Ok i1 ∧ iterate f acts i1 = Ok i2 ∧ iteration_ok i1 ∧ (StopClears ∉ acts) ∧
  (sender i1 = sender i ∧ devices_storage i1 = devices_storage i ∧
     loop_step f (devices_storage i) (listed_drivers (sender i)) (client_loop i) = Ok (client_loop i1) ∨
   client_loop i1 = client_loop i ∧
     appends (devices_storage i) (listed_drivers (sender i)) (devices_storage i1) (listed_drivers (sender i1))).
Proof.
  rewrite not_elem_of_cons. intros [Ha Hacts] Hok. cbn.
  destruct (iteration_step f a i) as [i1|] eqn:E; [|done]. cbn. intros Hrun. exists i1.
  destruct (step_cases a i i1) as [Hok1 Hcases]; auto.
Qed.

Lemma iterate_stranded acts i i' acc :
  StopClears ∉ acts → iteration_ok i → stranded (devices_storage i) (client_loop i) →
  iterate f acts i = Ok i' → client_loop i' ≠ Over acc.
Proof.
  revert i. induction acts as [|a acts IH]; intros i Hacts Hok Hs Hrun.
  { injection Hrun as <-. intros E. by rewrite E in Hs. }
  destruct (iterate_cons _ _ _ _ Hacts Hok Hrun) as (i1 & _ & Hrun1 & Hok1 & Hacts1 & [(_ & _ & E)|[E Happ]]).
  - by rewrite stranded_step in E.
  - apply (IH i1); [done..| |done]. rewrite E. by eapply stranded_appends.
Qed.

Lemma iterate_snapshot xs acc0 acts i i' acc :
  StopClears ∉ acts → iteration_ok i →
  over_snapshot f xs acc0 (devices_storage i) (listed_drivers (sender i)) (client_loop i) →
  iterate f acts i = Ok i' → client_loop i' = Over acc → acc = for_each f xs acc0.
Proof.
  revert i. induction acts as [|a acts IH]; intros i Hacts Hok Hs Hrun Hover.
  { injection Hrun as <-. by rewrite Hover in Hs. }
  destruct (iterate_cons _ _ _ _ Hacts Hok Hrun) as (i1 & _ & Hrun1 & Hok1 & Hacts1 & [(E1 & E2 & E)|[E Happ]]);
    apply (IH i1); try done.
  - rewrite E1, E2. by eapply snapshot_step.
  - rewrite E. by eapply snapshot_appends.
Qed.

(** [begin] has been read, from a block that has been given. *)
Definition begun m (p : loop driver B) (acc0 : B) : Prop :=
  p = AtBegin acc0 ∨ ∃ it, p = AtEnd it acc0 ∧ it_index it = 0%nat ∧ (it_block it < next_block m)%nat.

Lemma begun_appends m (l : list (option driver)) m' l' p acc0 : appends m l m' l' → begun m p acc0 → begun m' p acc0.
Proof.
  intros [|m2 l2] [->|(it & -> & Hi & Hb)]; try (by left); right; exists it; split_and!; (done || lia).
Qed.

Lemma begun_linearizes acc0 acts i i' acc :
  StopClears ∉ acts → iteration_ok i → begun (devices_storage i) (client_loop i) acc0 →
  iterate f acts i = Ok i' → client_loop i' = Over acc →
  ∃ before after i1 ds, acts = before ++ after ∧ iterate f before i = Ok i1 ∧ iteration_ok i1 ∧
    listed_drivers (sender i1) = Some <$> ds ∧ acc = for_each f ds acc0.
Proof.
  revert i. induction acts as [|a acts IH]; intros i Hacts Hok Hbeg Hrun Hover.
  { injection Hrun as <-. destruct Hbeg as [E|(it & E & _)]; congruence. }
  destruct (iterate_cons _ _ _ _ Hacts Hok Hrun) as (i1 & E0 & Hrun1 & Hok1 & Hacts1 & Hcases).
  assert (begun (devices_storage i1) (client_loop i1) acc0 →
    ∃ before after i2 ds, a :: acts = before ++ after ∧ iterate f before i = Ok i2 ∧ iteration_ok i2 ∧
      listed_drivers (sender i2) = Some <$> ds ∧ acc = for_each f ds acc0) as Hnext.
  { intros Hbeg1. destruct (IH i1) as (before & after & i2 & ds & -> & Hbefore & H2); [done..|].
    exists (a :: before), after, i2, ds. split; [done|]. cbn. rewrite E0. cbn. by split. }
  destruct Hcases as [(E1 & E2 & E)|[E Happ]].
  2: { apply Hnext. rewrite E. by eapply begun_appends. }
  destruct Hbeg as [Hp|(it & Hp & Hi & Hb)]; rewrite Hp in E.
  - apply Hnext. injection E as E. right. rewrite <- E, E2. eexists. split; [done|].
    split; [done|]. by destruct Hok as [_ [_ ?]].
  - destruct (listed_live (sender i)) as (ds & Hds & _); [apply Hok|]. rewrite Hds in E.
    apply snapshot_end in E as [Hs|Hs]; [|exfalso|done..].
    + exists [], (a :: acts), i, ds. split_and!; [done..|].
      apply (iterate_snapshot ds acc0 acts i1 i'); try done. by rewrite E1, E2, Hds.
    + apply (iterate_stranded acts i1 i' acc); try done. by rewrite E2.
Qed.

(** *** With room for the devices plugged in, the loop does end *)

Fixpoint reads_in acts : nat :=
  match acts with
  | [] => 0
  | LoopReads :: acts' => S (reads_in acts')
  | _ :: acts' => reads_in acts'
  end.
Fixpoint plugs_in acts : nat :=
  match acts with
  | [] => 0
  | Plugs _ _ _ _ :: acts' => S (plugs_in acts')
  | _ :: acts' => plugs_in acts'
  end.

(** The drivers of the devices plugged in do not go wrong. *)
Definition plugs_return acts : Prop :=
  ∀ csw_memory capacity_memory usb connected,
    Plugs csw_memory capacity_memory (Some usb) connected ∈ acts →
    ∃ r, MassStorage.Initialize csw_memory capacity_memory (MassStorageDevice_new usb) = Ok r.

(** The loop reads the block the vector has. *)
Definition steady m (l : list (option driver)) (p : loop driver B) : Prop :=
  match p with
  | AtEnd it _ => it = begin_of m
  | InTurn it _ _ _ => it_block it = block m ∧ ∃ xs acc0, over_snapshot f xs acc0 m l p
  | _ => True
  end.

Lemma steady_enter xs acc0 m l it last acc :
  it_block it = block m → over_snapshot f xs acc0 m l (enter it last acc) → steady m l (enter it last acc).
Proof. unfold enter. case_decide; [done|]. intros Hb Hs. split; [done|by exists xs, acc0]. Qed.

Lemma steady_step m (ds : list driver) p :
  (block m < next_block m)%nat → (length ds ≤ capacity m)%nat → steady m (Some <$> ds) p →
  ∃ p', loop_step f m (Some <$> ds) p = Ok p' ∧ steady m (Some <$> ds) p' ∧
    (steps_left f (capacity m) p' ≤ steps_left f (capacity m) p - 1)%nat.
Proof.
  intros Hb Hlen Hs.
  assert (∃ p', loop_step f m (Some <$> ds) p = Ok p' ∧ steady m (Some <$> ds) p') as (p' & Hrun & Hs').
  { destruct p as [acc|it acc|it last seen acc|acc]; [by eexists|..|by eexists].
    - cbn in Hs. subst it. eexists. split; [done|]. apply (steady_enter ds acc); [done|].
      apply enter_snapshot; cbn; rewrite ?length_fmap; (done || lia).
    - destruct Hs as [Hblk (xs & acc0 & Hs)].
      assert (∃ p', loop_step f m (Some <$> ds) (InTurn it last seen acc) = Ok p') as [p' Hrun].
      { destruct Hs as (_ & _ & _ & Hpre & c & Hc & _). cbn.
        rewrite (deref_snapshot _ _ _ _ _ Hblk (Hpre Hblk) Hc). cbn. case_decide; [by eexists|].
        destruct (turn f _ acc) as [acc' []]; by eexists. }
      exists p'. split; [done|]. pose proof (snapshot_step _ _ _ _ _ _ _ Hs Hrun) as Hs'.
      cbn in Hrun. destruct (deref it m _); [|done]. cbn in Hrun. case_decide.
      + injection Hrun as <-. split; [done|by exists xs, acc0].
      + destruct (turn f _ acc) as [acc' []]; injection Hrun as <-; [done|]. by apply (steady_enter xs acc0). }
  exists p'. split_and!; [done..|].
  apply (step_steps_left f (capacity m) m (Some <$> ds)); [by rewrite length_fmap| |done].
  intros it last seen acc ->. destruct Hs as [_ (xs & acc0 & _ & _ & Hl & _ & c & Hc & _ & Hseen & _)].
  apply lookup_lt_Some in Hc. lia.
Qed.

Lemma plugs_steady csw_memory capacity_memory device connected i :
  iteration_ok i → plugs_return [Plugs csw_memory capacity_memory device connected] →
  (length (mass_storage_devices_ (sender i)) < capacity (devices_storage i))%nat →
  steady (devices_storage i) (listed_drivers (sender i)) (client_loop i) →
  ∃ i', iteration_step f (Plugs csw_memory capacity_memory device connected) i = Ok i' ∧
    iteration_ok i' ∧ devices_storage i' = devices_storage i ∧ client_loop i' = client_loop i ∧
    steady (devices_storage i') (listed_drivers (sender i')) (client_loop i') ∧
    (length (mass_storage_devices_ (sender i')) ≤ S (length (mass_storage_devices_ (sender i))))%nat.
Proof.
  intros Hok Hret Hroom Hs.
  assert (∃ s', OnDeviceHotplug csw_memory capacity_memory device connected (sender i) = Ok ((), s')) as [s' Hrun].
  { unfold OnDeviceHotplug. destruct device as [usb|]; [|by eexists]. case_match; [|by eexists].
    unfold add_driver. destruct (Hret csw_memory capacity_memory usb connected) as [[ok d] E]; [by left|]. rewrite E.
    destruct ok; [|by eexists]. destruct (AddDevice _ _) as [b [c hp]]. by eexists. }
  destruct (hotplug_lists _ _ _ _ _ _ (iteration_sender _ Hok) Hrun) as [_ Hlists].
  assert (∃ i', iteration_step f (Plugs csw_memory capacity_memory device connected) i = Ok i' ∧
    devices_storage i' = devices_storage i ∧ sender i' = s') as (i' & Hstep & Est & Esd).
  { cbn. rewrite Hrun. eexists. split; [done|]. destruct i as [s m p]. cbn in *. split; [|done].
    unfold push_storage. rewrite decide_False by lia. by case_match. }
  destruct (plugs_appends _ _ _ _ _ _ _ Hok Hstep) as (Hok' & E & Happ).
  exists i'. split_and!; [done..| |].
  - rewrite E. destruct (client_loop i) as [|it acc|it last seen acc|]; try done.
    + cbn in *. by rewrite Est.
    + destruct Hs as [Hb (xs & acc0 & Hs)]. split; [by rewrite Est|]. exists xs, acc0.
      by eapply snapshot_appends.
  - rewrite Esd. destruct Hlists as [[-> _]|(id & d & -> & _)]; rewrite ?length_app; cbn; lia.
Qed.

Lemma iterate_finishes acts i :
  StopClears ∉ acts → plugs_return acts → iteration_ok i →
  steady (devices_storage i) (listed_drivers (sender i)) (client_loop i) →
  (length (mass_storage_devices_ (sender i)) + plugs_in acts ≤ capacity (devices_storage i))%nat →
  (steps_left f (capacity (devices_storage i)) (client_loop i) ≤ reads_in acts)%nat →
  ∃ i' acc, iterate f acts i = Ok i' ∧ client_loop i' = Over acc.
Proof.
  revert i. induction acts as [|a acts IH]; intros i Hno Hret Hok Hs Hroom Hsteps.
  { exists i. cbn in Hsteps. destruct (client_loop i) as [| |it last seen acc|acc]; try (cbn in Hsteps; lia); [exfalso|by eexists].
    destruct Hs as [_ (xs & acc0 & _ & _ & Hl & _ & c & Hc & _ & Hseen & _)]. apply lookup_lt_Some in Hc.
    cbn in Hsteps. nia. }
  apply not_elem_of_cons in Hno as [Ha Hno].
  assert (plugs_return acts) as Hret' by (intros ????; intros; eapply Hret; by right).
  destruct a as [|csw cap device connected|]; [..|done].
  - destruct (listed_live (sender i)) as (ds & Hds & _); [apply Hok|]. rewrite Hds in Hs.
    destruct (steady_step (devices_storage i) ds (client_loop i)) as (p' & Hrun & Hs' & Hle); [apply Hok| |done|].
    { apply (f_equal length) in Hds. unfold listed_drivers in Hds. rewrite length_map, length_fmap in Hds.
      rewrite <- Hds. apply Hok. }
    cbn [iterate iteration_step]. rewrite Hds, Hrun. cbn [res_bind mbind].
    destruct i as [s m p]. cbn in *.
    apply IH; cbn; try done; [by destruct Hok|by rewrite Hds|lia].
  - destruct (plugs_steady csw cap device connected i) as (i1 & Hstep & Hok1 & E1 & E2 & Hs1 & Hl); [done|..|done|].
    { intros c1 c2 usb c3 [= <- <- <- <-]%list_elem_of_singleton. eapply Hret. by left. }
    { cbn in Hroom. lia. }
    cbn [iterate]. rewrite Hstep. cbn. apply IH; try done; rewrite E1; [|rewrite E2; exact Hsteps].
    cbn in Hroom. lia.
Qed.

(** *** The blocks a loop knows *)

Definition known_block m (p : loop driver B) : Prop :=
  match p with
  | AtEnd it _ | InTurn it _ _ _ => (it_block it < next_block m)%nat
  | _ => True
  end.

Lemma iterate_known acts i i' :
  StopClears ∉ acts → iteration_ok i → known_block (devices_storage i) (client_loop i) →
  iterate f acts i = Ok i' → iteration_ok i' ∧ known_block (devices_storage i') (client_loop i').
Proof.
  clear uses_positive. revert i. induction acts as [|a acts IH]; intros i Hno Hok Hk Hrun; [by injection Hrun as <-|].
  destruct (iterate_cons _ _ _ _ Hno Hok Hrun) as (i1 & _ & Hrun1 & Hok1 & Hno1 & [(E1 & E2 & E)|[E Happ]]);
    apply (IH i1); try done.
  - rewrite E2. destruct (client_loop i) as [acc|it acc|it last seen acc|acc]; cbn in E.
    + injection E as <-. apply Hok.
    + injection E as <-. unfold enter. by case_decide.
    + destruct (deref _ _ _); [|done]. cbn in E. case_decide; [by injection E as <-|].
      destruct (turn f _ acc) as [acc' []]; injection E as <-; [done|]. unfold enter. by case_decide.
    + by injection E as <-.
  - rewrite E. destruct Happ; [done|]. destruct (client_loop i); cbn in *; (done || lia).
Qed.
End Body.
End Sender.

(** ** Properties *)

Section Properties.
Context {h : Host} {L : Type} `{Libusb L}.
Implicit Types (s : UsbSender L) (m : storage) (acts : list (iteration_action (L := L))).
Variable grow : nat → nat.
Hypothesis grows : ∀ n, (n < grow n)%nat.

(** A loop about to begin. *)
Definition starting {B} s m (acc : B) : iteration B :=
  {| sender := s; devices_storage := m; client_loop := AtBegin acc |}.

(** [P] of the sender at some moment of the run. *)
Definition at_a_moment {B} (f : for_body _ B) acts (i : iteration B) (P : UsbSender L → Prop) : Prop :=
  ∃ before after i1, acts = before ++ after ∧ iterate grow f before i = Ok i1 ∧ P (sender i1).

Lemma for_each_list (ds : list (MassStorageDevice (SenderUsbDevice L))) acc :
  for_each list_body ds acc = acc ++ map device_entry ds.
Proof.
  revert acc. induction ds as [|d ds IH]; intros acc; [by rewrite app_nil_r|].
  cbn. rewrite IH, <- app_assoc. done.
Qed.

Lemma for_each_import bus_id (ds : list (MassStorageDevice (SenderUsbDevice L))) :
  for_each (import_body bus_id) ds false
  = existsb (λ d : MassStorageDevice (SenderUsbDevice L),
      bool_decide (string_bytes (GetBusId (device_ (MassStorage.device d))) = bus_id)) ds.
Proof. induction ds as [|d ds IH]; [done|]. cbn. case_bool_decide; [done|exact IH]. Qed.

Lemma starting_ok {B} s m (acc : B) :
  sender_ok s → storage_ok m (mass_storage_devices_ s) → iteration_ok (starting s m acc).
Proof. by split. Qed.

Lemma linearizes {B} (f : for_body _ B) acc0 s m acts i' acc :
  (0 < uses f)%nat → sender_ok s → storage_ok m (mass_storage_devices_ s) → StopClears ∉ acts →
  iterate grow f acts (starting s m acc0) = Ok i' → client_loop i' = Over acc →
  at_a_moment f acts (starting s m acc0) (λ s1, ∃ ds,
    drivers_at (mass_storage_devices_ s1) s1 = Ok (ds, s1) ∧ acc = for_each f ds acc0).
Proof.
  intros Hu Hok Hm Hno Hrun Hover.
  destruct (begun_linearizes grow grows f Hu acc0 acts (starting s m acc0) i' acc)
    as (before & after & i1 & ds & -> & Hbefore & Hok1 & Hds & ->); [done|by apply starting_ok|by left|done..|].
  exists before, after, i1. split_and!; [done..|].
  destruct (listed_live (sender i1)) as (ds' & Hds' & Hrun'); [apply Hok1|].
  exists ds'. split; [done|]. f_equal. rewrite Hds' in Hds.
  by apply list_fmap_eq_inj in Hds; [|intros x y [= ->]].
Qed.

(** C11: A request sees the list of one moment. On any sender the program can
    get to, the loops of the two requests may be interleaved with any number of
    devices plugged in, access by access. If the loop of
    [HandleDeviceListRequest] ends, its answer is the one the whole handler
    would give at one moment of the run, and so is that of
    [HandleDeviceImportRequest]; and both do end, without a fault, when the
    vector has room for what is plugged in and the drivers do not go wrong. *)
Theorem requests_see_one_list l seq s m acts message :
  sender_events l (UsbSender_new seq) = Ok ((), s) →
  storage_ok m (mass_storage_devices_ s) → StopClears ∉ acts →
  (∀ i' device_list,
     iterate grow list_body acts (starting s m []) = Ok i' → client_loop i' = Over device_list →
     at_a_moment list_body acts (starting s m []) (λ s1,
       counted (CreateDeviceListResponse device_list) s1 = device_list_response s1)) ∧
  (∀ i' found,
     iterate grow (import_body (payload message)) acts (starting s m false) = Ok i' →
     client_loop i' = Over found →
     at_a_moment (import_body (payload message)) acts (starting s m false) (λ s1,
       counted (CreateDeviceImportResponse found (if found then "" else "Device not found")) s1
       = import_response message s1)) ∧
  ((length (mass_storage_devices_ s) + plugs_in acts ≤ capacity m)%nat → plugs_return acts →
   (2 + 3 * capacity m ≤ reads_in acts)%nat →
   (∃ i' device_list, iterate grow list_body acts (starting s m []) = Ok i' ∧
      client_loop i' = Over device_list) ∧
   (∃ i' found, iterate grow (import_body (payload message)) acts (starting s m false) = Ok i' ∧
      client_loop i' = Over found)).
Proof.
  intros Hok%sender_events_ok Hm Hno. split_and!.
  - intros i' dl Hrun Hover.
    destruct (linearizes list_body [] s m acts i' dl) as (before & after & i1 & E & Hb & ds & Hds & Edl); [cbn; lia|done..|].
    exists before, after, i1. split_and!; [done..|]. rewrite for_each_list in Edl. cbn in Edl. subst dl.
    unfold device_list_response, mbind, M_bind, get. by rewrite Hds.
  - intros i' found Hrun Hover.
    destruct (linearizes (import_body (payload message)) false s m acts i' found)
      as (before & after & i1 & E & Hb & ds & Hds & Ef); [cbn; lia|done..|].
    exists before, after, i1. split_and!; [done..|]. rewrite for_each_import in Ef. subst found.
    unfold import_response, mbind, M_bind, get. by rewrite Hds.
  - intros Hroom Hret Hreads.
    split; apply (iterate_finishes grow grows); try done; try (by apply starting_ok); cbn; lia.
Qed.

(** C12: The list of the sender is not protected. While a client's request is
    in its loop, a device that is plugged in when the vector is full moves it
    to another block, and [Stop] destroys its elements: in both cases the next
    access of the loop is to memory that is gone. *)
Theorem unlocked_list_faults {B} (f : for_body _ B) acc0 l seq s m before i1 it last seen acc :
  sender_events l (UsbSender_new seq) = Ok ((), s) →
  storage_ok m (mass_storage_devices_ s) → StopClears ∉ before →
  iterate grow f before (starting s m acc0) = Ok i1 → client_loop i1 = InTurn it last seen acc →
  iterate grow f (before ++ [StopClears; LoopReads]) (starting s m acc0) = Fault OutOfBounds ∧
  (∀ csw_memory capacity_memory usb d,
     dd_bDeviceClass (dev_descriptor (device_info_ usb)) = UsbDeviceClass_val MASS_STORAGE →
     MassStorage.Initialize csw_memory capacity_memory (MassStorageDevice_new usb) = Ok (true, d) →
     length (mass_storage_devices_ (sender i1)) = capacity (devices_storage i1) →
     iterate grow f (before ++ [Plugs csw_memory capacity_memory (Some usb) true; LoopReads])
       (starting s m acc0) = Fault OutOfBounds).
Proof.
  intros Hok%sender_events_ok Hm Hno Hrun Hturn.
  destruct (iterate_known grow grows f before (starting s m acc0) i1) as [Hok1 Hk]; [done|by apply starting_ok|done..|].
  rewrite Hturn in Hk. cbn in Hk. destruct i1 as [s1 m1 p1]. cbn in Hturn, Hk. subst p1.
  split; [|intros csw cap usb d Hclass Hinit Hfull]; rewrite iterate_app, Hrun.
  - cbn. unfold deref. case_decide; [|done]. by destruct s1.
  - cbn. rewrite Hclass, Z.eqb_refl. cbn [andb]. unfold add_driver. rewrite Hinit.
    destruct (AddDevice _ _) as [b [c hp]]. destruct s1 as [run port dm cp mh srv list heap next sq]. cbn in *.
    rewrite bool_decide_true by (rewrite length_app; cbn; lia).
    unfold push_storage. rewrite decide_True by done. cbn. unfold deref. cbn.
    rewrite decide_False by lia. done.
Qed.
End Properties.

(** ** Witnesses *)

(** The memory of a vector that doubles, after three appends. *)
Definition doubling (n : nat) : nat := max 1 (2 * n).
Lemma doubling_grows n : (n < doubling n)%nat.
Proof. unfold doubling. lia. Qed.
Definition roomy : storage :=
  push_storage doubling [0; 1]%nat (push_storage doubling [0]%nat (push_storage (A := nat) doubling [] storage_init)).
Definition full : storage :=
  push_storage doubling [0]%nat (push_storage (A := nat) doubling [] storage_init).

Definition plug_in : iteration_action (L := ()) := Plugs (replicate 13 0) 0 (Some sample_storage) true.

(** A third device is plugged in while a list request is at the first entry. *)
Definition interleaved : list (iteration_action (L := ())) :=
  replicate 4 LoopReads ++ plug_in :: replicate 10 LoopReads.

Lemma requests_see_one_list_witness :
  ∃ i' device_list,
    iterate (h := LittleEndian) doubling list_body interleaved (starting storage_sender roomy []) = Ok i' ∧
    client_loop i' = Over device_list ∧ length device_list = 2%nat ∧
    length (mass_storage_devices_ (sender i')) = 3%nat ∧
    at_a_moment (h := LittleEndian) doubling list_body interleaved (starting storage_sender roomy [])
      (λ s1 : UsbSender (), counted (CreateDeviceListResponse (h := LittleEndian) device_list) s1
             = device_list_response (h := LittleEndian) s1).
Proof.
  destruct (requests_see_one_list (h := LittleEndian) doubling doubling_grows storage_events 1 storage_sender
    roomy interleaved (new_message DEVICE_IMPORT_REQUEST [] 1)) as (Hlist & _ & Hends).
  - exact storage_sender_run.
  - split; rewrite ?storage_sender_lists; vm_compute; lia.
  - unfold interleaved, plug_in. rewrite elem_of_app, elem_of_cons, !elem_of_replicate. naive_solver.
  - destruct Hends as [(i' & dl & Hrun & Hover) _].
    + rewrite storage_sender_lists. vm_compute. lia.
    + intros csw cap usb connected. unfold interleaved, plug_in.
      rewrite elem_of_app, elem_of_cons, !elem_of_replicate.
      intros [[[=] _]|[[= -> -> -> ->]|[[=] _]]]. eexists. vm_compute. reflexivity.
    + vm_compute. lia.
    + exists i', dl. split_and!; [exact Hrun|exact Hover|..|exact (Hlist i' dl Hrun Hover)];
        vm_compute in Hrun; injection Hrun as <-.
      * vm_compute in Hover. injection Hover as <-. vm_compute. reflexivity.
      * vm_compute. reflexivity.
Defined.

Lemma unlocked_list_faults_witness :
  iterate (h := LittleEndian) doubling list_body (replicate 4 LoopReads ++ [plug_in; LoopReads])
    (starting storage_sender full []) = Fault OutOfBounds ∧
  iterate (h := LittleEndian) doubling list_body (replicate 4 LoopReads ++ [StopClears; LoopReads])
    (starting storage_sender full []) = Fault OutOfBounds.
Proof.
  destruct (unlocked_list_faults (h := LittleEndian) doubling doubling_grows list_body [] storage_events 1
    storage_sender full (replicate 4 LoopReads)
    (match iterate (h := LittleEndian) doubling list_body (replicate 4 LoopReads) (starting storage_sender full []) with
     | Ok i => i | Fault _ => starting storage_sender full [] end)
    {| it_block := 2; it_index := 0 |} {| it_block := 2; it_index := 2 |}
    (match iterate (h := LittleEndian) doubling list_body (replicate 4 LoopReads) (starting storage_sender full []) with
     | Ok i => match client_loop i with InTurn _ _ seen _ => seen | _ => [] end | Fault _ => [] end) [])
    as [Hclear Hplug].
  - exact storage_sender_run.
  - split; rewrite ?storage_sender_lists; vm_compute; lia.
  - rewrite elem_of_replicate. naive_solver.
  - vm_compute. reflexivity.
  - vm_compute. reflexivity.
  - split; [|exact Hclear]. eapply Hplug; vm_compute; reflexivity.
Defined.
