(* ===== verification/System.v ===== *)
(** * System: the two programs and the network between them

    The sender ([sender/main.cpp]) with its listening socket, the receiver
    ([receiver/main.cpp]) with its client, and the bytes on their way in
    each direction.  The programs' own steps are those of [SenderMain.v] and
    [ReceiverMain.v]; here a thread reads only what the other program has sent. *)

From S2P Require Import Prelude Memory UsbTypes UsbipProtocol MessageHandler VirtualUsbDevice UsbipManager TcpSocket UsbDeviceManager MassStorage UrbCapture UsbipClient Receiver ReceiverMain Sender Pipeline ClientInvariant SenderMain SenderNetwork Lifetimes.
From stdpp Require Import gmap.
Open Scope Z_scope.

(** ** The receiver with its threads *)

Section ReceiverThreads.
Context {h : Host}.
Variable std_system : list string → string → Z.

Fixpoint on_all_messages (now : Z) (junk_setup : UsbSetupPacket) (junk : UsbipDeviceInfo)
    (answers : list send_answer) (ms : list NetworkMessage) : M UsbReceiver () :=
  match ms with
  | [] => mret ()
  | m :: ms' =>
    OnMessage std_system now junk_setup junk answers m;;
    on_all_messages now junk_setup junk answers ms'
  end.

(** [UsbipClient::OnNetworkData], with the receiver's callbacks. *)
Definition on_data (now : Z) (junk_setup : UsbSetupPacket) (junk : UsbipDeviceInfo)
    (answers : list send_answer) (data : list Z) : M UsbReceiver () := λ r,
  match ProcessReceivedData data (UsbipClient.message_handler_ (usbip_client_ r)) with
  | Ok (ms, mh) =>
    on_all_messages now junk_setup junk answers ms
      (r {{ usbip_client_ := (usbip_client_ r) {{ UsbipClient.message_handler_ := mh }} }})
  | Fault e => Fault e
  end.

(** The receive thread. *)
Definition receiver_thread (now : Z) (junk_setup : UsbSetupPacket) (junk : UsbipDeviceInfo)
    (answers : list send_answer) (a : TcpSocket.action) : M UsbReceiver () :=
  on_client (on_socket (TcpSocket.perform a));;
  match a with
  | ReceiveAnswer (Received data) => on_data now junk_setup junk answers data
  | _ => mret ()
  end.

(** The calls of [main], [Run], the signal handler and the heartbeat thread;
    [l] is what the receive thread does while the socket is closing (of what it
    reads then, the client's handler is what the model follows). *)
Inductive receiver_call :=
  | CallInitialize
  | CallStart (host : string) (port : Z) (os : os_answers) (polls : nat → bool)
      (answers : list send_answer) (l : list TcpSocket.action)
  | CallStop (l : list TcpSocket.action)
  | CallReconnect (os : os_answers) (polls : nat → bool) (answers : list send_answer)
      (l : list TcpSocket.action)
  | CallImport (bus_id : list Z) (answers : list send_answer)
  | CallList (answers : list send_answer)
  | CallHeartbeat (answers : list send_answer).

Definition close_of (l : list TcpSocket.action) : M UsbipClient bool :=
  close_socket 0 {| bmRequestType := 0; bRequest := 0; wValue := 0; wIndex := 0; wLength := 0 |} [] l.
Definition connect_of (os : os_answers) (polls : nat → bool) (l : list TcpSocket.action)
    (host : string) (port : Z) : M UsbipClient bool :=
  UsbipClient.Connect host port os polls (close_of l).

Definition receiver_calls (c : receiver_call) : M UsbReceiver () :=
  match c with
  | CallInitialize => receiver_perform std_system ReceiverMain.Initializes
  | CallStart host port os polls answers l =>
    receiver_perform std_system (ReceiverMain.Starts host port (connect_of os polls l) answers)
  | CallStop l => receiver_perform std_system (ReceiverMain.Stops (close_of l))
  | CallReconnect os polls answers l =>
    receiver_perform std_system (Reconnects (connect_of os polls l) answers)
  | CallImport bus_id answers => receiver_perform std_system (ImportsDevice bus_id answers)
  | CallList answers => receiver_perform std_system (ListsDevices answers)
  | CallHeartbeat answers => on_client (heartbeat_turn answers);; mret ()
  end.

Definition actions_of (c : receiver_call) : list TcpSocket.action :=
  match c with
  | CallStart _ _ _ _ _ l | CallStop l | CallReconnect _ _ _ l => l
  | _ => []
  end.
End ReceiverThreads.

(** ** The system *)

(** [read_up] and [read_down] count the bytes read, or lost: of all the
    receiver's socket, and the sender's, have sent. *)
Record system (L : Type) := {
  sender_ : UsbSender L;
  receiver_ : UsbReceiver;
  read_up : nat;
  read_down : nat;
}.
Arguments sender_ {L} _.
Arguments receiver_ {L} _.
Arguments read_up {L} _.
Arguments read_down {L} _.

Section System.
Context {h : Host} {L : Type} `{Libusb L}.
Variable std_system : list string → string → Z.

Definition system_new (seq_sender seq_receiver : Z) : system L := {|
  sender_ := UsbSender_new seq_sender; receiver_ := UsbReceiver_new world_init seq_receiver;
  read_up := 0; read_down := 0 |}.

(** The bytes on their way to the sender, and to the receiver. *)
Definition sent_up (s : system L) : list Z :=
  sent_bytes (TcpSocket.events (tcp_client_ (usbip_client_ (receiver_ s)))).
Definition sent_down (s : system L) : list Z :=
  sent_bytes (TcpSocket.events (tcp_server_ (sender_ s))).
Definition up (s : system L) : list Z := drop (read_up s) (sent_up s).
Definition down (s : system L) : list Z := drop (read_down s) (sent_down s).

Definition on_sender (m : M (UsbSender L) ()) : M (system L) () := λ s,
  match m (sender_ s) with Ok (_, x) => Ok ((), s {{ sender_ := x }}) | Fault e => Fault e end.
Definition on_receiver (m : M UsbReceiver ()) : M (system L) () := λ s,
  match m (receiver_ s) with Ok (_, x) => Ok ((), s {{ receiver_ := x }}) | Fault e => Fault e end.

(** What the receive thread reads: no [recv] that gets data gets no bytes. *)
Definition reads (a : TcpSocket.action) : option (list Z) :=
  match a with ReceiveAnswer (Received data) => Some data | _ => None end.
Definition can_read (wire : list Z) (l : list TcpSocket.action) : bool :=
  bool_decide (Forall (λ data, data ≠ []) (omap reads l)) &&
  bool_decide (take (length (concat (omap reads l))) wire = concat (omap reads l)).
Definition takes (l : list TcpSocket.action) : M (system L) () :=
  modify (λ s, s {{ read_down := (read_down s + length (concat (omap reads l)))%nat }}).

(** [SenderDoes] includes what other clients do to the sender; a connection
    that is reset loses what is under way. *)
Inductive system_action :=
  | SenderDoes (e : sender_event (L := L))
  | SenderReads (client n : nat) (answers : list send_answer)
  | ReceiverDoes (c : receiver_call)
  | ReceiverThread (now : Z) (junk_setup : UsbSetupPacket) (junk : UsbipDeviceInfo)
      (answers : list send_answer) (a : TcpSocket.action)
  | ConnectionReset.

Definition system_enabled (s : system L) (a : system_action) : bool :=
  match a with
  | SenderDoes _ | ConnectionReset => true
  | SenderReads client n _ =>
    bool_decide (0 < n)%nat && bool_decide (n ≤ length (up s))%nat &&
    TcpSocket.enabled (tcp_server_ (sender_ s)) (ClientAnswer client (Received (take n (up s))))
  | ReceiverDoes c => can_read (down s) (actions_of c)
  | ReceiverThread _ _ _ _ a =>
    can_read (down s) [a] && TcpSocket.enabled (tcp_client_ (usbip_client_ (receiver_ s))) a
  end.

Definition system_perform (a : system_action) : M (system L) () :=
  match a with
  | SenderDoes e => on_sender (sender_perform e)
  | SenderReads client n answers =>
    s ← get;
    let data := take n (up s) in
    modify (λ s, s {{ read_up := (read_up s + n)%nat }});;
    on_sender (client_data answers client data)
  | ReceiverDoes c => takes (actions_of c);; on_receiver (receiver_calls std_system c)
  | ReceiverThread now junk_setup junk answers a =>
    takes [a];; on_receiver (receiver_thread std_system now junk_setup junk answers a)
  | ConnectionReset => 
    modify (λ s, s {{ read_up := length (sent_up s); read_down := length (sent_down s) }})
  end.

(** A schedule; what is not possible does not happen. *)
Fixpoint system_actions (l : list system_action) : M (system L) () :=
  match l with
  | [] => mret ()
  | a :: l' =>
    s ← get;
    (if system_enabled s a then system_perform a else mret ());;
    system_actions l'
  end.

(** The threads are the ones they are. *)
Definition action_ok (a : system_action) : Prop :=
  match a with
  | SenderDoes e => threads_only e
  | ReceiverDoes c => Forall receives (actions_of c)
  | ReceiverThread _ _ _ _ a => receives a
  | SenderReads _ _ _ | ConnectionReset => True
  end.
End System.

(** ** Properties *)

Section Idle.
Context {h : Host}.
Variable std_system : list string → string → Z.

(** A client whose callbacks have had nothing but errors, its buffer empty. *)
Definition is_error (n : notice) : Prop := match n with NoticeError _ => True | _ => False end.
Definition unfed (c : UsbipClient) : Prop :=
  Forall is_error (notices c) ∧ UsbipClient.message_handler_ c = SetMessageCallback MessageHandler_init.
Definition stays_unfed (c c' : UsbipClient) : Prop := unfed c → unfed c'.
#[export] Instance stays_unfed_preorder : PreOrder stays_unfed.
Proof. split; [by intros c H|]. intros c1 c2 c3 H1 H2 H. exact (H2 (H1 H)). Qed.

Lemma unfed_event e : respects stays_unfed (on_event e).
Proof.
  destruct e as [error|[]| | |]; cbn [on_event];
    unfold OnNetworkConnect, OnNetworkError, StartHeartbeat, StopHeartbeat, notify; respects;
    intros [Hn Hm]; try by split.
  split; [|done]. cbn. apply Forall_app. split; [done|]. by apply Forall_singleton.
Qed.

Lemma unfed_on_socket {A} (m : M TcpSocket A) : respects (grows no_data) m → respects stays_unfed (on_socket m).
Proof.
  intros Hm. apply (on_socket_grows stays_unfed no_data); [by intros c s [??]|done|].
  intros; apply unfed_event.
Qed.

Ltac unfed := respects; try (intros [? ?]; by split).

Lemma unfed_send_message m answers : respects stays_unfed (send_message m answers).
Proof.
  unfold send_message. unfed; [|by apply unfed_on_socket, grows_Send].
  intros c a c'. unfold UsbipClient.counted. destruct (m (UsbipClient.messages c)) as [[b s]|]; [|done].
  intros [= <- <-]. intros [? ?]. by split.
Qed.
Lemma unfed_request m answers : respects stays_unfed (request m answers).
Proof. unfold request. respects. apply unfed_send_message. Qed.

Lemma unfed_close l : Forall quiet l → respects stays_unfed (close_of l).
Proof.
  intros Hl. unfold close_of, close_socket. respects.
  - apply unfed_on_socket. assert (changes (grows no_data) DoCloseBegin) as Hb by (action; grows). exact Hb.
  - induction Hl as [|act l Ha _ IH]; cbn [receive_turns]; respects; [|done].
    apply (on_socket_grows stays_unfed no_data); [by intros c s [??]|by apply quiet_no_data|].
    intros e He. destruct e; try apply unfed_event. by destruct (He data).
  - apply unfed_on_socket. assert (changes (grows no_data) DoCloseEnd) as Hb by (action; grows). exact Hb.
Qed.
Lemma unfed_connect os polls l host port : Forall quiet l → respects stays_unfed (connect_of os polls l host port).
Proof.
  intros Hl. unfold connect_of, UsbipClient.Connect. unfed; [|by apply unfed_close].
  apply unfed_on_socket, connect_no_data.
Qed.
Lemma unfed_Disconnect l : Forall quiet l → respects stays_unfed (UsbipClient.Disconnect (close_of l)).
Proof. intros Hl. unfold UsbipClient.Disconnect, StopHeartbeat. unfed. by apply unfed_close. Qed.

(** A receiver with nothing imported. *)
Definition idle (r : UsbReceiver) : Prop := virtual_devices_ r = [] ∧ unfed (usbip_client_ r).
Definition stays_idle (r r' : UsbReceiver) : Prop := idle r → idle r'.
#[export] Instance stays_idle_preorder : PreOrder stays_idle.
Proof. split; [by intros r H|]. intros r1 r2 r3 H1 H2 H. exact (H2 (H1 H)). Qed.

Lemma idle_client {A} (m : M UsbipClient A) : respects stays_unfed m → respects stays_idle (on_client m).
Proof.
  intros Hm r a r'. unfold on_client. destruct (m _) as [[b c]|] eqn:E; [|done]. intros [= <- <-] [Hv Hu].
  split; [done|]. by apply (Hm _ _ _ E).
Qed.
Lemma idle_usbip {A} (m : M world A) : respects stays_idle (on_usbip m).
Proof.
  intros r a r'. unfold on_usbip. destruct (m _) as [[b w]|]; [|done]. by intros [= <- <-] [Hv Hu].
Qed.

Ltac idle := respects; try (intros [? [? ?]]; by (split; [|split])); try apply idle_usbip.

Lemma idle_calls c : Forall quiet (actions_of c) → respects stays_idle (receiver_calls std_system c).
Proof.
  intros Hq. destruct c; cbn [receiver_calls receiver_perform actions_of] in *.
  - unfold Receiver.Initialize, SetupUsbipCallbacks. idle.
  - unfold Receiver.Start. idle; apply idle_client; [by apply unfed_connect|apply unfed_request].
  - unfold Receiver.Stop. idle. apply idle_client. by apply unfed_Disconnect.
  - unfold reconnect. idle; apply idle_client; [by apply unfed_connect|apply unfed_request].
  - unfold Receiver.ImportDevice. idle. apply idle_client, unfed_request.
  - unfold Receiver.ListDevices. idle. apply idle_client, unfed_request.
  - idle. apply idle_client. unfold heartbeat_turn. unfed. apply unfed_send_message.
Qed.

Lemma idle_thread now junk_setup junk answers a :
  quiet a → respects stays_idle (receiver_thread std_system now junk_setup junk answers a).
Proof.
  intros Ha. unfold receiver_thread. respects; try done. apply idle_client, unfed_on_socket. by apply quiet_no_data.
Qed.

Lemma keeps_ok_calls c : preserves (receiver_ok std_system) (λ _, True) (receiver_calls std_system c).
Proof.
  destruct c; try apply keeps_receiver_event. cbn [receiver_calls].
  apply preserves_bind; [apply keeps_ok_client|intros; apply preserves_ret].
Qed.
Lemma keeps_ok_thread now junk_setup junk answers a :
  quiet a → preserves (receiver_ok std_system) (λ _, True) (receiver_thread std_system now junk_setup junk answers a).
Proof.
  intros Ha. unfold receiver_thread. apply preserves_bind; [apply keeps_ok_client|intros _].
  destruct a as [| | | | | |[]| | | |]; try apply preserves_ret. done.
Qed.
End Idle.

Section Whole.
Context {h : Host} {L : Type} `{Libusb L}.
Variable std_system : list string → string → Z.
Implicit Types (s : system L).

Record system_inv s : Prop := {
  system_idle : idle (receiver_ s);
  system_receiver : receiver_ok std_system (receiver_ s);
  system_unconnected : is_connected_ (tcp_server_ (sender_ s)) = false;
  system_silent : sent_down s = [];
}.

#[local] Abbreviation keeps_system := (preserves system_inv (λ _, True)).

(** With nothing on the wire, a read gets nothing. *)
Lemma can_read_nothing l : can_read [] l = true → Forall receives l → Forall quiet l.
Proof.
  unfold can_read. intros [Hne%bool_decide_eq_true Hw%bool_decide_eq_true]%andb_true_iff Hl.
  rewrite take_nil in Hw. induction Hl as [|a l Ha _ IH]; [constructor|].
  destruct (reads a) as [data|] eqn:E; cbn in Hne, Hw; rewrite E in Hne, Hw.
  - apply Forall_cons in Hne as [Hne _]. by destruct data.
  - constructor; [|by apply IH]. by destruct a as [| | | | | |[]| | | |].
Qed.

Lemma keeps_on_sender m : respects mute_sender m → keeps_system (on_sender m).
Proof.
  intros Hm s [Hi Hr Hc Hs]. unfold wp, on_sender. destruct (m (sender_ s)) as [[[] x]|] eqn:E; [|done].
  destruct (Hm _ _ _ E Hc) as [Hc' Hs']. split; [done..|]. unfold sent_down in *. cbn. congruence.
Qed.
Lemma keeps_on_receiver m :
  respects stays_idle m → preserves (receiver_ok std_system) (λ _, True) m → keeps_system (on_receiver m).
Proof.
  intros Hm Hk s [Hi Hr Hc Hs]. unfold wp, on_receiver. destruct (m (receiver_ s)) as [[[] x]|] eqn:E; [|done].
  split; [by apply (Hm _ _ _ E)| |done..]. exact (wp_Ok _ _ _ _ _ _ (Hk _ Hr) E).
Qed.
Lemma keeps_system_modify f :
  (∀ s, sender_ (f s) = sender_ s ∧ receiver_ (f s) = receiver_ s) → keeps_system (modify f).
Proof.
  intros Hf. apply preserves_modify. intros s [Hi Hr Hc Hs]. destruct (Hf s) as [E1 E2].
  unfold sent_down in *. split; unfold sent_down; by rewrite ?E1, ?E2.
Qed.

Lemma keeps_system_perform a s :
  action_ok a → system_enabled s a = true → system_inv s →
  wp (system_perform std_system a) (λ _, True) (λ _, system_inv) s.
Proof.
  intros Ha He Hok. assert (down s = []) as Hd by (unfold down; by rewrite (system_silent _ Hok), drop_nil).
  revert s Hok He Hd. destruct a as [e|client n answers|c|now js junk answers a|]; intros s Hok He Hd;
    cbn [system_perform system_enabled action_ok] in *.
  - apply keeps_on_sender; [|done]. pose proof (mute_events [e] (Forall_cons_2 _ _ _ Ha (Forall_nil_2 _))) as Hm.
    intros x [] x' Hx. apply (Hm x () x'). cbn [sender_events]. by rewrite (M_bind_Ok _ _ _ _ _ Hx).
  - apply wp_bind, wp_get. revert s Hok He Hd. intros s Hok _ _. generalize (take n (up s)). intros data.
    apply (preserves_bind system_inv (λ _, True)); [by apply keeps_system_modify|intros _|done].
    by apply keeps_on_sender, mute_client_data.
  - rewrite Hd in He. pose proof (can_read_nothing _ He Ha) as Hq.
    apply (preserves_bind system_inv (λ _, True)); [by apply keeps_system_modify|intros _|done].
    apply keeps_on_receiver; [by apply idle_calls|apply keeps_ok_calls].
  - apply andb_true_iff in He as [He _]. rewrite Hd in He.
    assert (Forall quiet [a]) as [Hq _]%Forall_cons by (apply can_read_nothing; [done|by constructor]).
    apply (preserves_bind system_inv (λ _, True)); [by apply keeps_system_modify|intros _|done].
    apply keeps_on_receiver; [by apply idle_thread|by apply keeps_ok_thread].
  - by apply keeps_system_modify.
Qed.

Lemma keeps_system_actions l : Forall action_ok l → keeps_system (system_actions std_system l).
Proof.
  induction 1 as [|a l Ha _ IH]; cbn [system_actions]; [apply preserves_ret|].
  intros s Hs. apply wp_bind, wp_get, wp_bind. destruct (system_enabled s a) eqn:E; [|by apply wp_ret, IH].
  eapply wp_mono; [by apply keeps_system_perform|done|]. intros [] s1 Hs1. by apply IH.
Qed.

(** C3: Nothing is ever redirected. Take the two programs, the network between
    them, any other clients, any devices plugged into the sender, and any
    schedule, with connections made and lost: in every state they get to, the
    wire to the receiver is empty, since the sender cannot send on the socket
    it listens on; so the receiver's callbacks have been told of no device and
    no URB, it has created no virtual device, and no port is taken. *)
Theorem nothing_redirected l seq_sender seq_receiver s :
  system_actions std_system l (system_new seq_sender seq_receiver) = Ok ((), s) → Forall action_ok l →
  down s = [] ∧ Forall is_error (notices (usbip_client_ (receiver_ s))) ∧
  virtual_devices_ (receiver_ s) = [] ∧
  (∀ id d, devices (usbip (receiver_ s)) !! id = Some d → created_ d = false) ∧
  ∀ i, port_usage_ (manager (usbip (receiver_ s))) !! i ≠ Some true.
Proof.
  intros Hrun Hl. assert (system_inv s) as [[Hv [Hn _]] [Hr Hlist] _ Hs].
  { refine (wp_Ok _ _ _ _ _ _ (keeps_system_actions l Hl _ _) Hrun). split; cbn.
    - split; [done|]. by split.
    - apply UsbReceiver_new_ok.
    - done.
    - done. }
  rewrite Hv in Hlist. destruct (listed_nil_free _ (reachable_ok _ _ Hr) Hlist) as [Hports Hdevs].
  split_and!; [unfold down; by rewrite Hs, drop_nil|done..| |done]. intros id d Hd. by apply (Hdevs id d).
Qed.
End Whole.

(** ** Witness *)

(** Both programs start, the receiver connects and asks for the devices, and
    the sender reads its request; then the receiver waits for an answer. *)
Definition no_device : UsbipDeviceInfo := struct_load (h := LittleEndian) (replicate (sizeof UsbipDeviceInfo) 0).
Definition sample_schedule : list (system_action (L := ())) :=
  [SenderDoes (SenderMain.Initializes 0);
   SenderDoes (SenderMain.Starts os_ok (replicate 13 0) 0 [sample_storage] true 0 1);
   ReceiverDoes CallInitialize;
   SenderDoes (ServerActs [AcceptTest; AcceptAnswer (Accepted 6); ClientTest 0]);
   ReceiverDoes (CallStart "" 0 os_ok (λ _, true) [Sent 20] []);
   SenderReads 0 20 [Sent 400];
   ReceiverThread 0 no_setup no_device [] ReceiveTest;
   ReceiverThread 0 no_setup no_device [] (ReceiveAnswer RecvAgain)].

Definition sample_system : system () :=
  match system_actions (h := LittleEndian) system_ok sample_schedule (system_new 1 1) with
  | Ok (_, s) => s | Fault _ => system_new 1 1 end.

Lemma sample_system_run :
  system_actions (h := LittleEndian) system_ok sample_schedule (system_new 1 1) = Ok ((), sample_system).
Proof. vm_compute. reflexivity. Qed.

(** The driver is there (its configuration is one the sender understands), the
    request has been read and the answer built, but not sent. *)
Lemma nothing_redirected_witness :
  mass_storage_devices_ (sender_ sample_system) = [0%nat] ∧
  connected_ (usbip_client_ (receiver_ sample_system)) = true ∧
  length (sent_up sample_system) = 20%nat ∧ up sample_system = [] ∧ messages (sender_ sample_system) = 2 ∧
  down sample_system = [] ∧ virtual_devices_ (receiver_ sample_system) = [].
Proof.
  destruct (nothing_redirected (h := LittleEndian) system_ok sample_schedule 1 1 sample_system sample_system_run)
    as (H1 & _ & H2 & _ & _).
  - repeat (apply List.Forall_cons; [first [exact I | by repeat constructor]|]). apply List.Forall_nil.
  - repeat (split; [first [exact H1|vm_compute; reflexivity]|]). exact H2.
Defined.
