(* ===== verification/Shutdown.v ===== *)
(** * Shutdown: [Stop] of the receiver while its receive thread runs

    [UsbReceiver::Stop] ([receiver/main.cpp]) detaches and forgets the devices
    first and disconnects afterwards, so the receive thread goes on handling
    messages in between, and until it is joined.  [Receiver.Stop] is the
    whole of it at one go; here it is cut where the receive thread can come in,
    whose turns are those of [System.receiver_thread]. *)

From S2P Require Import Prelude Memory UsbTypes UsbipProtocol MessageHandler VirtualUsbDevice UsbipManager TcpSocket UsbipClient Receiver ReceiverMain ClientInvariant System.
From stdpp Require Import gmap.
Open Scope Z_scope.

Section Shutdown.
Context {h : Host}.
Variable std_system : list string → string → Z.

(** ** The steps *)

(** A turn of the receive thread, with what it meets outside. *)
Record thread_turn := {
  at_time : Z;
  setup_memory : UsbSetupPacket;
  device_memory : UsbipDeviceInfo;
  send_answers : list send_answer;
  thread_action : TcpSocket.action;
}.

Definition take_turn (t : thread_turn) : M UsbReceiver () :=
  r ← get;
  if TcpSocket.enabled (tcp_client_ (usbip_client_ r)) (thread_action t)
  then receiver_thread std_system (at_time t) (setup_memory t) (device_memory t) (send_answers t)
         (thread_action t)
  else mret ().

Fixpoint take_turns (l : list thread_turn) : M UsbReceiver () :=
  match l with
  | [] => mret ()
  | t :: l' => take_turn t;; take_turns l'
  end.

(** [Stop] up to [Disconnect]: the thread takes the turns [before] the loop
    over the devices, and [late] ones after the list is cleared. *)
Definition stop_devices_amid (before late : list thread_turn) : M UsbReceiver () :=
  modify (λ r, r {{ running_ := false }});;
  take_turns before;;
  clear_devices std_system;;
  take_turns late.

(** [Disconnect], the thread taking the turns [closing] until it is joined;
    false when it is still running after them. *)
Definition disconnect_amid (closing : list thread_turn) : M UsbReceiver bool :=
  r ← get;
  if negb (connected_ (usbip_client_ r)) then mret true
  else
    on_client StopHeartbeat;;
    on_client (on_socket Close_begin);;
    take_turns closing;;
    r ← get;
    if joined (receive_thread_ (tcp_client_ (usbip_client_ r)))
    then
      on_client (on_socket Close_end);;
      on_client (modify (λ c, c {{ connected_ := false }}));; mret true
    else mret false.

Definition stop_amid (before late closing : list thread_turn) : M UsbReceiver bool :=
  r ← get;
  if negb (running_ r) then mret true
  else
    stop_devices_amid before late;;
    closed ← disconnect_amid closing;
    if negb closed then mret false
    else on_usbip (UsbipManager_Cleanup std_system);; mret true.

(** ** What the turns keep *)

#[local] Abbreviation keeps_ok := (preserves (receiver_ok std_system) (λ _, True)).

Lemma keeps_on_data now junk_setup junk answers data :
  keeps_ok (on_data std_system now junk_setup junk answers data).
Proof.
  intros r Hr. unfold wp, on_data. destruct (ProcessReceivedData data _) as [[ms mh]|e]; [|done].
  assert (keeps_ok (on_all_messages std_system now junk_setup junk answers ms)) as Hms.
  { induction ms as [|m ms IH]; cbn [on_all_messages]; [apply preserves_ret|].
    apply preserves_bind; [apply keeps_OnMessage|done]. }
  apply Hms. by destruct r.
Qed.

Lemma keeps_take_turns l : keeps_ok (take_turns l).
Proof.
  induction l as [|t l IH]; cbn [take_turns]; [apply preserves_ret|].
  apply preserves_bind; [|done]. unfold take_turn, receiver_thread.
  apply preserves_bind; [apply preserves_get|intros r]. case_match; [|apply preserves_ret].
  apply preserves_bind; [apply keeps_ok_client|intros _].
  destruct (thread_action t) as [| | | | | |[]| | | |]; first [apply preserves_ret|apply keeps_on_data].
Qed.

Lemma keeps_stop_devices_amid before late : keeps_ok (stop_devices_amid before late).
Proof.
  unfold stop_devices_amid. apply preserves_bind; [apply keeps_ok_modify; by intros []|intros _].
  apply preserves_bind; [apply keeps_take_turns|intros _].
  apply preserves_bind; [apply keeps_clear_devices|intros _; apply keeps_take_turns].
Qed.

(** The flag is the owner's. *)
Definition same_running (r r' : UsbReceiver) : Prop := running_ r' = running_ r.
#[local] Instance same_running_preorder : PreOrder same_running.
Proof. split; [done|]. intros r1 r2 r3 E1 E2. unfold same_running in *. congruence. Qed.

Lemma same_running_client {A} (m : M UsbipClient A) : respects same_running (on_client m).
Proof. intros r a r'. unfold on_client. destruct (m _) as [[b c]|]; [|done]. by intros [= <- <-]. Qed.
Lemma same_running_usbip {A} (m : M world A) : respects same_running (on_usbip m).
Proof. intros r a r'. unfold on_usbip. destruct (m _) as [[b c]|]; [|done]. by intros [= <- <-]. Qed.

Ltac same_running :=
  respects; try apply same_running_client; try apply same_running_usbip; try done.

Lemma same_running_devices junk answers devices :
  respects same_running (OnDeviceListReceived std_system junk answers devices).
Proof.
  induction devices as [|info devices IH]; cbn [OnDeviceListReceived]; unfold ImportDeviceInternal; same_running.
Qed.
Lemma same_running_urb urb answers : respects same_running (OnUrbReceived urb answers).
Proof.
  unfold OnUrbReceived. same_running. induction a0 as [|u us IH]; cbn [on_urb_responses];
    unfold OnUrbResponse; same_running.
Qed.
Lemma same_running_notices junk answers l : respects same_running (on_notices std_system junk answers l).
Proof.
  induction l as [|n l IH]; cbn [on_notices]; same_running;
    first [apply same_running_devices | apply same_running_urb | apply respects_ret, _].
Qed.

Lemma same_running_data now junk_setup junk answers data :
  respects same_running (on_data std_system now junk_setup junk answers data).
Proof.
  intros r b r'. unfold on_data. destruct (ProcessReceivedData data _) as [[ms mh]|e]; [|done].
  assert (respects same_running (on_all_messages std_system now junk_setup junk answers ms)) as Hms.
  { induction ms as [|m ms IH]; cbn [on_all_messages]; same_running.
    intros r1 a r2. unfold OnMessage. destruct (UsbipClient.OnNetworkMessage _ _ _ _ _) as [[u c]|]; [|done].
    intros Hrun. exact (same_running_notices _ _ _ _ _ _ Hrun). }
  intros Hrun. exact (Hms _ _ _ Hrun).
Qed.

Lemma same_running_turns l : respects same_running (take_turns l).
Proof.
  induction l as [|t l IH]; cbn [take_turns]; same_running. unfold take_turn, receiver_thread. same_running.
  apply same_running_data.
Qed.

(** ** Once the connection is closing *)

(** A socket that is not connected sends nothing, and stays so. *)
Definition stays_shut (c c' : UsbipClient) : Prop := stays_offline (tcp_client_ c) (tcp_client_ c').
#[local] Instance stays_shut_preorder : PreOrder stays_shut.
Proof. split; [by intros c H|]. intros c1 c2 c3 H1 H2 H. exact (H2 (H1 H)). Qed.

Lemma shut_event e : respects stays_shut (on_event e).
Proof.
  destruct e as [error|[]| | |]; cbn [on_event];
    unfold OnNetworkConnect, OnNetworkError, StartHeartbeat, StopHeartbeat, notify; respects;
    by intros Hoff.
Qed.

Lemma shut_on_socket {A} (m : M TcpSocket A) :
  respects stays_offline m → respects stays_shut (on_socket m).
Proof.
  intros Hm c a c'. unfold on_socket, on_socket_with.
  destruct (m (tcp_client_ c)) as [[b s]|] eqn:E; [|done].
  assert (∀ evs, respects stays_shut (on_events on_event evs;; mret b)) as Hevs.
  { intros evs. respects. induction evs as [|e evs IH]; cbn [on_events]; respects; [apply shut_event|done]. }
  intros Hrun H. apply (Hevs _ _ _ _ Hrun). cbn. by apply (Hm _ _ _ E).
Qed.

Lemma offline_Send data answers t :
  is_connected_ t = false → Send data answers t = Ok (Some false, t).
Proof. intros H. unfold Send, mbind, M_bind, get. by rewrite H. Qed.

Lemma shut_send_message m answers : respects stays_shut (send_message m answers).
Proof.
  unfold send_message. respects.
  - intros c a c'. unfold UsbipClient.counted. destruct (m _) as [[b sq]|]; [|done]. intros [= <- <-] H. exact H.
  - apply shut_on_socket. apply respects_Send; [apply _|]. by intros s ev Hoff.
Qed.

Lemma shut_message now junk_setup answers message :
  respects stays_shut (UsbipClient.OnNetworkMessage now junk_setup answers message).
Proof.
  unfold UsbipClient.OnNetworkMessage, HandleDeviceListResponse, HandleUrbSubmit, UsbipClient.HandleHeartbeat, notify.
  respects; try (by intros Hoff); apply shut_send_message.
Qed.

(** An import then fails. *)
Lemma offline_import bus answers c b c' :
  is_connected_ (tcp_client_ c) = false → UsbipClient.ImportDevice bus answers c = Ok (b, c') → b = false.
Proof.
  intros Hoff. unfold UsbipClient.ImportDevice, request, send_message, mbind, M_bind, get.
  destruct (negb _); [by intros [= <- _]|].
  destruct (UsbipClient.counted _ c) as [[m c1]|] eqn:E1; [|done].
  assert (is_connected_ (tcp_client_ c1) = false) as Hoff1.
  { unfold UsbipClient.counted in E1. destruct (CreateDeviceImportRequest bus _) as [[m' sq]|]; [|done].
    by injection E1 as _ <-. }
  unfold lift. destruct (SerializeMessage m); [|done]. unfold on_socket, on_socket_with.
  rewrite offline_Send by done. rewrite drop_all. by intros [= <- _].
Qed.

Lemma shut_request m answers : respects stays_shut (request m answers).
Proof. unfold request. respects. apply shut_send_message. Qed.

(** The invariant of the closing: the list stays as it is. *)
Definition shutting (ids : list nat) (r : UsbReceiver) : Prop :=
  receiver_ok std_system r ∧ is_connected_ (tcp_client_ (usbip_client_ r)) = false ∧
  virtual_devices_ r = ids.
#[local] Abbreviation keeps_shut ids := (preserves (shutting ids) (λ _, True)).

Lemma shutting_client {A} ids (m : M UsbipClient A) : respects stays_shut m → keeps_shut ids (on_client m).
Proof.
  intros Hm r (Hok & Hoff & Hl). pose proof (keeps_ok_client std_system m r Hok) as Hk.
  unfold wp, on_client in *. destruct (m (usbip_client_ r)) as [[a c]|] eqn:E; [|done].
  split_and!; [done| |done]. exact (Hm _ _ _ E Hoff).
Qed.

Lemma shutting_import ids junk info answers bus :
  c_str (busid info) = Ok bus → keeps_shut ids (ImportDeviceInternal std_system junk info answers).
Proof.
  intros Hbus r (Hok & Hoff & Hl).
  pose proof (keeps_import std_system junk info answers bus Hbus r Hok) as Hk.
  assert (wp (ImportDeviceInternal std_system junk info answers) (λ _, True)
    (λ _ r', is_connected_ (tcp_client_ (usbip_client_ r')) = false ∧ virtual_devices_ r' = ids) r) as H.
  { apply (wp_import std_system junk info answers bus); [by apply (reachable_ok std_system), Hok|done|].
    destruct (first_free _) as [i|]; [|done]. cbv zeta. destruct (std_system _ _ =? 0); [|done].
    destruct (UsbipClient.ImportDevice bus answers (usbip_client_ r)) as [[b c]|] eqn:E; [|done].
    pose proof (offline_import _ _ _ _ _ Hoff E) as ->. split; [|done]. cbn.
    exact (shut_request _ _ _ _ _ E Hoff). }
  unfold wp in *. destruct (ImportDeviceInternal std_system junk info answers r) as [[b r']|]; [|done].
  by destruct H.
Qed.

Lemma shutting_devices ids junk answers devices :
  keeps_shut ids (OnDeviceListReceived std_system junk answers devices).
Proof.
  induction devices as [|info devices IH]; [apply preserves_ret|]. cbn [OnDeviceListReceived].
  apply preserves_bind; [by apply preserves_lift|intros _].
  intros r Hr. apply wp_bind. unfold wp at 1, lift.
  destruct (c_str (busid info)) as [bus|e] eqn:Hbus; [|done].
  apply (preserves_bind _ _ _ _); [|intros _; exact IH|done].
  case_match; [|apply preserves_ret].
  apply preserves_bind; [by eapply shutting_import|intros _; apply preserves_ret].
Qed.

Lemma shutting_urb ids urb answers : keeps_shut ids (OnUrbReceived urb answers).
Proof.
  intros r (Hok & Hoff & Hl). pose proof (keeps_OnUrbReceived std_system urb answers r Hok) as Hk.
  assert (wp (OnUrbReceived urb answers) (λ _, True) (λ _ r',
    is_connected_ (tcp_client_ (usbip_client_ r')) = false ∧ virtual_devices_ r' = ids) r) as H.
  { clear Hk Hok. unfold OnUrbReceived. apply wp_bind, wp_get.
    destruct (virtual_devices_ r) as [|id rest] eqn:Ev; [apply wp_ret; by rewrite Ev|].
    apply wp_bind. unfold wp at 1, on_usbip. destruct (on_device _ _ _) as [[urbs w]|]; [|done].
    set (r1 := r {{ usbip := w }}). assert (is_connected_ (tcp_client_ (usbip_client_ r1)) = false) as Hoff1 by done.
    assert (virtual_devices_ r1 = ids) as Hl1 by exact (eq_trans Ev Hl). clearbody r1. clear Hoff Hl Ev.
    revert r1 Hoff1 Hl1. induction urbs as [|u us IH]; intros r1 Hoff1 Hl1; cbn [on_urb_responses]; [by apply wp_ret|].
    apply wp_bind. unfold OnUrbResponse. apply wp_bind. unfold wp at 1, on_client.
    destruct (SendUrbResponse u answers (usbip_client_ r1)) as [[b c]|] eqn:E; [|done].
    apply wp_ret, IH; [|done]. exact (shut_request _ _ _ _ _ E Hoff1). }
  unfold wp in *. destruct (OnUrbReceived urb answers r) as [[b r']|]; [|done]. by destruct H.
Qed.

Lemma shutting_notices ids junk answers l : keeps_shut ids (on_notices std_system junk answers l).
Proof.
  induction l as [|n l IH]; cbn [on_notices]; [apply preserves_ret|].
  apply preserves_bind; [|done]. destruct n; [apply shutting_devices|apply shutting_urb|apply preserves_ret].
Qed.

Lemma shutting_data ids now junk_setup junk answers data :
  keeps_shut ids (on_data std_system now junk_setup junk answers data).
Proof.
  intros r Hr. unfold wp, on_data. destruct (ProcessReceivedData data _) as [[ms mh]|e]; [|done].
  assert (keeps_shut ids (on_all_messages std_system now junk_setup junk answers ms)) as Hms.
  { induction ms as [|m ms IH]; cbn [on_all_messages]; [apply preserves_ret|].
    apply preserves_bind; [|done]. clear r Hr. intros r Hr. unfold wp, OnMessage.
    destruct (UsbipClient.OnNetworkMessage now junk_setup answers m (usbip_client_ r)) as [[u c]|] eqn:E; [|done].
    apply shutting_notices. destruct Hr as (Hok & Hoff & Hl). split_and!; [by destruct r| |done].
    exact (shut_message _ _ _ _ _ _ _ E Hoff). }
  apply Hms. by destruct r, Hr as (? & ? & ?).
Qed.

Lemma shutting_turns ids l :
  Forall (λ t, receives (thread_action t)) l → keeps_shut ids (take_turns l).
Proof.
  induction 1 as [|t l Ht _ IH]; cbn [take_turns]; [apply preserves_ret|].
  apply preserves_bind; [|done]. unfold take_turn, receiver_thread.
  apply preserves_bind; [apply preserves_get|intros r]. case_match; [|apply preserves_ret].
  apply preserves_bind.
  - apply shutting_client, shut_on_socket, action_offline. intros host os E. by rewrite E in Ht.
  - intros _. destruct (thread_action t) as [| | | | | |[]| | | |]; first [apply preserves_ret|apply shutting_data].
Qed.

(** ** What [Stop] leaves *)

(** The devices of the list, and the ports. *)
Lemma receiver_ok_ports r :
  receiver_ok std_system r →
  (∀ id, id ∈ virtual_devices_ r → ∃ d i, devices (usbip r) !! id = Some d ∧ attached_ d = true ∧
     port_number_ d = Z.of_nat i ∧ port_usage_ (manager (usbip r)) !! i = Some true) ∧
  (virtual_devices_ r = [] → all_free (usbip r)).
Proof.
  intros [Hr Hl]. pose proof (reachable_ok _ _ Hr) as Hw. split.
  - intros id (d & Hd & Hc)%(listed_created _ _ Hl). pose proof (table_devices _ _ (ok_table _ Hw) id d Hd) as Hdok.
    exists d, (Z.to_nat (port_number_ d)).
    assert (owns d = Some (Z.to_nat (port_number_ d))) as Ho by (unfold owns; by rewrite Hc).
    split_and!; [done|by rewrite (listed_attached _ _ Hl id d Hd)| |].
    + by apply owns_iff in Ho as [_ ?].
    + apply (table_used _ _ (ok_table _ Hw)). eauto.
  - intros E. rewrite E in Hl. by apply listed_nil_free.
Qed.

Lemma shut_begin c u c' : on_socket Close_begin c = Ok (u, c') → is_connected_ (tcp_client_ c') = false.
Proof.
  unfold on_socket, on_socket_with.
  destruct (Close_begin (tcp_client_ c)) as [[[] s]|] eqn:E; [|done].
  assert (is_connected_ s = false) as Hs.
  { refine (wp_Ok Close_begin (λ _, True) (λ _ s, is_connected_ s = false) _ _ _ _ E).
    unfold Close_begin, emit. apply wp_bind, wp_modify, wp_bind, wp_get, wp_bind.
    case_match; [apply wp_bind, wp_modify, wp_modify|apply wp_ret]; by apply wp_bind, wp_get, wp_modify. }
  assert (∀ evs, respects stays_shut (on_events on_event evs;; mret ())) as Hevs.
  { intros evs. respects. induction evs as [|e evs IH]; cbn [on_events]; respects; [apply shut_event|done]. }
  intros Hrun. exact (Hevs _ _ _ _ Hrun Hs).
Qed.

Lemma disconnect_amid_ok closing r r' :
  Forall (λ t, receives (thread_action t)) closing → receiver_ok std_system r →
  disconnect_amid closing r = Ok (true, r') →
  receiver_ok std_system r' ∧ virtual_devices_ r' = virtual_devices_ r ∧ running_ r' = running_ r.
Proof.
  intros Hcl Hok Hrun.
  assert (running_ r' = running_ r) as Hrr.
  { assert (respects same_running (disconnect_amid closing)) as Hs
      by (unfold disconnect_amid; same_running; apply same_running_turns).
    exact (Hs _ _ _ Hrun). }
  revert Hrun. generalize true as closed. intros closed. unfold disconnect_amid, mbind at 1, M_bind at 1, get.
  destruct (negb _); [by intros [= _ <-]|].
  assert (wp (on_client StopHeartbeat;; on_client (on_socket Close_begin);; take_turns closing;;
    r ← get;
    if joined (receive_thread_ (tcp_client_ (usbip_client_ r)))
    then on_client (on_socket Close_end);; on_client (modify (λ c, c {{ connected_ := false }}));; mret true
    else mret false) (λ _, True) (λ _, shutting (virtual_devices_ r)) r) as H.
  { apply wp_bind. unfold wp at 1, on_client at 1. destruct (StopHeartbeat _) as [[u c]|]; [|done].
    apply wp_bind. unfold wp at 1. set (r1 := r {{ usbip_client_ := c }}).
    pose proof (keeps_ok_client std_system (on_socket Close_begin) r1) as Hk. unfold wp, on_client in Hk. unfold on_client at 1.
    destruct (on_socket Close_begin (usbip_client_ r1)) as [[v c1]|] eqn:E; [|done].
    apply shut_begin in E.
    assert (shutting (virtual_devices_ r) (r1 {{ usbip_client_ := c1 }})) as Hs.
    { split_and!; [apply Hk; by destruct r|done|done]. }
    revert Hs. generalize (r1 {{ usbip_client_ := c1 }}). intros r2 Hs. clear Hk E.
    change (wp (take_turns closing;; r0 ← get;
      if joined (receive_thread_ (tcp_client_ (usbip_client_ r0)))
      then on_client (on_socket Close_end);; on_client (modify (λ c0, c0 {{ connected_ := false }}));; mret true
      else mret false) (λ _, True) (λ _, shutting (virtual_devices_ r)) r2).
    revert r2 Hs. apply preserves_bind; [by apply shutting_turns|intros _].
    apply preserves_bind; [apply preserves_get|intros r3]. case_match; [|apply preserves_ret].
    apply preserves_bind; [apply shutting_client, shut_on_socket; by apply (action_offline DoCloseEnd)|intros _].
    apply preserves_bind; [apply shutting_client|intros _; apply preserves_ret].
    apply respects_modify. intros c0 Hoff. exact Hoff. }
  intros Hrun. destruct (wp_Ok _ _ _ _ _ _ H Hrun) as (H1 & _ & H3). by split_and!.
Qed.

Lemma stop_devices_amid_running before late r r1 :
  stop_devices_amid before late r = Ok ((), r1) → running_ r1 = false.
Proof.
  unfold stop_devices_amid. unfold modify at 1. unfold mbind at 1, M_bind at 1. intros Hrun.
  assert (respects same_running (take_turns before;; clear_devices std_system;; take_turns late)) as Hs.
  { unfold clear_devices. same_running; apply same_running_turns. }
  pose proof (Hs _ _ _ Hrun) as E. unfold same_running in E. rewrite E. by destruct r.
Qed.

Lemma stop_devices_amid_empty before r r1 :
  stop_devices_amid before [] r = Ok ((), r1) → virtual_devices_ r1 = [].
Proof.
  unfold stop_devices_amid, clear_devices. intros Hrun.
  refine (wp_Ok _ (λ _, True) (λ _ r1, virtual_devices_ r1 = []) _ _ _ _ Hrun).
  apply wp_bind, wp_modify, wp_bind. eapply wp_mono; [apply wp_any|done|]. intros [] r2 _.
  apply wp_bind, wp_bind, wp_get, wp_bind. eapply wp_mono; [apply wp_any|done|]. intros [] r3 _.
  apply wp_bind. eapply wp_mono; [apply wp_any|done|]. intros [] r4 _.
  apply wp_modify. by apply wp_ret.
Qed.

End Shutdown.

(** ** Witness *)

(** While [Stop] is between the list and the connection, the list of a device
    arrives. *)
Definition at_turn (answers : list send_answer) (a : TcpSocket.action) : thread_turn := {|
  at_time := 0; setup_memory := no_setup; device_memory := no_device;
  send_answers := answers; thread_action := a |}.
Definition late_list : list thread_turn :=
  [at_turn [] ReceiveTest; at_turn [Sent 23] (ReceiveAnswer (Received (packet_bytes list_message)))].

