(* ===== verification/Tests.v ===== *)
(** * Tests: the test programs

    [tests/test_protocol.cpp] and [tests/test_network.cpp] on the model of the
    code they test: which of their assertions hold, and for which machines and
    which behaviours of the network.  What they print and their pauses are left
    out. *)

From S2P Require Import Prelude Memory UsbTypes UsbipProtocol MessageHandler TcpSocket Channel UrbCapture UsbipClient Sender Lifetimes.
Open Scope Z_scope.

(** [Waiting]: a call that has not returned. *)
Inductive verdict := Passed | Aborted | Waiting.
#[export] Instance verdict_eq_dec : EqDecision verdict.
Proof. solve_decision. Defined.

(** The sockets of a test and its server's message handler. *)
Record bench := {
  test_server : TcpSocket;
  test_client : TcpSocket;
  test_handler : MessageHandler;
  sequence_counter : Z;
}.
Definition bench_new (seq : Z) : bench := {|
  test_server := TcpSocket_init; test_client := TcpSocket_init; test_handler := MessageHandler_init;
  sequence_counter := seq |}.

Section Tests.
Context {h : Host}.

(** A build with [NDEBUG] evaluates no assertion. *)
Variable ndebug : bool.

Definition assert {S} (m : M S bool) (k : M S verdict) : M S verdict :=
  if ndebug then k else ok ← m; if ok : bool then k else mret Aborted.
Definition holds {S} (P : Prop) `{!Decision P} : M S bool := mret (bool_decide P).

Definition at_server {A} (m : M TcpSocket A) : M bench A := λ b,
  match m (test_server b) with Ok (a, s) => Ok (a, b {{ test_server := s }}) | Fault e => Fault e end.
Definition at_client {A} (m : M TcpSocket A) : M bench A := λ b,
  match m (test_client b) with Ok (a, s) => Ok (a, b {{ test_client := s }}) | Fault e => Fault e end.
Definition at_handler {A} (m : M MessageHandler A) : M bench A := λ b,
  match m (test_handler b) with Ok (a, s) => Ok (a, b {{ test_handler := s }}) | Fault e => Fault e end.
Definition numbered {A} (m : M Z A) : M bench A := λ b,
  match m (sequence_counter b) with Ok (a, s) => Ok (a, b {{ sequence_counter := s }}) | Fault e => Fault e end.

(** ** test_protocol.cpp *)

Definition zeroed_device : UsbipDeviceInfo := struct_load (replicate (sizeof UsbipDeviceInfo) 0).
Definition test_device : UsbipDeviceInfo := zeroed_device {{
  path := string_bytes "/dev/bus/usb/001/002" ++ replicate 236 0;
  busid := string_bytes "1-2" ++ replicate 29 0;
  busnum := 1; devnum := 2; UsbipProtocol.speed := UsbSpeed_val HIGH; idVendor := 0x1234; idProduct := 0x5678;
  bDeviceClass := UsbDeviceClass_val MASS_STORAGE }}.

Definition zeroed_command : UsbipCmdSubmit := struct_load (replicate (sizeof UsbipCmdSubmit) 0).
Definition test_command : UsbipCmdSubmit := zeroed_command {{
  cmd_header := {| command := UsbipOpCode_val USBIP_CMD_SUBMIT; seqnum := 1; devid := 0;
                   direction := UsbDirection_val OUT; ep := 0 |};
  transfer_buffer_length := 8 }}.
Definition test_header : UsbipHeader :=
  {| command := 0x12345678; seqnum := 0x87654321; devid := 0; direction := 0; ep := 0 |}.

Definition TestUsbipProtocol : M () verdict :=
  serialized ← lift (SerializeDeviceList [test_device]);
  assert (holds (serialized ≠ []))
  (cmd_serialized ← lift (SerializeCmdSubmit test_command (Some [1; 2; 3; 4; 5; 6; 7; 8]) 8);
   assert (holds (cmd_serialized ≠ []))
   (let header := HostToNetwork_Header test_header in
    assert (holds (command header ≠ 0x12345678))
    (let header := NetworkToHost_Header header in
     assert (holds (command header = 0x12345678))
     (mret Passed)))).

Definition TestUsbTypes : M () verdict :=
  let desc : UsbDeviceDescriptor := (struct_load (replicate (sizeof UsbDeviceDescriptor) 0)) {{
    dd_bLength := 18; dd_bDescriptorType := UsbDescriptorType_val DEVICE;
    dd_idVendor := 0x1234; dd_idProduct := 0x5678; dd_bDeviceClass := UsbDeviceClass_val MASS_STORAGE }} in
  let urb := {|
    urb_id := 123; urb_type := BULK; urb_direction := IN; urb_endpoint := 0x81; urb_flags := 0;
    urb_data := [0xAA; 0xBB; 0xCC; 0xDD];
    urb_setup := {| bmRequestType := 0; bRequest := 0; wValue := 0; wIndex := 0; wLength := 0 |};
    urb_status := 0; urb_actual_length := 4; urb_timestamp := 0 |} in
  assert (holds (dd_bLength desc = 18))
  (assert (holds (dd_idVendor desc = 0x1234))
  (assert (holds (urb_id urb = 123))
  (assert (holds (length (urb_data urb) = 4%nat))
  (assert (first ← lift (vec_at (urb_data urb) 0); holds (first = 0xAA))
   (mret Passed))))).

(** [test_protocol]'s [main]. *)
Definition test_protocol : M () verdict :=
  v ← TestUsbipProtocol;
  if bool_decide (v = Passed) then TestUsbTypes else mret v.

(** ** test_network.cpp *)

Definition test_data : list Z := [1; 2; 3; 4; 5].

(** [Close] of a socket, or its destructor, with what its threads do. *)
Definition closing (m : M bench bool) (k : M bench verdict) : M bench verdict :=
  closed ← m; if closed : bool then k else mret Waiting.

(** The two ends close, and then are destroyed, the last declared first.
    [ends] is what the server's threads do while it closes. *)
Definition tear_down (client_ends ends : list TcpSocket.action) : M bench verdict :=
  closing (at_client (TcpSocket_destructor client_ends))
  (closing (at_server (TcpSocket_destructor ends))
  (closing (at_client (TcpSocket_destructor []))
  (closing (at_server (TcpSocket_destructor []))
   (mret Passed)))).

(** What the data callback has been called with; [threads] is what the server's
    threads do until the test has waited long enough. *)
Definition TestTcpSocket (server_os client_os : os_answers) (answers : list send_answer)
    (threads client_ends ends : list TcpSocket.action) : M bench verdict :=
  modify (λ b, b {{ test_server := SetDataCallback (test_server b) }});;
  assert (at_server (Listen "127.0.0.1" server_os))
  (modify (λ b, b {{ test_client := SetDataCallback (test_client b) }});;
   assert (at_client (TcpSocket.Connect "127.0.0.1" client_os))
   (assert (sent ← at_client (Send test_data answers); holds (sent = Some true))
    (at_server (server_actions threads);;
     b ← get;
     let received := data_of (TcpSocket.events (test_server b)) in
     assert (holds (received ≠ []))
     (assert (holds (last received = Some test_data))
      (tear_down client_ends ends))))).

Definition TestMessageHandler : M bench verdict :=
  modify (λ b, b {{ test_handler := SetMessageCallback (test_handler b) }});;
  message ← numbered (NetworkMessage_new HEARTBEAT [0xAA; 0xBB; 0xCC; 0xDD]);
  serialized ← lift (SerializeMessage message);
  assert (holds (serialized ≠ []))
  (received ← at_handler (ProcessReceivedData serialized);
   assert (holds (received ≠ []))
   (assert (holds ((λ m, type (header m)) <$> last received = Some (MessageType_val HEARTBEAT)))
   (assert (holds (payload <$> last received = Some [0xAA; 0xBB; 0xCC; 0xDD]))
    (mret Passed)))).

Definition TestMessageTypes : M bench verdict :=
  device_list_req ← numbered CreateDeviceListRequest;
  assert (holds (type (header device_list_req) = MessageType_val DEVICE_LIST_REQUEST))
  (assert (holds (payload device_list_req = []))
  (import_req ← numbered (CreateDeviceImportRequest (string_bytes "1-2"));
   assert (holds (type (header import_req) = MessageType_val DEVICE_IMPORT_REQUEST))
   (assert (holds (length (payload import_req) = String.length "1-2"))
   (import_resp ← numbered (CreateDeviceImportResponse true "");
    assert (holds (type (header import_resp) = MessageType_val DEVICE_IMPORT_RESPONSE))
    (assert (holds (payload import_resp ≠ []))
    (assert (first ← lift (vec_at (payload import_resp) 0); holds (first = 1))
    (heartbeat ← numbered CreateHeartbeat;
     assert (holds (type (header heartbeat) = MessageType_val HEARTBEAT))
     (assert (holds (payload heartbeat = []))
      (mret Passed))))))))).

(** The server's data callback is its handler's [ProcessReceivedData]. *)
Definition TestNetworkIntegration (server_os client_os : os_answers) (answers : list send_answer)
    (threads client_ends ends : list TcpSocket.action) : M bench verdict :=
  modify (λ b, b {{ test_handler := SetMessageCallback (test_handler b);
                    test_server := SetDataCallback (test_server b) }});;
  assert (at_server (Listen "127.0.0.1" server_os))
  (assert (at_client (TcpSocket.Connect "127.0.0.1" client_os))
   (heartbeat ← numbered CreateHeartbeat;
    serialized ← lift (SerializeMessage heartbeat);
    assert (sent ← at_client (Send serialized answers); holds (sent = Some true))
    (at_server (server_actions threads);;
     b ← get;
     received ← at_handler (ProcessChunks (data_of (TcpSocket.events (test_server b))));
     assert (holds (received ≠ []))
     (assert (holds ((λ m, type (header m)) <$> last received = Some (MessageType_val HEARTBEAT)))
      (tear_down client_ends ends))))).
End Tests.

(** ** Properties *)

(** The server's threads, when the client's bytes come in [chunks]. *)
Definition arriving (chunks : list (list Z)) : list TcpSocket.action :=
  [AcceptTest; AcceptAnswer (Accepted 6)] ++
  concat (map (λ c, [ClientTest 0; ClientAnswer 0 (Received c)]) chunks).

(** The server listening, one client connected. *)
Definition serving (evs : list event) : TcpSocket := {|
  socket_fd_ := 5; is_connected_ := false; is_listening_ := true; TcpSocket.should_stop_ := false;
  receive_thread_ := None; accept_thread_ := Some AtTest; client_fds_ := [6];
  client_threads := [(6, AtTest)]; TcpSocket.data_callback_ := true;
  error_callback_ := false; connect_callback_ := false; TcpSocket.events := evs |}.
Definition listening : TcpSocket := (serving []) {{ client_fds_ := []; client_threads := [] }}.
Definition connected (evs : list event) (callback : bool) : TcpSocket := {|
  socket_fd_ := 5; is_connected_ := true; is_listening_ := false; TcpSocket.should_stop_ := false;
  receive_thread_ := Some AtTest; accept_thread_ := None; client_fds_ := []; client_threads := [];
  TcpSocket.data_callback_ := callback; error_callback_ := false; connect_callback_ := false; TcpSocket.events := evs |}.

Lemma arriving_chunks chunks evs :
  server_actions (concat (map (λ c, [ClientTest 0; ClientAnswer 0 (Received c)]) chunks)) (serving evs)
  = Ok ((), serving (evs ++ map EvData chunks)).
Proof.
  revert evs. induction chunks as [|c chunks IH]; intros evs; [by cbn; rewrite app_nil_r|].
  transitivity (server_actions (concat (map (λ c, [ClientTest 0; ClientAnswer 0 (Received c)]) chunks))
    (serving (evs ++ [EvData c]))); [reflexivity|]. rewrite IH. cbn [map]. by rewrite <- app_assoc.
Qed.
Lemma arriving_run chunks :
  server_actions (arriving chunks) listening = Ok ((), serving (map EvData chunks)).
Proof. apply (arriving_chunks chunks []). Qed.
Lemma data_of_chunks chunks : data_of (map EvData chunks) = chunks.
Proof. induction chunks as [|c chunks IH]; [done|]. cbn. by f_equal. Qed.

(** Non-empty chunks of some data: the last is all of it only if it is the only
    one. *)
Lemma last_chunk (chunks : list (list Z)) data :
  Forall (λ c, c ≠ []) chunks → concat chunks = data → data ≠ [] →
  last chunks = Some data ↔ chunks = [data].
Proof.
  intros Hne Hc Hd. split; [|by intros ->]. intros Hl. apply last_Some in Hl as [l ->].
  rewrite concat_app in Hc. cbn in Hc. rewrite app_nil_r in Hc.
  apply (f_equal length) in Hc. rewrite length_app in Hc. destruct l as [|c l]; [done|].
  apply Forall_cons in Hne as [Hne _]. cbn in Hc. rewrite length_app in Hc. destruct c; [done|]. cbn in Hc. lia.
Qed.

(** With the system calls successful. *)
Lemma tcp_verdict chunks b0 seq :
  b0 = bench_new seq → Forall (λ c, c ≠ []) chunks → concat chunks = test_data →
  ∃ b, TestTcpSocket false os_ok os_ok [Sent 5] (arriving chunks) [ReceiveTest] [AcceptTest] b0
       = Ok (if decide (chunks = [test_data]) then Passed else Aborted, b).
Proof.
  intros -> Hne Hc. destruct (decide (chunks = [test_data])) as [->|Hn].
  { eexists. vm_compute. reflexivity. }
  assert (chunks ≠ []) as Hnil by by intros ->.
  assert (last chunks ≠ Some test_data) as Hl by (intros Hl; apply Hn; by apply last_chunk in Hl).
  eexists.
  transitivity ((at_server (server_actions (arriving chunks));;
     b ← get;
     let received := data_of (TcpSocket.events (test_server b)) in
     assert false (holds (received ≠ []))
     (assert false (holds (last received = Some test_data))
      (tear_down [ReceiveTest] [AcceptTest])))
     {| test_server := listening; test_client := connected [EvSend test_data] true;
        test_handler := MessageHandler_init; sequence_counter := seq |}); [reflexivity|].
  unfold at_server, mbind, M_bind. cbn [test_server]. rewrite arriving_run. cbn. unfold mbind, M_bind, get. cbn.
  rewrite data_of_chunks. unfold assert, holds, mbind, M_bind, mret, M_ret.
  rewrite bool_decide_true by done. by rewrite bool_decide_false.
Qed.

(** The end of a test: both sockets close, the client's receive thread and the
    server's accept thread having seen the flag. *)
Lemma tear_down_run evs_s evs_c callback mh seq :
  ∃ b, tear_down [ReceiveTest] [AcceptTest]
         {| test_server := serving evs_s; test_client := connected evs_c callback; test_handler := mh;
            sequence_counter := seq |} = Ok (Passed, b).
Proof. eexists. cbn. reflexivity. Qed.

Definition test_heartbeat (seq : Z) : NetworkMessage := with_checksum (new_message HEARTBEAT [] seq).

Lemma test_heartbeat_ok seq : is_u32 seq → packet_ok (test_heartbeat seq).
Proof. intros Hs. apply packet_ok_with_checksum, new_message_ok; [done|constructor|by vm_compute]. Qed.

Lemma integration_verdict {h : Host} chunks seq :
  is_u32 seq → concat chunks = packet_bytes (test_heartbeat seq) →
  ∃ b, TestNetworkIntegration false os_ok os_ok [Sent 20] (arriving chunks) [ReceiveTest] [AcceptTest] (bench_new seq)
       = Ok (Passed, b).
Proof.
  intros Hs Hc. pose proof (test_heartbeat_ok seq Hs) as Hok.
  assert (length (packet_bytes (test_heartbeat seq)) = 20%nat) as Hl by by rewrite length_packet_bytes.
  destruct (tear_down_run (map EvData chunks) [EvSend (packet_bytes (test_heartbeat seq))] false
    (Build_MessageHandler [] true) (u32 (seq + 1))) as [b Hb]. exists b.
  transitivity ((serialized ← lift (SerializeMessage (new_message HEARTBEAT [] seq));
    assert false (sent ← at_client (Send serialized [Sent 20]); holds (sent = Some true))
    (at_server (server_actions (arriving chunks));;
     b ← get;
     received ← at_handler (ProcessChunks (data_of (TcpSocket.events (test_server b))));
     assert false (holds (received ≠ []))
     (assert false (holds ((λ m, type (header m)) <$> last received = Some (MessageType_val HEARTBEAT)))
      (tear_down [ReceiveTest] [AcceptTest]))))
     {| test_server := listening; test_client := connected [] false;
        test_handler := SetMessageCallback MessageHandler_init; sequence_counter := u32 (seq + 1) |}); [reflexivity|].
  destruct (new_message_ok HEARTBEAT [] seq) as [Hwf _]; [done|constructor|by vm_compute|].
  unfold mbind at 1, M_bind at 1, lift. rewrite SerializeMessage_bytes by done.
  fold (test_heartbeat seq). unfold assert at 1, mbind at 1, M_bind at 1, at_client at 1.
  unfold mbind at 1, M_bind at 1. cbn [test_client].
  rewrite (send_whole (connected [] false) (packet_bytes (test_heartbeat seq)) 20) by (done || lia).
  unfold holds at 1, mret at 1, M_ret at 1. rewrite bool_decide_true by done.
  unfold mbind at 1, M_bind at 1, at_server at 1.
  match goal with |- context [server_actions (arriving chunks) ?x] => change x with listening end.
  rewrite arriving_run. unfold mbind at 1, M_bind at 1, get at 1.
  match goal with |- context [data_of ?x] => change x with (map EvData chunks) end.
  rewrite data_of_chunks. unfold mbind at 1, M_bind at 1, at_handler at 1.
  match goal with |- context [ProcessChunks chunks ?x] =>
    change x with (Build_MessageHandler [] true) end.
  rewrite (ProcessChunks_stream true chunks [] [test_heartbeat seq]).
  2: { by constructor. }
  2: { split; [cbn; by rewrite Hc, app_nil_r|]. exists (packet_bytes (test_heartbeat seq)).
       split; [|done]. intros E. by rewrite E in Hl. }
  change (deliveries true [test_heartbeat seq]) with [test_heartbeat seq].
  unfold assert, holds, mbind, M_bind, mret, M_ret. rewrite !bool_decide_true by done.
  exact Hb.
Qed.

Lemma handler_verdict {h : Host} seq :
  is_u32 seq → ∃ b, TestMessageHandler false (bench_new seq) = Ok (Passed, b).
Proof.
  intros Hs. set (m := new_message HEARTBEAT [0xAA; 0xBB; 0xCC; 0xDD] seq).
  assert (packet_ok m) as Hm by (apply new_message_ok; [done|by apply bytes_ok_compute|by vm_compute]).
  pose proof (packet_ok_with_checksum m Hm) as Hok.
  assert (packet_bytes (with_checksum m) ≠ []) as Hne.
  { intros E. apply (f_equal length) in E. by rewrite length_packet_bytes in E. }
  pose proof (whole_messages [with_checksum m]) as Hrun. cbn [map concat] in Hrun. rewrite app_nil_r in Hrun.
  eexists. unfold TestMessageHandler, numbered, lift, assert, at_handler, holds, mbind, M_bind, modify, mret, M_ret.
  rewrite NetworkMessage_new_run. fold m. change (sequence_counter _) with seq.
  rewrite SerializeMessage_bytes by apply Hm. rewrite bool_decide_true by done. cbv beta iota.
  match goal with |- context [ProcessReceivedData _ ?x] => change x with (Build_MessageHandler [] true) end.
  fold m. rewrite Hrun; [reflexivity|]. constructor; [by apply sealed_with_checksum|done].
Qed.

(** [test_protocol] depends on the machine's byte order. *)
Lemma protocol_verdict {h : Host} :
  test_protocol false () = Ok (if decide (host_order = LittleEndian) then Passed else Aborted, ()).
Proof. destruct h; vm_compute; reflexivity. Qed.

(** Without assertions nothing is connected and nothing tested. *)
Lemma unused_socket s threads :
  receive_thread_ s = None → accept_thread_ s = None → client_threads s = [] →
  Forall thread_action threads → server_actions threads s = Ok ((), s).
Proof.
  intros Hr Ha Hc. induction 1 as [|a threads Hth _ IH]; [done|]. cbn [server_actions].
  unfold mbind, M_bind, get. replace (TcpSocket.enabled s a) with false; [exact IH|].
  by destruct a; cbn; rewrite ?Hr, ?Ha, ?Hc.
Qed.

Lemma release_verdict {h : Host} server_os client_os answers threads seq :
  Forall thread_action threads →
  (∃ b, TestTcpSocket true server_os client_os answers threads [] [] (bench_new seq) = Ok (Passed, b)) ∧
  (is_u32 seq →
   ∃ b, TestNetworkIntegration true server_os client_os answers threads [] [] (bench_new seq) = Ok (Passed, b)).
Proof.
  intros Hth. split.
  - eexists. unfold TestTcpSocket, assert, at_server at 1, mbind at 1, M_bind at 1, modify at 1.
    unfold mbind at 1, M_bind at 1, modify at 1. unfold mbind at 1, M_bind at 1.
    cbn [test_server bench_new]. rewrite unused_socket by done. reflexivity.
  - intros Hs. destruct (new_message_ok HEARTBEAT [] seq) as [Hwf _]; [done|constructor|by vm_compute|].
    eexists. unfold TestNetworkIntegration, assert. unfold mbind at 1, M_bind at 1, modify at 1.
    unfold mbind at 1, M_bind at 1, numbered at 1.
    change (CreateHeartbeat _) with (Ok (new_message HEARTBEAT [] seq, u32 (seq + 1))).
    unfold mbind at 1, M_bind at 1, lift at 1. rewrite SerializeMessage_bytes by done.
    unfold mbind at 1, M_bind at 1, at_server at 1. cbn [test_server bench_new].
    rewrite unused_socket by done. reflexivity.
Qed.

Lemma types_verdict b :
  TestMessageTypes false b
  = Ok (Passed, b {{ sequence_counter := u32 (u32 (u32 (u32 (sequence_counter b + 1) + 1) + 1) + 1) }}).
Proof.
  destruct b. unfold TestMessageTypes, numbered, CreateDeviceListRequest, CreateDeviceImportRequest,
    CreateDeviceImportResponse, CreateHeartbeat, assert, holds, lift, mbind, M_bind, mret, M_ret.
  cbn [sequence_counter]. rewrite !NetworkMessage_new_run. reflexivity.
Qed.

Section Verdicts.
Context {h : Host}.

(** What the test programs establish. In a build with assertions, with
    working system calls, the message handler's tests and the integration test
    pass, whatever the chunks the heartbeat arrives in; the socket test passes
    exactly if its five bytes arrive in one chunk, since its callback keeps
    only the last one; and the protocol test passes exactly on a little-endian
    machine. In a release build, where [assert] evaluates nothing, both socket
    tests pass without ever connecting, whatever the system calls would have
    answered. *)
Theorem test_verdicts seq :
  is_u32 seq →
  test_protocol false () = Ok (if decide (host_order = LittleEndian) then Passed else Aborted, ()) ∧
  (∀ chunks, Forall (λ c, c ≠ []) chunks → concat chunks = test_data →
     ∃ b, TestTcpSocket false os_ok os_ok [Sent 5] (arriving chunks) [ReceiveTest] [AcceptTest] (bench_new seq)
          = Ok (if decide (chunks = [test_data]) then Passed else Aborted, b)) ∧
  (∃ b, TestMessageHandler false (bench_new seq) = Ok (Passed, b)) ∧
  (∃ b, TestMessageTypes false (bench_new seq) = Ok (Passed, b)) ∧
  (∀ chunks, concat chunks = packet_bytes (test_heartbeat seq) →
     ∃ b, TestNetworkIntegration false os_ok os_ok [Sent 20] (arriving chunks) [ReceiveTest] [AcceptTest] (bench_new seq)
          = Ok (Passed, b)) ∧
  ∀ server_os client_os answers threads, Forall thread_action threads →
    (∃ b, TestTcpSocket true server_os client_os answers threads [] [] (bench_new seq) = Ok (Passed, b)) ∧
    (∃ b, TestNetworkIntegration true server_os client_os answers threads [] [] (bench_new seq) = Ok (Passed, b)).
Proof.
  intros Hs. split_and!.
  - apply protocol_verdict.
  - intros chunks Hne Hc. by apply (tcp_verdict chunks (bench_new seq) seq).
  - by apply handler_verdict.
  - eexists. apply types_verdict.
  - intros chunks Hc. by apply integration_verdict.
  - intros server_os client_os answers threads Hth.
    destruct (release_verdict server_os client_os answers threads seq Hth) as [H1 H2]. split; [done|by apply H2].
Qed.
End Verdicts.

(** ** Witness *)

(** A network that splits the bytes fails the socket test. *)
Lemma test_verdicts_witness :
  ∃ b, TestTcpSocket false os_ok os_ok [Sent 5] (arriving [[1; 2]; [3; 4; 5]]) [ReceiveTest] [AcceptTest] (bench_new 7)
       = Ok (Aborted, b).
Proof.
  assert (is_u32 7) as Hs by by vm_compute.
  destruct (test_verdicts (h := LittleEndian) 7 Hs) as (_ & Htcp & _).
  apply (Htcp [[1; 2]; [3; 4; 5]]); [|reflexivity].
  repeat (apply List.Forall_cons; [discriminate|]). apply List.Forall_nil.
Defined.
